(** * Hybrid step-resolution engine of the QA runner: a shallow embedding

    The development follows the hybrid runner script (deterministic, learned
    and AI tiers, with its knowledge base), the CI variant of that runner and
    the [execute_flow] tool.

    Conventions of the embedding:
    - a JavaScript string is a [string]; an optional field is an [option];
    - a JavaScript number that carries a confidence or a cost is an exact
      rational ([Qc]) and a literal such as [0.7] is that rational. The
      runners compute on binary64 numbers, where a literal is the nearest
      binary64 number and every sum or difference is rounded; the statements
      below keep to what holds under either reading: comparisons with a
      literal, bounds, the direction of a change, equality of two results
      up to [rounding_margin], and sums written as repeated additions;
    - a JavaScript [Map] is an association list in insertion order without
      repeated keys (iteration order matters for the learned-tier scan);
    - a plain object used as a string-keyed dictionary is a [gmap string _]
      of its own properties; the members it inherits from
      [Object.prototype] are the table [object_prototype], which [in] and
      a property read consult after the own properties;
    - everything outside the process (browser page, clock, file system of the
      screenshots, AI service) is one abstract environment threaded through
      the calls; a call that can throw returns a sum whose left side is the
      message of the error; clock readings that no call to the outside
      separates are equal. *)

From Stdlib Require Import QArith Qcanon Lqa Ascii.
From stdpp Require Import base strings gmap list numbers pretty sorting.

Open Scope string_scope.

(** ** JavaScript numbers and strings *)

Definition hundredths (n : Z) : Qc := Q2Qc (n # 100).
Definition thousandths (n : Z) : Qc := Q2Qc (n # 1000).

(** [Math.min] and [Math.max] on numbers that are not NaN. *)
Definition Math_min (a b : Qc) : Qc := if decide (a < b)%Qc then a else b.
Definition Math_max (a b : Qc) : Qc := if decide (a < b)%Qc then b else a.

(** The distance below which two numbers are taken to be the same result up
    to rounding: one part in 10^12. A sum or a difference of two binary64
    numbers between -1 and 2 is within 2^-53 of the exact one. *)
Definition rounding_margin : Qc := Q2Qc (1 # 1000000000000).

Definition near (a b : Qc) : Prop :=
  (a - b <= rounding_margin)%Qc /\ (b - a <= rounding_margin)%Qc.

Ltac qc_arith :=
  unfold rounding_margin, Qcle, Qclt, Qcminus, Qcplus, Qcopp, hundredths, thousandths in *;
  cbn [this Q2Qc] in *;
  repeat match goal with
         | H : context [Qred _] |- _ => rewrite Qred_correct in H
         | |- context [Qred _] => rewrite Qred_correct
         end; lra.

(** The double quote character, for selectors that contain one. *)
Definition dquote : Ascii.ascii := "034"%char.
Definition squote : Ascii.ascii := "039"%char.

(** [a || b] where [a] is a string or [undefined]: the empty string and
    [undefined] are both falsy. *)
Definition truthy (s : option string) : bool :=
  match s with
  | Some s => negb (bool_decide (s = ""))
  | None => false
  end.

Definition js_or (a : option string) (b : string) : string :=
  match a with
  | Some s => if bool_decide (s = "") then b else s
  | None => b
  end.

Definition js_or_opt (a b : option string) : option string :=
  if truthy a then a else b.

(** The characters of a text. *)
Fixpoint chars (s : string) : list Ascii.ascii :=
  match s with
  | EmptyString => []
  | String c s' => c :: chars s'
  end.

(** ** The MD5 digest

    The digest of [node:crypto] on the bytes of a text, with 32-bit words
    held in [Z] and the wrap-around written out. *)

Module MD5.
Open Scope Z_scope.

Definition w32 (x : Z) : Z := x mod 2 ^ 32.

Definition rotl (x c : Z) : Z := w32 (Z.lor (Z.shiftl x c) (Z.shiftr x (32 - c))).

Definition not32 (x : Z) : Z := Z.lxor x (2 ^ 32 - 1).

Definition K : list Z :=
  [3614090360; 3905402710; 606105819; 3250441966; 4118548399; 1200080426;
   2821735955; 4249261313; 1770035416; 2336552879; 4294925233; 2304563134;
   1804603682; 4254626195; 2792965006; 1236535329; 4129170786; 3225465664;
   643717713; 3921069994; 3593408605; 38016083; 3634488961; 3889429448;
   568446438; 3275163606; 4107603335; 1163531501; 2850285829; 4243563512;
   1735328473; 2368359562; 4294588738; 2272392833; 1839030562; 4259657740;
   2763975236; 1272893353; 4139469664; 3200236656; 681279174; 3936430074;
   3572445317; 76029189; 3654602809; 3873151461; 530742520; 3299628645;
   4096336452; 1126891415; 2878612391; 4237533241; 1700485571; 2399980690;
   4293915773; 2240044497; 1873313359; 4264355552; 2734768916; 1309151649;
   4149444226; 3174756917; 718787259; 3951481745].

Definition shifts : list Z :=
  [7; 12; 17; 22; 7; 12; 17; 22; 7; 12; 17; 22; 7; 12; 17; 22;
   5; 9; 14; 20; 5; 9; 14; 20; 5; 9; 14; 20; 5; 9; 14; 20;
   4; 11; 16; 23; 4; 11; 16; 23; 4; 11; 16; 23; 4; 11; 16; 23;
   6; 10; 15; 21; 6; 10; 15; 21; 6; 10; 15; 21; 6; 10; 15; 21].

Definition bytes_of (s : string) : list Z := map (fun c => Z.of_N (N_of_ascii c)) (chars s).

(** The [n] low bytes of [x], least significant first. *)
Fixpoint le_bytes (n : nat) (x : Z) : list Z :=
  match n with
  | O => []
  | S n' => x mod 256 :: le_bytes n' (x / 256)
  end.

Definition pad (msg : list Z) : list Z :=
  let len := Z.of_nat (length msg) in
  (msg ++ [128] ++ replicate (Z.to_nat ((55 - len) mod 64)) 0 ++ le_bytes 8 (8 * len))%list.

(** The bytes as 32-bit words, least significant byte first. *)
Fixpoint words (bs : list Z) : list Z :=
  match bs with
  | a :: b :: c :: d :: rest => (a + 256 * (b + 256 * (c + 256 * d))) :: words rest
  | _ => []
  end.

Definition State : Type := Z * Z * Z * Z.

Definition step (m : list Z) (st : State) (i : nat) : State :=
  let '(a, b, c, d) := st in
  let '(f, g) :=
    if (i <? 16)%nat then (Z.lor (Z.land b c) (Z.land (not32 b) d), i)
    else if (i <? 32)%nat then (Z.lor (Z.land d b) (Z.land (not32 d) c), ((5 * i + 1) mod 16)%nat)
    else if (i <? 48)%nat then (Z.lxor b (Z.lxor c d), ((3 * i + 5) mod 16)%nat)
    else (Z.lxor c (Z.lor b (not32 d)), ((7 * i) mod 16)%nat) in
  let f' := w32 (f + a + default 0 (K !! i) + default 0 (m !! g)) in
  (d, w32 (b + rotl f' (default 0 (shifts !! i))), b, c).

Definition chunk (h : State) (m : list Z) : State :=
  let '(a0, b0, c0, d0) := h in
  let '(a, b, c, d) := fold_left (step m) (seq 0 64) h in
  (w32 (a0 + a), w32 (b0 + b), w32 (c0 + c), w32 (d0 + d)).

(** The chunks of sixteen words, with the number of chunks as fuel. *)
Fixpoint chunks (n : nat) (ws : list Z) (h : State) : State :=
  match n with
  | O => h
  | S n' => chunks n' (drop 16 ws) (chunk h (take 16 ws))
  end.

Definition digest (msg : list Z) : list Z :=
  let ws := words (pad msg) in
  let '(a, b, c, d) :=
    chunks (length ws / 16) ws (1732584193, 4023233417, 2562383102, 271733878) in
  (le_bytes 4 a ++ le_bytes 4 b ++ le_bytes 4 c ++ le_bytes 4 d)%list.

Definition hex_digit (n : Z) : Ascii.ascii :=
  ascii_of_N (Z.to_N (if n <? 10 then 48 + n else 87 + n)).

Fixpoint hex (bs : list Z) : string :=
  match bs with
  | [] => EmptyString
  | b :: bs' => String (hex_digit (b / 16)) (String (hex_digit (b mod 16)) (hex bs'))
  end.

End MD5.

(** [crypto.createHash('md5').update(s).digest('hex')] *)
Definition md5_hexdigest (s : string) : string := MD5.hex (MD5.digest (MD5.bytes_of s)).


(** ** JavaScript [Map] with string keys *)

Section JsMap.
Context {V : Type}.

Definition JsMap := list (string * V).

Fixpoint jsmap_get (k : string) (m : JsMap) : option V :=
  match m with
  | [] => None
  | (k', v) :: m' => if decide (k = k') then Some v else jsmap_get k m'
  end.

(** [set] keeps the position of an existing key and appends a new one. *)
Fixpoint jsmap_set (k : string) (v : V) (m : JsMap) : JsMap :=
  match m with
  | [] => [(k, v)]
  | (k', v') :: m' =>
      if decide (k = k') then (k, v) :: m' else (k', v') :: jsmap_set k v m'
  end.

Fixpoint jsmap_delete (k : string) (m : JsMap) : JsMap :=
  match m with
  | [] => []
  | (k', v') :: m' =>
      if decide (k = k') then jsmap_delete k m' else (k', v') :: jsmap_delete k m'
  end.

Definition jsmap_values (m : JsMap) : list V := m.*2.
Definition jsmap_keys (m : JsMap) : list string := m.*1.

(** [new Map(entries)]: the entries are set one after the other. *)
Definition jsmap_of_entries (es : list (string * V)) : JsMap :=
  fold_left (fun m e => jsmap_set e.1 e.2 m) es [].
End JsMap.

Arguments JsMap : clear implicits.

(** ** Members that every object inherits

    The members that an object literal inherits from [Object.prototype],
    each with its [length]: the functions have the number of their
    parameters, and [__proto__] is an object without a length. None of them
    can be iterated. *)
Definition object_prototype : list (string * option nat) :=
  [("constructor", Some 1); ("__defineGetter__", Some 2); ("__defineSetter__", Some 2);
   ("hasOwnProperty", Some 1); ("__lookupGetter__", Some 1); ("__lookupSetter__", Some 1);
   ("isPrototypeOf", Some 1); ("propertyIsEnumerable", Some 1); ("toString", Some 0);
   ("valueOf", Some 0); ("__proto__", None); ("toLocaleString", Some 0)].

Definition inherited (key : string) : bool :=
  bool_decide (is_Some (jsmap_get key object_prototype)).

(** The text that an inherited member becomes where a string is expected:
    the source text of a built-in function as V8 prints it ([constructor] is
    the function [Object]), and the text of an object for [__proto__]. *)
Definition inherited_text (key : string) : option string :=
  match jsmap_get key object_prototype with
  | Some (Some _) =>
      Some ("function "
            +:+ (if bool_decide (key = "constructor") then "Object" else key)
            +:+ "() { [native code] }")
  | Some None => Some "[object Object]"
  | None => None
  end.

(** [key in obj] and [obj[key]] on an object literal whose own properties
    hold texts. *)
Definition js_in {V} (key : string) (obj : gmap string V) : bool :=
  bool_decide (is_Some (obj !! key)) || inherited key.

Definition js_get (obj : gmap string string) (key : string) : option string :=
  match obj !! key with
  | Some v => Some v
  | None => inherited_text key
  end.

(** ** Data model *)

Record PageContext := {
  pc_url : string;
  pc_pageType : string;
}.

(** An entry of the solutions file. The entries that the hybrid runner
    writes carry a [flowPath] and a [pageContext]; those that the CI runner
    appends to the same file carry neither. *)
Record Solution := {
  sol_id : string;
  sol_flowPath : option string;
  stepAction : string;
  originalSelector : string;
  learnedSelector : string;
  confidence : Qc;
  successCount : Z;
  failureCount : Z;
  pageContext : option PageContext;
  learnedAt : string;
  lastUsed : string;
}.

Record Pattern := {
  pat_id : string;
  pat_body : string;
}.

Record KnowledgeBase := {
  solutions : JsMap Solution;
  patterns : JsMap Pattern;
  basePath : string;
}.

(** A flow step as the runners read it; every field but [action] is optional
    in the flow files. *)
Record Step := {
  action : string;
  selector : option string;
  target : option string;
  value : option string;
  step_url : option string;
  description : option string;
  wait : option Z;
  duration : option Z;
  filename : option string;
  exists_ : option bool;
  visible : option bool;
  enabled : option bool;
  contains : option string;
  textIncludes : option (list string);
  minCount : option Z;
  count : option Z;
  condition : option string;
  optional : option bool;
}.

Record ExecutionContext := {
  ctx_flowPath : string;
  ctx_url : string;
  ctx_pageType : string;
}.

Definition set_solutions (kb : KnowledgeBase) (m : JsMap Solution) : KnowledgeBase :=
  {| solutions := m; patterns := patterns kb; basePath := basePath kb |}.

(** ** Knowledge base operations of the hybrid runner *)

Section KnowledgeBaseOps.
(** The digest function behind [generateKey]. The runner uses
    [md5_hexdigest]; nothing below depends on which function it is. *)
Variable md5_hex : string -> string.

Definition generateKey (step : Step) : string :=
  let selector := js_or (js_or_opt (selector step) (target step)) "" in
  let hash := String.substring 0 8 (md5_hex selector) in
  action step +:+ "-" +:+ hash.

(** The condition of the scan on one solution. The operands are evaluated
    from left to right: [solution.pageContext.pageType] is read only for a
    solution with the action of the step, and reading it throws a TypeError
    when the solution has no [pageContext]. *)
Definition no_pageType : string :=
  "Cannot read properties of undefined (reading 'pageType')".

Definition similar (step : Step) (context : ExecutionContext)
    (solution : Solution) : string + bool :=
  if bool_decide (stepAction solution = action step) then
    match pageContext solution with
    | Some pc =>
        inr (bool_decide (pc_pageType pc = ctx_pageType context)
             && bool_decide (hundredths 75 < confidence solution)%Qc)
    | None => inl no_pageType
    end
  else inr false.

(** The loop over [kb.solutions.values()]: it returns the first solution
    that satisfies the condition, and ends with the error of the condition
    when that throws first. *)
Fixpoint scan_similar (step : Step) (context : ExecutionContext)
    (l : list Solution) : string + option Solution :=
  match l with
  | [] => inr None
  | solution :: l' =>
      match similar step context solution with
      | inl e => inl e
      | inr true => inr (Some solution)
      | inr false => scan_similar step context l'
      end
  end.

Definition findLearnedSolution (step : Step) (context : ExecutionContext)
    (kb : KnowledgeBase) : string + option Solution :=
  let key := generateKey step in
  let exact := jsmap_get key (solutions kb) in
  match exact with
  | Some e =>
      if decide (hundredths 80 < confidence e)%Qc then inr (Some e)
      else scan_similar step context (jsmap_values (solutions kb))
  | None => scan_similar step context (jsmap_values (solutions kb))
  end.

(** [now] is the value of [new Date().toISOString()] at the call. *)
Definition recordSolution (step : Step) (learned : string)
    (context : ExecutionContext) (now : string) (kb : KnowledgeBase) : KnowledgeBase :=
  let solution :=
    {| sol_id := generateKey step;
       sol_flowPath := Some (ctx_flowPath context);
       stepAction := action step;
       originalSelector := js_or (js_or_opt (selector step) (target step)) "";
       learnedSelector := learned;
       confidence := hundredths 70;
       successCount := 1%Z;
       failureCount := 0%Z;
       pageContext :=
         Some {| pc_url := ctx_url context; pc_pageType := ctx_pageType context |};
       learnedAt := now;
       lastUsed := now |} in
  set_solutions kb (jsmap_set (sol_id solution) solution (solutions kb)).

Definition bump_success (now : string) (s : Solution) : Solution :=
  {| sol_id := sol_id s; sol_flowPath := sol_flowPath s;
     stepAction := stepAction s; originalSelector := originalSelector s;
     learnedSelector := learnedSelector s;
     confidence := Math_min (hundredths 99) (confidence s + hundredths 2)%Qc;
     successCount := (successCount s + 1)%Z;
     failureCount := failureCount s;
     pageContext := pageContext s; learnedAt := learnedAt s;
     lastUsed := now |}.

Definition bump_failure (s : Solution) : Solution :=
  {| sol_id := sol_id s; sol_flowPath := sol_flowPath s;
     stepAction := stepAction s; originalSelector := originalSelector s;
     learnedSelector := learnedSelector s;
     confidence := Math_max (hundredths 30) (confidence s - hundredths 10)%Qc;
     successCount := successCount s;
     failureCount := (failureCount s + 1)%Z;
     pageContext := pageContext s; learnedAt := learnedAt s;
     lastUsed := lastUsed s |}.

(** The solution object is mutated in place: the entry keeps its key and
    its position in the map. *)
Definition recordSuccess (solutionId : string) (now : string)
    (kb : KnowledgeBase) : KnowledgeBase :=
  match jsmap_get solutionId (solutions kb) with
  | Some solution =>
      set_solutions kb (jsmap_set solutionId (bump_success now solution) (solutions kb))
  | None => kb
  end.

Definition recordFailure (solutionId : string) (kb : KnowledgeBase) : KnowledgeBase :=
  match jsmap_get solutionId (solutions kb) with
  | Some solution =>
      let solution' := bump_failure solution in
      if decide (confidence solution' < hundredths 40)%Qc
      then set_solutions kb (jsmap_delete solutionId (solutions kb))
      else set_solutions kb (jsmap_set solutionId solution' (solutions kb))
  | None => kb
  end.
End KnowledgeBaseOps.

(** ** Regular expressions of the runners

    The runners use four fixed patterns. Each is embedded as a matcher that,
    given the text starting at a position, returns the captured group and the
    length of the match there. In every pattern the greedy class is followed
    by a character outside the class, so the greedy reading is the only one. *)

Definition is_word (c : Ascii.ascii) : bool :=
  let n := N_of_ascii c in
  ((48 <=? n) && (n <=? 57) || (65 <=? n) && (n <=? 90)
   || (97 <=? n) && (n <=? 122) || (n =? 95))%N.

Definition is_quote (c : Ascii.ascii) : bool :=
  bool_decide (c = squote) || bool_decide (c = dquote).

(** The longest prefix whose characters satisfy [p], and what follows it. *)
Fixpoint span (p : Ascii.ascii -> bool) (s : string) : string * string :=
  match s with
  | String c s' =>
      if p c then let (a, b) := span p s' in (String c a, b) else ("", s)
  | EmptyString => ("", "")
  end.

Fixpoint strip_prefix (p s : string) : option string :=
  match p, s with
  | EmptyString, _ => Some s
  | String a p', String b s' => if bool_decide (a = b) then strip_prefix p' s' else None
  | String _ _, EmptyString => None
  end.

Definition Matcher := string -> option (string * nat).

(** [/\{(\w+)\}/] *)
Definition match_braces : Matcher := fun s =>
  match s with
  | String c r =>
      if bool_decide (c = "{"%char) then
        let (key, r') := span is_word r in
        match key, r' with
        | String _ _, String c' _ =>
            if bool_decide (c' = "}"%char) then Some (key, 2 + String.length key) else None
        | _, _ => None
        end
      else None
  | EmptyString => None
  end.

(** [/\${(\w+)}/] *)
Definition match_dollar_braces : Matcher := fun s =>
  match s with
  | String c r =>
      if bool_decide (c = "$"%char) then
        match match_braces r with
        | Some (key, n) => Some (key, S n)
        | None => None
        end
      else None
  | EmptyString => None
  end.

(** The pattern for the contains pseudo-function: the text [:contains(],
    a single or double quote, one or more characters that are not quotes
    (captured), a single or double quote, a closing parenthesis. *)
Definition match_contains : Matcher := fun s =>
  match strip_prefix ":contains(" s with
  | Some (String q r) =>
      if is_quote q then
        let (text, r') := span (fun c => negb (is_quote c)) r in
        match text, r' with
        | String _ _, String q' (String c _) =>
            if is_quote q' && bool_decide (c = ")"%char)
            then Some (text, 13 + String.length text) else None
        | _, _ => None
        end
      else None
  | _ => None
  end.

(** [/:first-child/] *)
Definition match_first_child : Matcher := fun s =>
  match strip_prefix ":first-child" s with
  | Some _ => Some ("", 12)
  | None => None
  end.

(** [s.replace(re, f)] with the [g] flag: [f] receives the matched text and
    the captured group; scanning resumes after the match. [skip] counts the
    characters of the current match that are still to be passed over. *)
Fixpoint replace_from (m : Matcher) (f : string -> string -> string)
    (s : string) (skip : nat) : string :=
  match s with
  | EmptyString => ""
  | String c s' =>
      match skip with
      | S n => replace_from m f s' n
      | O =>
          match m s with
          | Some (group, len) =>
              f (String.substring 0 len s) group +:+ replace_from m f s' (len - 1)
          | None => String c (replace_from m f s' 0)
          end
      end
  end.

Definition replace_all (m : Matcher) (f : string -> string -> string) (s : string) : string :=
  replace_from m f s 0.

(** [s.match(re)] without the [g] flag: index, captured group and length of
    the first match. *)
Fixpoint search (m : Matcher) (s : string) : option (nat * string * nat) :=
  match m s with
  | Some (group, len) => Some (O, group, len)
  | None =>
      match s with
      | String _ s' =>
          match search m s' with
          | Some (i, group, len) => Some (S i, group, len)
          | None => None
          end
      | EmptyString => None
      end
  end.

(** [s.replace(re, f)] without the [g] flag: only the first match. *)
Definition replace_first (m : Matcher) (f : string -> string -> string) (s : string) : string :=
  match search m s with
  | Some (i, group, len) =>
      String.substring 0 i s
      +:+ f (String.substring i len s) group
      +:+ String.substring (i + len) (String.length s - (i + len)) s
  | None => s
  end.

(** [s.indexOf(p)] and [s.includes(p)]. *)
Fixpoint indexOf (p s : string) : option nat :=
  if String.prefix p s then Some O
  else match s with
       | String _ s' => S <$> indexOf p s'
       | EmptyString => None
       end.

Definition includes (p s : string) : bool := bool_decide (is_Some (indexOf p s)).

(** ** Parameter substitution and selector normalisation *)

Module Hybrid.

(** [params[key] || match]: an absent, [undefined] or empty value leaves
    the token as it is; an inherited member is a function or an object,
    which is truthy and is written as its text. *)
Definition param_or_match (params : gmap string string) (mtch key : string) : string :=
  js_or (js_get params key) mtch.

Definition replaceParams (str : string) (params : gmap string string) : string :=
  if bool_decide (str = "") then str
  else
    let str := replace_all match_dollar_braces (param_or_match params) str in
    let str := replace_all match_braces (param_or_match params) str in
    str.

Definition has_text (_ group : string) : string :=
  ":has-text(" +:+ String dquote group +:+ String dquote ")".

Definition text_eq (_ group : string) : string := "text=" +:+ group.

Definition convertSelector (selector : string) : string :=
  if bool_decide (selector = "") then selector
  else
    let selector := replace_all match_contains has_text selector in
    if String.prefix ":contains(" selector
    then replace_first match_contains text_eq selector
    else selector.

End Hybrid.


(** ** The outside world

    [Env] is the state of everything outside the process. A call to the
    browser page, to the AI service or to the flow generator takes the
    environment and returns the next one with either the message of the error
    it threw or its result. *)

Definition Ext (Env A : Type) : Type := Env -> Env * (string + A).

(** What the model reads in the reply of the AI service
    ([response.content[0]]): a block that is not text, a text without a
    braced part, a braced part that [JSON.parse] rejects, or a parsed object
    with its [selector] and [confidence]. *)
Inductive AiContent :=
  | AiNotText
  | AiNoJson
  | AiBadJson (msg : string)
  | AiJson (sel : string) (conf : option Qc).

Record Driver (Env Element : Type) := {
  page_goto : option string -> string -> Ext Env unit;
  page_waitForTimeout : Z -> Ext Env unit;
  page_click : string -> Ext Env unit;
  page_fill : string -> option string -> Ext Env unit;
  locator_count : string -> Ext Env Z;
  (** [page.waitForSelector(selector, {timeout, state})]; the handle is
      [null] when the awaited state is hidden or detached. *)
  page_waitForSelector : string -> Z -> option string -> Ext Env (option Element);
  element_textContent : Element -> Ext Env (option string);
  element_isDisabled : Element -> Ext Env bool;
  (** [page.screenshot({path, fullPage})] returns the image. *)
  page_screenshot : option string -> bool -> Ext Env string;
  page_url : Env -> string;
  (** The [page.evaluate] call of [getSimplifiedDOM]. *)
  page_simplifiedDOM : Ext Env string;
  (** [client.messages.create] of [executeWithAI], given the step, the
      failed selector, the description, the page URL, the DOM text and the
      screenshot that make up the request. *)
  ai_create : Step -> string -> string -> string -> string -> string -> Ext Env AiContent;
  (** [new AIFlowGenerator(key).generateSteps(prompt, context)] *)
  ai_generateSteps : string -> Ext Env (list Step);
  (** [new Date().toISOString()] *)
  date_iso : Env -> string;
  (** [isNaN(s)] and [parseInt(s)] on a string. *)
  str_isNaN : string -> bool;
  str_parseInt : string -> Z;
  (** [path.join] of [node:path]. *)
  path_join : list string -> string;
}.

Arguments page_goto {_ _}.
Arguments page_waitForTimeout {_ _}.
Arguments page_click {_ _}.
Arguments page_fill {_ _}.
Arguments locator_count {_ _}.
Arguments page_waitForSelector {_ _}.
Arguments element_textContent {_ _}.
Arguments element_isDisabled {_ _}.
Arguments page_screenshot {_ _}.
Arguments page_url {_ _}.
Arguments page_simplifiedDOM {_ _}.
Arguments ai_create {_ _}.
Arguments ai_generateSteps {_ _}.
Arguments date_iso {_ _}.
Arguments str_isNaN {_ _}.
Arguments str_parseInt {_ _}.
Arguments path_join {_ _}.

(** ** The hybrid runner *)

Inductive Tier := Deterministic | Learned | AI.

Global Instance Tier_eq_dec : EqDecision Tier.
Proof. solve_decision. Defined.

Definition tier_rank (t : Tier) : nat :=
  match t with Deterministic => 0 | Learned => 1 | AI => 2 end.

Record HybridStats := {
  deterministicSuccess : nat;
  learnedSuccess : nat;
  aiSuccess : nat;
  totalSteps : nat;
  aiCost : Qc;
}.

Record Config := {
  cfg_url : string;
  cfg_email : option string;
  cfg_password : option string;
  cfg_mode : string;
  cfg_outputDir : string;
  cfg_flows : string;
}.

Record Flow := {
  flow_name : option string;
  flow_prompt : option string;
  flow_steps : option (list Step);
}.

(** The flows data: objects nested by the parts of a dotted path, with flow
    objects at the leaves. [NValue] stands for any other truthy value, such
    as a field of a flow object. *)
Inductive FlowNode :=
  | NGroup (children : list (string * FlowNode))
  | NFlow (f : Flow)
  | NValue.

(** State of the runner process. [attempts] and [kbReads] are
    instrumentation: every execution of an action on behalf of a tier is
    appended to [attempts] with its outcome, and every call of
    [findLearnedSolution] increments [kbReads]. [screenshots] is the list of
    the result of the flow that is running. Console output and durations are
    not modelled. *)
Record State (Env : Type) := {
  env : Env;
  knowledgeBase : KnowledgeBase;
  hybridStats : HybridStats;
  flowsData : FlowNode;
  screenshots : list string;
  attempts : list (Tier * bool);
  kbReads : nat;
}.

Arguments env {_}.
Arguments knowledgeBase {_}.
Arguments hybridStats {_}.
Arguments flowsData {_}.
Arguments screenshots {_}.
Arguments attempts {_}.
Arguments kbReads {_}.

Section Monad.
Context {S : Type}.

(** A computation over the state [S] of a process: it may change the state
    and either throws an error message or returns. *)
Definition M (A : Type) : Type := S -> S * (string + A).

Definition ret {A} (a : A) : M A := fun st => (st, inr a).
Definition throw {A} (msg : string) : M A := fun st => (st, inl msg).
Definition bind {A B} (m : M A) (k : A -> M B) : M B := fun st =>
  match m st with
  | (st', inr a) => k a st'
  | (st', inl e) => (st', inl e)
  end.
(** [try { m } catch (error) { h error.message }] *)
Definition try_catch {A} (m : M A) (h : string -> M A) : M A := fun st =>
  match m st with
  | (st', inr a) => (st', inr a)
  | (st', inl e) => h e st'
  end.
Definition get_state : M S := fun st => (st, inr st).
Definition modify (f : S -> S) : M unit := fun st => (f st, inr tt).
End Monad.

Arguments M : clear implicits.

Global Instance M_ret {S} : MRet (M S) := fun A a => ret a.
Global Instance M_bind {S} : MBind (M S) := fun A B k m => bind m k.

(** An [await] on the outside world from the hybrid runner. *)
Definition call {Env A} (f : Ext Env A) : M (State Env) A := fun st =>
  let (e', r) := f (env st) in
  ({| env := e'; knowledgeBase := knowledgeBase st; hybridStats := hybridStats st;
      flowsData := flowsData st; screenshots := screenshots st;
      attempts := attempts st; kbReads := kbReads st |}, r).

Section StateUpdates.
Context {Env : Type}.

Definition with_kb (f : KnowledgeBase -> KnowledgeBase) (st : State Env) : State Env :=
  {| env := env st; knowledgeBase := f (knowledgeBase st); hybridStats := hybridStats st;
     flowsData := flowsData st; screenshots := screenshots st;
     attempts := attempts st; kbReads := kbReads st |}.

Definition with_stats (f : HybridStats -> HybridStats) (st : State Env) : State Env :=
  {| env := env st; knowledgeBase := knowledgeBase st; hybridStats := f (hybridStats st);
     flowsData := flowsData st; screenshots := screenshots st;
     attempts := attempts st; kbReads := kbReads st |}.

Definition with_flows (f : FlowNode -> FlowNode) (st : State Env) : State Env :=
  {| env := env st; knowledgeBase := knowledgeBase st; hybridStats := hybridStats st;
     flowsData := f (flowsData st); screenshots := screenshots st;
     attempts := attempts st; kbReads := kbReads st |}.

Definition note_attempt (t : Tier) (ok : bool) (st : State Env) : State Env :=
  {| env := env st; knowledgeBase := knowledgeBase st; hybridStats := hybridStats st;
     flowsData := flowsData st; screenshots := screenshots st;
     attempts := attempts st ++ [(t, ok)];
     kbReads := kbReads st |}.

Definition with_screenshots (f : list string -> list string) (st : State Env) : State Env :=
  {| env := env st; knowledgeBase := knowledgeBase st; hybridStats := hybridStats st;
     flowsData := flowsData st; screenshots := f (screenshots st);
     attempts := attempts st; kbReads := kbReads st |}.

Definition note_kbRead (st : State Env) : State Env :=
  {| env := env st; knowledgeBase := knowledgeBase st; hybridStats := hybridStats st;
     flowsData := flowsData st; screenshots := screenshots st;
     attempts := attempts st; kbReads := S (kbReads st) |}.
End StateUpdates.

Definition inc_totalSteps (h : HybridStats) : HybridStats :=
  {| deterministicSuccess := deterministicSuccess h; learnedSuccess := learnedSuccess h;
     aiSuccess := aiSuccess h; totalSteps := S (totalSteps h); aiCost := aiCost h |}.
Definition inc_deterministicSuccess (h : HybridStats) : HybridStats :=
  {| deterministicSuccess := S (deterministicSuccess h); learnedSuccess := learnedSuccess h;
     aiSuccess := aiSuccess h; totalSteps := totalSteps h; aiCost := aiCost h |}.
Definition inc_learnedSuccess (h : HybridStats) : HybridStats :=
  {| deterministicSuccess := deterministicSuccess h; learnedSuccess := S (learnedSuccess h);
     aiSuccess := aiSuccess h; totalSteps := totalSteps h; aiCost := aiCost h |}.
Definition inc_aiSuccess (h : HybridStats) : HybridStats :=
  {| deterministicSuccess := deterministicSuccess h; learnedSuccess := learnedSuccess h;
     aiSuccess := S (aiSuccess h); totalSteps := totalSteps h; aiCost := aiCost h |}.
Definition add_aiCost (h : HybridStats) : HybridStats :=
  {| deterministicSuccess := deterministicSuccess h; learnedSuccess := learnedSuccess h;
     aiSuccess := aiSuccess h; totalSteps := totalSteps h;
     aiCost := (aiCost h + thousandths 16)%Qc |}.

(** ** Small helpers of the runner *)

Definition classifyPage (url : string) : string :=
  if includes "/login" url then "authentication"
  else if includes "/dashboard" url then "dashboard"
  else if includes "/call" url then "call-management"
  else if includes "/appointment" url then "appointments"
  else "general".

(** [s.split('.')] *)
Fixpoint split_dots (s : string) : list string :=
  match s with
  | EmptyString => [""]
  | String c s' =>
      if bool_decide (c = "."%char) then "" :: split_dots s'
      else match split_dots s' with
           | p :: ps => String c p :: ps
           | [] => [String c ""]
           end
  end.

(** The text with every dot replaced by an underscore. *)
Fixpoint dots_to_underscores (s : string) : string :=
  match s with
  | EmptyString => ""
  | String c s' =>
      String (if bool_decide (c = "."%char) then "_"%char else c) (dots_to_underscores s')
  end.

(** [node[part]] on the flows data, with a falsy result as [None]. *)
Definition node_field (part : string) (n : FlowNode) : option FlowNode :=
  match n with
  | NGroup children => jsmap_get part children
  | NFlow f =>
      if bool_decide (part = "name") then
        if truthy (flow_name f) then Some NValue else None
      else if bool_decide (part = "prompt") then
        if truthy (flow_prompt f) then Some NValue else None
      else if bool_decide (part = "steps") then
        match flow_steps f with Some _ => Some NValue | None => None end
      else None
  | NValue => None
  end.

Fixpoint walk_path (parts : list string) (current : FlowNode) : option FlowNode :=
  match parts with
  | [] => Some current
  | part :: parts' =>
      match node_field part current with
      | Some next => walk_path parts' next
      | None => None
      end
  end.

Definition getFlowByPath (flowPath : string) (data : FlowNode) : option FlowNode :=
  walk_path (split_dots flowPath) data.

(** [current[lastPart] = node] after walking all parts but the last. *)
Fixpoint assign_path (parts : list string) (new : FlowNode) (current : FlowNode) : FlowNode :=
  match parts with
  | [] => current
  | [lastPart] =>
      match current with
      | NGroup children => NGroup (jsmap_set lastPart new children)
      | _ => current
      end
  | part :: parts' =>
      match current with
      | NGroup children =>
          match jsmap_get part children with
          | Some next => NGroup (jsmap_set part (assign_path parts' new next) children)
          | None => current
          end
      | _ => current
      end
  end.

Section HybridRunner.
Context {Env Element : Type}.
Variable md5_hex : string -> string.
Variable drv : Driver Env Element.
(** Whether an AI client was created at start-up (an API key was set). *)
Variable aiClient : bool.

Definition verify (selector : string) (step : Step) : M (State Env) unit :=
  if bool_decide (exists_ step = Some false) then
    n ← call (locator_count drv selector);
    if bool_decide (0 < n)%Z
    then throw ("Verification failed: element should not exist: " +:+ selector)
    else mret tt
  else match visible step with
  | Some v =>
      element ← call (page_waitForSelector drv selector 10000
                        (Some (if v then "visible" else "hidden")));
      match element with
      | None => throw ("Verification failed: element not "
                       +:+ (if v then "visible" else "hidden") +:+ ": " +:+ selector)
      | Some _ => mret tt
      end
  | None =>
  match minCount step with
  | Some k =>
      n ← call (locator_count drv selector);
      if bool_decide (n < k)%Z
      then throw ("Verification failed: found " +:+ pretty n
                  +:+ " elements, expected at least " +:+ pretty k)
      else mret tt
  | None =>
  match count step with
  | Some k =>
      n ← call (locator_count drv selector);
      if bool_decide (n = k)
      then mret tt
      else throw ("Verification failed: found " +:+ pretty n
                  +:+ " elements, expected " +:+ pretty k)
  | None =>
  if truthy (contains step) then
    let wanted := default "" (contains step) in
    element ← call (page_waitForSelector drv selector 10000 None);
    match element with
    | None => throw "Cannot read properties of null (reading 'textContent')"
    | Some el =>
        text ← call (element_textContent drv el);
        if truthy text && includes wanted (default "" text)
        then mret tt
        else throw ("Verification failed: element does not contain "
                    +:+ String dquote wanted +:+ String dquote "")
    end
  else match textIncludes step with
  | Some strs =>
      element ← call (page_waitForSelector drv selector 10000 None);
      match element with
      | None => throw "Cannot read properties of null (reading 'textContent')"
      | Some el =>
          text ← call (element_textContent drv el);
          if existsb (fun str => truthy text && includes str (default "" text)) strs
          then mret tt
          else throw ("Verification failed: element does not contain any of: "
                      +:+ String.concat ", " strs)
      end
  | None =>
  match enabled step with
  | Some en =>
      element ← call (page_waitForSelector drv selector 10000 None);
      match element with
      | None => throw "Cannot read properties of null (reading 'isDisabled')"
      | Some el =>
          isDisabled ← call (element_isDisabled drv el);
          if en && isDisabled
          then throw ("Verification failed: element should be enabled: " +:+ selector)
          else if negb en && negb isDisabled
          then throw ("Verification failed: element should be disabled: " +:+ selector)
          else mret tt
      end
  | None =>
      element ← call (page_waitForSelector drv selector 10000 None);
      match element with
      | None => throw ("Verification failed: element not found: " +:+ selector)
      | Some _ => mret tt
      end
  end end end end end.

Definition wait_action (selector : string) (value : option string) (step : Step) : M (State Env) unit :=
  let by_selector : M (State Env) unit :=
    if bool_decide (selector = "") then call (page_waitForTimeout drv 1000)
    else
      let state := if bool_decide (condition step = Some "visible")
                   then "visible" else "attached" in
      _ ← call (page_waitForSelector drv selector 30000 (Some state)); mret tt in
  if truthy value then
    let waitTime := default "" value in
    if negb (str_isNaN drv waitTime)
    then call (page_waitForTimeout drv (str_parseInt drv waitTime))
    else by_selector
  else match duration step with
       | Some d => if bool_decide (d = 0%Z) then by_selector
                   else call (page_waitForTimeout drv d)
       | None => by_selector
       end.

Definition executeAction (action : string) (selector : string)
    (value : option string) (step : Step) : M (State Env) unit :=
  if bool_decide (action = "click") then
    call (page_click drv selector);; call (page_waitForTimeout drv 500)
  else if bool_decide (action = "type") || bool_decide (action = "fill") then
    call (page_fill drv selector value);; call (page_waitForTimeout drv 500)
  else if bool_decide (action = "clear") then
    call (page_fill drv selector (Some ""));; call (page_waitForTimeout drv 300)
  else if bool_decide (action = "verify") then verify selector step
  else if bool_decide (action = "wait") then wait_action selector value step
  else if bool_decide (action = "navigate") then
    call (page_goto drv (js_or_opt (Some selector) value) "networkidle");;
    call (page_waitForTimeout drv 1000)
  else if bool_decide (action = "screenshot") then mret tt
  else throw ("Unsupported action: " +:+ action).

Definition getSimplifiedDOM : M (State Env) string :=
  try_catch (call (page_simplifiedDOM drv))
            (fun _ => mret "<body>Error capturing DOM</body>").

(** The object returned by [executeWithAI]. *)
Inductive AiResult :=
  | AiSuccess (sel : string) (conf : option Qc)
  | AiFailure (error : string).

Definition executeWithAI (step : Step) (context : ExecutionContext) : M (State Env) AiResult :=
  screenshot ← call (page_screenshot drv None false);
  dom ← getSimplifiedDOM;
  st ← get_state;
  let url := page_url drv (env st) in
  let originalSelector := js_or (js_or_opt (selector step) (target step)) "" in
  let description := js_or (description step) "" in
  content ← call (ai_create drv step originalSelector description url dom screenshot);
  match content with
  | AiJson sel conf =>
      try_catch
        (executeAction (action step) sel (value step) step;; mret (AiSuccess sel conf))
        (fun e => mret (AiFailure e))
  | AiBadJson msg => throw msg
  | AiNotText | AiNoJson => mret (AiFailure "Failed to parse AI response")
  end.

Definition runner_params (config : Config) : gmap string string :=
  let add (k : string) (v : option string) (m : gmap string string) :=
    match v with Some v => <[k := v]> m | None => m end in
  add "email" (cfg_email config)
    (add "password" (cfg_password config) {[ "baseUrl" := cfg_url config ]}).

Definition navigate_step (step : Step) (config : Config) : M (State Env) unit :=
  let url := js_or (js_or_opt (step_url step) (target step)) "" in
  let fullUrl :=
    if String.prefix "/" url then cfg_url config +:+ url
    else if bool_decide (url = "") then cfg_url config
    else url in
  call (page_goto drv (Some fullUrl) "domcontentloaded");;
  call (page_waitForTimeout drv
          (match wait step with
           | Some w => if bool_decide (w = 0%Z) then 1000%Z else w
           | None => 1000%Z
           end));;
  modify (with_stats inc_deterministicSuccess).

Definition screenshot_step (step : Step) (stepNumber : nat) (flowPath : string)
    (config : Config) (value : string) : M (State Env) unit :=
  let filename :=
    js_or (filename step)
      (js_or (Some value)
         (dots_to_underscores flowPath +:+ "_step" +:+ pretty stepNumber +:+ ".png")) in
  let screenshotPath := path_join drv [cfg_outputDir config; "screenshots"; filename] in
  call (page_screenshot drv (Some screenshotPath) true);;
  modify (with_screenshots (fun l => (l ++ [screenshotPath])%list));;
  modify (with_stats inc_deterministicSuccess).

Definition all_failed (step : Step) : string :=
  "All execution methods failed for step: " +:+ action step.

(** Third tier. The result tells whether the step is done. *)
Definition ai_tier (step : Step) (config : Config) (context : ExecutionContext) : M (State Env) bool :=
  if aiClient && bool_decide (cfg_mode config = "hybrid") then
    try_catch
      (aiResult ← executeWithAI step context;
       match aiResult with
       | AiSuccess sel _ =>
           modify (note_attempt AI true);;
           st ← get_state;
           modify (with_kb (recordSolution md5_hex step sel context
                              (date_iso drv (env st))));;
           modify (with_stats inc_aiSuccess);;
           modify (with_stats add_aiCost);;
           mret true
       | AiFailure _ =>
           modify (note_attempt AI false);;
           mret false
       end)
      (fun _ =>
         modify (note_attempt AI false);;
         modify (with_stats add_aiCost);;
         mret false)
  else mret false.

(** Second tier. The result tells whether the step is done. The lookup is
    outside the [try]: its TypeError leaves [executeStepHybrid]. *)
Definition learned_tier (step : Step) (context : ExecutionContext)
    (value : string) : M (State Env) bool :=
  st ← get_state;
  modify note_kbRead;;
  match findLearnedSolution md5_hex step context (knowledgeBase st) with
  | inl e => throw e
  | inr (Some learnedSolution) =>
      try_catch
        (executeAction (action step) (learnedSelector learnedSolution) (Some value) step;;
         modify (note_attempt Learned true);;
         st' ← get_state;
         modify (with_kb (recordSuccess (sol_id learnedSolution)
                            (date_iso drv (env st'))));;
         modify (with_stats inc_learnedSuccess);;
         mret true)
        (fun _ =>
           modify (note_attempt Learned false);;
           modify (with_kb (recordFailure (sol_id learnedSolution)));;
           mret false)
  | inr None => mret false
  end.

Definition executeStepHybrid (step : Step) (stepNumber : nat) (flowPath : string)
    (config : Config) (context : ExecutionContext) : M (State Env) unit :=
  modify (with_stats inc_totalSteps);;
  let params := runner_params config in
  let selector :=
    Hybrid.convertSelector
      (Hybrid.replaceParams (js_or (js_or_opt (selector step) (target step)) "") params) in
  let value := Hybrid.replaceParams (js_or (value step) "") params in
  if bool_decide (action step = "navigate") then navigate_step step config
  else if bool_decide (action step = "screenshot")
  then screenshot_step step stepNumber flowPath config value
  else
    done ← try_catch
             (executeAction (action step) selector (Some value) step;;
              modify (note_attempt Deterministic true);;
              modify (with_stats inc_deterministicSuccess);;
              mret true)
             (fun _ => modify (note_attempt Deterministic false);; mret false);
    if done : bool then mret tt
    else
      done ← learned_tier step context value;
      if done : bool then mret tt
      else
        done ← ai_tier step config context;
        if done : bool then mret tt
        else throw (all_failed step).
Record FlowResult := {
  res_flowPath : string;
  res_status : string;
  res_error : option string;
  res_screenshots : list string;
}.

Fixpoint run_steps (steps : list Step) (i : nat) (flowPath : string)
    (config : Config) (context : ExecutionContext) : M (State Env) unit :=
  match steps with
  | [] => mret tt
  | step :: rest =>
      executeStepHybrid step (S i) flowPath config context;;
      run_steps rest (S i) flowPath config context
  end.

(** The steps of the flow found at the path, after the generation from a
    prompt when the flow has a prompt and no steps. The generated steps are
    stored in the flows data ([flow.steps = generatedSteps] and the
    assignment of [saveGeneratedFlow]); the rewrite of the flows file is
    not modelled. A group object or another value has no [steps]; group
    objects are taken to have no child named [prompt] or [steps]. *)
Definition flow_steps_of (flowPath : string) (node : FlowNode) : M (State Env) (option (list Step)) :=
  match node with
  | NFlow flow =>
      if truthy (flow_prompt flow) && negb (bool_decide (is_Some (flow_steps flow))) then
        if negb aiClient
        then throw "AI client required for prompt-based flows. Set ANTHROPIC_API_KEY."
        else
          generatedSteps ← call (ai_generateSteps drv (default "" (flow_prompt flow)));
          let flow' := {| flow_name := flow_name flow; flow_prompt := flow_prompt flow;
                          flow_steps := Some generatedSteps |} in
          modify (with_flows (assign_path (split_dots flowPath) (NFlow flow')));;
          mret (Some generatedSteps)
      else mret (flow_steps flow)
  | NGroup _ | NValue => mret None
  end.

Definition flow_body (flowPath : string) (config : Config) : M (State Env) unit :=
  st ← get_state;
  match getFlowByPath flowPath (flowsData st) with
  | None => throw ("Flow not found: " +:+ flowPath)
  | Some flow =>
      steps ← flow_steps_of flowPath flow;
      match steps with
      | None | Some [] => throw "Flow has no steps"
      | Some steps =>
          let executionContext :=
            {| ctx_flowPath := flowPath; ctx_url := cfg_url config;
               ctx_pageType := classifyPage (cfg_url config) |} in
          run_steps steps 0 flowPath config executionContext
      end
  end.

Definition executeFlow (flowPath : string) (config : Config)
    (st : State Env) : State Env * FlowResult :=
  match flow_body flowPath config (with_screenshots (fun _ => []) st) with
  | (st1, inr _) =>
      (st1, {| res_flowPath := flowPath; res_status := "passed"; res_error := None;
               res_screenshots := screenshots st1 |})
  | (st1, inl message) =>
      let screenshotDir := path_join drv [cfg_outputDir config; "screenshots"] in
      let errorScreenshot :=
        path_join drv [screenshotDir; dots_to_underscores flowPath +:+ "_error.png"] in
      let (st2, shot) := call (page_screenshot drv (Some errorScreenshot) true) st1 in
      let st3 := match shot with
                 | inr _ => with_screenshots (fun l => (l ++ [errorScreenshot])%list) st2
                 | inl _ => st2
                 end in
      (st3, {| res_flowPath := flowPath; res_status := "failed";
               res_error := Some message; res_screenshots := screenshots st3 |})
  end.
End HybridRunner.

(** ** Persistence of the knowledge base

    A file is modelled by what [JSON.parse] makes of its text: the object of
    a solutions file, the object of a patterns file, or a text that cannot be
    read as either. [JSON.stringify] writes the fields in the order of the
    records below, so two files written by the runner are the same text
    exactly when their data are equal. *)

Record SolutionsData := {
  sd_version : string;
  sd_lastUpdated : string;
  sd_solutions : list Solution;
}.

Record PatternsData := {
  pd_version : string;
  pd_lastUpdated : string;
  pd_patterns : list Pattern;
}.

Inductive FileData :=
  | FDir
  | FOther (text : string)
  | FSolutions (d : SolutionsData)
  | FPatterns (d : PatternsData).

Section Persistence.
(** [path.join] of [node:path]. *)
Variable path_join : list string -> string.

Definition loadKnowledgeBase (basePath : string)
    (disk : gmap string FileData) : gmap string FileData * KnowledgeBase :=
  let disk := match disk !! basePath with
              | Some _ => disk
              | None => <[basePath := FDir]> disk
              end in
  let solutionsPath := path_join [basePath; "solutions.json"] in
  let sols : JsMap Solution :=
    match disk !! solutionsPath with
    | Some (FSolutions data) =>
        jsmap_of_entries (map (fun s => (sol_id s, s)) (sd_solutions data))
    | _ => []
    end in
  let patternsPath := path_join [basePath; "patterns.json"] in
  let pats : JsMap Pattern :=
    match disk !! patternsPath with
    | Some (FPatterns data) =>
        jsmap_of_entries (map (fun p => (pat_id p, p)) (pd_patterns data))
    | _ => []
    end in
  (disk, {| solutions := sols; patterns := pats; basePath := basePath |}).

(** [now] and [now'] are the clock readings of the two writes. *)
Definition saveKnowledgeBase (basePath : string) (kb : KnowledgeBase)
    (now now' : string) (disk : gmap string FileData) : gmap string FileData :=
  let solutionsPath := path_join [basePath; "solutions.json"] in
  let solutionsData :=
    {| sd_version := "1.0"; sd_lastUpdated := now;
       sd_solutions := jsmap_values (solutions kb) |} in
  let disk := <[solutionsPath := FSolutions solutionsData]> disk in
  let patternsPath := path_join [basePath; "patterns.json"] in
  let patternsData :=
    {| pd_version := "1.0"; pd_lastUpdated := now';
       pd_patterns := jsmap_values (patterns kb) |} in
  <[patternsPath := FPatterns patternsData]> disk.
End Persistence.

(** ** The CI runner

    The CI variant keeps no knowledge base in memory: the learned tier reads
    the solutions file at every use and writes it back after a success. *)

Module CI.

Record Solution := {
  sol_id : string;
  stepAction : string;
  originalSelector : option string;
  learnedSelector : string;
  confidence : Qc;
  successCount : Z;
  failureCount : Z;
  learnedAt : string;
  lastUsed : string;
}.

Record Knowledge := {
  version : string;
  lastUpdated : option string;
  solutions : list Solution;
}.

(** A file of the knowledge directory: a text that [JSON.parse] rejects or
    that has no [solutions] array, or the object of a solutions file. *)
Inductive FileData :=
  | FOther (text : string)
  | FKnowledge (k : Knowledge).

Record Config := {
  cfg_url : string;
  cfg_outputDir : string;
  cfg_knowledgeDir : string;
  cfg_prompt : string;
}.

Record Stats := {
  totalSteps : nat;
  deterministicSuccess : nat;
  learnedSuccess : nat;
  aiSuccess : nat;
  failures : nat;
  aiCost : Qc;
}.

(** The reply of the AI service as the runner uses it: the trimmed text of
    the first block and the token counts of the usage. *)
Record AiReply := {
  reply_text : string;
  input_tokens : Z;
  output_tokens : Z;
}.

(** An element of the array that the AI service returned for a prompt:
    a step, or something on which [step.action.toUpperCase()] throws the
    TypeError with the given message (no action, or one that is no text). *)
Definition Generated : Type := string + Step.

(** What [JSON.parse] gave for the reply to a prompt: the elements of an
    array (or of another value that has a [length]), or [null], on which
    [steps.length] throws the TypeError with the given message. A value
    without a [length] gives the loop nothing to run, as the empty array. *)
Definition GeneratedSteps : Type := string + list Generated.

Record Driver (Env : Type) := {
  page_goto : string -> Ext Env unit;
  page_waitForTimeout : Z -> Ext Env unit;
  (** [page.locator(selector).first().click({timeout})] *)
  locator_first_click : option string -> Ext Env unit;
  page_fill : option string -> option string -> Ext Env unit;
  locator_count : option string -> Ext Env Z;
  (** [page.waitForSelector]; the result tells whether the handle is truthy. *)
  page_waitForSelector : option string -> Z -> Ext Env bool;
  page_screenshot : option string -> bool -> Ext Env string;
  (** The [page.evaluate] call that describes the page structure. *)
  page_structure : Ext Env string;
  ai_create : Step -> string -> string -> Ext Env AiReply;
  (** The request of [generateStepsFromPrompt(prompt)] and the parsing of
      its reply: the parsed value and the reply with its token counts. The
      value is not validated. *)
  ai_generate : string -> Ext Env (GeneratedSteps * AiReply);
  date_iso : Env -> string;
  (** [Date.now()] *)
  date_now : Env -> Z;
  (** [parseInt] on the number or text of a wait time. *)
  parse_wait : Z + string -> Z;
  path_join : list string -> string;
}.

Arguments page_goto {_}.
Arguments page_waitForTimeout {_}.
Arguments locator_first_click {_}.
Arguments page_fill {_}.
Arguments locator_count {_}.
Arguments page_waitForSelector {_}.
Arguments page_screenshot {_}.
Arguments page_structure {_}.
Arguments ai_create {_}.
Arguments ai_generate {_}.
Arguments date_iso {_}.
Arguments date_now {_}.
Arguments parse_wait {_}.
Arguments path_join {_}.

(** State of the CI process: the outside world, the files of the knowledge
    directory and the counters. [kbReads] is instrumentation: it counts the
    times the solutions file is looked for or read. *)
Record State (Env : Type) := {
  env : Env;
  disk : gmap string FileData;
  stats : Stats;
  kbReads : nat;
}.

Arguments env {_}.
Arguments disk {_}.
Arguments stats {_}.
Arguments kbReads {_}.

Section Runner.
Context {Env : Type}.
Variable drv : Driver Env.
(** Whether the Anthropic client exists (an API key was set). *)
Variable anthropic : bool.
Variable config : Config.

Definition call {A} (f : Ext Env A) : M (State Env) A := fun st =>
  let (e', r) := f (env st) in
  ({| env := e'; disk := disk st; stats := stats st; kbReads := kbReads st |}, r).

Definition with_disk (f : gmap string FileData -> gmap string FileData)
    (st : State Env) : State Env :=
  {| env := env st; disk := f (disk st); stats := stats st; kbReads := kbReads st |}.
Definition with_stats (f : Stats -> Stats) (st : State Env) : State Env :=
  {| env := env st; disk := disk st; stats := f (stats st); kbReads := kbReads st |}.
Definition note_kbRead (st : State Env) : State Env :=
  {| env := env st; disk := disk st; stats := stats st; kbReads := S (kbReads st) |}.

Definition set_target (step : Step) (sel : string) : Step :=
  {| action := action step; selector := selector step; target := Some sel;
     value := value step; step_url := step_url step; description := description step;
     wait := wait step; duration := duration step; filename := filename step;
     exists_ := exists_ step; visible := visible step; enabled := enabled step;
     contains := contains step; textIncludes := textIncludes step;
     minCount := minCount step; count := count step; condition := condition step;
     optional := optional step |}.

(** The body of the [try] block of [executeDeterministicStep]. *)
Definition deterministic_body (step : Step) : M (State Env) bool :=
  let selector := js_or_opt (target step) (selector step) in
  let value := value step in
  let act := action step in
  if bool_decide (act = "navigate") then
    match target step with
    | None => throw "Cannot read properties of undefined (reading 'startsWith')"
    | Some url =>
        let url := if String.prefix "/" url then cfg_url config +:+ url
                   else if negb (String.prefix "http" url) then cfg_url config
                   else url in
        call (page_goto drv url);;
        call (page_waitForTimeout drv
                (match wait step with
                 | Some w => if bool_decide (w = 0%Z) then 2000%Z else w
                 | None => 2000%Z
                 end));;
        mret true
    end
  else if bool_decide (act = "click") then
    call (locator_first_click drv selector);;
    call (page_waitForTimeout drv 500);;
    mret true
  else if bool_decide (act = "type") || bool_decide (act = "fill") then
    call (page_fill drv selector value);;
    call (page_waitForTimeout drv 300);;
    mret true
  else if bool_decide (act = "clear") then
    call (page_fill drv selector (Some ""));;
    mret true
  else if bool_decide (act = "verify") then
    (if bool_decide (exists_ step = Some false) then
       n ← call (locator_count drv selector);
       if bool_decide (0 < n)%Z then throw "Element should not exist" else mret tt
     else
       element ← call (page_waitForSelector drv selector 10000);
       if element : bool then mret tt else throw "Element not found");;
    mret true
  else if bool_decide (act = "wait") then
    (match duration step with
     | Some d =>
         if bool_decide (d = 0%Z) then
           if truthy value
           then call (page_waitForTimeout drv (parse_wait drv (inr (default "" value))))
           else if truthy selector
           then _ ← call (page_waitForSelector drv selector 30000); mret tt
           else mret tt
         else call (page_waitForTimeout drv (parse_wait drv (inl d)))
     | None =>
         if truthy value
         then call (page_waitForTimeout drv (parse_wait drv (inr (default "" value))))
         else if truthy selector
         then _ ← call (page_waitForSelector drv selector 30000); mret tt
         else mret tt
     end);;
    mret true
  else if bool_decide (act = "screenshot") then
    st ← get_state;
    let name := js_or (filename step)
                  ("step_" +:+ pretty (date_now drv (env st)) +:+ ".png") in
    let screenshotPath := path_join drv [cfg_outputDir config; "screenshots"; name] in
    call (page_screenshot drv (Some screenshotPath) false);;
    mret true
  else mret false.

Definition executeDeterministicStep (step : Step) : M (State Env) bool :=
  try_catch (deterministic_body step) (fun _ => mret false).

Definition matches (step : Step) (s : Solution) : bool :=
  bool_decide (stepAction s = action step)
  && bool_decide (hundredths 70 < confidence s)%Qc.

Definition bump (now : string) (s : Solution) : Solution :=
  {| sol_id := sol_id s; stepAction := stepAction s;
     originalSelector := originalSelector s; learnedSelector := learnedSelector s;
     confidence := Math_min (hundredths 99) (confidence s + hundredths 5)%Qc;
     successCount := (successCount s + 1)%Z; failureCount := failureCount s;
     learnedAt := learnedAt s; lastUsed := now |}.

(** The first solution that satisfies [p] is replaced by its image under
    [f]: the object found by [find] is mutated inside the array. *)
Fixpoint update_first (p : Solution -> bool) (f : Solution -> Solution)
    (l : list Solution) : list Solution :=
  match l with
  | [] => []
  | s :: l' => if p s then f s :: l' else s :: update_first p f l'
  end.

Definition tryLearnedSolution (step : Step) : M (State Env) bool :=
  let solutionsPath := path_join drv [cfg_knowledgeDir config; "solutions.json"] in
  st ← get_state;
  modify note_kbRead;;
  match disk st !! solutionsPath with
  | None => mret false
  | Some file =>
      match file with
      | FOther _ => mret false
      | FKnowledge knowledge =>
          match List.find (matches step) (solutions knowledge) with
          | Some solution =>
              success ← executeDeterministicStep (set_target step (learnedSelector solution));
              if success : bool then
                st' ← get_state;
                let knowledge' :=
                  {| version := version knowledge; lastUpdated := lastUpdated knowledge;
                     solutions := update_first (matches step)
                                    (bump (date_iso drv (env st'))) (solutions knowledge) |} in
                modify (with_disk (fun d => <[solutionsPath := FKnowledge knowledge']> d));;
                mret true
              else mret false
          | None => mret false
          end
      end
  end.

Definition saveLearnedSolution (step : Step) (learned : string) : M (State Env) unit :=
  let solutionsPath := path_join drv [cfg_knowledgeDir config; "solutions.json"] in
  st ← get_state;
  modify note_kbRead;;
  knowledge ← match disk st !! solutionsPath with
              | None => mret {| version := "1.0"; lastUpdated := None; solutions := [] |}
              | Some (FKnowledge k) => mret k
              | Some (FOther _) => throw "Unexpected token in JSON"
              end;
  let now := date_iso drv (env st) in
  let entry :=
    {| sol_id := action step +:+ "-" +:+ pretty (date_now drv (env st));
       stepAction := action step;
       originalSelector := js_or_opt (target step) (selector step);
       learnedSelector := learned;
       confidence := hundredths 70; successCount := 1; failureCount := 0;
       learnedAt := now; lastUsed := now |} in
  let knowledge' :=
    {| version := version knowledge; lastUpdated := Some now;
       solutions := (solutions knowledge ++ [entry])%list |} in
  modify (with_disk (fun d => <[solutionsPath := FKnowledge knowledge']> d)).

Definition add_cost (r : AiReply) (s : Stats) : Stats :=
  {| totalSteps := totalSteps s; deterministicSuccess := deterministicSuccess s;
     learnedSuccess := learnedSuccess s; aiSuccess := aiSuccess s; failures := failures s;
     aiCost := (aiCost s
                + (Q2Qc (inject_Z (input_tokens r)) * Q2Qc (25 # 100000) / Q2Qc 1000
                   + Q2Qc (inject_Z (output_tokens r)) * Q2Qc (125 # 100000) / Q2Qc 1000))%Qc |}.

Definition tryAiFallback (step : Step) : M (State Env) bool :=
  if negb anthropic then mret false
  else
    try_catch
      (screenshot ← call (page_screenshot drv None false);
       htmlStructure ← call (page_structure drv);
       response ← call (ai_create drv step htmlStructure screenshot);
       let aiSelector := reply_text response in
       modify (with_stats (add_cost response));;
       success ← executeDeterministicStep (set_target step aiSelector);
       if success : bool then saveLearnedSolution step aiSelector;; mret true
       else mret false)
      (fun _ => mret false).

Definition inc_totalSteps (s : Stats) : Stats :=
  {| totalSteps := S (totalSteps s); deterministicSuccess := deterministicSuccess s;
     learnedSuccess := learnedSuccess s; aiSuccess := aiSuccess s; failures := failures s;
     aiCost := aiCost s |}.
Definition inc_deterministicSuccess (s : Stats) : Stats :=
  {| totalSteps := totalSteps s; deterministicSuccess := S (deterministicSuccess s);
     learnedSuccess := learnedSuccess s; aiSuccess := aiSuccess s; failures := failures s;
     aiCost := aiCost s |}.
Definition inc_learnedSuccess (s : Stats) : Stats :=
  {| totalSteps := totalSteps s; deterministicSuccess := deterministicSuccess s;
     learnedSuccess := S (learnedSuccess s); aiSuccess := aiSuccess s; failures := failures s;
     aiCost := aiCost s |}.
Definition inc_aiSuccess (s : Stats) : Stats :=
  {| totalSteps := totalSteps s; deterministicSuccess := deterministicSuccess s;
     learnedSuccess := learnedSuccess s; aiSuccess := S (aiSuccess s); failures := failures s;
     aiCost := aiCost s |}.
Definition inc_failures (s : Stats) : Stats :=
  {| totalSteps := totalSteps s; deterministicSuccess := deterministicSuccess s;
     learnedSuccess := learnedSuccess s; aiSuccess := aiSuccess s; failures := S (failures s);
     aiCost := aiCost s |}.

(** One iteration of the loop of [executePromptTest], for the step of index
    [i]. *)
Definition prompt_step (i : nat) (step : Step) : M (State Env) unit :=
  modify (with_stats inc_totalSteps);;
  try_catch
    (success ← executeDeterministicStep step;
     if success : bool then modify (with_stats inc_deterministicSuccess)
     else
       learnedSuccess ← tryLearnedSolution step;
       if learnedSuccess : bool then modify (with_stats inc_learnedSuccess)
       else
         aiSuccess ← tryAiFallback step;
         if aiSuccess : bool then modify (with_stats inc_aiSuccess)
         else throw "All strategies failed")
    (fun message =>
       modify (with_stats inc_failures);;
       let screenshotPath :=
         path_join drv [cfg_outputDir config; "screenshots";
                        "error_step" +:+ pretty (S i) +:+ ".png"] in
       call (page_screenshot drv (Some screenshotPath) true);;
       throw message).

(** The loop of [executePromptTest]. The line that prints the action in
    upper case comes after the count of the step and before the [try]: on
    an element without a usable action its TypeError ends the loop with the
    step counted and nothing else done. *)
Fixpoint prompt_steps (i : nat) (steps : list Generated) : M (State Env) unit :=
  match steps with
  | [] => mret tt
  | inr step :: rest => prompt_step i step;; prompt_steps (S i) rest
  | inl typeError :: _ => modify (with_stats inc_totalSteps);; throw typeError
  end.

(** [generateStepsFromPrompt]: the cost of the request is added once the
    reply is parsed. *)
Definition generateStepsFromPrompt (prompt : string) : M (State Env) GeneratedSteps :=
  '(steps, response) ← call (ai_generate drv prompt);
  modify (with_stats (add_cost response));;
  mret steps.

(** [executePromptTest]: the line that prints [steps.length] throws on
    [null], before the loop. *)
Definition executePromptTest : M (State Env) unit :=
  steps ← generateStepsFromPrompt (cfg_prompt config);
  match steps with
  | inl typeError => throw typeError
  | inr elements => prompt_steps 0 elements
  end.
End Runner.

End CI.

(** ** The [execute_flow] tool *)

Module FlowTool.

Record FlowStep := {
  step : Z;
  action : string;
  target : option string;
  value : option string;
  wait : option Z;
  duration : option Z;
  description : option string;
  exists_ : option bool;
  visible : option bool;
  enabled : option bool;
  contains : option string;
  textIncludes : option (list string);
  minCount : option Z;
  count : option Z;
  condition : option string;
  optional : option bool;
}.

Record FlowDefinition := {
  name : string;
  steps : option (list FlowStep);
  requiredParams : option (list string);
  possibleValues : option (list (string * list string));
}.

(** The flows of the QA context: objects nested by the parts of the dotted
    path, with flow definitions at the leaves. A group object is taken to
    have no child named [steps]. *)
Inductive Node :=
  | Group (children : list (string * Node))
  | Leaf (f : FlowDefinition).

Record QAContext := {
  flows : Node;
  testData : option (gmap string string);
  testCredentials : option (gmap string string);
  metadata_baseUrl : option string;
}.

(** The arguments of the tool. *)
Record Params := {
  flowPath : string;
  params : option (gmap string string);
  takeScreenshots : bool;
  stopOnError : bool;
  baseUrl : option string;
}.

Record Driver (Env : Type) := {
  (** [BrowserManager.getPage()] *)
  getPage : Ext Env unit;
  page_goto : string -> Ext Env unit;
  page_waitForTimeout : Z -> Ext Env unit;
  (** [page.locator(selector).first().waitFor({state, timeout})] *)
  locator_waitFor : string -> string -> Ext Env unit;
  locator_click : string -> Ext Env unit;
  locator_fill : string -> string -> Ext Env unit;
  locator_clear : string -> Ext Env unit;
  locator_count : string -> Ext Env Z;
  locator_isVisible : string -> Ext Env bool;
  locator_textContent : string -> Ext Env (option string);
  locator_isEnabled : string -> Ext Env bool;
  page_url : Env -> string;
  page_screenshot : string -> bool -> Ext Env unit;
  date_now : Env -> Z;
  path_join : list string -> string;
  (** [Instance.worktree] *)
  worktree : string;
}.

Arguments getPage {_}.
Arguments page_goto {_}.
Arguments page_waitForTimeout {_}.
Arguments locator_waitFor {_}.
Arguments locator_click {_}.
Arguments locator_fill {_}.
Arguments locator_clear {_}.
Arguments locator_count {_}.
Arguments locator_isVisible {_}.
Arguments locator_textContent {_}.
Arguments locator_isEnabled {_}.
Arguments page_url {_}.
Arguments page_screenshot {_}.
Arguments date_now {_}.
Arguments path_join {_}.
Arguments worktree {_}.

(** The lines of the execution log that the model keeps: the header of each
    step that starts and how the step ended. *)
Inductive LogEntry :=
  | StepHeader (n : Z)
  | StepCompleted
  | StepFailed (msg : string).

Record State (Env : Type) := {
  env : Env;
  executionLog : list LogEntry;
  screenshots : list string;
  failedStep : option Z;
}.

Arguments env {_}.
Arguments executionLog {_}.
Arguments screenshots {_}.
Arguments failedStep {_}.

Record Outcome := {
  success : bool;
  out_failedStep : option Z;
  stepsExecuted : Z;
  out_log : list LogEntry;
  out_screenshots : list string;
  (** The parameter map the steps were run with. *)
  out_params : gmap string string;
}.

Inductive Result :=
  | ErrorNoContext
  | ErrorNotFound
  | ErrorMissingParams (stillMissing : list string)
  | Executed (o : Outcome).

(** [params[key] !== undefined ? params[key] : match], where [params[key]]
    is an own property or an inherited member. *)
Definition param_or_match (params : gmap string string) (mtch key : string) : string :=
  match js_get params key with
  | Some v => v
  | None => mtch
  end.

Definition substituteParams (str : string) (params : gmap string string) : string :=
  replace_all match_braces (param_or_match params) str.

Definition convertSelector (selector : string) : string :=
  let fallthrough :=
    replace_all match_first_child (fun _ _ => ":nth-child(1)") selector in
  if includes ":contains(" selector then
    match search match_contains selector with
    | Some (_, text, _) =>
        let baseSelector :=
          String.substring 0 (default O (indexOf ":contains" selector)) selector in
        baseSelector +:+ ":has-text(" +:+ String dquote text +:+ String dquote ")"
    | None => fallthrough
    end
  else fallthrough.

(** The walk along the parts of the path: it stops at a value that is not an
    object. Indexing a flow definition by a further part gives a value
    without [steps], which the caller reports as not found. *)
Fixpoint walk (parts : list string) (current : option Node) : option Node :=
  match parts with
  | [] => current
  | part :: parts' =>
      match current with
      | None => None
      | Some (Group children) => walk parts' (jsmap_get part children)
      | Some (Leaf _) => None
      end
  end.

Definition find_flow (path : string) (root : Node) : option (FlowDefinition * list FlowStep) :=
  match walk (split_dots path) (Some root) with
  | Some (Leaf flow) =>
      match steps flow with
      | Some l => Some (flow, l)
      | None => None
      end
  | _ => None
  end.

(** The validation of the required parameters: the parameters that are not
    in the supplied object are taken from the defaults when the default is
    truthy. The result is the completed map and the parameters still
    missing. A missing parameter is never the name of an inherited member,
    so [defaults[missing]] reads an own property. *)
Definition fill_defaults (defaults : gmap string string) (missing : list string)
    (flowParams : gmap string string) : gmap string string :=
  fold_left (fun fp m =>
               match defaults !! m with
               | Some v => if bool_decide (v = "") then fp else <[m := v]> fp
               | None => fp
               end) missing flowParams.

(** [required.filter(p => !(p in flowParams))] *)
Definition missing_in (required : list string) (flowParams : gmap string string) : list string :=
  List.filter (fun p => negb (js_in p flowParams)) required.

Definition validate (flow : FlowDefinition) (qa : QAContext)
    (supplied : option (gmap string string)) : gmap string string * list string :=
  let flowParams := default ∅ supplied in
  let required := default [] (requiredParams flow) in
  let missingParams := missing_in required flowParams in
  match missingParams with
  | [] => (flowParams, [])
  | _ :: _ =>
      let defaults : gmap string string :=
        default ∅ (testCredentials qa) ∪ default ∅ (testData qa) in
      let flowParams := fill_defaults defaults missingParams flowParams in
      (flowParams, missing_in required flowParams)
  end.

Section Execute.
Context {Env : Type}.
Variable drv : Driver Env.

Definition call {A} (f : Ext Env A) : M (State Env) A := fun st =>
  let (e', r) := f (env st) in
  ({| env := e'; executionLog := executionLog st; screenshots := screenshots st;
      failedStep := failedStep st |}, r).

Definition log (e : LogEntry) : M (State Env) unit :=
  modify (fun st => {| env := env st; executionLog := (executionLog st ++ [e])%list;
                       screenshots := screenshots st; failedStep := failedStep st |}).
Definition push_screenshot (p : string) : M (State Env) unit :=
  modify (fun st => {| env := env st; executionLog := executionLog st;
                       screenshots := (screenshots st ++ [p])%list;
                       failedStep := failedStep st |}).
Definition set_failedStep (n : Z) : M (State Env) unit :=
  modify (fun st => {| env := env st; executionLog := executionLog st;
                       screenshots := screenshots st; failedStep := Some n |}).

(** The value of a promise with [.catch(() => fallback)]. *)
Definition or_else {A} (f : Ext Env A) (fallback : A) : M (State Env) A :=
  try_catch (call f) (fun _ => mret fallback).

Definition check (ok : bool) (msg : string) : M (State Env) unit :=
  if ok then mret tt else throw msg.

(** The [verify] case after the special case of the URL. *)
Definition verify_checks (stepDef : FlowStep) (target selector : string) : M (State Env) unit :=
  match exists_ stepDef with
   | Some ex =>
       n ← call (locator_count drv selector);
       check (negb (ex && bool_decide (n = 0%Z))) ("Element not found: " +:+ target);;
       check (negb (negb ex && bool_decide (0 < n)%Z))
             ("Element should not exist: " +:+ target)
   | None => mret tt
   end;;
  match visible stepDef with
   | Some v =>
       isVisible ← or_else (locator_isVisible drv selector) false;
       check (negb (v && negb isVisible)) ("Element not visible: " +:+ target);;
       check (negb (negb v && isVisible)) ("Element should not be visible: " +:+ target)
   | None => mret tt
   end;;
  (if truthy (contains stepDef) then
     let wanted := default "" (contains stepDef) in
     text ← or_else (locator_textContent drv selector) (Some "");
     check (match text with Some t => includes wanted t | None => false end)
           ("Element does not contain " +:+ String dquote wanted +:+ String dquote ""
            +:+ ". Found: " +:+ default "null" text)
   else mret tt);;
  match textIncludes stepDef with
   | Some (str :: strs) =>
       text ← or_else (locator_textContent drv selector) (Some "");
       check (existsb (fun s => match text with Some t => includes s t | None => false end)
                      (str :: strs))
             ("Element does not contain any of: " +:+ String.concat ", " (str :: strs)
              +:+ ". Found: " +:+ default "null" text)
   | _ => mret tt
   end;;
  match count stepDef with
   | Some k =>
       n ← call (locator_count drv selector);
       check (bool_decide (n = k))
             ("Expected " +:+ pretty k +:+ " elements, found " +:+ pretty n)
   | None => mret tt
   end;;
  match minCount stepDef with
   | Some k =>
       n ← call (locator_count drv selector);
       check (negb (bool_decide (n < k)%Z))
             ("Expected at least " +:+ pretty k +:+ " elements, found " +:+ pretty n)
   | None => mret tt
   end;;
  match enabled stepDef with
   | Some en =>
       isEnabled ← or_else (locator_isEnabled drv selector) false;
       check (negb (en && negb isEnabled)) ("Element not enabled: " +:+ target);;
       check (negb (negb en && isEnabled)) ("Element should not be enabled: " +:+ target)
   | None => mret tt
   end.

(** The body of the [try] block of one iteration. *)
Definition step_try (stepDef : FlowStep) (flowParams : gmap string string)
    (baseUrl screenshotDir : string) (shots : bool) : M (State Env) unit :=
  let target := substituteParams (js_or (target stepDef) "") flowParams in
  let value := substituteParams (js_or (value stepDef) "") flowParams in
  let act := action stepDef in
  call (getPage drv);;
  (if bool_decide (act = "navigate") then
     let url := if String.prefix "http" target then target else baseUrl +:+ target in
     call (page_goto drv url);;
     match wait stepDef with
     | Some w => if bool_decide (w = 0%Z) then mret tt else call (page_waitForTimeout drv w)
     | None => mret tt
     end
   else if bool_decide (act = "click") then
     call (locator_waitFor drv (convertSelector target) "visible");;
     call (locator_click drv (convertSelector target))
   else if bool_decide (act = "type") then
     call (locator_waitFor drv (convertSelector target) "visible");;
     call (locator_fill drv (convertSelector target) value)
   else if bool_decide (act = "clear") then
     call (locator_waitFor drv (convertSelector target) "visible");;
     call (locator_clear drv (convertSelector target))
   else if bool_decide (act = "wait") then
     match duration stepDef with
     | Some d =>
         if bool_decide (d = 0%Z) then
           if truthy (FlowTool.target stepDef)
           then call (locator_waitFor drv (convertSelector target)
                        (js_or (condition stepDef) "visible"))
           else mret tt
         else call (page_waitForTimeout drv d)
     | None =>
         if truthy (FlowTool.target stepDef)
         then call (locator_waitFor drv (convertSelector target)
                      (js_or (condition stepDef) "visible"))
         else mret tt
     end
   else if bool_decide (act = "verify") then
     if bool_decide (target = "url") then
       st ← get_state;
       let currentUrl := page_url drv (env st) in
       check (negb (truthy (contains stepDef)
                    && negb (includes (default "" (contains stepDef)) currentUrl)))
             ("URL does not contain " +:+ String dquote (default "" (contains stepDef))
              +:+ String dquote "" +:+ ". Current: " +:+ currentUrl)
     else verify_checks stepDef target (convertSelector target)
   else mret tt);;
  (if shots && (bool_decide (act = "navigate") || bool_decide (act = "click")
                || bool_decide (act = "verify")) then
     st ← get_state;
     let filename := "step-" +:+ pretty (step stepDef) +:+ "-" +:+ act +:+ "-"
                     +:+ pretty (date_now drv (env st)) +:+ ".png" in
     let screenshotPath := path_join drv [screenshotDir; filename] in
     call (page_screenshot drv screenshotPath false);;
     push_screenshot screenshotPath
   else mret tt);;
  log StepCompleted.

(** The [catch] block of one iteration. *)
Definition step_catch (stepDef : FlowStep) (screenshotDir : string) (shots : bool)
    (message : string) : M (State Env) unit :=
  set_failedStep (step stepDef);;
  log (StepFailed message);;
  if shots then
    try_catch
      (call (getPage drv);;
       st ← get_state;
       let filename := "step-" +:+ pretty (step stepDef) +:+ "-FAILED-"
                       +:+ pretty (date_now drv (env st)) +:+ ".png" in
       let screenshotPath := path_join drv [screenshotDir; filename] in
       call (page_screenshot drv screenshotPath true);;
       push_screenshot screenshotPath)
      (fun _ => mret tt)
  else mret tt.

(** The loop over the steps; it never throws. *)
Fixpoint run_steps (l : list FlowStep) (flowParams : gmap string string)
    (baseUrl screenshotDir : string) (shots stop : bool) (st : State Env) : State Env :=
  match l with
  | [] => st
  | stepDef :: rest =>
      let (st1, _) := log (StepHeader (step stepDef)) st in
      match step_try stepDef flowParams baseUrl screenshotDir shots st1 with
      | (st2, inr _) => run_steps rest flowParams baseUrl screenshotDir shots stop st2
      | (st2, inl message) =>
          let (st3, _) := step_catch stepDef screenshotDir shots message st2 in
          if stop && negb (bool_decide (optional stepDef = Some true)) then st3
          else run_steps rest flowParams baseUrl screenshotDir shots stop st3
      end
  end.

Definition first_part (path : string) : string :=
  match split_dots path with
  | p :: _ => p
  | [] => ""
  end.

Definition execute (qaContext : option QAContext) (args : Params) (e : Env) : Env * Result :=
  match qaContext with
  | None => (e, ErrorNoContext)
  | Some qa =>
      match find_flow (flowPath args) (flows qa) with
      | None => (e, ErrorNotFound)
      | Some (flow, flowSteps) =>
          let (flowParams, stillMissing) := validate flow qa (params args) in
          match stillMissing with
          | _ :: _ => (e, ErrorMissingParams stillMissing)
          | [] =>
              let screenshotDir :=
                path_join drv [worktree drv; ".opencode"; "screenshots";
                               first_part (flowPath args)] in
              let baseUrl := js_or (baseUrl args) (js_or (metadata_baseUrl qa) "") in
              let st := run_steps flowSteps flowParams baseUrl screenshotDir
                          (takeScreenshots args) (stopOnError args)
                          {| env := e; executionLog := []; screenshots := [];
                             failedStep := None |} in
              (env st,
               Executed
                 {| success := bool_decide (failedStep st = None);
                    out_failedStep := failedStep st;
                    stepsExecuted :=
                      match failedStep st with
                      | Some n => if bool_decide (n = 0%Z)
                                  then Z.of_nat (length flowSteps) else n
                      | None => Z.of_nat (length flowSteps)
                      end;
                    out_log := executionLog st;
                    out_screenshots := screenshots st;
                    out_params := flowParams |})
          end
      end
  end.
End Execute.

End FlowTool.

(** ** Predicates used in the statements *)

Definition conf_in_range (s : Solution) : Prop :=
  (hundredths 30 <= confidence s)%Qc /\ (confidence s <= hundredths 99)%Qc.

(** Every entry of the knowledge base has its confidence in the range. *)
Definition kb_conf_ok (kb : KnowledgeBase) : Prop :=
  forall k s, jsmap_get k (solutions kb) = Some s -> conf_in_range s.

(** Every entry is stored under its own id and no key is repeated: what
    [loadKnowledgeBase] builds and what the three updates preserve. *)
Definition kb_keys_ok (kb : KnowledgeBase) : Prop :=
  NoDup (jsmap_keys (solutions kb))
  /\ forall k s, (k, s) ∈ solutions kb -> k = sol_id s.

(** One update of the knowledge base by the resolver. *)
Inductive kb_update (md5_hex : string -> string) : KnowledgeBase -> KnowledgeBase -> Prop :=
  | kb_update_solution step learned context now kb :
      kb_update md5_hex kb (recordSolution md5_hex step learned context now kb)
  | kb_update_success solutionId now kb :
      kb_update md5_hex kb (recordSuccess solutionId now kb)
  | kb_update_failure solutionId kb :
      kb_update md5_hex kb (recordFailure solutionId kb).

(** The attempts of one step are in tier order, start with the deterministic
    tier, and every attempt but the last one failed. *)
Definition tiers_in_order (d : list (Tier * bool)) : Prop :=
  StronglySorted (fun a b => tier_rank a < tier_rank b) d.*1
  /\ head d.*1 = Some Deterministic
  /\ forall i t ok, d !! i = Some (t, ok) -> S i < length d -> ok = false.







Definition no_brace (s : string) : Prop := "{"%char ∉ chars s.

(** What follows an opening brace shows, inside the text itself, that the
    brace starts no token: the word characters after it end at a character
    of the text, and either there are none or that character is not a
    closing brace. *)
Definition brace_closed (r : string) : bool :=
  let (key, r') := span is_word r in
  match r' with
  | String c _ => bool_decide (key = "") || negb (bool_decide (c = "}"%char))
  | EmptyString => false
  end.

(** No opening brace of the text starts a token, whatever follows the
    text. *)
Fixpoint inert_braces (t : string) : bool :=
  match t with
  | EmptyString => true
  | String c t' =>
      (if bool_decide (c = "{"%char) then brace_closed t' else true) && inert_braces t'
  end.




(** The two states differ at most in the outside world. *)
Definition same_but_env {Env} (st st' : State Env) : Prop :=
  knowledgeBase st' = knowledgeBase st
  /\ hybridStats st' = hybridStats st
  /\ flowsData st' = flowsData st
  /\ screenshots st' = screenshots st
  /\ attempts st' = attempts st
  /\ kbReads st' = kbReads st.

Definition env_only {Env A} (m : M (State Env) A) : Prop :=
  forall st, same_but_env st (m st).1.

(** The condition under which the third tier is entered. *)
Definition configured (aiClient : bool) (config : Config) : bool :=
  aiClient && bool_decide (cfg_mode config = "hybrid").

(** The paths of the resolver through its tiers for one step that is
    neither a navigation nor a screenshot, seen from the knowledge base:
    the attempts made, the number of lookups, the knowledge base left
    behind, and whether the step is done. [configured] tells whether an AI
    client exists and the mode is hybrid. *)
Inductive ai_resolution (md5_hex : string -> string) (configured : bool)
    (step : Step) (context : ExecutionContext) (kb : KnowledgeBase) :
    list (Tier * bool) -> KnowledgeBase -> bool -> Prop :=
  | ai_skipped :
      configured = false -> ai_resolution md5_hex configured step context kb [] kb false
  | ai_failed :
      configured = true ->
      ai_resolution md5_hex configured step context kb [(AI, false)] kb false
  | ai_succeeded learned now :
      configured = true ->
      ai_resolution md5_hex configured step context kb [(AI, true)]
        (recordSolution md5_hex step learned context now kb) true.

(** What [executeStepHybrid] returns or throws after its tiers. *)
Definition outcome (step : Step) (ok : bool) : string + unit :=
  if ok then inr tt else inl (all_failed step).

Inductive resolution (md5_hex : string -> string) (configured : bool)
    (step : Step) (context : ExecutionContext) (kb : KnowledgeBase) :
    list (Tier * bool) -> nat -> KnowledgeBase -> string + unit -> Prop :=
  | res_deterministic :
      resolution md5_hex configured step context kb [(Deterministic, true)] 0 kb (inr tt)
  | res_learned solution now :
      findLearnedSolution md5_hex step context kb = inr (Some solution) ->
      resolution md5_hex configured step context kb
        [(Deterministic, false); (Learned, true)] 1
        (recordSuccess (sol_id solution) now kb) (inr tt)
  | res_learned_failed solution d kb' ok :
      findLearnedSolution md5_hex step context kb = inr (Some solution) ->
      ai_resolution md5_hex configured step context
        (recordFailure (sol_id solution) kb) d kb' ok ->
      resolution md5_hex configured step context kb
        ((Deterministic, false) :: (Learned, false) :: d) 1 kb' (outcome step ok)
  | res_nothing_learned d kb' ok :
      findLearnedSolution md5_hex step context kb = inr None ->
      ai_resolution md5_hex configured step context kb d kb' ok ->
      resolution md5_hex configured step context kb
        ((Deterministic, false) :: d) 1 kb' (outcome step ok)
  | res_lookup_threw e :
      findLearnedSolution md5_hex step context kb = inl e ->
      resolution md5_hex configured step context kb
        [(Deterministic, false)] 1 kb (inl e).

(** The same paths seen from the state of the process: what each tier runs,
    on which state, and the state and result that the step leaves. *)
Section TierPaths.
Context {Env Element : Type}.
Variable md5_hex : string -> string.
Variable drv : Driver Env Element.
Variable aiClient : bool.
Variables (step : Step) (config : Config) (context : ExecutionContext).

(** The selector and the value that the tiers work with. *)
Definition step_selector : string :=
  Hybrid.convertSelector
    (Hybrid.replaceParams (js_or (js_or_opt (selector step) (target step)) "")
       (runner_params config)).

Definition step_value : string :=
  Hybrid.replaceParams (js_or (value step) "") (runner_params config).

Inductive ai_run (st : State Env) :
    list (Tier * bool) -> State Env -> string + unit -> Prop :=
  | ai_run_skipped :
      configured aiClient config = false ->
      ai_run st [] st (inl (all_failed step))
  | ai_run_done st1 sel conf :
      configured aiClient config = true ->
      executeWithAI drv step context st = (st1, inr (AiSuccess sel conf)) ->
      ai_run st [(AI, true)]
        (with_stats add_aiCost
           (with_stats inc_aiSuccess
              (with_kb (recordSolution md5_hex step sel context (date_iso drv (env st1)))
                 (note_attempt AI true st1))))
        (inr tt)
  | ai_run_failed st1 error :
      configured aiClient config = true ->
      executeWithAI drv step context st = (st1, inr (AiFailure error)) ->
      ai_run st [(AI, false)] (note_attempt AI false st1) (inl (all_failed step))
  | ai_run_threw st1 e :
      configured aiClient config = true ->
      executeWithAI drv step context st = (st1, inl e) ->
      ai_run st [(AI, false)] (with_stats add_aiCost (note_attempt AI false st1))
        (inl (all_failed step)).

(** The state in which the second tier starts, after the failure [st1] of
    the first: the attempt is noted and the lookup is counted. *)
Definition after_deterministic (st1 : State Env) : State Env :=
  note_kbRead (note_attempt Deterministic false st1).

Inductive tier_run (st : State Env) :
    list (Tier * bool) -> State Env -> string + unit -> Prop :=
  | run_deterministic st1 :
      executeAction drv (action step) step_selector (Some step_value) step
        (with_stats inc_totalSteps st) = (st1, inr tt) ->
      tier_run st [(Deterministic, true)]
        (with_stats inc_deterministicSuccess (note_attempt Deterministic true st1))
        (inr tt)
  | run_lookup_threw st1 e1 e :
      executeAction drv (action step) step_selector (Some step_value) step
        (with_stats inc_totalSteps st) = (st1, inl e1) ->
      findLearnedSolution md5_hex step context (knowledgeBase st) = inl e ->
      tier_run st [(Deterministic, false)] (after_deterministic st1) (inl e)
  | run_learned st1 e1 solution st2 :
      executeAction drv (action step) step_selector (Some step_value) step
        (with_stats inc_totalSteps st) = (st1, inl e1) ->
      findLearnedSolution md5_hex step context (knowledgeBase st) = inr (Some solution) ->
      executeAction drv (action step) (learnedSelector solution) (Some step_value) step
        (after_deterministic st1) = (st2, inr tt) ->
      tier_run st [(Deterministic, false); (Learned, true)]
        (with_stats inc_learnedSuccess
           (with_kb (recordSuccess (sol_id solution) (date_iso drv (env st2)))
              (note_attempt Learned true st2)))
        (inr tt)
  | run_learned_failed st1 e1 solution st2 e2 d st' r :
      executeAction drv (action step) step_selector (Some step_value) step
        (with_stats inc_totalSteps st) = (st1, inl e1) ->
      findLearnedSolution md5_hex step context (knowledgeBase st) = inr (Some solution) ->
      executeAction drv (action step) (learnedSelector solution) (Some step_value) step
        (after_deterministic st1) = (st2, inl e2) ->
      ai_run (with_kb (recordFailure (sol_id solution)) (note_attempt Learned false st2))
        d st' r ->
      tier_run st ((Deterministic, false) :: (Learned, false) :: d) st' r
  | run_nothing_learned st1 e1 d st' r :
      executeAction drv (action step) step_selector (Some step_value) step
        (with_stats inc_totalSteps st) = (st1, inl e1) ->
      findLearnedSolution md5_hex step context (knowledgeBase st) = inr None ->
      ai_run (after_deterministic st1) d st' r ->
      tier_run st ((Deterministic, false) :: d) st' r.
End TierPaths.

(** The computation leaves the component [proj] of the state as it is. *)
Definition preserves {S X A} (proj : S -> X) (m : M S A) : Prop :=
  forall st, proj (m st).1 = proj st.

(** A text seen by a matcher: a sequence of segments, each either a text in
    which the matcher finds nothing, whatever follows, or a text that the
    matcher takes as a whole, with its captured group. *)
Definition Seg : Type := string * option string.

Fixpoint seg_in (segs : list Seg) : string :=
  match segs with
  | [] => ""
  | (t, _) :: segs' => t +:+ seg_in segs'
  end.

Fixpoint seg_out (f : string -> string -> string) (segs : list Seg) : string :=
  match segs with
  | [] => ""
  | (t, None) :: segs' => t +:+ seg_out f segs'
  | (t, Some g) :: segs' => f t g +:+ seg_out f segs'
  end.

(** The matcher fails at every position of [t] when [rest] follows. *)
Fixpoint fails_within (m : Matcher) (t rest : string) : Prop :=
  match t with
  | EmptyString => True
  | String c t' => m (String c t' +:+ rest) = None /\ fails_within m t' rest
  end.

Definition seg_ok (m : Matcher) (seg : Seg) : Prop :=
  match seg with
  | (t, None) => forall rest, fails_within m t rest
  | (t, Some g) => t <> "" /\ forall rest, m (t +:+ rest) = Some (g, String.length t)
  end.




(** The selector that is only the contains pseudo-function with the text
    [x] in single quotes. *)
Definition bare_contains (x : string) : string := ":contains('" +:+ x +:+ "')".

(** ** Concrete instances for the examples

    Drivers over an outside world that is a counter of the calls made, and
    small flows. *)

Definition demo_now : string := "2025-01-01T00:00:00.000Z".

Definition ext_ok {A} (a : A) : Ext nat A := fun e => (S e, inr a).
Definition ext_fail {A} (msg : string) : Ext nat A := fun e => (S e, inl msg).

(** A page on which the selectors accepted by [present] exist and every
    other selector times out; the AI service gives no usable reply. *)
Definition demo_driver (present : string -> bool) : Driver nat unit :=
  {| page_goto := fun _ _ => ext_ok tt;
     page_waitForTimeout := fun _ => ext_ok tt;
     page_click := fun sel =>
       if present sel then ext_ok tt else ext_fail "Timeout 10000ms exceeded.";
     page_fill := fun sel _ =>
       if present sel then ext_ok tt else ext_fail "Timeout 10000ms exceeded.";
     locator_count := fun sel => ext_ok (if present sel then 1%Z else 0%Z);
     page_waitForSelector := fun sel _ _ =>
       if present sel then ext_ok (Some tt) else ext_fail "Timeout 10000ms exceeded.";
     element_textContent := fun _ => ext_ok (Some "");
     element_isDisabled := fun _ => ext_ok false;
     page_screenshot := fun _ _ => ext_ok "png";
     page_url := fun _ => "http://localhost:3000/login";
     page_simplifiedDOM := ext_ok "<body></body>";
     ai_create := fun _ _ _ _ _ _ => ext_ok AiNoJson;
     ai_generateSteps := fun _ => ext_fail "no generator";
     date_iso := fun _ => demo_now;
     str_isNaN := fun _ => true;
     str_parseInt := fun _ => 0%Z;
     path_join := String.concat "/" |}.

Definition demo_step (act sel : string) : Step :=
  {| action := act; selector := None; target := Some sel; value := None;
     step_url := None; description := None; wait := None; duration := None;
     filename := None; exists_ := None; visible := None; enabled := None;
     contains := None; textIncludes := None; minCount := None; count := None;
     condition := None; optional := None |}.

Definition demo_config : Config :=
  {| cfg_url := "http://localhost:3000"; cfg_email := Some "qa@example.com";
     cfg_password := Some "secret"; cfg_mode := "hybrid";
     cfg_outputDir := "qa-results"; cfg_flows := "QA_FLOWS.json" |}.

Definition demo_context : ExecutionContext :=
  {| ctx_flowPath := "demo.click"; ctx_url := "http://localhost:3000";
     ctx_pageType := "general" |}.

Definition empty_kb : KnowledgeBase :=
  {| solutions := []; patterns := []; basePath := ".opencode/qa-knowledge" |}.

Definition demo_flows : FlowNode :=
  NGroup [("demo",
           NGroup [("click",
                    NFlow {| flow_name := Some "Click"; flow_prompt := None;
                             flow_steps := Some [demo_step "click" "#missing"] |})])].

Definition demo_state (kb : KnowledgeBase) : State nat :=
  {| env := 0; knowledgeBase := kb;
     hybridStats := {| deterministicSuccess := 0; learnedSuccess := 0; aiSuccess := 0;
                       totalSteps := 0; aiCost := hundredths 0 |};
     flowsData := demo_flows; screenshots := []; attempts := []; kbReads := 0 |}.

(** A solution as the AI tier records it for the demo step, and the same
    solution with another confidence. *)
Definition demo_solution (conf : Qc) : Solution :=
  {| sol_id := generateKey md5_hexdigest (demo_step "click" "#missing");
     sol_flowPath := Some "demo.click"; stepAction := "click";
     originalSelector := "#missing"; learnedSelector := "#login";
     confidence := conf; successCount := 1; failureCount := 0;
     pageContext := Some {| pc_url := "http://localhost:3000"; pc_pageType := "general" |};
     learnedAt := demo_now; lastUsed := demo_now |}.

Definition demo_kb (conf : Qc) : KnowledgeBase :=
  {| solutions := [(sol_id (demo_solution conf), demo_solution conf)];
     patterns := []; basePath := ".opencode/qa-knowledge" |}.



(** The CI runner on a page of the same kind. *)
Definition ci_demo_driver (present : string -> bool) : CI.Driver nat :=
  {| CI.page_goto := fun _ => ext_ok tt;
     CI.page_waitForTimeout := fun _ => ext_ok tt;
     CI.locator_first_click := fun sel =>
       if present (default "" sel) then ext_ok tt
       else ext_fail "Timeout 10000ms exceeded.";
     CI.page_fill := fun sel _ =>
       if present (default "" sel) then ext_ok tt
       else ext_fail "Timeout 10000ms exceeded.";
     CI.locator_count := fun sel => ext_ok (if present (default "" sel) then 1%Z else 0%Z);
     CI.page_waitForSelector := fun sel _ =>
       if present (default "" sel) then ext_ok true
       else ext_fail "Timeout 10000ms exceeded.";
     CI.page_screenshot := fun _ _ => ext_ok "png";
     CI.page_structure := ext_ok "body";
     CI.ai_create := fun _ _ _ => ext_fail "no service";
     CI.ai_generate := fun _ =>
       ext_ok (inr [inr (demo_step "click" "#missing")],
               {| CI.reply_text := ""; CI.input_tokens := 400; CI.output_tokens := 80 |});
     CI.date_iso := fun _ => demo_now;
     CI.date_now := fun _ => 1735689600000%Z;
     CI.parse_wait := fun _ => 0%Z;
     CI.path_join := String.concat "/" |}.

Definition ci_demo_config : CI.Config :=
  {| CI.cfg_url := "http://localhost:3000"; CI.cfg_outputDir := "qa-results";
     CI.cfg_knowledgeDir := ".opencode/qa-knowledge"; CI.cfg_prompt := "log in" |}.

Definition ci_demo_solution (conf : Qc) : CI.Solution :=
  {| CI.sol_id := "click-1735689600000"; CI.stepAction := "click";
     CI.originalSelector := Some "#missing"; CI.learnedSelector := "#login";
     CI.confidence := conf; CI.successCount := 1; CI.failureCount := 0;
     CI.learnedAt := demo_now; CI.lastUsed := demo_now |}.

Definition ci_demo_state (conf : Qc) : CI.State nat :=
  {| CI.env := 0;
     CI.disk := {[ ".opencode/qa-knowledge/solutions.json" :=
                     CI.FKnowledge {| CI.version := "1.0"; CI.lastUpdated := Some demo_now;
                                      CI.solutions := [ci_demo_solution conf] |} ]};
     CI.stats := {| CI.totalSteps := 0; CI.deterministicSuccess := 0;
                    CI.learnedSuccess := 0; CI.aiSuccess := 0; CI.failures := 0;
                    CI.aiCost := hundredths 0 |};
     CI.kbReads := 0 |}.

(** The tool on a page of the same kind, with a flow that requires one
    parameter. *)
Definition tool_demo_driver (present : string -> bool) : FlowTool.Driver nat :=
  {| FlowTool.getPage := ext_ok tt;
     FlowTool.page_goto := fun _ => ext_ok tt;
     FlowTool.page_waitForTimeout := fun _ => ext_ok tt;
     FlowTool.locator_waitFor := fun sel _ =>
       if present sel then ext_ok tt else ext_fail "Timeout 10000ms exceeded.";
     FlowTool.locator_click := fun _ => ext_ok tt;
     FlowTool.locator_fill := fun _ _ => ext_ok tt;
     FlowTool.locator_clear := fun _ => ext_ok tt;
     FlowTool.locator_count := fun sel => ext_ok (if present sel then 1%Z else 0%Z);
     FlowTool.locator_isVisible := fun sel => ext_ok (present sel);
     FlowTool.locator_textContent := fun _ => ext_ok (Some "");
     FlowTool.locator_isEnabled := fun sel => ext_ok (present sel);
     FlowTool.page_url := fun _ => "http://localhost:3000/login";
     FlowTool.page_screenshot := fun _ _ => ext_ok tt;
     FlowTool.date_now := fun _ => 1735689600000%Z;
     FlowTool.path_join := String.concat "/";
     FlowTool.worktree := "/repo" |}.

Definition tool_demo_step : FlowTool.FlowStep :=
  {| FlowTool.step := 1; FlowTool.action := "type";
     FlowTool.target := Some "input[name=email]"; FlowTool.value := Some "{email}";
     FlowTool.wait := None; FlowTool.duration := None; FlowTool.description := None;
     FlowTool.exists_ := None; FlowTool.visible := None; FlowTool.enabled := None;
     FlowTool.contains := None; FlowTool.textIncludes := None;
     FlowTool.minCount := None; FlowTool.count := None; FlowTool.condition := None;
     FlowTool.optional := None |}.

Definition tool_demo_flow : FlowTool.FlowDefinition :=
  {| FlowTool.name := "Login"; FlowTool.steps := Some [tool_demo_step];
     FlowTool.requiredParams := Some ["email"]; FlowTool.possibleValues := None |}.

(** The QA context whose test data hold [email_default] for the email, when
    given. *)
Definition tool_demo_qa (email_default : option string) : FlowTool.QAContext :=
  {| FlowTool.flows :=
       FlowTool.Group [("authentication",
                        FlowTool.Group [("login", FlowTool.Leaf tool_demo_flow)])];
     FlowTool.testData :=
       Some (match email_default with
             | Some v => {[ "email" := v ]}
             | None => ∅
             end);
     FlowTool.testCredentials := None;
     FlowTool.metadata_baseUrl := Some "http://localhost:3000" |}.



Definition tool_demo_args : FlowTool.Params :=
  {| FlowTool.flowPath := "authentication.login"; FlowTool.params := None;
     FlowTool.takeScreenshots := false; FlowTool.stopOnError := true;
     FlowTool.baseUrl := None |}.

(** A solutions file and the disk that holds it. *)
Definition demo_file (date : string) (sols : list Solution) : SolutionsData :=
  {| sd_version := "1.0"; sd_lastUpdated := date; sd_solutions := sols |}.

Definition demo_disk (date : string) (sols : list Solution) : gmap string FileData :=
  {[ "kb/solutions.json" := FSolutions (demo_file date sols) ]}.

(** ** Further predicates and instances *)

(** A lower-case hexadecimal digit. *)
Definition is_lower_hex (c : Ascii.ascii) : bool :=
  let n := N_of_ascii c in
  ((48 <=? n) && (n <=? 57) || (97 <=? n) && (n <=? 102))%N.

(** Every pattern is stored under its own id and no key is repeated. *)
Definition patterns_keys_ok (kb : KnowledgeBase) : Prop :=
  NoDup (jsmap_keys (patterns kb))
  /\ forall k p, (k, p) ∈ patterns kb -> k = pat_id p.

(** The steps that some tier resolved, and the number of successful
    attempts of a tier among the attempts of a step. *)
Definition successes (h : HybridStats) : nat :=
  deterministicSuccess h + learnedSuccess h + aiSuccess h.

Definition tally (t : Tier) (d : list (Tier * bool)) : nat :=
  length (List.filter (fun a => bool_decide (a = (t, true))) d).

(** No solution has a confidence above 0.75: the lookup can return none. *)
Definition kb_unused (kb : KnowledgeBase) : Prop :=
  Forall (fun s => (confidence s <= hundredths 75)%Qc) (jsmap_values (solutions kb)).

(** Whether a step or a sequence of steps returned. *)
Definition is_done (r : string + unit) : bool :=
  match r with inr _ => true | inl _ => false end.

(** The two states agree on what the process keeps about its run: the
    knowledge base, the counters and the instrumentation. *)
Definition inner_eq {Env} (st st' : State Env) : Prop :=
  knowledgeBase st' = knowledgeBase st /\ hybridStats st' = hybridStats st
  /\ attempts st' = attempts st /\ kbReads st' = kbReads st.

(** The cost between two states of a run: it is the old cost with 0.016
    added a number of times that lies between the steps that the AI tier
    resolved and the steps that were counted. *)
Definition cost_bounds {Env} (st st' : State Env) : Prop :=
  totalSteps (hybridStats st) <= totalSteps (hybridStats st')
  /\ aiSuccess (hybridStats st) <= aiSuccess (hybridStats st')
  /\ exists charges,
       aiSuccess (hybridStats st') - aiSuccess (hybridStats st) <= charges
       /\ charges <= totalSteps (hybridStats st') - totalSteps (hybridStats st)
       /\ aiCost (hybridStats st')
          = aiCost (Nat.iter charges add_aiCost (hybridStats st)).

(** A solution as [recordSolution] makes it. *)
Definition fresh_solution (s : Solution) : Prop :=
  confidence s = hundredths 70 /\ successCount s = 1%Z /\ failureCount s = 0%Z.

(** From a knowledge base that the lookup cannot use to another one, with
    no attempt of the learned tier in between. *)
Definition unused_run {Env} (st st' : State Env) : Prop :=
  kb_unused (knowledgeBase st) ->
  kb_unused (knowledgeBase st')
  /\ learnedSuccess (hybridStats st') = learnedSuccess (hybridStats st)
  /\ (exists d, attempts st' = (attempts st ++ d)%list /\ forall ok, (Learned, ok) ∉ d)
  /\ (forall s, s ∈ jsmap_values (solutions (knowledgeBase st')) ->
        s ∈ jsmap_values (solutions (knowledgeBase st)) \/ fresh_solution s).

(** Between two states of a run without the AI tier: nothing was charged,
    the AI tier resolved nothing and made no attempt, and the knowledge base
    has the same keys. *)
Definition no_ai_run {Env} (st st' : State Env) : Prop :=
  aiCost (hybridStats st') = aiCost (hybridStats st)
  /\ aiSuccess (hybridStats st') = aiSuccess (hybridStats st)
  /\ (exists d, attempts st' = (attempts st ++ d)%list /\ forall b, (AI, b) ∉ d)
  /\ (kb_keys_ok (knowledgeBase st) ->
      kb_keys_ok (knowledgeBase st')
      /\ jsmap_keys (solutions (knowledgeBase st'))
         = jsmap_keys (solutions (knowledgeBase st))).

(** The walk along the parts of a path through the children of the groups:
    a child of a group is a property of its own, which is what
    [current[part]] gives whatever the group inherits. *)
Fixpoint own_walk (parts : list string) (current : FlowNode) : option FlowNode :=
  match parts with
  | [] => Some current
  | part :: parts' =>
      match current with
      | NGroup children =>
          match jsmap_get part children with
          | Some next => own_walk parts' next
          | None => None
          end
      | _ => None
      end
  end.

(** The walk leaves the groups at a part that is neither a child of the
    group reached nor the name of an inherited member: [current[part]] is
    [undefined] there. *)
Fixpoint path_missing (parts : list string) (current : FlowNode) : Prop :=
  match parts, current with
  | part :: parts', NGroup children =>
      match jsmap_get part children with
      | Some next => path_missing parts' next
      | None => inherited part = false
      end
  | _, _ => False
  end.

(** The actions that [executeAction] knows. *)
Definition supported_actions : list string :=
  ["click"; "type"; "fill"; "clear"; "verify"; "wait"; "navigate"; "screenshot"].

(** A selector cut into parts: a text without a colon, the first-child
    pseudo-class, or the contains pseudo-function with its two quotes and
    its text. *)
Inductive SelPiece :=
  | SelText (text : string)
  | SelFirstChild
  | SelContains (q1 q2 : Ascii.ascii) (text : string).

Definition sel_render (p : SelPiece) : string :=
  match p with
  | SelText t => t
  | SelFirstChild => ":first-child"
  | SelContains q1 q2 x => ":contains(" +:+ String q1 x +:+ String q2 ")"
  end.

Definition sel_ok (p : SelPiece) : Prop :=
  match p with
  | SelText t => ":"%char ∉ chars t
  | SelFirstChild => True
  | SelContains q1 q2 x =>
      is_quote q1 = true /\ is_quote q2 = true /\ x <> ""
      /\ Forall (fun c => negb (is_quote c) = true) (chars x)
  end.

(** The selector made of the parts, each written by [f]. *)
Fixpoint sel_with (f : SelPiece -> string) (ps : list SelPiece) : string :=
  match ps with
  | [] => ""
  | p :: ps' => f p +:+ sel_with f ps'
  end.

Definition has_text_of (x : string) : string :=
  ":has-text(" +:+ String dquote x +:+ String dquote ")".

(** What the hybrid runner makes of a part, and what the tool makes of a
    part of a selector that has no contains. *)
Definition hybrid_sel (p : SelPiece) : string :=
  match p with
  | SelContains _ _ x => has_text_of x
  | _ => sel_render p
  end.

Definition tool_sel (p : SelPiece) : string :=
  match p with
  | SelFirstChild => ":nth-child(1)"
  | _ => sel_render p
  end.

Definition is_contains (p : SelPiece) : bool :=
  match p with SelContains _ _ _ => true | _ => false end.

(** What the tool makes of a selector that has a contains: the parts before
    the first one as they are, then the has-text of the first one. *)
Fixpoint tool_first (ps : list SelPiece) : string :=
  match ps with
  | [] => ""
  | SelContains _ _ x :: _ => has_text_of x
  | p :: ps' => sel_render p +:+ tool_first ps'
  end.

(** The matcher of a fixed text. *)
Definition starts (p : string) : Matcher := fun s =>
  if String.prefix p s then Some ("", String.length p) else None.

(** The parts as the matcher of the contains and the matcher of the
    first-child see them. *)
Definition contains_seg (p : SelPiece) : Seg :=
  match p with
  | SelContains _ _ x => (sel_render p, Some x)
  | _ => (sel_render p, None)
  end.

Definition first_child_seg (p : SelPiece) : Seg :=
  match p with
  | SelFirstChild => (sel_render p, Some "")
  | _ => (sel_render p, None)
  end.

(** The log of a run of the tool: for every step that was started, its
    number and the message of its failure, if it failed. *)
Fixpoint log_of (runs : list (Z * option string)) : list FlowTool.LogEntry :=
  match runs with
  | [] => []
  | (n, None) :: runs' =>
      FlowTool.StepHeader n :: FlowTool.StepCompleted :: log_of runs'
  | (n, Some msg) :: runs' =>
      FlowTool.StepHeader n :: FlowTool.StepFailed msg :: log_of runs'
  end.

(** The number of the last step that failed. *)
Fixpoint last_failed (runs : list (Z * option string)) (before : option Z) : option Z :=
  match runs with
  | [] => before
  | (n, None) :: runs' => last_failed runs' before
  | (n, Some _) :: runs' => last_failed runs' (Some n)
  end.

(** What a computation of the tool leaves alone: the log, the list of
    screenshots and the failed step. *)
Definition tool_kept {Env} (st : FlowTool.State Env)
    : list FlowTool.LogEntry * list string * option Z :=
  (FlowTool.executionLog st, FlowTool.screenshots st, FlowTool.failedStep st).

(** How the body of one iteration of the tool ends: after a success the log
    has one more line, that the step completed, and at most one more
    screenshot; after a failure nothing was kept. *)
Definition try_result {Env} (shots : bool) (st st' : FlowTool.State Env)
    (r : string + unit) : Prop :=
  match r with
  | inr _ =>
      FlowTool.executionLog st'
      = (FlowTool.executionLog st ++ [FlowTool.StepCompleted])%list
      /\ FlowTool.failedStep st' = FlowTool.failedStep st
      /\ (FlowTool.screenshots st' = FlowTool.screenshots st
          \/ shots = true
             /\ exists p, FlowTool.screenshots st' = (FlowTool.screenshots st ++ [p])%list)
  | inl _ => tool_kept st' = tool_kept st
  end.

(** The steps that some tier of the CI runner resolved. *)
Definition ci_resolved (s : CI.Stats) : nat :=
  CI.deterministicSuccess s + CI.learnedSuccess s + CI.aiSuccess s.

(** The counters of the CI runner, without the cost. *)
Definition ci_counters {Env} (st : CI.State Env) : nat * nat * nat * nat * nat :=
  (CI.totalSteps (CI.stats st), CI.deterministicSuccess (CI.stats st),
   CI.learnedSuccess (CI.stats st), CI.aiSuccess (CI.stats st), CI.failures (CI.stats st)).

(** A solution of the CI runner after some more runs: the same solution,
    with no failure recorded, at least as many successes and a confidence
    that did not go down (a confidence above 0.99 is cut to 0.99 by a
    success). *)
Definition ci_solution_kept (s s' : CI.Solution) : Prop :=
  CI.sol_id s' = CI.sol_id s /\ CI.stepAction s' = CI.stepAction s
  /\ CI.originalSelector s' = CI.originalSelector s
  /\ CI.learnedSelector s' = CI.learnedSelector s
  /\ CI.learnedAt s' = CI.learnedAt s
  /\ CI.failureCount s' = CI.failureCount s
  /\ (CI.successCount s <= CI.successCount s')%Z
  /\ (Math_min (CI.confidence s) (hundredths 99) <= CI.confidence s')%Qc.

Definition ci_knowledge_grows (k k' : CI.Knowledge) : Prop :=
  CI.version k' = CI.version k
  /\ length (CI.solutions k) <= length (CI.solutions k')
  /\ forall i s, CI.solutions k !! i = Some s ->
       exists s', CI.solutions k' !! i = Some s' /\ ci_solution_kept s s'.

(** The files of the knowledge directory after some more runs: the
    solutions file [sp] has grown, or was created, or is still the text that
    cannot be read; the other files are the same. *)
Definition ci_disk_grows (sp : string) (d d' : gmap string CI.FileData) : Prop :=
  (forall p, p <> sp -> d' !! p = d !! p)
  /\ match d !! sp with
     | Some (CI.FKnowledge k) =>
         exists k', d' !! sp = Some (CI.FKnowledge k') /\ ci_knowledge_grows k k'
     | Some (CI.FOther t) => d' !! sp = Some (CI.FOther t)
     | None =>
         d' !! sp = None
         \/ exists k', d' !! sp = Some (CI.FKnowledge k') /\ CI.version k' = "1.0"
     end.

(** No solution of the file has a confidence above 0.7: the lookup of the
    CI runner can return none. *)
Definition ci_disk_unused (sp : string) (d : gmap string CI.FileData) : Prop :=
  match d !! sp with
  | Some (CI.FKnowledge k) =>
      Forall (fun s => (CI.confidence s <= hundredths 70)%Qc) (CI.solutions k)
  | _ => True
  end.

(** What a run of [n] steps of the CI runner does to the counters and to
    the files of the knowledge directory, [r] being its result. *)
Definition ci_run_ok {Env} (sp : string) (n : nat) (st st' : CI.State Env)
    (r : string + unit) : Prop :=
  CI.totalSteps (CI.stats st') + ci_resolved (CI.stats st) + CI.failures (CI.stats st)
  = CI.totalSteps (CI.stats st) + ci_resolved (CI.stats st') + CI.failures (CI.stats st')
  /\ CI.totalSteps (CI.stats st) <= CI.totalSteps (CI.stats st') <= CI.totalSteps (CI.stats st) + n
  /\ CI.deterministicSuccess (CI.stats st) <= CI.deterministicSuccess (CI.stats st')
  /\ CI.learnedSuccess (CI.stats st) <= CI.learnedSuccess (CI.stats st')
  /\ CI.aiSuccess (CI.stats st) <= CI.aiSuccess (CI.stats st')
  /\ match r with
     | inr _ => CI.failures (CI.stats st') = CI.failures (CI.stats st)
                /\ CI.totalSteps (CI.stats st') = CI.totalSteps (CI.stats st) + n
     | inl _ => CI.failures (CI.stats st') = S (CI.failures (CI.stats st))
     end
  /\ ci_disk_grows sp (CI.disk st) (CI.disk st')
  /\ (ci_disk_unused sp (CI.disk st) ->
      CI.learnedSuccess (CI.stats st') = CI.learnedSuccess (CI.stats st)
      /\ ci_disk_unused sp (CI.disk st')).

(** What a run on the generated elements [steps] does: as for a run of
    steps, except that the run may end on an element without a usable
    action, which is counted as a step and recorded neither as resolved nor
    as a failure. *)
Definition ci_prompt_ok {Env} (sp : string) (steps : list CI.Generated)
    (st st' : CI.State Env) (r : string + unit) : Prop :=
  CI.totalSteps (CI.stats st') + ci_resolved (CI.stats st)
  = CI.totalSteps (CI.stats st) + ci_resolved (CI.stats st')
    + (if is_done r then 0 else 1)
  /\ CI.totalSteps (CI.stats st) <= CI.totalSteps (CI.stats st')
     <= CI.totalSteps (CI.stats st) + length steps
  /\ CI.deterministicSuccess (CI.stats st) <= CI.deterministicSuccess (CI.stats st')
  /\ CI.learnedSuccess (CI.stats st) <= CI.learnedSuccess (CI.stats st')
  /\ CI.aiSuccess (CI.stats st) <= CI.aiSuccess (CI.stats st')
  /\ match r with
     | inr _ => CI.failures (CI.stats st') = CI.failures (CI.stats st)
                /\ CI.totalSteps (CI.stats st') = CI.totalSteps (CI.stats st) + length steps
                /\ Forall (fun g => exists step, g = inr step) steps
     | inl e => CI.failures (CI.stats st') = S (CI.failures (CI.stats st))
                \/ (CI.failures (CI.stats st') = CI.failures (CI.stats st)
                    /\ inl e ∈ steps)
     end
  /\ ci_disk_grows sp (CI.disk st) (CI.disk st')
  /\ (ci_disk_unused sp (CI.disk st) ->
      CI.learnedSuccess (CI.stats st') = CI.learnedSuccess (CI.stats st)
      /\ ci_disk_unused sp (CI.disk st')).

(** A page like the one of [demo_driver] on which the generator of steps
    answers with one click, and a flow that has a prompt and no steps. *)
Definition demo_generator_driver (present : string -> bool) : Driver nat unit :=
  {| page_goto := page_goto (demo_driver present);
     page_waitForTimeout := page_waitForTimeout (demo_driver present);
     page_click := page_click (demo_driver present);
     page_fill := page_fill (demo_driver present);
     locator_count := locator_count (demo_driver present);
     page_waitForSelector := page_waitForSelector (demo_driver present);
     element_textContent := element_textContent (demo_driver present);
     element_isDisabled := element_isDisabled (demo_driver present);
     page_screenshot := page_screenshot (demo_driver present);
     page_url := page_url (demo_driver present);
     page_simplifiedDOM := page_simplifiedDOM (demo_driver present);
     ai_create := ai_create (demo_driver present);
     ai_generateSteps := fun _ => ext_ok [demo_step "click" "#login"];
     date_iso := date_iso (demo_driver present);
     str_isNaN := str_isNaN (demo_driver present);
     str_parseInt := str_parseInt (demo_driver present);
     path_join := path_join (demo_driver present) |}.

Definition demo_prompt_flow : Flow :=
  {| flow_name := Some "Login"; flow_prompt := Some "log in as the test user";
     flow_steps := None |}.

Definition demo_prompt_state : State nat :=
  {| env := 0; knowledgeBase := empty_kb;
     hybridStats := {| deterministicSuccess := 0; learnedSuccess := 0; aiSuccess := 0;
                       totalSteps := 0; aiCost := hundredths 0 |};
     flowsData := NGroup [("demo", NGroup [("login", NFlow demo_prompt_flow)])];
     screenshots := []; attempts := []; kbReads := 0 |}.

(** A selector in parts. *)
Definition demo_pieces : list SelPiece :=
  [SelText "button"; SelContains squote squote "Save"; SelText " > li"; SelFirstChild].

(** ** Command line arguments

    [args.indexOf(name)]: the index of the first argument that is [name], or
    -1. *)
Fixpoint args_indexOf (args : list string) (name : string) : Z :=
  match args with
  | [] => -1
  | a :: rest =>
      if bool_decide (a = name) then 0
      else let index := args_indexOf rest name in
           if bool_decide (index = -1)%Z then -1 else (index + 1)%Z
  end.

(** [getArg] of the hybrid runner; [None] is [null]. *)
Definition getArg (args : list string) (name : string) : option string :=
  let index := args_indexOf args name in
  if negb (bool_decide (index = -1)%Z) && bool_decide (index + 1 < Z.of_nat (length args))%Z
  then args !! Z.to_nat (index + 1)
  else None.

(** [getArg] of the CI runner: the argument after the name must be truthy. *)
Definition ci_getArg (args : list string) (name : string) : option string :=
  let index := args_indexOf args name in
  if negb (bool_decide (index = -1)%Z) && truthy (args !! Z.to_nat (index + 1))
  then args !! Z.to_nat (index + 1)
  else None.

(** ** The entry point of the hybrid runner *)

(** The suites of the runner, an object literal. *)
Definition testSuites : list (string * list string) :=
  [("auth", ["authentication.fullLoginFlow"; "authentication.completeAuthAndNav"]);
   ("smoke", ["authentication.login"; "authentication.completeAuthAndNav";
              "callLogs.viewCallList"; "appointmentTypes.viewAppointmentTypes";
              "dashboard.viewDashboard"]);
   ("e2e", ["authentication.completeAuthAndNav"]);
   ("regression", ["complete.endToEndCallLogsJourney";
                   "complete.endToEndAppointmentTypeManagement";
                   "complete.endToEndDashboardAnalysis"]);
   ("critical", ["authentication.login"; "callLogs.viewCallDetails";
                 "callLogs.updateCallStatus"; "appointmentTypes.addAppointmentType"])].

(** [testSuites[config.suite] || []] *)
Inductive SuiteValue :=
  | SuitePaths (flowPaths : list string)
  | SuiteInherited (len : option nat).

Definition suite_flowPaths (suite : string) : SuiteValue :=
  match jsmap_get suite testSuites with
  | Some flowPaths => SuitePaths flowPaths
  | None =>
      match jsmap_get suite object_prototype with
      | Some len => SuiteInherited len
      | None => SuitePaths []
      end
  end.

Record Summary := {
  total : nat;
  passed : nat;
  failed : nat;
  skipped : nat;
}.

(** The [results] object of [main]; its [hybridStats] are the counters of
    the state of the runner. *)
Record Results := {
  results_flows : list FlowResult;
  summary : Summary;
  results_error : option string;
}.

(** What [main] needs of the outside world besides the page. *)
Record Launcher (Env : Type) := {
  (** [generator.generateSteps(config.prompt, {url, email, password})],
      called by [generateFlow]. *)
  generator_generateSteps : string -> Ext Env (list Step);
  chromium_launch : Ext Env unit;
  browser_newContext : Ext Env unit;
  context_newPage : Ext Env unit;
  browser_close : Ext Env unit;
  (** [fs.writeFileSync(path, text)] of a file of the output directory. *)
  fs_writeFileSync : string -> Ext Env unit;
  (** [new Date().toISOString()], a reading of the clock. *)
  date_toISOString : Env -> Env * string;
}.

Arguments generator_generateSteps {_}.
Arguments chromium_launch {_}.
Arguments browser_newContext {_}.
Arguments context_newPage {_}.
Arguments browser_close {_}.
Arguments fs_writeFileSync {_}.
Arguments date_toISOString {_}.

(** State of [main]: the state of the runner, the files of the knowledge
    directory, the results and whether the variable [browser] is set. *)
Record Process (Env : Type) := {
  proc_run : State Env;
  proc_disk : gmap string FileData;
  proc_results : Results;
  proc_browser : bool;
}.

Arguments proc_run {_}.
Arguments proc_disk {_}.
Arguments proc_results {_}.
Arguments proc_browser {_}.

Section Main.
Context {Env Element : Type}.
Variable md5_hex : string -> string.
Variable drv : Driver Env Element.
Variable launcher : Launcher Env.
Variable aiClient : bool.
Variable config : Config.
(** [config.suite], [config.prompt] and [knowledgeBasePath]. *)
Variable suite : string.
Variable prompt : option string.
Variable knowledgeBasePath : string.

Definition with_run (f : State Env -> State Env) (p : Process Env) : Process Env :=
  {| proc_run := f (proc_run p); proc_disk := proc_disk p;
     proc_results := proc_results p; proc_browser := proc_browser p |}.

Definition with_results (f : Results -> Results) (p : Process Env) : Process Env :=
  {| proc_run := proc_run p; proc_disk := proc_disk p;
     proc_results := f (proc_results p); proc_browser := proc_browser p |}.

Definition with_proc_disk (f : gmap string FileData -> gmap string FileData)
    (p : Process Env) : Process Env :=
  {| proc_run := proc_run p; proc_disk := f (proc_disk p);
     proc_results := proc_results p; proc_browser := proc_browser p |}.

Definition set_browser (p : Process Env) : Process Env :=
  {| proc_run := proc_run p; proc_disk := proc_disk p;
     proc_results := proc_results p; proc_browser := true |}.

(** An [await] on the outside world, or a call that may throw, from
    [main]. *)
Definition main_call {A} (f : Ext Env A) : M (Process Env) A := fun p =>
  let (st, r) := call f (proc_run p) in (with_run (fun _ => st) p, r).

(** [results.flows.push(flowResult)], [results.summary.total++] and the
    counter of the status. *)
Definition count_flow (flowResult : FlowResult) (r : Results) : Results :=
  let s := summary r in
  {| results_flows := results_flows r ++ [flowResult];
     summary :=
       if bool_decide (res_status flowResult = "passed") then
         {| total := S (total s); passed := S (passed s); failed := failed s;
            skipped := skipped s |}
       else if bool_decide (res_status flowResult = "failed") then
         {| total := S (total s); passed := passed s; failed := S (failed s);
            skipped := skipped s |}
       else
         {| total := S (total s); passed := passed s; failed := failed s;
            skipped := S (skipped s) |};
     results_error := results_error r |}.

(** The loop over the flow paths. *)
Fixpoint run_flows (flowPaths : list string) (p : Process Env) : Process Env :=
  match flowPaths with
  | [] => p
  | flowPath :: rest =>
      let (st, flowResult) :=
        executeFlow md5_hex drv aiClient flowPath config (proc_run p) in
      run_flows rest (with_results (count_flow flowResult) (with_run (fun _ => st) p))
  end.

Definition launch_browser : M (Process Env) unit :=
  main_call (chromium_launch launcher);;
  modify set_browser;;
  main_call (browser_newContext launcher);;
  main_call (context_newPage launcher).

(** The body of the [try] of [main]. *)
Definition main_body : M (Process Env) unit :=
  if truthy prompt then
    (if negb aiClient
     then throw "ANTHROPIC_API_KEY required for prompt-based testing"
     else mret tt);;
    steps ← main_call (generator_generateSteps launcher (default "" prompt));
    let generatedFlow :=
      {| flow_name := Some "Prompt-Based Test"; flow_prompt := None;
         flow_steps := Some steps |} in
    modify (with_run (with_flows (fun _ =>
      NGroup [("prompt", NGroup [("test", NFlow generatedFlow)])])));;
    launch_browser;;
    modify (run_flows ["prompt.test"]);;
    p ← get_state;
    if bool_decide (0 < passed (summary (proc_results p)))
    then main_call (fs_writeFileSync launcher
                      (path_join drv [cfg_outputDir config; "generated-flow.json"]))
    else mret tt
  else
    match suite_flowPaths suite with
    | SuitePaths flowPaths =>
        (if bool_decide (length flowPaths = 0)
         then throw ("Unknown test suite: " +:+ suite)
         else mret tt);;
        launch_browser;;
        modify (run_flows flowPaths)
    | SuiteInherited len =>
        (if bool_decide (len = Some 0)
         then throw ("Unknown test suite: " +:+ suite)
         else mret tt);;
        launch_browser;;
        throw "flowPaths is not iterable"
    end.

(** A reading of the clock does not throw. *)
Definition clock (f : Env -> Env * string) : Ext Env string := fun e =>
  let (e', now) := f e in (e', inr now).

(** The [finally] of [main], up to the exit code. *)
Definition main_finally : M (Process Env) Z :=
  p ← get_state;
  (if proc_browser p then main_call (browser_close launcher) else mret tt);;
  now ← main_call (clock (date_toISOString launcher));
  now' ← main_call (clock (date_toISOString launcher));
  modify (fun p => with_proc_disk
                     (saveKnowledgeBase (path_join drv) knowledgeBasePath
                        (knowledgeBase (proc_run p)) now now') p);;
  main_call (fs_writeFileSync launcher (path_join drv [cfg_outputDir config; "summary.json"]));;
  main_call (fs_writeFileSync launcher (path_join drv [cfg_outputDir config; "report.html"]));;
  p ← get_state;
  mret (if bool_decide (0 < failed (summary (proc_results p))) then 1%Z else 0%Z).

Definition zero_stats : HybridStats :=
  {| deterministicSuccess := 0; learnedSuccess := 0; aiSuccess := 0; totalSteps := 0;
     aiCost := hundredths 0 |}.

Definition new_results : Results :=
  {| results_flows := [];
     summary := {| total := 0; passed := 0; failed := 0; skipped := 0 |};
     results_error := None |}.

(** [main], with the handler of its rejection: the state at the exit of the
    process and the exit code. *)
Definition main (p : Process Env) : Process Env * Z :=
  let p0 :=
    {| proc_run := with_stats (fun _ => zero_stats) (proc_run p);
       proc_disk := proc_disk p; proc_results := new_results; proc_browser := false |} in
  let (p1, r) := main_body p0 in
  let p2 := match r with
            | inl message =>
                with_results (fun res =>
                  {| results_flows := results_flows res; summary := summary res;
                     results_error := Some message |}) p1
            | inr _ => p1
            end in
  match main_finally p2 with
  | (p3, inr code) => (p3, code)
  | (p3, inl _) => (p3, 1%Z)
  end.
End Main.

(** The summary counts the results: every flow that ran has passed or
    failed, and each counter is the number of the results with its status. *)
Definition summary_ok (r : Results) : Prop :=
  total (summary r) = length (results_flows r)
  /\ total (summary r) = passed (summary r) + failed (summary r)
  /\ skipped (summary r) = 0
  /\ passed (summary r)
     = length (List.filter (fun f => bool_decide (res_status f = "passed")) (results_flows r))
  /\ failed (summary r)
     = length (List.filter (fun f => bool_decide (res_status f = "failed")) (results_flows r))
  /\ Forall (fun f => res_status f = "passed" \/ res_status f = "failed") (results_flows r).

(** What a part of [main] leaves alone: the files of the knowledge
    directory and the results. *)
Definition proc_kept {Env} (p : Process Env) : gmap string FileData * Results :=
  (proc_disk p, proc_results p).

(** The cleanup of [main] does not throw: closing the browser and writing
    the summary and the report succeed. *)
Definition cleanup_ok {Env} (launcher : Launcher Env) : Prop :=
  (forall e, (browser_close launcher e).2 = inr tt)
  /\ (forall path e, (fs_writeFileSync launcher path e).2 = inr tt).

(** A launcher for which everything succeeds and the generator answers with
    one click. *)
Definition demo_launcher : Launcher nat :=
  {| generator_generateSteps := fun _ => ext_ok [demo_step "click" "#login"];
     chromium_launch := ext_ok tt;
     browser_newContext := ext_ok tt;
     context_newPage := ext_ok tt;
     browser_close := ext_ok tt;
     fs_writeFileSync := fun _ => ext_ok tt;
     date_toISOString := fun e => (S e, demo_now) |}.

Definition demo_process : Process nat :=
  {| proc_run := demo_state empty_kb; proc_disk := ∅; proc_results := new_results;
     proc_browser := false |}.

(** ** Flows and entry point of the CI runner *)

(** The text that [String.prototype.replace] puts in place of a match when
    it is given a replacement text and the pattern has no group: [$$] is a
    dollar, [$&] the matched text, [$`] the text before the match and [$']
    the text after it; a dollar followed by anything else stands for
    itself. *)
Fixpoint get_substitution (matched before after replacement : string) : string :=
  match replacement with
  | EmptyString => ""
  | String c r =>
      if bool_decide (c = "$"%char) then
        match r with
        | String d r' =>
            if bool_decide (d = "$"%char)
            then String "$" (get_substitution matched before after r')
            else if bool_decide (d = "&"%char)
            then matched +:+ get_substitution matched before after r'
            else if bool_decide (d = "`"%char)
            then before +:+ get_substitution matched before after r'
            else if bool_decide (d = "'"%char)
            then after +:+ get_substitution matched before after r'
            else String "$" (get_substitution matched before after r)
        | EmptyString => "$"
        end
      else String c (get_substitution matched before after r)
  end.

(** [s.replace(/pat/g, replacement)] for a pattern that is a fixed text,
    not empty. [before] is the text already passed and [skip] counts the
    characters of the current match that are still to be passed over. *)
Fixpoint replace_text_from (pat replacement before s : string) (skip : nat) : string :=
  match s with
  | EmptyString => ""
  | String c s' =>
      match skip with
      | S n => replace_text_from pat replacement (before +:+ String c "") s' n
      | O =>
          match strip_prefix pat s with
          | Some after =>
              get_substitution pat before after replacement
              +:+ replace_text_from pat replacement (before +:+ String c "") s'
                    (String.length pat - 1)
          | None =>
              String c (replace_text_from pat replacement (before +:+ String c "") s' 0)
          end
      end
  end.

Definition replace_text (pat replacement s : string) : string :=
  replace_text_from pat replacement "" s 0.

Module CIRun.

(** One field of [replaceStepParams]; the parameters are
    [params.email || ''] and so on. *)
Definition replace_field (email password baseUrl : string) (field : option string)
    : option string :=
  if truthy field then
    Some (replace_text "{baseUrl}" baseUrl
            (replace_text "{password}" password
               (replace_text "{email}" email (default "" field))))
  else field.

Definition replaceStepParams (step : Step) (email password baseUrl : option string) : Step :=
  let f := replace_field (js_or email "") (js_or password "") (js_or baseUrl "") in
  {| action := action step; selector := f (selector step); target := f (target step);
     value := f (value step); step_url := step_url step;
     description := f (description step);
     wait := wait step; duration := duration step; filename := filename step;
     exists_ := exists_ step; visible := visible step; enabled := enabled step;
     contains := contains step; textIncludes := textIncludes step;
     minCount := minCount step; count := count step; condition := condition step;
     optional := optional step |}.

(** [getSuiteFlows]: the suites of the flows file are an object whose
    members are arrays of paths; a name that is not a member of its own may
    be a member that objects inherit. *)
Definition getSuiteFlows (suiteName : string)
    (suites : option (list (string * list string))) : SuiteValue :=
  match suites with
  | None => SuitePaths []
  | Some table =>
      match jsmap_get suiteName table with
      | Some flowPaths => SuitePaths flowPaths
      | None =>
          match jsmap_get suiteName object_prototype with
          | Some len => SuiteInherited len
          | None => SuitePaths []
          end
      end
  end.

(** What [executeFlowTests] takes from the flows file: [flows.flows || flows]
    and [flows.suites]. *)
Record FlowsFile := {
  ff_flowsData : FlowNode;
  ff_suites : option (list (string * list string));
}.

(** What [main] needs of the outside world besides the page. *)
Record Launcher (Env : Type) := {
  chromium_launch : Ext Env unit;
  browser_newContext : Ext Env unit;
  context_newPage : Ext Env unit;
  browser_close : Ext Env unit;
  (** [JSON.parse(fs.readFileSync(config.flows, 'utf8'))] *)
  read_flows : Ext Env FlowsFile;
  (** [JSON.parse(fs.readFileSync(config.anchorPoints, 'utf8'))] *)
  read_anchorPoints : Ext Env unit;
  (** [fs.writeFileSync(path, text)] of a file of the output directory. *)
  fs_writeFileSync : string -> Ext Env unit;
}.

Arguments chromium_launch {_}.
Arguments browser_newContext {_}.
Arguments context_newPage {_}.
Arguments browser_close {_}.
Arguments read_flows {_}.
Arguments read_anchorPoints {_}.
Arguments fs_writeFileSync {_}.

(** State of [main]: the state of the runner and whether the variable
    [browser] is set. [closed] and [reports] are instrumentation: whether the
    browser was closed, and the files that [generateReports] wrote. *)
Record Process (Env : Type) := {
  proc_run : CI.State Env;
  proc_browser : bool;
  proc_closed : bool;
  proc_reports : list string;
}.

Arguments proc_run {_}.
Arguments proc_browser {_}.
Arguments proc_closed {_}.
Arguments proc_reports {_}.

Section Runner.
Context {Env : Type}.
Variable drv : CI.Driver Env.
Variable launcher : Launcher Env.
Variable anthropic : bool.
Variable config : CI.Config.
(** [config.flows], [config.anchorPoints], [config.suite], [config.email]
    and [config.password]. *)
Variable flows : option string.
Variable anchorPoints : option string.
Variable suite : string.
Variable email : option string.
Variable password : option string.

(** One iteration of the loop over the steps of a flow. *)
Definition flow_step (step : Step) : M (CI.State Env) unit :=
  modify (CI.with_stats CI.inc_totalSteps);;
  try_catch
    (let processedStep := replaceStepParams step email password (Some (CI.cfg_url config)) in
     success ← CI.executeDeterministicStep drv config processedStep;
     if success : bool then modify (CI.with_stats CI.inc_deterministicSuccess)
     else
       learnedSuccess ← CI.tryLearnedSolution drv config processedStep;
       if learnedSuccess : bool then modify (CI.with_stats CI.inc_learnedSuccess)
       else
         aiSuccess ← CI.tryAiFallback drv anthropic config processedStep;
         if aiSuccess : bool then modify (CI.with_stats CI.inc_aiSuccess)
         else throw "All strategies failed")
    (fun message => modify (CI.with_stats CI.inc_failures);; throw message).

Fixpoint flow_steps_run (steps : list Step) : M (CI.State Env) unit :=
  match steps with
  | [] => mret tt
  | step :: rest => flow_step step;; flow_steps_run rest
  end.

(** One iteration of the loop over the flows of the suite: a path that
    leads to nothing, or to something without steps, counts as a failure and
    the loop goes on. A group with a member called steps passes for a flow
    without any step. *)
Definition suite_flow (flowsData : FlowNode) (flowPath : string) : M (CI.State Env) unit :=
  match getFlowByPath flowPath flowsData with
  | Some (NFlow flow) =>
      match flow_steps flow with
      | Some steps => flow_steps_run steps
      | None => modify (CI.with_stats CI.inc_failures)
      end
  | Some (NGroup children) =>
      match jsmap_get "steps" children with
      | Some _ => mret tt
      | None => modify (CI.with_stats CI.inc_failures)
      end
  | Some NValue | None => modify (CI.with_stats CI.inc_failures)
  end.

Fixpoint suite_flows (flowsData : FlowNode) (suiteFlows : list string)
    : M (CI.State Env) unit :=
  match suiteFlows with
  | [] => mret tt
  | flowPath :: rest => suite_flow flowsData flowPath;; suite_flows flowsData rest
  end.

Definition executeFlowTests : M (CI.State Env) unit :=
  file ← (if truthy flows then CI.call (read_flows launcher)
          else mret {| ff_flowsData := NGroup []; ff_suites := None |});
  (if truthy anchorPoints then CI.call (read_anchorPoints launcher) else mret tt);;
  match getSuiteFlows suite (ff_suites file) with
  | SuitePaths suiteFlows => suite_flows (ff_flowsData file) suiteFlows
  | SuiteInherited _ => throw "suiteFlows is not iterable"
  end.

Definition with_run (f : CI.State Env -> CI.State Env) (p : Process Env) : Process Env :=
  {| proc_run := f (proc_run p); proc_browser := proc_browser p;
     proc_closed := proc_closed p; proc_reports := proc_reports p |}.

Definition set_browser (p : Process Env) : Process Env :=
  {| proc_run := proc_run p; proc_browser := true;
     proc_closed := proc_closed p; proc_reports := proc_reports p |}.

Definition note_closed (p : Process Env) : Process Env :=
  {| proc_run := proc_run p; proc_browser := proc_browser p;
     proc_closed := true; proc_reports := proc_reports p |}.

Definition note_report (path : string) (p : Process Env) : Process Env :=
  {| proc_run := proc_run p; proc_browser := proc_browser p;
     proc_closed := proc_closed p; proc_reports := proc_reports p ++ [path] |}.

(** A computation of the runner, run by [main]. *)
Definition main_run {A} (m : M (CI.State Env) A) : M (Process Env) A := fun p =>
  let (st, r) := m (proc_run p) in (with_run (fun _ => st) p, r).

(** The body of the [try] of [main]. *)
Definition main_body : M (Process Env) unit :=
  main_run (CI.call (chromium_launch launcher));;
  modify set_browser;;
  main_run (CI.call (browser_newContext launcher));;
  main_run (CI.call (context_newPage launcher));;
  if negb (bool_decide (CI.cfg_prompt config = ""))
  then main_run (CI.executePromptTest drv anthropic config)
  else main_run executeFlowTests.

Definition write_report (name : string) : M (Process Env) unit :=
  let path := CI.path_join drv [CI.cfg_outputDir config; name] in
  main_run (CI.call (fs_writeFileSync launcher path));;
  modify (note_report path).

(** The [finally] of [main], up to the exit code. *)
Definition main_finally : M (Process Env) Z :=
  p ← get_state;
  (if proc_browser p
   then main_run (CI.call (browser_close launcher));; modify note_closed
   else mret tt);;
  write_report "summary.json";;
  write_report "report.html";;
  p ← get_state;
  mret (if bool_decide (0 < CI.failures (CI.stats (proc_run p))) then 1%Z else 0%Z).

(** [main], with the handler of its rejection: the state at the exit of the
    process and the exit code. The [catch] of [main] exits at once, so the
    [finally] runs only when the body has returned. *)
Definition main (p : Process Env) : Process Env * Z :=
  let p0 := {| proc_run := proc_run p; proc_browser := false;
               proc_closed := proc_closed p; proc_reports := proc_reports p |} in
  match main_body p0 with
  | (p1, inl _) => (with_run (CI.with_stats CI.inc_failures) p1, 1%Z)
  | (p1, inr _) =>
      match main_finally p1 with
      | (p2, inr code) => (p2, code)
      | (p2, inl _) => (p2, 1%Z)
      end
  end.
End Runner.

End CIRun.

(** Whether the path leads to something that the loop over the flows of
    the suite takes for a flow with steps. *)
Definition has_steps (flowsData : FlowNode) (flowPath : string) : bool :=
  match getFlowByPath flowPath flowsData with
  | Some (NFlow flow) => bool_decide (is_Some (flow_steps flow))
  | Some (NGroup children) => bool_decide (is_Some (jsmap_get "steps" children))
  | _ => false
  end.

(** What a run over the flows of a suite does to the counters and to the
    files of the knowledge directory: [missing] flows were counted as
    failures without stopping the run, and [stepFailed] is 1 when a step
    failed and stopped it. *)
Definition ci_suite_ok {Env} (sp : string) (missing stepFailed : nat)
    (st st' : CI.State Env) (r : string + unit) : Prop :=
  CI.failures (CI.stats st') = CI.failures (CI.stats st) + missing + stepFailed
  /\ CI.totalSteps (CI.stats st') + ci_resolved (CI.stats st)
     = CI.totalSteps (CI.stats st) + ci_resolved (CI.stats st') + stepFailed
  /\ stepFailed <= 1
  /\ (stepFailed = 1 -> is_done r = false)
  /\ CI.deterministicSuccess (CI.stats st) <= CI.deterministicSuccess (CI.stats st')
  /\ CI.learnedSuccess (CI.stats st) <= CI.learnedSuccess (CI.stats st')
  /\ CI.aiSuccess (CI.stats st) <= CI.aiSuccess (CI.stats st')
  /\ ci_disk_grows sp (CI.disk st) (CI.disk st')
  /\ (ci_disk_unused sp (CI.disk st) ->
      CI.learnedSuccess (CI.stats st') = CI.learnedSuccess (CI.stats st)
      /\ ci_disk_unused sp (CI.disk st')).

(** What the body of a run does, over the flows of a suite or on a prompt:
    the failures it counted, the steps of a run that returned all resolved,
    and the files of the knowledge directory. A run on a prompt that threw
    may have counted a step that was neither resolved nor recorded as a
    failure, and the cost of the generation is added to the statistics. *)
Definition ci_body_ok {Env} (sp : string) (missing stepFailed : nat)
    (st st' : CI.State Env) (r : string + unit) : Prop :=
  CI.failures (CI.stats st') = CI.failures (CI.stats st) + missing + stepFailed
  /\ (is_done r = true ->
      CI.totalSteps (CI.stats st') + ci_resolved (CI.stats st)
      = CI.totalSteps (CI.stats st) + ci_resolved (CI.stats st'))
  /\ stepFailed <= 1
  /\ (stepFailed = 1 -> is_done r = false)
  /\ ci_disk_grows sp (CI.disk st) (CI.disk st')
  /\ (ci_disk_unused sp (CI.disk st) ->
      CI.learnedSuccess (CI.stats st') = CI.learnedSuccess (CI.stats st)
      /\ ci_disk_unused sp (CI.disk st')).

(** The flows among [paths] that the loop counts as failures. *)
Definition missing_flows (flowsData : FlowNode) (paths : list string) : nat :=
  length (List.filter (fun flowPath => negb (has_steps flowsData flowPath)) paths).

(** The process of the CI runner at its start. *)
Definition ci_start {Env} (st : CI.State Env) : CIRun.Process Env :=
  {| CIRun.proc_run := st; CIRun.proc_browser := false; CIRun.proc_closed := false;
     CIRun.proc_reports := [] |}.

(** The cleanup of the CI runner does not throw. *)
Definition ci_cleanup_ok {Env} (launcher : CIRun.Launcher Env) : Prop :=
  (forall e, (CIRun.browser_close launcher e).2 = inr tt)
  /\ (forall path e, (CIRun.fs_writeFileSync launcher path e).2 = inr tt).

(** A launcher for which everything succeeds, with a flows file of two
    flows, one of them without steps. *)
Definition ci_demo_flows : CIRun.FlowsFile :=
  {| CIRun.ff_flowsData :=
       NGroup [("demo",
                NGroup [("click",
                         NFlow {| flow_name := Some "Click"; flow_prompt := None;
                                  flow_steps := Some [demo_step "click" "#login"] |});
                        ("draft",
                         NFlow {| flow_name := Some "Draft"; flow_prompt := None;
                                  flow_steps := None |})])];
     CIRun.ff_suites := Some [("smoke", ["demo.click"; "demo.draft"])] |}.

Definition ci_demo_launcher : CIRun.Launcher nat :=
  {| CIRun.chromium_launch := ext_ok tt;
     CIRun.browser_newContext := ext_ok tt;
     CIRun.context_newPage := ext_ok tt;
     CIRun.browser_close := ext_ok tt;
     CIRun.read_flows := ext_ok ci_demo_flows;
     CIRun.read_anchorPoints := ext_ok tt;
     CIRun.fs_writeFileSync := fun _ => ext_ok tt |}.

(** A step that types the password. *)
Definition demo_password_step : Step :=
  {| action := "type"; selector := None; target := Some "#password";
     value := Some "{password}"; step_url := None; description := None;
     wait := None; duration := None; filename := None; exists_ := None;
     visible := None; enabled := None; contains := None; textIncludes := None;
     minCount := None; count := None; condition := None; optional := None |}.

(** * Properties *)

(** ** The digest on known inputs *)

(** The test suite of RFC 1321 and the key of a step. *)
Example md5_test_suite :
  md5_hexdigest "" = "d41d8cd98f00b204e9800998ecf8427e"
  /\ md5_hexdigest "a" = "0cc175b9c0f1b6a831c399e269772661"
  /\ md5_hexdigest "abc" = "900150983cd24fb0d6963f7d28e17f72"
  /\ md5_hexdigest "message digest" = "f96b697d7cb7938d525a2f31aaf161d0"
  /\ md5_hexdigest "abcdefghijklmnopqrstuvwxyz" = "c3fcd3d76192e4007dfb496cca67e13b"
  /\ md5_hexdigest "ABCDEFGHIJKLMNOPQRSTUVWXYZabcdefghijklmnopqrstuvwxyz0123456789"
     = "d174ab98d277d9f5a5611c2c9f419d9f"
  /\ md5_hexdigest
       "12345678901234567890123456789012345678901234567890123456789012345678901234567890"
     = "57edf4a22be3c955ac49da2e2107b67a"
  /\ generateKey md5_hexdigest (demo_step "click" "#missing") = "click-9e40527e".
Proof. vm_compute. by repeat split. Qed.

(** ** Facts about the [Map] model *)

Section JsMapFacts.
Context {V : Type}.
Implicit Types (m : JsMap V) (k : string) (v : V).

Lemma jsmap_get_set_eq k v m : jsmap_get k (jsmap_set k v m) = Some v.
Proof.
  induction m as [|[k' v'] m IH]; simpl.
  - by rewrite decide_True.
  - destruct (decide (k = k')) as [->|Hne]; simpl.
    + by rewrite decide_True.
    + by rewrite decide_False.
Qed.

Lemma jsmap_get_set_ne k k' v m :
  k ≠ k' -> jsmap_get k' (jsmap_set k v m) = jsmap_get k' m.
Proof.
  intros Hne. induction m as [|[k0 v0] m IH]; simpl.
  - by rewrite decide_False.
  - destruct (decide (k = k0)) as [->|Hne0]; simpl.
    + by rewrite !decide_False.
    + destruct (decide (k' = k0)); done.
Qed.

Lemma jsmap_get_delete_eq k m : jsmap_get k (jsmap_delete k m) = None.
Proof.
  induction m as [|[k' v'] m IH]; simpl; [done|].
  destruct (decide (k = k')) as [->|Hne]; simpl; [done|].
  by rewrite decide_False.
Qed.

Lemma jsmap_get_delete_ne k k' m :
  k ≠ k' -> jsmap_get k' (jsmap_delete k m) = jsmap_get k' m.
Proof.
  intros Hne. induction m as [|[k0 v0] m IH]; simpl; [done|].
  destruct (decide (k = k0)) as [->|Hne0]; simpl.
  - by rewrite decide_False.
  - destruct (decide (k' = k0)); done.
Qed.

Lemma jsmap_get_Some_elem k v m : jsmap_get k m = Some v -> (k, v) ∈ m.
Proof.
  induction m as [|[k' v'] m IH]; simpl; [done|].
  destruct (decide (k = k')) as [->|Hne].
  - intros [= ->]. apply list_elem_of_here.
  - intros H. apply list_elem_of_further. auto.
Qed.

Lemma jsmap_get_None_keys k m : jsmap_get k m = None <-> k ∉ jsmap_keys m.
Proof.
  unfold jsmap_keys. induction m as [|[k' v'] m IH]; simpl.
  - split; [intros _; apply not_elem_of_nil|done].
  - rewrite not_elem_of_cons. destruct (decide (k = k')) as [->|Hne]; split.
    + done.
    + intros [? _]; done.
    + intros H. split; [done|]. by apply IH.
    + intros [_ H]. by apply IH.
Qed.

(** In a map without repeated keys an entry is found under its key. *)
Lemma jsmap_get_elem k v m : NoDup (jsmap_keys m) -> (k, v) ∈ m -> jsmap_get k m = Some v.
Proof.
  unfold jsmap_keys. induction m as [|[k' v'] m IH]; simpl.
  - intros _ H. by apply elem_of_nil in H.
  - intros Hnd Hin. apply NoDup_cons in Hnd as [Hk' Hnd].
    apply elem_of_cons in Hin as [[= -> ->]|Hin].
    + by rewrite decide_True.
    + destruct (decide (k = k')) as [->|Hne]; [|by apply IH].
      exfalso. apply Hk'. apply list_elem_of_fmap. by exists (k', v).
Qed.

Lemma jsmap_keys_set_in k v m :
  k ∈ jsmap_keys m -> jsmap_keys (jsmap_set k v m) = jsmap_keys m.
Proof.
  unfold jsmap_keys. induction m as [|[k' v'] m IH]; simpl.
  - intros H. by apply elem_of_nil in H.
  - intros H. destruct (decide (k = k')) as [->|Hne]; simpl; [done|].
    f_equal. apply IH. apply elem_of_cons in H as [?|?]; done.
Qed.

Lemma jsmap_keys_set_notin k v m :
  k ∉ jsmap_keys m -> jsmap_keys (jsmap_set k v m) = (jsmap_keys m ++ [k])%list.
Proof.
  unfold jsmap_keys. induction m as [|[k' v'] m IH]; simpl; [done|].
  intros H. apply not_elem_of_cons in H as [Hne H].
  rewrite decide_False by done. simpl. f_equal. by apply IH.
Qed.

Lemma jsmap_set_NoDup k v m : NoDup (jsmap_keys m) -> NoDup (jsmap_keys (jsmap_set k v m)).
Proof.
  intros Hnd. destruct (decide (k ∈ jsmap_keys m)) as [Hin|Hout].
  - by rewrite jsmap_keys_set_in.
  - rewrite jsmap_keys_set_notin by done.
    apply NoDup_app. split_and!; [done| |apply NoDup_singleton].
    intros x Hx Hx'. apply list_elem_of_singleton in Hx'. by subst.
Qed.

Lemma jsmap_keys_delete_sub k k' m :
  k' ∈ jsmap_keys (jsmap_delete k m) -> k' ∈ jsmap_keys m.
Proof.
  unfold jsmap_keys. induction m as [|[k0 v0] m IH]; simpl; [done|].
  destruct (decide (k = k0)) as [->|Hne]; simpl.
  - intros H. apply list_elem_of_further. auto.
  - intros H. apply elem_of_cons in H as [->|H].
    + apply list_elem_of_here.
    + apply list_elem_of_further. auto.
Qed.

Lemma jsmap_delete_NoDup k m : NoDup (jsmap_keys m) -> NoDup (jsmap_keys (jsmap_delete k m)).
Proof.
  unfold jsmap_keys. induction m as [|[k0 v0] m IH]; simpl; [done|].
  intros Hnd. apply NoDup_cons in Hnd as [Hk0 Hnd].
  destruct (decide (k = k0)) as [->|Hne]; simpl; [by apply IH|].
  apply NoDup_cons. split; [|by apply IH].
  intros H. apply Hk0. by apply (jsmap_keys_delete_sub k).
Qed.

Lemma jsmap_set_elem k v k' v' m :
  (k', v') ∈ jsmap_set k v m -> (k', v') = (k, v) \/ (k', v') ∈ m.
Proof.
  induction m as [|[k0 v0] m IH]; simpl.
  - intros H. apply list_elem_of_singleton in H. by left.
  - destruct (decide (k = k0)) as [->|Hne]; intros H;
      apply elem_of_cons in H as [H|H].
    + by left.
    + right. by apply list_elem_of_further.
    + right. rewrite H. apply list_elem_of_here.
    + destruct (IH H) as [?|?]; [by left|].
      right. by apply list_elem_of_further.
Qed.

Lemma jsmap_delete_elem k k' v' m : (k', v') ∈ jsmap_delete k m -> (k', v') ∈ m.
Proof.
  induction m as [|[k0 v0] m IH]; simpl; [done|].
  destruct (decide (k = k0)) as [->|Hne]; intros H.
  - apply list_elem_of_further. auto.
  - apply elem_of_cons in H as [H|H].
    + rewrite H. apply list_elem_of_here.
    + apply list_elem_of_further. auto.
Qed.

Lemma jsmap_get_Some_keys k v m : jsmap_get k m = Some v -> k ∈ jsmap_keys m.
Proof.
  intros H. apply jsmap_get_Some_elem in H.
  unfold jsmap_keys. apply list_elem_of_fmap. by exists (k, v).
Qed.
End JsMapFacts.

(** ** Confidence of the solutions *)

Lemma bump_success_range now s : conf_in_range s -> conf_in_range (bump_success now s).
Proof.
  unfold conf_in_range, bump_success, Math_min; simpl. intros [Hlo Hhi].
  destruct (decide _) as [H|H]; split; qc_arith.
Qed.

Lemma bump_success_cap now s : (confidence (bump_success now s) <= hundredths 99)%Qc.
Proof.
  unfold bump_success, Math_min; simpl. destruct (decide _) as [H|H]; qc_arith.
Qed.

Lemma bump_failure_floor s : (hundredths 30 <= confidence (bump_failure s))%Qc.
Proof.
  unfold bump_failure, Math_max; simpl. destruct (decide _) as [H|H]; qc_arith.
Qed.

Lemma bump_failure_range s : conf_in_range s -> conf_in_range (bump_failure s).
Proof.
  unfold conf_in_range, bump_failure, Math_max; simpl. intros [Hlo Hhi].
  destruct (decide _) as [H|H]; split; qc_arith.
Qed.

Lemma near_refl a : near a a.
Proof. unfold near. split; qc_arith. Qed.

(** A success does not lower a confidence that is at most 0.99, and raises
    one that is below 0.99. *)
Lemma bump_success_raises now s :
  conf_in_range s -> (confidence s <= confidence (bump_success now s))%Qc.
Proof.
  unfold conf_in_range, bump_success, Math_min; simpl. intros [Hlo Hhi].
  destruct (decide _) as [H|H]; qc_arith.
Qed.

Lemma bump_success_raises_strictly now s :
  (confidence s < hundredths 99)%Qc -> (confidence s < confidence (bump_success now s))%Qc.
Proof.
  unfold bump_success, Math_min; simpl. intros Hlt.
  destruct (decide _) as [H|H]; qc_arith.
Qed.

(** A failure does not raise a confidence that is at least 0.3, and lowers
    one that is above 0.3. *)
Lemma bump_failure_lowers s :
  conf_in_range s -> (confidence (bump_failure s) <= confidence s)%Qc.
Proof.
  unfold conf_in_range, bump_failure, Math_max; simpl. intros [Hlo Hhi].
  destruct (decide _) as [H|H]; qc_arith.
Qed.

Lemma bump_failure_lowers_strictly s :
  (hundredths 30 < confidence s)%Qc -> (confidence (bump_failure s) < confidence s)%Qc.
Proof.
  unfold bump_failure, Math_max; simpl. intros Hlt.
  destruct (decide _) as [H|H]; qc_arith.
Qed.

(** The clamp of a failure is below 0.4 exactly when the decrement takes the
    confidence below 0.4. *)
Lemma bump_failure_below s :
  (confidence (bump_failure s) < hundredths 40)%Qc
  <-> (confidence s - hundredths 10 < hundredths 40)%Qc.
Proof.
  unfold bump_failure, Math_max; simpl. destruct (decide _) as [H|H]; split; intros; qc_arith.
Qed.

Lemma bump_failure_exact s :
  ~ (confidence s - hundredths 10 < hundredths 40)%Qc ->
  confidence (bump_failure s) = (confidence s - hundredths 10)%Qc.
Proof.
  unfold bump_failure, Math_max; simpl. intros Hge.
  destruct (decide _) as [H|H]; [done|]. exfalso. qc_arith.
Qed.

Section KnowledgeBaseFacts.
Variable md5_hex : string -> string.

Lemma recordSolution_conf_ok step learned context now kb :
  kb_conf_ok kb -> kb_conf_ok (recordSolution md5_hex step learned context now kb).
Proof.
  intros Hok k s. unfold recordSolution; simpl.
  destruct (decide (generateKey md5_hex step = k)) as [<-|Hne].
  - rewrite jsmap_get_set_eq. intros [= <-]. split; simpl; qc_arith.
  - rewrite jsmap_get_set_ne by done. apply Hok.
Qed.

Lemma recordSuccess_lookup solutionId now kb s :
  jsmap_get solutionId (solutions kb) = Some s ->
  jsmap_get solutionId (solutions (recordSuccess solutionId now kb))
  = Some (bump_success now s).
Proof.
  intros H. unfold recordSuccess. rewrite H. simpl. apply jsmap_get_set_eq.
Qed.

Lemma recordSuccess_conf_ok solutionId now kb :
  kb_conf_ok kb -> kb_conf_ok (recordSuccess solutionId now kb).
Proof.
  intros Hok k s. unfold recordSuccess.
  destruct (jsmap_get solutionId (solutions kb)) as [s0|] eqn:Hget; [|apply Hok].
  simpl. destruct (decide (solutionId = k)) as [<-|Hne].
  - rewrite jsmap_get_set_eq. intros [= <-]. apply bump_success_range. by eapply Hok.
  - rewrite jsmap_get_set_ne by done. apply Hok.
Qed.

Lemma recordFailure_lookup solutionId kb s :
  jsmap_get solutionId (solutions kb) = Some s ->
  jsmap_get solutionId (solutions (recordFailure solutionId kb))
  = if decide (confidence (bump_failure s) < hundredths 40)%Qc
    then None else Some (bump_failure s).
Proof.
  intros H. unfold recordFailure. rewrite H.
  destruct (decide _); simpl; [apply jsmap_get_delete_eq|apply jsmap_get_set_eq].
Qed.

Lemma recordFailure_conf_ok solutionId kb :
  kb_conf_ok kb -> kb_conf_ok (recordFailure solutionId kb).
Proof.
  intros Hok k s. unfold recordFailure.
  destruct (jsmap_get solutionId (solutions kb)) as [s0|] eqn:Hget; [|apply Hok].
  destruct (decide _) as [Hlt|Hge]; simpl.
  - destruct (decide (solutionId = k)) as [<-|Hne].
    + by rewrite jsmap_get_delete_eq.
    + rewrite jsmap_get_delete_ne by done. apply Hok.
  - destruct (decide (solutionId = k)) as [<-|Hne].
    + rewrite jsmap_get_set_eq. intros [= <-]. apply bump_failure_range. by eapply Hok.
    + rewrite jsmap_get_set_ne by done. apply Hok.
Qed.

Lemma kb_update_conf_ok kb kb' :
  kb_update md5_hex kb kb' -> kb_conf_ok kb -> kb_conf_ok kb'.
Proof.
  intros [step learned context now kb0|solutionId now kb0|solutionId kb0] Hok.
  - by apply recordSolution_conf_ok.
  - by apply recordSuccess_conf_ok.
  - by apply recordFailure_conf_ok.
Qed.

Lemma lifecycle_conf_ok kb0 kb :
  rtc (kb_update md5_hex) kb0 kb -> kb_conf_ok kb0 -> kb_conf_ok kb.
Proof.
  induction 1 as [|kb1 kb2 kb3 Hstep _ IH]; [done|].
  intros Hok. apply IH. by eapply kb_update_conf_ok.
Qed.

End KnowledgeBaseFacts.

(** ** Lookup in the knowledge base *)

Section LookupFacts.
Variable md5_hex : string -> string.

Lemma find_is_Some {A} (p : A -> bool) (l : list A) :
  is_Some (List.find p l) <-> exists x, x ∈ l /\ p x = true.
Proof.
  induction l as [|a l IH]; simpl.
  - split; [intros [? [=]]|intros (x & Hx & _); by apply elem_of_nil in Hx].
  - destruct (p a) eqn:Hpa.
    + split; [intros _; exists a; split; [apply list_elem_of_here|done]|by eauto].
    + rewrite IH. split.
      * intros (x & Hx & Hp). exists x. split; [by apply list_elem_of_further|done].
      * intros (x & Hx & Hp). apply elem_of_cons in Hx as [->|Hx]; [congruence|eauto].
Qed.

Lemma find_Some_elem {A} (p : A -> bool) (l : list A) x :
  List.find p l = Some x -> x ∈ l /\ p x = true.
Proof.
  intros H. apply List.find_some in H as [Hin Hp]. split; [|done].
  by apply list_elem_of_In.
Qed.

Lemma similar_spec step context s :
  similar step context s = inr true
  <-> stepAction s = action step
      /\ pc_pageType <$> pageContext s = Some (ctx_pageType context)
      /\ (hundredths 75 < confidence s)%Qc.
Proof.
  unfold similar. case_bool_decide as Ha.
  - destruct (pageContext s) as [pc|]; simpl.
    + split.
      * intros [= H]. apply andb_true_iff in H as [H1 H2].
        apply bool_decide_eq_true in H1, H2. by rewrite H1.
      * intros (_ & [= H1] & H2). f_equal. apply andb_true_iff.
        by rewrite !bool_decide_eq_true.
    + split; [done|]. by intros (_ & [=] & _).
  - split; [done|]. by intros (? & _).
Qed.

(** The condition throws exactly on a solution with the action of the step
    and no page context. *)
Lemma similar_throws step context s e :
  similar step context s = inl e
  <-> stepAction s = action step /\ pageContext s = None /\ e = no_pageType.
Proof.
  unfold similar. case_bool_decide as Ha.
  - destruct (pageContext s) as [pc|]; simpl.
    + split; [done|]. by intros (_ & [=] & _).
    + split; [by intros [= <-]|]. by intros (_ & _ & ->).
  - split; [done|]. by intros (? & _).
Qed.

Lemma scan_similar_Some step context l s :
  scan_similar step context l = inr (Some s) ->
  s ∈ l /\ similar step context s = inr true.
Proof.
  induction l as [|a l IH]; simpl; [done|].
  destruct (similar step context a) as [e|[]] eqn:Ha; [done| |].
  - intros [= <-]. split; [apply list_elem_of_here|done].
  - intros H. destruct (IH H) as [Hin Hs]. split; [by apply list_elem_of_further|done].
Qed.

(** The scan returns the first solution that satisfies the condition, when
    the condition throws on none before it. *)
Lemma scan_similar_first step context l1 s l2 :
  Forall (fun a => similar step context a = inr false) l1 ->
  similar step context s = inr true ->
  scan_similar step context (l1 ++ s :: l2) = inr (Some s).
Proof.
  intros Hl1 Hs. induction Hl1 as [|a l1 Ha _ IH]; simpl.
  - by rewrite Hs.
  - by rewrite Ha.
Qed.

Lemma scan_similar_throws step context l e :
  scan_similar step context l = inl e
  <-> exists l1 s l2,
        l = (l1 ++ s :: l2)%list
        /\ Forall (fun a => similar step context a = inr false) l1
        /\ similar step context s = inl e.
Proof.
  induction l as [|a l IH]; simpl.
  - split; [done|]. intros (l1 & s & l2 & H & _). by destruct l1.
  - assert (Hcases : (exists l1 s l2, a :: l = (l1 ++ s :: l2)%list
                        /\ Forall (fun a => similar step context a = inr false) l1
                        /\ similar step context s = inl e)
                     <-> similar step context a = inl e
                         \/ (similar step context a = inr false
                             /\ exists l1 s l2, l = (l1 ++ s :: l2)%list
                                  /\ Forall (fun a => similar step context a = inr false) l1
                                  /\ similar step context s = inl e)).
    { split.
      - intros ([|b l1] & s & l2 & Hl & Hl1 & Hs); simpl in Hl; injection Hl as -> Hl.
        + by left.
        + apply Forall_cons in Hl1 as [Hb Hl1]. right. split; [done|]. by exists l1, s, l2.
      - intros [Ha|(Ha & l1 & s & l2 & -> & Hl1 & Hs)].
        + by exists [], a, l.
        + exists (a :: l1), s, l2. split_and!; [done|by constructor|done]. }
    rewrite Hcases, <- IH.
    destruct (similar step context a) as [e'|[]] eqn:Ha.
    + split; [intros [= <-]; by left|]. by intros [[= <-]|[? _]].
    + split; [done|]. by intros [?|[? _]].
    + split; [intros H; by right|]. by intros [?|[_ ?]].
Qed.



(** What the lookup returns is an entry of the map, found either under the
    key of the step with a confidence above 0.8 or by the scan with a
    confidence above 0.75. *)
Lemma findLearnedSolution_Some step context kb s :
  findLearnedSolution md5_hex step context kb = inr (Some s) ->
  (jsmap_get (generateKey md5_hex step) (solutions kb) = Some s
   /\ (hundredths 80 < confidence s)%Qc)
  \/ (s ∈ jsmap_values (solutions kb) /\ similar step context s = inr true).
Proof.
  unfold findLearnedSolution.
  destruct (jsmap_get _ _) as [e|] eqn:Hget.
  - destruct (decide _) as [Hhi|Hlo].
    + intros [= <-]. by left.
    + intros H. right. by apply scan_similar_Some.
  - intros H. right. by apply scan_similar_Some.
Qed.

(** The lookup throws exactly when the key of the step gives no entry above
    0.8 and the scan meets an entry with the action of the step and no
    page context before any entry that satisfies its condition. *)
Lemma findLearnedSolution_throws step context kb e :
  findLearnedSolution md5_hex step context kb = inl e
  <-> (forall x, jsmap_get (generateKey md5_hex step) (solutions kb) = Some x ->
                 ~ (hundredths 80 < confidence x)%Qc)
      /\ exists l1 s l2,
           jsmap_values (solutions kb) = (l1 ++ s :: l2)%list
           /\ Forall (fun a => similar step context a = inr false) l1
           /\ stepAction s = action step /\ pageContext s = None
           /\ e = no_pageType.
Proof.
  unfold findLearnedSolution.
  destruct (jsmap_get _ _) as [x|] eqn:Hget.
  - destruct (decide _) as [Hhi|Hlo].
    + split; [done|]. intros [H _]. by destruct (H x).
    + rewrite scan_similar_throws. split.
      * intros (l1 & s & l2 & Hl & Hl1 & Hs). split; [by intros ? [= <-]|].
        apply similar_throws in Hs as (? & ? & ?). by exists l1, s, l2.
      * intros (_ & l1 & s & l2 & Hl & Hl1 & Ha & Hp & ->). exists l1, s, l2.
        split_and!; [done|done|]. by apply similar_throws.
  - rewrite scan_similar_throws. split.
    + intros (l1 & s & l2 & Hl & Hl1 & Hs). split; [done|].
      apply similar_throws in Hs as (? & ? & ?). by exists l1, s, l2.
    + intros (_ & l1 & s & l2 & Hl & Hl1 & Ha & Hp & ->). exists l1, s, l2.
      split_and!; [done|done|]. by apply similar_throws.
Qed.

Lemma findLearnedSolution_confidence step context kb s :
  findLearnedSolution md5_hex step context kb = inr (Some s) ->
  (hundredths 75 < confidence s)%Qc.
Proof.
  intros H. apply findLearnedSolution_Some in H as [[_ H]|[_ H]].
  - qc_arith.
  - by apply similar_spec in H as (_ & _ & H).
Qed.

Lemma findLearnedSolution_elem step context kb s :
  findLearnedSolution md5_hex step context kb = inr (Some s) ->
  exists k, (k, s) ∈ solutions kb.
Proof.
  intros H. apply findLearnedSolution_Some in H as [[H _]|[H _]].
  - eexists. by eapply jsmap_get_Some_elem.
  - unfold jsmap_values in H. apply list_elem_of_fmap in H as ([k s'] & -> & H). by exists k.
Qed.

Lemma findLearnedSolution_get step context kb s :
  kb_keys_ok kb ->
  findLearnedSolution md5_hex step context kb = inr (Some s) ->
  jsmap_get (sol_id s) (solutions kb) = Some s.
Proof.
  intros [Hnd Hids] H. apply findLearnedSolution_elem in H as [k Hk].
  rewrite <- (Hids _ _ Hk). by apply jsmap_get_elem.
Qed.

(** *** The invariant on the keys *)

Lemma kb_keys_ok_set kb s :
  kb_keys_ok kb -> kb_keys_ok (set_solutions kb (jsmap_set (sol_id s) s (solutions kb))).
Proof.
  intros [Hnd Hids]. split; simpl.
  - by apply jsmap_set_NoDup.
  - intros k s' H. apply jsmap_set_elem in H as [[= -> ->]|H]; [done|by apply Hids].
Qed.

Lemma recordSolution_keys_ok step learned context now kb :
  kb_keys_ok kb -> kb_keys_ok (recordSolution md5_hex step learned context now kb).
Proof. intros H. unfold recordSolution. by apply (kb_keys_ok_set kb). Qed.

Lemma recordSuccess_keys_ok solutionId now kb :
  kb_keys_ok kb -> kb_keys_ok (recordSuccess solutionId now kb).
Proof.
  intros Hok. unfold recordSuccess.
  destruct (jsmap_get _ _) as [s|] eqn:Hget; [|done].
  assert (solutionId = sol_id s) as ->.
  { destruct Hok as [_ Hids]. apply Hids. by apply jsmap_get_Some_elem. }
  by apply (kb_keys_ok_set kb (bump_success now s)).
Qed.

Lemma recordFailure_keys_ok solutionId kb :
  kb_keys_ok kb -> kb_keys_ok (recordFailure solutionId kb).
Proof.
  intros Hok. unfold recordFailure.
  destruct (jsmap_get _ _) as [s|] eqn:Hget; [|done].
  destruct (decide _).
  - destruct Hok as [Hnd Hids]. split; simpl.
    + by apply jsmap_delete_NoDup.
    + intros k s' H. apply Hids. by eapply jsmap_delete_elem.
  - assert (solutionId = sol_id s) as ->.
    { destruct Hok as [_ Hids]. apply Hids. by apply jsmap_get_Some_elem. }
    by apply (kb_keys_ok_set kb (bump_failure s)).
Qed.

Lemma recordSolution_keys step learned context now kb k :
  k ∈ jsmap_keys (solutions kb) ->
  k ∈ jsmap_keys (solutions (recordSolution md5_hex step learned context now kb)).
Proof.
  intros Hk. unfold recordSolution; simpl.
  match goal with |- _ ∈ jsmap_keys (jsmap_set ?i ?v ?m) =>
    destruct (decide (i ∈ jsmap_keys m)) as [Hin|Hout] end.
  - by rewrite jsmap_keys_set_in.
  - rewrite jsmap_keys_set_notin by done. apply elem_of_app. by left.
Qed.

Lemma recordSuccess_keys solutionId now kb :
  jsmap_keys (solutions (recordSuccess solutionId now kb)) = jsmap_keys (solutions kb).
Proof.
  unfold recordSuccess. destruct (jsmap_get _ _) as [s|] eqn:Hget; [|done].
  simpl. apply jsmap_keys_set_in. by eapply jsmap_get_Some_keys.
Qed.

(** A failure recorded for a solution that the lookup has just returned
    keeps the entry: its confidence was above 0.75 and is above 0.65 after
    the decrement. *)
Lemma recordFailure_of_found step context kb s :
  kb_keys_ok kb ->
  findLearnedSolution md5_hex step context kb = inr (Some s) ->
  recordFailure (sol_id s) kb
  = set_solutions kb (jsmap_set (sol_id s) (bump_failure s) (solutions kb))
  /\ confidence (bump_failure s) = (confidence s - hundredths 10)%Qc
  /\ (hundredths 65 < confidence (bump_failure s))%Qc.
Proof.
  intros Hok Hfound.
  pose proof (findLearnedSolution_confidence _ _ _ _ Hfound) as Hconf.
  pose proof (findLearnedSolution_get _ _ _ _ Hok Hfound) as Hget.
  assert (Hge : ~ (confidence s - hundredths 10 < hundredths 40)%Qc) by qc_arith.
  assert (Hexact := bump_failure_exact s Hge).
  split_and!.
  - unfold recordFailure. rewrite Hget. rewrite decide_False; [done|].
    rewrite Hexact. done.
  - done.
  - rewrite Hexact. qc_arith.
Qed.

Lemma recordFailure_of_found_keys step context kb s :
  kb_keys_ok kb ->
  findLearnedSolution md5_hex step context kb = inr (Some s) ->
  jsmap_keys (solutions (recordFailure (sol_id s) kb)) = jsmap_keys (solutions kb).
Proof.
  intros Hok Hfound.
  destruct (recordFailure_of_found _ _ _ _ Hok Hfound) as (-> & _ & _). simpl.
  apply jsmap_keys_set_in. eapply jsmap_get_Some_keys.
  by eapply findLearnedSolution_get.
Qed.
End LookupFacts.

(** ** Calls to the outside world leave the process state alone *)

Section EnvOnly.
Context {Env : Type}.
Implicit Types st : State Env.

Lemma same_but_env_refl st : same_but_env st st.
Proof. by repeat split. Qed.

Lemma same_but_env_trans st1 st2 st3 :
  same_but_env st1 st2 -> same_but_env st2 st3 -> same_but_env st1 st3.
Proof.
  unfold same_but_env. intros (?&?&?&?&?&?) (?&?&?&?&?&?).
  repeat split; congruence.
Qed.

Lemma env_only_ret {A} (a : A) : env_only (mret a : M (State Env) A).
Proof. intros st. apply same_but_env_refl. Qed.

Lemma env_only_throw {A} msg : env_only (throw msg : M (State Env) A).
Proof. intros st. apply same_but_env_refl. Qed.

Lemma env_only_get_state : env_only (get_state : M (State Env) (State Env)).
Proof. intros st. apply same_but_env_refl. Qed.

Lemma env_only_call {A} (f : Ext Env A) : env_only (call f).
Proof. intros st. unfold call. destruct (f (env st)). by repeat split. Qed.

Lemma env_only_bind {A B} (m : M (State Env) A) (k : A -> M (State Env) B) :
  env_only m -> (forall a, env_only (k a)) -> env_only (m ≫= k).
Proof.
  intros Hm Hk st. unfold mbind, M_bind, bind.
  specialize (Hm st). destruct (m st) as [st' [e|a]]; simpl in *; [done|].
  eapply same_but_env_trans; [done|apply Hk].
Qed.

Lemma env_only_try {A} (m : M (State Env) A) (h : string -> M (State Env) A) :
  env_only m -> (forall e, env_only (h e)) -> env_only (try_catch m h).
Proof.
  intros Hm Hh st. unfold try_catch.
  specialize (Hm st). destruct (m st) as [st' [e|a]]; simpl in *; [|done].
  eapply same_but_env_trans; [done|apply Hh].
Qed.
End EnvOnly.

Ltac env_only_step :=
  first
    [ apply env_only_ret
    | apply env_only_throw
    | apply env_only_call
    | apply env_only_get_state
    | apply env_only_bind; [|intros ?]
    | apply env_only_try; [|intros ?]
    | match goal with
      | |- env_only (if ?b then _ else _) => destruct b
      | |- env_only (match ?x with _ => _ end) => destruct x
      | |- env_only (let _ := _ in _) => cbv zeta
      end ].

Section RunnerFacts.
Context {Env Element : Type}.
Variable md5_hex : string -> string.
Variable drv : Driver Env Element.
Variable aiClient : bool.
Implicit Types st : State Env.

Lemma verify_env_only selector step : env_only (verify drv selector step).
Proof. unfold verify. repeat env_only_step. Qed.

Lemma wait_action_env_only selector value step :
  env_only (wait_action drv selector value step).
Proof. unfold wait_action. repeat env_only_step. Qed.

Lemma executeAction_env_only action selector value step :
  env_only (executeAction drv action selector value step).
Proof.
  unfold executeAction.
  repeat first [apply verify_env_only | apply wait_action_env_only | env_only_step].
Qed.

Lemma executeWithAI_env_only step context : env_only (executeWithAI drv step context).
Proof.
  unfold executeWithAI, getSimplifiedDOM.
  repeat first [apply executeAction_env_only | env_only_step].
Qed.

Lemma executeAction_frame action selector value step st st' r :
  executeAction drv action selector value step st = (st', r) -> same_but_env st st'.
Proof. intros H. pose proof (executeAction_env_only action selector value step st) as F. by rewrite H in F. Qed.

Lemma executeWithAI_frame step context st st' r :
  executeWithAI drv step context st = (st', r) -> same_but_env st st'.
Proof. intros H. pose proof (executeWithAI_env_only step context st) as F. by rewrite H in F. Qed.
End RunnerFacts.

(** ** The resolver follows the tier paths *)

Section ResolverFacts.
Context {Env Element : Type}.
Variable md5_hex : string -> string.
Variable drv : Driver Env Element.
Variable aiClient : bool.
Implicit Types st : State Env.

Lemma ai_tier_spec step config context st :
  exists st' d ok,
    ai_tier md5_hex drv aiClient step config context st = (st', inr ok)
    /\ ai_resolution md5_hex (configured aiClient config) step context
         (knowledgeBase st) d (knowledgeBase st') ok
    /\ attempts st' = (attempts st ++ d)%list
    /\ kbReads st' = kbReads st
    /\ totalSteps (hybridStats st') = totalSteps (hybridStats st)
    /\ (configured aiClient config = false -> st' = st).
Proof.
  unfold ai_tier. fold (configured aiClient config).
  destruct (configured aiClient config) eqn:Hc.
  - unfold mbind, M_bind, bind, try_catch, modify, mret, M_ret, ret, get_state.
    destruct (executeWithAI _ _ _ _) as [st1 [e|[sel conf|err]]] eqn:Hai;
      apply executeWithAI_frame in Hai as (Hkb & Hst & _ & _ & Hat & Hrd).
    + exists (with_stats add_aiCost (note_attempt AI false st1)), [(AI, false)], false.
      simpl. rewrite Hkb, Hat, Hrd, Hst. split_and!; try done. by constructor.
    + eexists _, [(AI, true)], true. split; [done|]. simpl.
      rewrite Hkb, Hat, Hrd, Hst. split_and!; try done. by constructor.
    + exists (note_attempt AI false st1), [(AI, false)], false. simpl.
      rewrite Hkb, Hat, Hrd, Hst. split_and!; try done. by constructor.
  - exists st, [], false. rewrite app_nil_r. split_and!; try done. by constructor.
Qed.
Lemma learned_tier_spec step context value st :
  exists st' r,
    learned_tier md5_hex drv step context value st = (st', r)
    /\ kbReads st' = S (kbReads st)
    /\ totalSteps (hybridStats st') = totalSteps (hybridStats st)
    /\ match findLearnedSolution md5_hex step context (knowledgeBase st) with
       | inl e =>
           r = inl e /\ attempts st' = attempts st
           /\ knowledgeBase st' = knowledgeBase st
       | inr None =>
           r = inr false /\ attempts st' = attempts st
           /\ knowledgeBase st' = knowledgeBase st
       | inr (Some solution) =>
           exists ok,
             r = inr ok
             /\ attempts st' = (attempts st ++ [(Learned, ok)])%list
             /\ if ok
                then exists now,
                    knowledgeBase st' = recordSuccess (sol_id solution) now (knowledgeBase st)
                else knowledgeBase st' = recordFailure (sol_id solution) (knowledgeBase st)
       end.
Proof.
  unfold learned_tier.
  unfold mbind, M_bind, bind, try_catch, modify, mret, M_ret, ret, get_state, throw.
  destruct (findLearnedSolution _ _ _ _) as [e|[sol|]] eqn:Hfind.
  - eexists _, _. split; [done|]. done.
  - destruct (executeAction _ _ _ _ _ _) as [st1 [e|[]]] eqn:Hact;
      apply executeAction_frame in Hact as (Hkb & Hst & _ & _ & Hat & Hrd);
      simpl in Hkb, Hst, Hat, Hrd.
    + eexists _, _. split; [done|]. simpl. rewrite Hkb, Hat, Hrd, Hst.
      split_and!; try done. by exists false.
    + eexists _, _. split; [done|]. simpl. rewrite Hkb, Hat, Hrd, Hst.
      split_and!; try done. exists true. split_and!; try done. by eexists.
  - eexists _, _. split; [done|]. done.
Qed.

(** Every execution of a step that is neither a navigation nor a screenshot
    follows one of the tier paths. *)
Lemma executeStepHybrid_resolution step n flowPath config context st :
  action step <> "navigate" -> action step <> "screenshot" ->
  exists st' d reads r,
    executeStepHybrid md5_hex drv aiClient step n flowPath config context st = (st', r)
    /\ resolution md5_hex (configured aiClient config) step context
         (knowledgeBase st) d reads (knowledgeBase st') r
    /\ attempts st' = (attempts st ++ d)%list
    /\ kbReads st' = kbReads st + reads
    /\ totalSteps (hybridStats st') = S (totalSteps (hybridStats st)).
Proof.
  intros Hn Hs. unfold executeStepHybrid.
  rewrite !bool_decide_eq_false_2 by done.
  unfold mbind at 1 2, M_bind at 1 2, bind at 1 2, modify at 1.
  unfold mbind at 1, M_bind at 1, bind at 1, try_catch at 1.
  unfold mbind at 1 2, M_bind at 1 2, bind at 1 2, modify at 1 2, mret at 1, M_ret at 1, ret at 1.
  destruct (executeAction _ _ _ _ _ _) as [st1 [e|[]]] eqn:Hdet;
    apply executeAction_frame in Hdet as (Hkb & Hst & _ & _ & Hat & Hrd);
    simpl in Hkb, Hst, Hat, Hrd.
  - unfold mbind, M_bind, bind, modify, mret, M_ret, ret.
    set (st2 := note_attempt Deterministic false st1).
    destruct (learned_tier_spec step context
                (Hybrid.replaceParams (js_or (value step) "") (runner_params config)) st2)
      as (st3 & r3 & -> & Hrd3 & Hst3 & Hl).
    assert (Hkb2 : knowledgeBase st2 = knowledgeBase st) by done.
    assert (Hat2 : attempts st2 = (attempts st ++ [(Deterministic, false)])%list)
      by (simpl; by rewrite Hat).
    assert (Hrd2 : kbReads st2 = kbReads st) by done.
    assert (Hst2 : totalSteps (hybridStats st2) = S (totalSteps (hybridStats st)))
      by (simpl; by rewrite Hst).
    rewrite Hkb2 in Hl.
    destruct (findLearnedSolution _ _ _ _) as [e'|[sol|]] eqn:Hfind.
    + destruct Hl as (-> & Hat3 & Hkb3).
      exists st3, [(Deterministic, false)], 1, (inl e').
      split; [done|]. rewrite Hkb3, Hat3, Hrd3, Hst3, Hat2, Hrd2, Hst2.
      split_and!; try done; [by constructor|lia].
    + destruct Hl as (ok & -> & Hat3 & Hkb3). destruct ok.
      * destruct Hkb3 as [now Hkb3].
        exists st3, [(Deterministic, false); (Learned, true)], 1, (inr tt).
        split; [done|]. rewrite Hkb3, Hat3, Hrd3, Hst3, Hat2, Hrd2, Hst2.
        rewrite <- app_assoc. split_and!; try done; [by constructor|lia].
      * destruct (ai_tier_spec step config context st3)
          as (st4 & d & ok & -> & Hres & Hat4 & Hrd4 & Hst4 & _).
        exists st4, ((Deterministic, false) :: (Learned, false) :: d), 1, (outcome step ok).
        split; [by destruct ok|].
        rewrite Hat4, Hrd4, Hst4, Hat3, Hrd3, Hst3, Hat2, Hrd2, Hst2.
        rewrite <- !app_assoc. split_and!; try done; [|lia].
        eapply res_learned_failed; [done|]. by rewrite <- Hkb3.
    + destruct Hl as (-> & Hat3 & Hkb3).
      destruct (ai_tier_spec step config context st3)
        as (st4 & d & ok & -> & Hres & Hat4 & Hrd4 & Hst4 & _).
      exists st4, ((Deterministic, false) :: d), 1, (outcome step ok).
      split; [by destruct ok|].
      rewrite Hat4, Hrd4, Hst4, Hat3, Hrd3, Hst3, Hat2, Hrd2, Hst2.
      rewrite <- !app_assoc. split_and!; try done; [|lia].
      eapply res_nothing_learned; [done|]. by rewrite <- Hkb3.
  - eexists _, [(Deterministic, true)], 0, (inr tt). split; [done|]. simpl.
    rewrite Hkb, Hat, Hrd, Hst. split_and!; try done. by constructor.
Qed.
End ResolverFacts.

(** ** Consequences of the tier paths *)

Ltac split_list_elem H :=
  repeat (apply elem_of_cons in H as [H|H]; [try discriminate H|]);
  try (by apply elem_of_nil in H).

Ltac prove_list_elem :=
  repeat first [apply list_elem_of_here | apply list_elem_of_further].

Section ResolutionFacts.
Variable md5_hex : string -> string.
Variables (conf : bool) (step : Step) (context : ExecutionContext).
Implicit Types (kb : KnowledgeBase) (d : list (Tier * bool)).

Ltac sorted_tiers := repeat first [lia | constructor; simpl].

Ltac all_but_last :=
  let i := fresh "i" in let H := fresh "H" in let L := fresh "L" in
  intros i ? ? H L; simpl in L;
  do 4 (try (destruct i as [|i]; simpl in H;
             [try (by inversion H); try lia|]));
  try lia.

Lemma ai_resolution_shape kb d kb' ok :
  ai_resolution md5_hex conf step context kb d kb' ok ->
  (d = [] /\ ok = false /\ conf = false /\ kb' = kb)
  \/ (d = [(AI, ok)] /\ conf = true).
Proof. intros [|Hc|learned now Hc]; [left|right|right]; done. Qed.

Lemma resolution_in_order kb d reads kb' r :
  resolution md5_hex conf step context kb d reads kb' r -> tiers_in_order d.
Proof.
  intros [|sol now Hf|sol d' kb1 ok' Hf Hai|d' kb1 ok' Hf Hai|e Hf];
    try (apply ai_resolution_shape in Hai as [(-> & _)|(-> & _)]);
    (split_and!; [simpl; sorted_tiers|done|all_but_last]).
Qed.

Lemma resolution_reads kb d reads kb' r :
  resolution md5_hex conf step context kb d reads kb' r -> reads <= 1.
Proof. intros [| | | |]; lia. Qed.

Lemma resolution_done kb d reads kb' r :
  resolution md5_hex conf step context kb d reads kb' r ->
  r = inr tt <-> exists t, last d = Some (t, true).
Proof.
  intros [|sol now Hf|sol d' kb1 ok' Hf Hai|d' kb1 ok' Hf Hai|e Hf];
    try (apply ai_resolution_shape in Hai as [(-> & -> & _)|(-> & _)]); simpl;
    try (split; [by eexists|done]);
    try (split; [done|by intros [t [=]]]);
    destruct ok'; simpl; (split; [by eexists|done]) || (split; [done|by intros [t [=]]]).
Qed.

Lemma resolution_ai kb d reads kb' r b :
  resolution md5_hex conf step context kb d reads kb' r ->
  (AI, b) ∈ d ->
  conf = true
  /\ (Deterministic, false) ∈ d
  /\ (findLearnedSolution md5_hex step context kb = inr None \/ (Learned, false) ∈ d).
Proof.
  intros [|sol now Hf|sol d' kb1 ok' Hf Hai|d' kb1 ok' Hf Hai|e Hf] Hin;
    try (apply ai_resolution_shape in Hai as [(-> & _)|(-> & Hc)]);
    try (by split_list_elem Hin).
  - split_and!; [done|prove_list_elem|right; prove_list_elem].
  - split_and!; [done|prove_list_elem|by left].
Qed.

Lemma resolution_deterministic kb d reads kb' r :
  resolution md5_hex conf step context kb d reads kb' r ->
  (Deterministic, true) ∈ d -> kb' = kb /\ reads = 0 /\ d = [(Deterministic, true)].
Proof.
  intros [|sol now Hf|sol d' kb1 ok' Hf Hai|d' kb1 ok' Hf Hai|e Hf] Hin;
    try (apply ai_resolution_shape in Hai as [(-> & _)|(-> & Hc)]);
    try done; by split_list_elem Hin.
Qed.

Lemma ai_resolution_lifecycle kb d kb' ok :
  ai_resolution md5_hex conf step context kb d kb' ok -> rtc (kb_update md5_hex) kb kb'.
Proof.
  intros [|Hc|learned now Hc]; [done|done|]. apply rtc_once. constructor.
Qed.

(** The knowledge base after a tier path is reached from the one before by
    updates of the three kinds. *)
Lemma resolution_lifecycle kb d reads kb' r :
  resolution md5_hex conf step context kb d reads kb' r -> rtc (kb_update md5_hex) kb kb'.
Proof.
  intros [|sol now Hf|sol d' kb1 ok' Hf Hai|d' kb1 ok' Hf Hai|e Hf].
  - done.
  - apply rtc_once. constructor.
  - eapply rtc_l; [apply kb_update_failure|]. by eapply ai_resolution_lifecycle.
  - by eapply ai_resolution_lifecycle.
  - done.
Qed.

Lemma ai_resolution_keys kb d kb' ok :
  ai_resolution md5_hex conf step context kb d kb' ok ->
  kb_keys_ok kb ->
  kb_keys_ok kb' /\ forall k, k ∈ jsmap_keys (solutions kb) -> k ∈ jsmap_keys (solutions kb').
Proof.
  intros [|Hc|learned now Hc] Hok; try done.
  split; [by apply recordSolution_keys_ok|]. intros k. apply recordSolution_keys.
Qed.

Lemma resolution_keys kb d reads kb' r :
  resolution md5_hex conf step context kb d reads kb' r ->
  kb_keys_ok kb ->
  kb_keys_ok kb' /\ forall k, k ∈ jsmap_keys (solutions kb) -> k ∈ jsmap_keys (solutions kb').
Proof.
  intros [|sol now Hf|sol d' kb1 ok' Hf Hai|d' kb1 ok' Hf Hai|e Hf] Hok.
  - done.
  - split; [by apply recordSuccess_keys_ok|]. by rewrite recordSuccess_keys.
  - apply ai_resolution_keys in Hai as [Hok' Hsub]; [|by apply recordFailure_keys_ok].
    split; [done|]. intros k Hk. apply Hsub.
    by rewrite (recordFailure_of_found_keys _ _ _ _ _ Hok Hf).
  - by apply ai_resolution_keys in Hai.
  - done.
Qed.
End ResolutionFacts.

(** ** Steps and flows of the hybrid runner *)

Section StepFacts.
Context {Env Element : Type}.
Variable md5_hex : string -> string.
Variable drv : Driver Env Element.
Variable aiClient : bool.
Implicit Types st : State Env.

Ltac run_calls :=
  repeat (simpl;
          match goal with
          | |- context [call ?f ?st] =>
              let e := fresh "e" in let r := fresh "r" in
              unfold call at 1; destruct (f (env st)) as [e [r|r]]
          end); simpl.

(** A navigation or a screenshot is executed directly: no tier is attempted
    and the knowledge base is not used. *)
Lemma executeStepHybrid_direct step n flowPath config context st :
  action step = "navigate" \/ action step = "screenshot" ->
  let st' := (executeStepHybrid md5_hex drv aiClient step n flowPath config context st).1 in
  knowledgeBase st' = knowledgeBase st
  /\ kbReads st' = kbReads st
  /\ attempts st' = attempts st.
Proof.
  intros Hact. cbv zeta. unfold executeStepHybrid.
  unfold mbind at 1, M_bind at 1, bind at 1, modify at 1.
  destruct (bool_decide (action step = "navigate")) eqn:Hnav.
  - unfold navigate_step, mbind, M_bind, bind, modify. run_calls; done.
  - destruct (bool_decide (action step = "screenshot")) eqn:Hshot.
    + unfold screenshot_step, mbind, M_bind, bind, modify. run_calls; done.
    + apply bool_decide_eq_false in Hnav, Hshot. by destruct Hact.
Qed.

(** No step removes a key from the knowledge base. *)
Lemma executeStepHybrid_keys step n flowPath config context st :
  kb_keys_ok (knowledgeBase st) ->
  let st' := (executeStepHybrid md5_hex drv aiClient step n flowPath config context st).1 in
  kb_keys_ok (knowledgeBase st')
  /\ forall k, k ∈ jsmap_keys (solutions (knowledgeBase st)) ->
               k ∈ jsmap_keys (solutions (knowledgeBase st')).
Proof.
  intros Hok.
  destruct (decide (action step = "navigate")) as [Hnav|Hnav].
  { pose proof (executeStepHybrid_direct step n flowPath config context st
                  (or_introl Hnav)) as H.
    cbv zeta in H |- *. destruct H as (-> & _). done. }
  destruct (decide (action step = "screenshot")) as [Hshot|Hshot].
  { pose proof (executeStepHybrid_direct step n flowPath config context st
                  (or_intror Hshot)) as H.
    cbv zeta in H |- *. destruct H as (-> & _). done. }
  destruct (executeStepHybrid_resolution md5_hex drv aiClient step n flowPath config
              context st Hnav Hshot) as (st' & d & reads & r & -> & Hres & _).
  cbv zeta. simpl. by eapply resolution_keys.
Qed.

Lemma run_steps_keys steps i flowPath config context st :
  kb_keys_ok (knowledgeBase st) ->
  let st' := (run_steps md5_hex drv aiClient steps i flowPath config context st).1 in
  kb_keys_ok (knowledgeBase st')
  /\ forall k, k ∈ jsmap_keys (solutions (knowledgeBase st)) ->
               k ∈ jsmap_keys (solutions (knowledgeBase st')).
Proof.
  revert i st. induction steps as [|step rest IH]; intros i st Hok; simpl; [done|].
  unfold mbind, M_bind, bind.
  pose proof (executeStepHybrid_keys step (S i) flowPath config context st Hok) as H1.
  cbv zeta in H1. destruct H1 as [Hok1 Hsub1].
  destruct (executeStepHybrid _ _ _ _ _ _ _ _ _) as [st1 [e|[]]]; simpl in *; [done|].
  pose proof (IH (S i) st1 Hok1) as H2. cbv zeta in H2. destruct H2 as [Hok2 Hsub2].
  split; [done|]. auto.
Qed.

Lemma executeFlow_keys flowPath config st :
  kb_keys_ok (knowledgeBase st) ->
  let st' := (executeFlow md5_hex drv aiClient flowPath config st).1 in
  kb_keys_ok (knowledgeBase st')
  /\ forall k, k ∈ jsmap_keys (solutions (knowledgeBase st)) ->
               k ∈ jsmap_keys (solutions (knowledgeBase st')).
Proof.
  intros Hok. cbv zeta. unfold executeFlow.
  assert (Hbody :
    let st1 := (flow_body md5_hex drv aiClient flowPath config
                  (with_screenshots (fun _ => []) st)).1 in
    kb_keys_ok (knowledgeBase st1)
    /\ forall k, k ∈ jsmap_keys (solutions (knowledgeBase st)) ->
                 k ∈ jsmap_keys (solutions (knowledgeBase st1))).
  { unfold flow_body, mbind, M_bind, bind, get_state.
    set (st0 := with_screenshots (fun _ => []) st).
    destruct (getFlowByPath _ _) as [node|]; [|done].
    assert (Hsteps : knowledgeBase (flow_steps_of drv aiClient flowPath node st0).1
                     = knowledgeBase st).
    { unfold flow_steps_of. destruct node as [children|flow|]; try done.
      destruct (_ && _); [|done]. destruct (negb aiClient); [done|].
      unfold mbind, M_bind, bind, modify, mret, M_ret, ret. run_calls; done. }
    destruct (flow_steps_of _ _ _ _ _) as [st1 [e|[[|step rest]|]]]; simpl in Hsteps |- *;
      try (by rewrite Hsteps).
    rewrite <- Hsteps in Hok |- *.
    by apply (run_steps_keys (step :: rest)). }
  cbv zeta in Hbody.
  destruct (flow_body _ _ _ _ _ _) as [st1 [message|[]]]; simpl in Hbody |- *; [|done].
  unfold call. destruct (page_screenshot _ _ _ _) as [e [r|r]]; simpl; done.
Qed.

(** The knowledge base after a step, a sequence of steps or a flow is
    reached from the one before by updates of the three kinds. *)
Lemma executeStepHybrid_lifecycle step n flowPath config context st :
  rtc (kb_update md5_hex) (knowledgeBase st)
    (knowledgeBase
       (executeStepHybrid md5_hex drv aiClient step n flowPath config context st).1).
Proof.
  destruct (decide (action step = "navigate" \/ action step = "screenshot")) as [Hdir|Hdir].
  - pose proof (executeStepHybrid_direct step n flowPath config context st Hdir) as H.
    cbv zeta in H. destruct H as (-> & _). done.
  - destruct (executeStepHybrid_resolution md5_hex drv aiClient step n flowPath config
                context st) as (st' & d & reads & r & -> & Hres & _).
    { intros ?. apply Hdir. by left. }
    { intros ?. apply Hdir. by right. }
    simpl. by eapply resolution_lifecycle.
Qed.

Lemma run_steps_lifecycle steps i flowPath config context st :
  rtc (kb_update md5_hex) (knowledgeBase st)
    (knowledgeBase (run_steps md5_hex drv aiClient steps i flowPath config context st).1).
Proof.
  revert i st. induction steps as [|step rest IH]; intros i st; simpl; [done|].
  unfold mbind, M_bind, bind.
  pose proof (executeStepHybrid_lifecycle step (S i) flowPath config context st) as H1.
  destruct (executeStepHybrid _ _ _ _ _ _ _ _ _) as [st1 [e|[]]]; simpl in *; [done|].
  etrans; [done|apply IH].
Qed.

Lemma executeFlow_lifecycle flowPath config st :
  rtc (kb_update md5_hex) (knowledgeBase st)
    (knowledgeBase (executeFlow md5_hex drv aiClient flowPath config st).1).
Proof.
  unfold executeFlow.
  assert (Hbody :
    rtc (kb_update md5_hex) (knowledgeBase st)
      (knowledgeBase (flow_body md5_hex drv aiClient flowPath config
                        (with_screenshots (fun _ => []) st)).1)).
  { unfold flow_body, mbind, M_bind, bind, get_state.
    set (st0 := with_screenshots (fun _ => []) st).
    destruct (getFlowByPath _ _) as [node|]; [|done].
    assert (Hsteps : knowledgeBase (flow_steps_of drv aiClient flowPath node st0).1
                     = knowledgeBase st).
    { unfold flow_steps_of. destruct node as [children|flow|]; try done.
      destruct (_ && _); [|done]. destruct (negb aiClient); [done|].
      unfold mbind, M_bind, bind, modify, mret, M_ret, ret. run_calls; done. }
    destruct (flow_steps_of _ _ _ _ _) as [st1 [e|[[|step rest]|]]]; simpl in Hsteps |- *;
      try (by rewrite Hsteps).
    rewrite <- Hsteps. apply (run_steps_lifecycle (step :: rest)). }
  destruct (flow_body _ _ _ _ _ _) as [st1 [message|[]]]; simpl in Hbody |- *; [|done].
  unfold call. destruct (page_screenshot _ _ _ _) as [e [r|r]]; simpl; done.
Qed.

(** The third tier runs [executeWithAI] once when it is entered. *)
Lemma ai_tier_run step config context st :
  exists d st' ok,
    ai_tier md5_hex drv aiClient step config context st = (st', inr ok)
    /\ ai_run md5_hex drv aiClient step config context st d st' (outcome step ok).
Proof.
  unfold ai_tier. fold (configured aiClient config).
  destruct (configured aiClient config) eqn:Hc.
  - unfold mbind, M_bind, bind, try_catch, modify, mret, M_ret, ret, get_state.
    destruct (executeWithAI _ _ _ _) as [st1 [e|[sel conf|err]]] eqn:Hai.
    + eexists _, _, false. split; [done|]. by eapply ai_run_threw.
    + eexists _, _, true. split; [done|].
      by apply (ai_run_done md5_hex drv aiClient step config context st st1 sel conf).
    + eexists _, _, false. split; [done|]. by eapply ai_run_failed.
  - exists [], st, false. split; [done|]. by constructor.
Qed.

(** Every execution of a step that is neither a navigation nor a screenshot
    is one of the tier paths, with the runs of [executeAction] and
    [executeWithAI] that the path names. *)
Lemma executeStepHybrid_run step n flowPath config context st :
  action step <> "navigate" -> action step <> "screenshot" ->
  exists st' r d,
    executeStepHybrid md5_hex drv aiClient step n flowPath config context st = (st', r)
    /\ tier_run md5_hex drv aiClient step config context st d st' r.
Proof.
  intros Hn Hs. unfold executeStepHybrid.
  rewrite !bool_decide_eq_false_2 by done.
  fold (step_selector step config) (step_value step config).
  unfold mbind at 1 2, M_bind at 1 2, bind at 1 2, modify at 1.
  unfold mbind at 1, M_bind at 1, bind at 1, try_catch at 1.
  unfold mbind at 1 2, M_bind at 1 2, bind at 1 2, modify at 1 2, mret at 1, M_ret at 1, ret at 1.
  destruct (executeAction drv (action step) (step_selector step config) _ step
              (with_stats inc_totalSteps st)) as [st1 [e1|[]]] eqn:Hdet.
  - pose proof (executeAction_frame _ _ _ _ _ _ _ _ Hdet) as (Hkb & _).
    simpl in Hkb.
    unfold mbind at 1 2, M_bind at 1 2, bind at 1 2, modify at 1, mret at 1, M_ret at 1, ret at 1.
    unfold learned_tier.
    unfold mbind at 1 2, M_bind at 1 2, bind at 1 2, get_state at 1, modify at 1.
    cbn [knowledgeBase note_attempt]. rewrite Hkb.
    fold (after_deterministic st1).
    destruct (findLearnedSolution md5_hex step context (knowledgeBase st))
      as [e|[solution|]] eqn:Hfind.
    + eexists _, _, _. split; [done|]. by eapply run_lookup_threw.
    + unfold try_catch at 1, mbind at 1, M_bind at 1, bind at 1.
      destruct (executeAction drv (action step) (learnedSelector solution) _ step
                  (after_deterministic st1)) as [st2 [e2|[]]] eqn:Hlearned.
      * unfold mbind, M_bind, bind, modify, mret, M_ret, ret.
        destruct (ai_tier_run step config context
                    (with_kb (recordFailure (sol_id solution)) (note_attempt Learned false st2)))
          as (d & st' & ok & -> & Hai).
        exists st', (outcome step ok), ((Deterministic, false) :: (Learned, false) :: d).
        split; [by destruct ok|]. by eapply run_learned_failed.
      * unfold mbind, M_bind, bind, modify, mret, M_ret, ret, get_state.
        eexists _, _, _. split; [done|].
        by apply (run_learned md5_hex drv aiClient step config context st st1 e1 solution st2).
    + unfold mret at 1, M_ret at 1, ret at 1.
      destruct (ai_tier_run step config context (after_deterministic st1))
        as (d & st' & ok & Hrun & Hai).
      unfold mbind, M_bind, bind. rewrite Hrun.
      exists st', (outcome step ok), ((Deterministic, false) :: d).
      split; [by destruct ok|]. by eapply run_nothing_learned.
  - eexists _, _, _. split; [done|]. by eapply run_deterministic.
Qed.

Lemma ai_run_shape step config context st d st' r :
  ai_run md5_hex drv aiClient step config context st d st' r ->
  attempts st' = (attempts st ++ d)%list
  /\ ((d = [] /\ configured aiClient config = false)
      \/ (configured aiClient config = true /\ exists ok, d = [(AI, ok)])).
Proof.
  intros [Hc|st1 sel conf Hc Hai|st1 err Hc Hai|st1 e Hc Hai];
    try (apply executeWithAI_frame in Hai as (_ & _ & _ & _ & Hat & _));
    simpl; rewrite ?Hat, ?app_nil_r; (split; [done|]);
    [by left|right|right|right]; (split; [done|by eexists]).
Qed.

Lemma tier_run_attempts step config context st d st' r :
  tier_run md5_hex drv aiClient step config context st d st' r ->
  attempts st' = (attempts st ++ d)%list.
Proof.
  intros [st1 Hdet|st1 e1 e Hdet Hf|st1 e1 sol st3 Hdet Hf Hl
         |st1 e1 sol st3 e2 d' st4 r' Hdet Hf Hl Hai
         |st1 e1 d' st4 r' Hdet Hf Hai];
    apply executeAction_frame in Hdet as (_ & _ & _ & _ & Hat1 & _);
    try (apply executeAction_frame in Hl as (_ & _ & _ & _ & Hat2 & _));
    try (apply ai_run_shape in Hai as (Hat3 & _));
    simpl in *; rewrite ?Hat3; simpl; rewrite ?Hat2; simpl; rewrite ?Hat1;
    by rewrite <- ?app_assoc.
Qed.

(** The first attempt of a path is the deterministic one, and its outcome
    is the one of the run of [executeAction] with the selector of the step;
    when that run returns, nothing else is run. *)
Lemma tier_run_first step config context st d st' r :
  tier_run md5_hex drv aiClient step config context st d st' r ->
  exists st1 r1 ok,
    executeAction drv (action step) (step_selector step config)
      (Some (step_value step config)) step (with_stats inc_totalSteps st) = (st1, r1)
    /\ head d = Some (Deterministic, ok)
    /\ (ok = true <-> r1 = inr tt)
    /\ (ok = true -> d = [(Deterministic, true)] /\ env st' = env st1).
Proof.
  intros [st1 Hdet|st1 e1 e Hdet Hf|st1 e1 sol st3 Hdet Hf Hl
         |st1 e1 sol st3 e2 d' st4 r' Hdet Hf Hl Hai
         |st1 e1 d' st4 r' Hdet Hf Hai].
  - by exists st1, (inr tt), true.
  - by exists st1, (inl e1), false.
  - by exists st1, (inl e1), false.
  - by exists st1, (inl e1), false.
  - by exists st1, (inl e1), false.
Qed.

Lemma tier_run_learned step config context st d st' r :
  tier_run md5_hex drv aiClient step config context st d st' r ->
  (exists ok, (Learned, ok) ∈ d)
  <-> (Deterministic, false) ∈ d
      /\ exists s, findLearnedSolution md5_hex step context (knowledgeBase st)
                   = inr (Some s).
Proof.
  intros [st1 Hdet|st1 e1 e Hdet Hf|st1 e1 sol st3 Hdet Hf Hl
         |st1 e1 sol st3 e2 d' st4 r' Hdet Hf Hl Hai
         |st1 e1 d' st4 r' Hdet Hf Hai];
    try (apply ai_run_shape in Hai as (_ & Hai)); rewrite ?Hf.
  - split; [intros [ok Hin]; by split_list_elem Hin|].
    intros [Hin _]. by split_list_elem Hin.
  - split; [intros [ok Hin]; by split_list_elem Hin|]. by intros (_ & s & [=]).
  - split; [|intros _; exists true; prove_list_elem].
    intros _. split; [prove_list_elem|by eexists].
  - split; [|intros _; exists false; prove_list_elem].
    intros _. split; [prove_list_elem|by eexists].
  - split; [|by intros (_ & s & [=])].
    intros [ok Hin]. exfalso.
    destruct Hai as [(-> & _)|(_ & ok' & ->)]; by split_list_elem Hin.
Qed.

Lemma tier_run_ai step config context st d st' r :
  tier_run md5_hex drv aiClient step config context st d st' r ->
  (exists ok, (AI, ok) ∈ d)
  <-> configured aiClient config = true
      /\ (Deterministic, false) ∈ d
      /\ (findLearnedSolution md5_hex step context (knowledgeBase st) = inr None
          \/ (Learned, false) ∈ d).
Proof.
  intros [st1 Hdet|st1 e1 e Hdet Hf|st1 e1 sol st3 Hdet Hf Hl
         |st1 e1 sol st3 e2 d' st4 r' Hdet Hf Hl Hai
         |st1 e1 d' st4 r' Hdet Hf Hai];
    try (apply ai_run_shape in Hai as (_ & Hai)); rewrite ?Hf.
  - split; [intros [ok Hin]; by split_list_elem Hin|].
    intros (_ & Hin & _). by split_list_elem Hin.
  - split; [intros [ok Hin]; by split_list_elem Hin|].
    intros (_ & _ & [[=]|Hin]). by split_list_elem Hin.
  - split; [intros [ok Hin]; by split_list_elem Hin|].
    intros (_ & _ & [[=]|Hin]). by split_list_elem Hin.
  - destruct Hai as [(-> & Hc)|(Hc & ok' & ->)].
    + split; [intros [ok Hin]; by split_list_elem Hin|]. intros (? & _). congruence.
    + split; [|intros _; exists ok'; prove_list_elem].
      intros _. split_and!; [done|prove_list_elem|right; prove_list_elem].
  - destruct Hai as [(-> & Hc)|(Hc & ok' & ->)].
    + split; [intros [ok Hin]; by split_list_elem Hin|]. intros (? & _). congruence.
    + split; [|intros _; exists ok'; prove_list_elem].
      intros _. split_and!; [done|prove_list_elem|by left].
Qed.

(** A click is the click on the page followed by a pause of half a
    second. *)
Lemma executeAction_click selector value step st st1 r1 :
  executeAction drv "click" selector value step st = (st1, r1) ->
  match page_click drv selector (env st) with
  | (e1, inr _) =>
      match page_waitForTimeout drv 500 e1 with
      | (e2, r) => r1 = r /\ env st1 = e2
      end
  | (e1, inl m) => r1 = inl m /\ env st1 = e1
  end.
Proof.
  unfold executeAction. rewrite bool_decide_eq_true_2 by done.
  unfold mbind, M_bind, bind, call.
  destruct (page_click drv selector (env st)) as [e1 [m|[]]]; cbn [env].
  - by intros [= <- <-].
  - destruct (page_waitForTimeout drv 500 e1) as [e2 r]. by intros [= <- <-].
Qed.

(** C3. For a step that is neither a navigation nor a screenshot, the
    execution is one of the tier paths: the deterministic tier runs
    [executeAction] with the selector of the step; only when that fails is
    the knowledge base looked up, and the learned tier runs [executeAction]
    with the selector of the solution found; only when there is no solution,
    or that run fails, and an AI client exists in hybrid mode, does the AI
    tier run [executeWithAI]; the first success ends the step. The attempts
    are therefore in the order deterministic, learned, AI, each tier at most
    once, every attempt but the last failed, and the step succeeds exactly
    when its last attempt succeeded. The deterministic tier is always
    attempted, the learned tier exactly when the deterministic attempt
    failed and the lookup returned a solution, the AI tier exactly when it
    is configured, the deterministic attempt failed and the learned tier
    found nothing or failed. For a click the deterministic attempt is the
    click on the page followed by the pause. *)
Theorem C3_tiers_in_strict_order step n flowPath config context st :
  action step <> "navigate" ->
  action step <> "screenshot" ->
  exists st' r d,
    executeStepHybrid md5_hex drv aiClient step n flowPath config context st = (st', r)
    /\ tier_run md5_hex drv aiClient step config context st d st' r
    /\ attempts st' = (attempts st ++ d)%list
    /\ tiers_in_order d
    /\ NoDup d.*1
    /\ kbReads st' <= S (kbReads st)
    /\ (r = inr tt <-> exists t, last d = Some (t, true))
    /\ (exists ok,
          head d = Some (Deterministic, ok)
          /\ (ok = true
              <-> (executeAction drv (action step) (step_selector step config)
                     (Some (step_value step config)) step
                     (with_stats inc_totalSteps st)).2 = inr tt))
    /\ ((exists ok, (Learned, ok) ∈ d)
        <-> (Deterministic, false) ∈ d
            /\ exists s, findLearnedSolution md5_hex step context (knowledgeBase st)
                         = inr (Some s))
    /\ ((exists ok, (AI, ok) ∈ d)
        <-> aiClient = true
            /\ cfg_mode config = "hybrid"
            /\ (Deterministic, false) ∈ d
            /\ (findLearnedSolution md5_hex step context (knowledgeBase st) = inr None
                \/ (Learned, false) ∈ d))
    /\ (action step = "click" ->
        match page_click drv (step_selector step config) (env st) with
        | (e1, inr _) =>
            match page_waitForTimeout drv 500 e1 with
            | (e2, inr _) => d = [(Deterministic, true)] /\ env st' = e2
            | (_, inl _) => head d = Some (Deterministic, false)
            end
        | (_, inl _) => head d = Some (Deterministic, false)
        end).
Proof.
  intros Hnav Hshot.
  destruct (executeStepHybrid_resolution md5_hex drv aiClient step n flowPath config
              context st Hnav Hshot) as (st' & d & reads & r & Hrun & Hres & Hat & Hrd & _).
  destruct (executeStepHybrid_run step n flowPath config context st Hnav Hshot)
    as (st2 & r2 & d2 & Hrun2 & Hpath).
  rewrite Hrun in Hrun2. injection Hrun2 as <- <-.
  assert (d2 = d) as ->.
  { apply (app_inv_head (attempts st)). rewrite <- Hat. symmetry.
    by eapply tier_run_attempts. }
  assert (Hconf : configured aiClient config = true
                  <-> aiClient = true /\ cfg_mode config = "hybrid").
  { unfold configured. rewrite andb_true_iff, bool_decide_eq_true. done. }
  destruct (tier_run_first _ _ _ _ _ _ _ Hpath) as (st1 & r1 & ok & Hdet & Hhead & Hok & Hone).
  exists st', r, d.
  pose proof (resolution_in_order _ _ _ _ _ _ _ _ _ Hres) as Hord.
  split_and!; try done.
  - destruct Hord as (Hsorted & _ & _).
    clear -Hsorted. induction Hsorted as [|t l Hs IH Hall]; constructor; [|done].
    intros Hin. rewrite Forall_forall in Hall. specialize (Hall _ Hin). lia.
  - rewrite Hrd. pose proof (resolution_reads _ _ _ _ _ _ _ _ _ Hres). lia.
  - by rewrite <- (resolution_done _ _ _ _ _ _ _ _ _ Hres).
  - exists ok. by rewrite Hdet.
  - by eapply tier_run_learned.
  - rewrite (tier_run_ai _ _ _ _ _ _ _ Hpath), Hconf. tauto.
  - intros Hclick. rewrite Hclick in Hdet.
    apply executeAction_click in Hdet. cbn [env with_stats] in Hdet.
    destruct (page_click drv _ (env st)) as [e1 [m1|[]]].
    + destruct Hdet as [-> _]. destruct ok; [by pose proof (proj1 Hok eq_refl)|done].
    + destruct (page_waitForTimeout drv 500 e1) as [e2 [m2|[]]]; destruct Hdet as [-> He].
      * destruct ok; [by pose proof (proj1 Hok eq_refl)|done].
      * assert (ok = true) as -> by by apply Hok.
        destruct (Hone eq_refl) as [-> Henv]. by rewrite Henv.
Qed.

(** C1. Along every sequence of updates of a knowledge base whose
    confidences start in [0.3, 0.99], every entry keeps its confidence in
    [0.3, 0.99]. A success raises the confidence of the entry, strictly
    while it is below 0.99, to the minimum of 0.99 and the confidence plus
    0.02 (up to rounding). A failure lowers it, strictly while it is above
    0.3, to the maximum of 0.3 and the confidence minus 0.1 (up to
    rounding), and the entry is deleted exactly when the lowered confidence
    is below 0.4: an entry that stays is at 0.4 or above. A flow run from
    such a knowledge base leaves a knowledge base of the same kind. *)
Theorem C1_confidence_lifecycle kb0 kb solutionId s :
  kb_conf_ok kb0 ->
  rtc (kb_update md5_hex) kb0 kb ->
  jsmap_get solutionId (solutions kb) = Some s ->
  conf_in_range s
  /\ (forall now,
        jsmap_get solutionId (solutions (recordSuccess solutionId now kb))
        = Some (bump_success now s)
        /\ (confidence s <= confidence (bump_success now s))%Qc
        /\ ((confidence s < hundredths 99)%Qc ->
            (confidence s < confidence (bump_success now s))%Qc)
        /\ near (confidence (bump_success now s))
             (Math_min (hundredths 99) (confidence s + hundredths 2)%Qc)
        /\ conf_in_range (bump_success now s)
        /\ kb_conf_ok (recordSuccess solutionId now kb))
  /\ (confidence (bump_failure s) <= confidence s)%Qc
  /\ ((hundredths 30 < confidence s)%Qc ->
      (confidence (bump_failure s) < confidence s)%Qc)
  /\ near (confidence (bump_failure s))
       (Math_max (hundredths 30) (confidence s - hundredths 10)%Qc)
  /\ (if decide (confidence (bump_failure s) < hundredths 40)%Qc
      then jsmap_get solutionId (solutions (recordFailure solutionId kb)) = None
      else jsmap_get solutionId (solutions (recordFailure solutionId kb))
           = Some (bump_failure s)
           /\ (hundredths 40 <= confidence (bump_failure s))%Qc
           /\ conf_in_range (bump_failure s))
  /\ kb_conf_ok (recordFailure solutionId kb)
  /\ (forall flowPath config st,
        knowledgeBase st = kb ->
        kb_conf_ok (knowledgeBase (executeFlow md5_hex drv aiClient flowPath config st).1)).
Proof.
  intros Hok0 Hsteps Hget.
  assert (Hok : kb_conf_ok kb) by by eapply (lifecycle_conf_ok md5_hex).
  assert (Hs : conf_in_range s) by by eapply Hok.
  split_and!.
  - done.
  - intros now. split_and!.
    + by apply recordSuccess_lookup.
    + by apply bump_success_raises.
    + apply bump_success_raises_strictly.
    + apply near_refl.
    + by apply bump_success_range.
    + by apply recordSuccess_conf_ok.
  - by apply bump_failure_lowers.
  - apply bump_failure_lowers_strictly.
  - apply near_refl.
  - rewrite (recordFailure_lookup _ _ _ Hget).
    destruct (decide _) as [Hlt|Hge]; [done|].
    split_and!; [done| |by apply bump_failure_range].
    by apply Qcnot_lt_le.
  - by apply recordFailure_conf_ok.
  - intros flowPath config st <-.
    eapply (lifecycle_conf_ok md5_hex); [apply executeFlow_lifecycle|done].
Qed.

(** C10. A solution returned by the lookup has a confidence above 0.75 and
    is the entry stored under its id; a failure recorded for it leaves a
    confidence above 0.65, which is not below 0.4, and keeps the entry, so
    the deletion branch is not taken; for a confidence up to 0.99 the new
    value is the old one minus 0.1 (up to rounding), and it is no longer
    above 0.75 when the old one was at most 0.84. The knowledge base after
    a step is the one of a tier path, where a failure is only recorded for
    the solution that the lookup returned, and no step and no flow removes
    a key from the knowledge base. *)
Theorem C10_found_solution_is_kept step context kb s :
  kb_keys_ok kb ->
  findLearnedSolution md5_hex step context kb = inr (Some s) ->
  (hundredths 75 < confidence s)%Qc
  /\ jsmap_get (sol_id s) (solutions kb) = Some s
  /\ jsmap_get (sol_id s) (solutions (recordFailure (sol_id s) kb)) = Some (bump_failure s)
  /\ (hundredths 65 < confidence (bump_failure s))%Qc
  /\ ~ (confidence (bump_failure s) < hundredths 40)%Qc
  /\ ((confidence s <= hundredths 99)%Qc ->
      near (confidence (bump_failure s)) (confidence s - hundredths 10)%Qc)
  /\ ((confidence s <= hundredths 84)%Qc ->
      ~ (hundredths 75 < confidence (bump_failure s))%Qc)
  /\ jsmap_keys (solutions (recordFailure (sol_id s) kb)) = jsmap_keys (solutions kb)
  /\ (forall n flowPath config st,
        knowledgeBase st = kb ->
        action step <> "navigate" -> action step <> "screenshot" ->
        exists d reads r,
          resolution md5_hex (configured aiClient config) step context kb d reads
            (knowledgeBase
               (executeStepHybrid md5_hex drv aiClient step n flowPath config context st).1)
            r)
  /\ (forall flowPath config st,
        knowledgeBase st = kb ->
        kb_keys_ok (knowledgeBase (executeFlow md5_hex drv aiClient flowPath config st).1)
        /\ forall k, k ∈ jsmap_keys (solutions kb) ->
             k ∈ jsmap_keys
                   (solutions
                      (knowledgeBase (executeFlow md5_hex drv aiClient flowPath config st).1))).
Proof.
  intros Hok Hfound.
  destruct (recordFailure_of_found md5_hex _ _ _ _ Hok Hfound) as (Hrec & Hexact & Hhigh).
  split_and!.
  - by eapply findLearnedSolution_confidence.
  - by eapply findLearnedSolution_get.
  - rewrite Hrec. simpl. apply jsmap_get_set_eq.
  - done.
  - qc_arith.
  - intros _. rewrite Hexact. apply near_refl.
  - intros Hle. rewrite Hexact. qc_arith.
  - by eapply recordFailure_of_found_keys.
  - intros n flowPath config st <- Hnav Hshot.
    destruct (executeStepHybrid_resolution md5_hex drv aiClient step n flowPath config
                context st Hnav Hshot) as (st' & d & reads & r & -> & Hres & _).
    by exists d, reads, r.
  - intros flowPath config st <-. by apply executeFlow_keys.
Qed.

(** The failure of a flow that consists of one click step whose selector
    the page does not have, with an empty knowledge base and no AI client. *)
Lemma single_click_fails flowPath config st flow step :
  getFlowByPath flowPath (flowsData st) = Some (NFlow flow) ->
  flow_steps flow = Some [step] ->
  action step = "click" ->
  (forall e, exists e' msg,
      page_click drv
        (Hybrid.convertSelector
           (Hybrid.replaceParams (js_or (js_or_opt (selector step) (target step)) "")
              (runner_params config))) e = (e', inl msg)) ->
  solutions (knowledgeBase st) = [] ->
  aiClient = false ->
  let '(st', result) := executeFlow md5_hex drv aiClient flowPath config st in
  res_status result = "failed"
  /\ res_error result = Some "All execution methods failed for step: click"
  /\ attempts st' = (attempts st ++ [(Deterministic, false)])%list
  /\ kbReads st' = S (kbReads st)
  /\ knowledgeBase st' = knowledgeBase st
  /\ totalSteps (hybridStats st') = S (totalSteps (hybridStats st)).
Proof.
  intros Hflow Hsteps Hact Hclick Hkb Hai.
  unfold executeFlow, flow_body.
  unfold mbind at 1, M_bind at 1, bind at 1, get_state at 1.
  cbn [flowsData with_screenshots]. rewrite Hflow.
  unfold mbind at 1, M_bind at 1, bind at 1, flow_steps_of.
  rewrite Hsteps. rewrite andb_false_r. unfold mret at 1, M_ret at 1, ret at 1.
  cbn [run_steps]. unfold mbind at 1, M_bind at 1, bind at 1.
  unfold executeStepHybrid. rewrite Hact.
  rewrite !bool_decide_eq_false_2 by done.
  unfold mbind at 1 2, M_bind at 1 2, bind at 1 2, modify at 1.
  unfold try_catch at 1, mbind at 1, M_bind at 1, bind at 1.
  unfold executeAction at 1. rewrite bool_decide_eq_true_2 by done.
  unfold mbind at 1, M_bind at 1, bind at 1, call at 1.
  match goal with |- context [page_click drv ?sel ?e] =>
    destruct (Hclick e) as (e' & msg & ->) end.
  unfold mbind at 1 2, M_bind at 1 2, bind at 1 2, modify at 1, mret at 1, M_ret at 1, ret at 1.
  unfold learned_tier.
  unfold mbind at 1 2, M_bind at 1 2, bind at 1 2, get_state at 1, modify at 1.
  unfold findLearnedSolution.
  cbn [knowledgeBase note_attempt with_stats with_screenshots]. rewrite Hkb.
  cbn [jsmap_get jsmap_values fmap list_fmap scan_similar].
  unfold mret at 1, M_ret at 1, ret at 1.
  unfold mbind at 1, M_bind at 1, bind at 1, ai_tier. rewrite Hai.
  cbn [andb]. unfold mret at 1, M_ret at 1, ret at 1, throw at 1.
  unfold call. cbn [env note_kbRead].
  destruct (page_screenshot _ _ _ _) as [e2 [r|r]]; simpl;
    unfold all_failed; by rewrite Hact.
Qed.
End StepFacts.

(** ** Components of a state that a computation leaves alone *)

Section Preserves.
Context {S X : Type}.
Variable proj : S -> X.

Lemma preserves_ret {A} (a : A) : preserves proj (mret a : M S A).
Proof. by intros st. Qed.

Lemma preserves_throw {A} msg : preserves proj (throw msg : M S A).
Proof. by intros st. Qed.

Lemma preserves_get_state : preserves proj (get_state : M S S).
Proof. by intros st. Qed.

Lemma preserves_modify (f : S -> S) :
  (forall st, proj (f st) = proj st) -> preserves proj (modify f).
Proof. intros Hf st. apply Hf. Qed.

Lemma preserves_bind {A B} (m : M S A) (k : A -> M S B) :
  preserves proj m -> (forall a, preserves proj (k a)) -> preserves proj (m ≫= k).
Proof.
  intros Hm Hk st. unfold mbind, M_bind, bind.
  specialize (Hm st). destruct (m st) as [st' [e|a]]; simpl in *; [done|].
  by rewrite Hk.
Qed.

Lemma preserves_try {A} (m : M S A) (h : string -> M S A) :
  preserves proj m -> (forall e, preserves proj (h e)) -> preserves proj (try_catch m h).
Proof.
  intros Hm Hh st. unfold try_catch.
  specialize (Hm st). destruct (m st) as [st' [e|a]]; simpl in *; [|done].
  by rewrite Hh.
Qed.
End Preserves.

Ltac preserves_step call_tac :=
  first
    [ apply preserves_ret
    | apply preserves_throw
    | apply preserves_get_state
    | call_tac
    | apply preserves_modify; done
    | apply preserves_bind; [|intros ?]
    | apply preserves_try; [|intros ?]
    | match goal with
      | |- preserves _ (if ?b then _ else _) => destruct b
      | |- preserves _ (match ?x with _ => _ end) => destruct x
      | |- preserves _ (let _ := _ in _) => cbv zeta
      end ].

(** ** The CI runner *)

Section CIFacts.
Context {Env : Type}.
Variable drv : CI.Driver Env.
Variable anthropic : bool.
Variable config : CI.Config.
Implicit Types st : CI.State Env.

Lemma ci_call_preserves {X A} (proj : CI.State Env -> X) (f : Ext Env A) :
  (forall st e, proj {| CI.env := e; CI.disk := CI.disk st; CI.stats := CI.stats st;
                        CI.kbReads := CI.kbReads st |} = proj st) ->
  preserves proj (CI.call f).
Proof. intros H st. unfold CI.call. destruct (f (CI.env st)). apply H. Qed.

Lemma executeDeterministicStep_preserves {X} (proj : CI.State Env -> X) step :
  (forall st e, proj {| CI.env := e; CI.disk := CI.disk st; CI.stats := CI.stats st;
                        CI.kbReads := CI.kbReads st |} = proj st) ->
  preserves proj (CI.executeDeterministicStep drv config step).
Proof.
  intros H. unfold CI.executeDeterministicStep, CI.deterministic_body.
  repeat preserves_step ltac:(apply ci_call_preserves; done).
Qed.

(** When the deterministic execution of a step succeeds, the iteration ends
    there: the solutions file is neither read nor written. *)
Lemma prompt_step_deterministic i step st st1 :
  CI.executeDeterministicStep drv config step (CI.with_stats CI.inc_totalSteps st)
  = (st1, inr true) ->
  CI.prompt_step drv anthropic config i step st
  = (CI.with_stats CI.inc_deterministicSuccess st1, inr tt)
  /\ CI.disk (CI.prompt_step drv anthropic config i step st).1 = CI.disk st
  /\ CI.kbReads (CI.prompt_step drv anthropic config i step st).1 = CI.kbReads st.
Proof.
  intros Hdet.
  assert (Hrun : CI.prompt_step drv anthropic config i step st
                 = (CI.with_stats CI.inc_deterministicSuccess st1, inr tt)).
  { unfold CI.prompt_step.
    unfold mbind at 1, M_bind at 1, bind at 1, modify at 1.
    unfold try_catch at 1, mbind at 1, M_bind at 1, bind at 1.
    by rewrite Hdet. }
  rewrite Hrun. split; [done|]. simpl.
  pose proof (executeDeterministicStep_preserves CI.disk step (fun _ _ => eq_refl)
                (CI.with_stats CI.inc_totalSteps st)) as Hd.
  pose proof (executeDeterministicStep_preserves CI.kbReads step (fun _ _ => eq_refl)
                (CI.with_stats CI.inc_totalSteps st)) as Hr.
  rewrite Hdet in Hd, Hr. done.
Qed.

(** The lookup of the CI runner: the first solution with the action of the
    step and a confidence above 0.7. *)
Lemma ci_lookup_is_Some step (sols : list CI.Solution) :
  is_Some (List.find (CI.matches step) sols)
  <-> exists s, s ∈ sols /\ CI.stepAction s = action step
                /\ (hundredths 70 < CI.confidence s)%Qc.
Proof.
  rewrite find_is_Some. unfold CI.matches.
  split; intros (s & Hs & H); exists s; split; try done.
  - apply andb_true_iff in H as [H1 H2].
    by apply bool_decide_eq_true in H1, H2.
  - destruct H as [H1 H2]. apply andb_true_iff. by rewrite !bool_decide_eq_true.
Qed.
End CIFacts.

(** ** Deterministic success and the knowledge base *)

Section DeterministicSuccess.
Context {Env Element : Type}.
Variable md5_hex : string -> string.
Variable drv : Driver Env Element.
Variable aiClient : bool.
Variable ci_drv : CI.Driver Env.
Variable anthropic : bool.
Variable ci_config : CI.Config.

(** C4. In the hybrid runner, a step whose deterministic attempt succeeds
    ends there: the knowledge base is the same afterwards and no lookup was
    made; a navigation or a screenshot, which is executed directly, does not
    use the knowledge base either. In the CI runner, an iteration whose
    deterministic execution succeeds neither reads nor writes the solutions
    file. *)
Theorem C4_deterministic_success_leaves_kb :
  (forall step n flowPath config context (st : State Env) d,
      let run := executeStepHybrid md5_hex drv aiClient step n flowPath config context st in
      attempts run.1 = (attempts st ++ d)%list ->
      (Deterministic, true) ∈ d ->
      knowledgeBase run.1 = knowledgeBase st
      /\ kbReads run.1 = kbReads st
      /\ d = [(Deterministic, true)]
      /\ run.2 = inr tt)
  /\ (forall step n flowPath config context (st : State Env),
        let run := executeStepHybrid md5_hex drv aiClient step n flowPath config context st in
        action step = "navigate" \/ action step = "screenshot" ->
        knowledgeBase run.1 = knowledgeBase st /\ kbReads run.1 = kbReads st)
  /\ (forall i step (st st1 : CI.State Env),
        CI.executeDeterministicStep ci_drv ci_config step
          (CI.with_stats CI.inc_totalSteps st) = (st1, inr true) ->
        let run := CI.prompt_step ci_drv anthropic ci_config i step st in
        run.2 = inr tt
        /\ CI.disk run.1 = CI.disk st
        /\ CI.kbReads run.1 = CI.kbReads st).
Proof.
  split_and!.
  - intros step n flowPath config context st d run Hat Hin.
    destruct (decide (action step = "navigate" \/ action step = "screenshot")) as [Hdir|Hdir].
    + pose proof (executeStepHybrid_direct md5_hex drv aiClient step n flowPath config
                    context st Hdir) as H. cbv zeta in H. destruct H as (_ & _ & Hat').
      fold run in Hat'. rewrite Hat' in Hat.
      rewrite <- (app_nil_r (attempts st)) in Hat at 1.
      apply app_inv_head in Hat. subst d. by apply elem_of_nil in Hin.
    + destruct (executeStepHybrid_resolution md5_hex drv aiClient step n flowPath config
                  context st) as (st' & d' & reads & ok & Hrun & Hres & Hat' & Hrd & _).
      { intros ?. apply Hdir. by left. }
      { intros ?. apply Hdir. by right. }
      subst run. rewrite Hrun in Hat |- *. simpl in Hat |- *.
      rewrite Hat' in Hat. apply app_inv_head in Hat. subst d'.
      destruct (resolution_deterministic _ _ _ _ _ _ _ _ _ Hres Hin) as (Hkb & -> & ->).
      assert (ok = inr tt) as ->.
      { apply (resolution_done _ _ _ _ _ _ _ _ _ Hres). by eexists. }
      split_and!; [done|lia|done|done].
  - intros step n flowPath config context st run Hdir.
    pose proof (executeStepHybrid_direct md5_hex drv aiClient step n flowPath config
                  context st Hdir) as H. cbv zeta in H. by destruct H as (? & ? & _).
  - intros i step st st1 Hdet run.
    destruct (prompt_step_deterministic ci_drv anthropic ci_config i step st st1 Hdet)
      as (Hrun & Hdisk & Hreads).
    subst run. split_and!; [by rewrite Hrun|done|done].
Qed.
End DeterministicSuccess.

(** ** The learned-tier lookup *)

Section LearnedLookup.
Context {Env : Type}.
Variable drv : CI.Driver Env.
Variable config : CI.Config.
Implicit Types st : CI.State Env.

Local Abbreviation sp := (CI.path_join drv [CI.cfg_knowledgeDir config; "solutions.json"]).







End LearnedLookup.


(** ** Load and save of the knowledge base *)

Section PersistenceFacts.
Variable path_join : list string -> string.

Lemma jsmap_set_fresh {V} k (v : V) (m : JsMap V) :
  k ∉ jsmap_keys m -> jsmap_set k v m = (m ++ [(k, v)])%list.
Proof.
  unfold jsmap_keys. induction m as [|[k' v'] m IH]; simpl; [done|].
  intros H. apply not_elem_of_cons in H as [Hne H].
  rewrite decide_False by done. f_equal. by apply IH.
Qed.

Lemma fold_set_fresh {V} (es acc : list (string * V)) :
  NoDup (acc.*1 ++ es.*1) ->
  fold_left (fun m e => jsmap_set e.1 e.2 m) es acc = (acc ++ es)%list.
Proof.
  revert acc. induction es as [|[k v] es IH]; intros acc Hnd; simpl.
  - by rewrite app_nil_r.
  - rewrite jsmap_set_fresh.
    + rewrite IH; [by rewrite <- app_assoc|].
      rewrite fmap_app. simpl. by rewrite <- app_assoc.
    + apply NoDup_app in Hnd as (_ & Hdisj & _). intros Hin.
      apply (Hdisj k Hin). simpl. apply list_elem_of_here.
Qed.

(** Loading a list of entries with distinct ids and listing the values of
    the map gives the list back, in order. *)
Lemma values_of_entries {V} (key : V -> string) (l : list V) :
  NoDup (map key l) ->
  jsmap_values (jsmap_of_entries (map (fun x => (key x, x)) l)) = l.
Proof.
  intros Hnd. unfold jsmap_of_entries, jsmap_values.
  rewrite fold_set_fresh.
  - simpl. rewrite <- list_fmap_compose. by rewrite list_fmap_id.
  - simpl. by rewrite <- list_fmap_compose.
Qed.

(** What a load followed by a save writes into the solutions file. *)
Lemma save_load_solutions basePath disk now now' :
  path_join [basePath; "patterns.json"] <> path_join [basePath; "solutions.json"] ->
  saveKnowledgeBase path_join basePath (loadKnowledgeBase path_join basePath disk).2
    now now' (loadKnowledgeBase path_join basePath disk).1
  !! path_join [basePath; "solutions.json"]
  = Some (FSolutions
            {| sd_version := "1.0"; sd_lastUpdated := now;
               sd_solutions :=
                 jsmap_values (solutions (loadKnowledgeBase path_join basePath disk).2) |}).
Proof.
  intros Hne. unfold saveKnowledgeBase.
  rewrite lookup_insert_ne by done. by rewrite lookup_insert_eq.
Qed.

Lemma load_solutions basePath disk data :
  disk !! path_join [basePath; "solutions.json"] = Some (FSolutions data) ->
  solutions (loadKnowledgeBase path_join basePath disk).2
  = jsmap_of_entries (map (fun s => (sol_id s, s)) (sd_solutions data)).
Proof.
  intros Hfile. unfold loadKnowledgeBase. simpl.
  destruct (disk !! basePath) eqn:Hbase.
  - by rewrite Hfile.
  - rewrite lookup_insert_ne; [by rewrite Hfile|].
    intros Heq. rewrite <- Heq in Hfile. congruence.
Qed.

(** C9. A load followed by a save keeps the solutions of the file, each
    with all its fields and in the order of the file, when their ids are
    distinct; the version written is 1.0 and the date written is the time of
    the save. *)
Theorem C9_load_save_solutions basePath disk data now now' :
  disk !! path_join [basePath; "solutions.json"] = Some (FSolutions data) ->
  NoDup (map sol_id (sd_solutions data)) ->
  path_join [basePath; "patterns.json"] <> path_join [basePath; "solutions.json"] ->
  saveKnowledgeBase path_join basePath (loadKnowledgeBase path_join basePath disk).2
    now now' (loadKnowledgeBase path_join basePath disk).1
  !! path_join [basePath; "solutions.json"]
  = Some (FSolutions
            {| sd_version := "1.0"; sd_lastUpdated := now;
               sd_solutions := sd_solutions data |}).
Proof.
  intros Hfile Hnd Hne.
  rewrite save_load_solutions by done.
  rewrite (load_solutions _ _ _ Hfile).
  by rewrite (values_of_entries sol_id).
Qed.
End PersistenceFacts.

(** ** Validation of the required parameters in the tool *)

Section ValidationFacts.
Implicit Types (fp defaults : gmap string string) (missing required : list string).





End ValidationFacts.

Section ToolFacts.
Context {Env : Type}.
Variable drv : FlowTool.Driver Env.

End ToolFacts.

(** ** Texts and matchers *)

Section StringFacts.
Implicit Types (s t r : string) (c : Ascii.ascii).
#[local] Arguments String.append !_ _ / : simpl nomatch.

Lemma append_nil_r s : s +:+ "" = s.
Proof. induction s as [|c s IH]; simpl; [done|by rewrite IH]. Qed.

Lemma append_assoc s t r : (s +:+ t) +:+ r = s +:+ (t +:+ r).
Proof. induction s as [|c s IH]; simpl; [done|by rewrite IH]. Qed.

Lemma length_append s t : String.length (s +:+ t) = String.length s + String.length t.
Proof. induction s as [|c s IH]; simpl; [done|by rewrite IH]. Qed.

Lemma substring_append s t : String.substring 0 (String.length s) (s +:+ t) = s.
Proof. induction s as [|c s IH]; simpl; [by destruct t|by rewrite IH]. Qed.

Lemma chars_append s t : chars (s +:+ t) = (chars s ++ chars t)%list.
Proof. induction s as [|c s IH]; simpl; [done|by rewrite IH]. Qed.

Lemma span_stop (p : Ascii.ascii -> bool) k c r :
  Forall (fun a => p a = true) (chars k) -> p c = false ->
  span p (k +:+ String c r) = (k, String c r).
Proof.
  intros Hk Hc. induction k as [|a k IH]; simpl.
  - by rewrite Hc.
  - apply Forall_cons in Hk as [Ha Hk]. rewrite Ha. by rewrite IH.
Qed.



Lemma match_braces_other c r : c <> "{"%char -> match_braces (String c r) = None.
Proof. intros H. simpl. by rewrite bool_decide_eq_false_2. Qed.

Lemma match_dollar_braces_other c r :
  c <> "$"%char -> match_dollar_braces (String c r) = None.
Proof. intros H. simpl. by rewrite bool_decide_eq_false_2. Qed.

(** A text without an opening brace holds no token of the braces form. *)
Lemma no_brace_inert t rest : no_brace t -> fails_within match_braces t rest.
Proof.
  unfold no_brace. induction t as [|c t IH]; simpl; [done|].
  intros H. apply not_elem_of_cons in H as [Hc Ht].
  split; [|by apply IH]. rewrite bool_decide_eq_false_2; [done|]. congruence.
Qed.





Lemma no_brace_inert_braces t : no_brace t -> inert_braces t = true.
Proof.
  unfold no_brace. induction t as [|c t IH]; simpl; [done|].
  intros H. apply not_elem_of_cons in H as [Hc Ht].
  rewrite bool_decide_eq_false_2 by congruence. by apply IH.
Qed.




Lemma replace_from_skip m f t rest :
  replace_from m f (t +:+ rest) (String.length t) = replace_from m f rest 0.
Proof. induction t as [|c t IH]; simpl; [by destruct rest|done]. Qed.

Lemma replace_from_inert m f t rest :
  fails_within m t rest ->
  replace_from m f (t +:+ rest) 0 = t +:+ replace_from m f rest 0.
Proof.
  induction t as [|c t IH]; simpl; [done|].
  intros [Hc Ht]. rewrite Hc. by rewrite IH.
Qed.

Lemma replace_from_token m f t g rest :
  t <> "" -> m (t +:+ rest) = Some (g, String.length t) ->
  replace_from m f (t +:+ rest) 0 = f t g +:+ replace_from m f rest 0.
Proof.
  intros Hne Hm. destruct t as [|c t]; [done|].
  change (replace_from m f (String c t +:+ rest) 0)
    with (match m (String c t +:+ rest) with
          | Some (group, len) =>
              f (String.substring 0 len (String c t +:+ rest)) group
              +:+ replace_from m f (t +:+ rest) (len - 1)
          | None => String c (replace_from m f (t +:+ rest) 0)
          end).
  rewrite Hm. rewrite substring_append.
  replace (String.length (String c t) - 1) with (String.length t) by (simpl; lia).
  by rewrite replace_from_skip.
Qed.

Lemma replace_segments m f segs :
  Forall (seg_ok m) segs -> replace_all m f (seg_in segs) = seg_out f segs.
Proof.
  unfold replace_all. induction segs as [|[t [g|]] segs IH]; intros Hok; simpl; [done| |].
  - apply Forall_cons in Hok as [[Hne Hm] Hok].
    rewrite (replace_from_token m f t g) by done. by rewrite IH.
  - apply Forall_cons in Hok as [Ht Hok].
    rewrite replace_from_inert by done. by rewrite IH.
Qed.

Lemma seg_in_app a b : seg_in (a ++ b) = seg_in a +:+ seg_in b.
Proof.
  induction a as [|[t g] a IH]; simpl; [done|]. by rewrite IH, append_assoc.
Qed.

Lemma seg_out_app f a b : seg_out f (a ++ b) = seg_out f a +:+ seg_out f b.
Proof.
  induction a as [|[t [g|]] a IH]; simpl; [done| |]; by rewrite IH, append_assoc.
Qed.
End StringFacts.

(** ** Parameter substitution *)

Section SubstitutionFacts.
Variable params : gmap string string.
#[local] Arguments String.append !_ _ / : simpl nomatch.














End SubstitutionFacts.

(** ** Selector normalisation *)

Section SelectorFacts.
#[local] Arguments String.append !_ _ / : simpl nomatch.

Lemma match_contains_bare x rest :
  x <> "" -> Forall (fun c => negb (is_quote c) = true) (chars x) ->
  match_contains (bare_contains x +:+ rest) = Some (x, String.length (bare_contains x)).
Proof.
  intros Hne Hx. unfold bare_contains, match_contains. simpl.
  rewrite append_assoc. simpl. rewrite span_stop by done.
  destruct x as [|a x]; [done|]. simpl.
  rewrite length_append. simpl. do 3 f_equal. lia.
Qed.

(** The selector that is only the contains pseudo-function, whatever its
    text: the hybrid runner makes a has-text selector of it, not a text
    selector. *)
Lemma convertSelector_bare_contains x :
  x <> "" -> Forall (fun c => negb (is_quote c) = true) (chars x) ->
  Hybrid.convertSelector (bare_contains x)
  = ":has-text(" +:+ String dquote x +:+ String dquote ")".
Proof.
  intros Hne Hx. unfold Hybrid.convertSelector.
  rewrite bool_decide_eq_false_2 by done.
  assert (Hall : replace_all match_contains Hybrid.has_text (bare_contains x)
                 = Hybrid.has_text (bare_contains x) x).
  { pose proof (replace_segments match_contains Hybrid.has_text
                  [(bare_contains x, Some x)]) as H.
    simpl in H. rewrite !append_nil_r in H. apply H.
    constructor; [|done]. split; [done|]. intros rest. by apply match_contains_bare. }
  rewrite Hall. done.
Qed.
End SelectorFacts.

(** ** The claims on concrete runs *)

(** C5. A flow of one click step whose selector the page does not have,
    run with an empty knowledge base and without an AI client: the
    deterministic attempt fails, the lookup finds nothing, the AI tier is not
    entered, and the flow fails with the message of the resolver, after one
    step and one attempt. *)
Theorem C5_single_missing_click {Env Element : Type} (md5_hex : string -> string)
    (drv : Driver Env Element) (aiClient : bool)
    flowPath config (st : State Env) flow step :
  getFlowByPath flowPath (flowsData st) = Some (NFlow flow) ->
  flow_steps flow = Some [step] ->
  action step = "click" ->
  (forall e, exists e' msg,
      page_click drv
        (Hybrid.convertSelector
           (Hybrid.replaceParams (js_or (js_or_opt (selector step) (target step)) "")
              (runner_params config))) e = (e', inl msg)) ->
  solutions (knowledgeBase st) = [] ->
  aiClient = false ->
  let '(st', result) := executeFlow md5_hex drv aiClient flowPath config st in
  res_status result = "failed"
  /\ res_error result = Some "All execution methods failed for step: click"
  /\ attempts st' = (attempts st ++ [(Deterministic, false)])%list
  /\ kbReads st' = S (kbReads st)
  /\ knowledgeBase st' = knowledgeBase st
  /\ totalSteps (hybridStats st') = S (totalSteps (hybridStats st)).
Proof. apply single_click_fails. Qed.

(** C7. The selector with a prefix becomes a has-text selector on the
    prefix. The selector that is only the contains pseudo-function becomes a
    has-text selector with no prefix, in both implementations; it does not
    become the text selector, because the hybrid runner tests the prefix
    after it has replaced every occurrence. *)
Theorem C7_convertSelector_examples :
  Hybrid.convertSelector "button:contains('Login')"
  = "button:has-text(" +:+ String dquote "Login" +:+ String dquote ")"
  /\ Hybrid.convertSelector ":contains('x')"
     = ":has-text(" +:+ String dquote "x" +:+ String dquote ")"
  /\ Hybrid.convertSelector ":contains('x')" <> "text=x"
  /\ FlowTool.convertSelector "button:contains('Login')"
     = "button:has-text(" +:+ String dquote "Login" +:+ String dquote ")"
  /\ FlowTool.convertSelector ":contains('x')"
     = ":has-text(" +:+ String dquote "x" +:+ String dquote ")"
  /\ FlowTool.convertSelector ":contains('x')" <> "text=x".
Proof. vm_compute. repeat split; discriminate. Qed.

Lemma demo_empty_conf_ok : kb_conf_ok empty_kb.
Proof. intros k s H. discriminate H. Qed.

Lemma demo_kb_keys_ok conf : kb_keys_ok (demo_kb conf).
Proof.
  split; simpl.
  - apply NoDup_singleton.
  - intros k s H. apply list_elem_of_singleton in H. by injection H as -> ->.
Qed.

Lemma C1_witness :
  kb_conf_ok empty_kb
  /\ rtc (kb_update md5_hexdigest) empty_kb (demo_kb (hundredths 70))
  /\ jsmap_get (sol_id (demo_solution (hundredths 70)))
       (solutions (demo_kb (hundredths 70)))
     = Some (demo_solution (hundredths 70))
  /\ conf_in_range (demo_solution (hundredths 70)).
Proof.
  assert (H1 : kb_conf_ok empty_kb) by exact demo_empty_conf_ok.
  assert (H2 : rtc (kb_update md5_hexdigest) empty_kb (demo_kb (hundredths 70))).
  { apply rtc_once.
    exact (kb_update_solution md5_hexdigest (demo_step "click" "#missing") "#login"
             demo_context demo_now empty_kb). }
  assert (H3 : jsmap_get (sol_id (demo_solution (hundredths 70)))
                 (solutions (demo_kb (hundredths 70)))
               = Some (demo_solution (hundredths 70))) by (vm_compute; reflexivity).
  split_and!; [done|done|done|].
  exact (proj1 (C1_confidence_lifecycle md5_hexdigest (demo_driver (fun _ => false)) false
                  _ _ _ _ H1 H2 H3)).
Defined.



Lemma C3_witness :
  action (demo_step "click" "#login") <> "navigate"
  /\ action (demo_step "click" "#login") <> "screenshot"
  /\ exists st' r d,
       executeStepHybrid md5_hexdigest (demo_driver (fun s => bool_decide (s = "#login"))) false
         (demo_step "click" "#login") 1 "demo.click" demo_config demo_context
         (demo_state empty_kb) = (st', r)
       /\ attempts st' = (attempts (demo_state empty_kb) ++ d)%list
       /\ tiers_in_order d.
Proof.
  assert (H1 : action (demo_step "click" "#login") <> "navigate") by discriminate.
  assert (H2 : action (demo_step "click" "#login") <> "screenshot") by discriminate.
  split_and!; [done|done|].
  destruct (C3_tiers_in_strict_order md5_hexdigest
              (demo_driver (fun s => bool_decide (s = "#login"))) false
              (demo_step "click" "#login") 1 "demo.click" demo_config demo_context
              (demo_state empty_kb) H1 H2) as (st' & r & d & Hrun & _ & Hat & Hord & _).
  by exists st', r, d.
Defined.

Lemma C4_witness :
  let present := fun s => bool_decide (s = "#login") in
  let run := executeStepHybrid md5_hexdigest (demo_driver present) false
               (demo_step "click" "#login") 1 "demo.click" demo_config demo_context
               (demo_state (demo_kb (hundredths 90))) in
  let nav := executeStepHybrid md5_hexdigest (demo_driver present) false
               (demo_step "navigate" "/login") 1 "demo.click" demo_config demo_context
               (demo_state (demo_kb (hundredths 90))) in
  let ci_run := CI.prompt_step (ci_demo_driver present) false ci_demo_config 0
                  (demo_step "click" "#login") (ci_demo_state (hundredths 90)) in
  (attempts run.1 = (attempts (demo_state (demo_kb (hundredths 90)))
                     ++ [(Deterministic, true)])%list
   /\ knowledgeBase run.1 = demo_kb (hundredths 90) /\ kbReads run.1 = 0)
  /\ (knowledgeBase nav.1 = demo_kb (hundredths 90) /\ kbReads nav.1 = 0)
  /\ ((CI.executeDeterministicStep (ci_demo_driver present) ci_demo_config
         (demo_step "click" "#login")
         (CI.with_stats CI.inc_totalSteps (ci_demo_state (hundredths 90)))).2 = inr true
      /\ CI.disk ci_run.1 = CI.disk (ci_demo_state (hundredths 90))
      /\ CI.kbReads ci_run.1 = 0).
Proof.
  intros present run nav ci_run.
  pose proof (C4_deterministic_success_leaves_kb md5_hexdigest (demo_driver present) false
                (ci_demo_driver present) false ci_demo_config) as (Hstep & Hdirect & Hci).
  assert (Hat : attempts run.1 = (attempts (demo_state (demo_kb (hundredths 90)))
                                  ++ [(Deterministic, true)])%list)
    by (vm_compute; reflexivity).
  assert (Hdet : CI.executeDeterministicStep (ci_demo_driver present) ci_demo_config
                   (demo_step "click" "#login")
                   (CI.with_stats CI.inc_totalSteps (ci_demo_state (hundredths 90)))
                 = ((CI.executeDeterministicStep (ci_demo_driver present) ci_demo_config
                       (demo_step "click" "#login")
                       (CI.with_stats CI.inc_totalSteps (ci_demo_state (hundredths 90)))).1,
                    inr true))
    by (vm_compute; reflexivity).
  split_and!.
  - done.
  - exact (proj1 (Hstep _ _ _ _ _ _ _ Hat (list_elem_of_here _ _))).
  - exact (proj1 (proj2 (Hstep _ _ _ _ _ _ _ Hat (list_elem_of_here _ _)))).
  - exact (proj1 (Hdirect (demo_step "navigate" "/login") 1 "demo.click" demo_config
                    demo_context (demo_state (demo_kb (hundredths 90)))
                    (or_introl eq_refl))).
  - exact (proj2 (Hdirect (demo_step "navigate" "/login") 1 "demo.click" demo_config
                    demo_context (demo_state (demo_kb (hundredths 90)))
                    (or_introl eq_refl))).
  - by rewrite Hdet.
  - exact (proj1 (proj2 (Hci 0 _ _ _ Hdet))).
  - exact (proj2 (proj2 (Hci 0 _ _ _ Hdet))).
Defined.

Lemma demo_click_missing e :
  exists e' msg,
    page_click (demo_driver (fun _ => false))
      (Hybrid.convertSelector
         (Hybrid.replaceParams
            (js_or (js_or_opt (selector (demo_step "click" "#missing"))
                      (target (demo_step "click" "#missing"))) "")
            (runner_params demo_config))) e = (e', inl msg).
Proof. by eexists _, _. Qed.

Lemma C5_witness :
  getFlowByPath "demo.click" (flowsData (demo_state empty_kb))
  = Some (NFlow {| flow_name := Some "Click"; flow_prompt := None;
                   flow_steps := Some [demo_step "click" "#missing"] |})
  /\ (forall e, exists e' msg,
         page_click (demo_driver (fun _ => false))
           (Hybrid.convertSelector
              (Hybrid.replaceParams
                 (js_or (js_or_opt (selector (demo_step "click" "#missing"))
                           (target (demo_step "click" "#missing"))) "")
                 (runner_params demo_config))) e = (e', inl msg))
  /\ let '(st', result) :=
       executeFlow md5_hexdigest (demo_driver (fun _ => false)) false "demo.click"
         demo_config (demo_state empty_kb) in
     res_status result = "failed"
     /\ res_error result = Some "All execution methods failed for step: click"
     /\ attempts st' = [(Deterministic, false)]
     /\ totalSteps (hybridStats st') = 1.
Proof.
  assert (Hflow : getFlowByPath "demo.click" (flowsData (demo_state empty_kb))
                  = Some (NFlow {| flow_name := Some "Click"; flow_prompt := None;
                                   flow_steps := Some [demo_step "click" "#missing"] |}))
    by (vm_compute; reflexivity).
  split_and!; [done|exact demo_click_missing|].
  pose proof (C5_single_missing_click md5_hexdigest (demo_driver (fun _ => false)) false
                "demo.click" demo_config (demo_state empty_kb) _
                (demo_step "click" "#missing") Hflow eq_refl eq_refl
                demo_click_missing eq_refl eq_refl) as H.
  destruct (executeFlow _ _ _ _ _ _) as [st' result].
  destruct H as (? & ? & ? & _ & _ & ?). done.
Defined.

(** The message of the failure is not the one of the claim. *)
Lemma C5_counterexample :
  let result := (executeFlow md5_hexdigest (demo_driver (fun _ => false)) false "demo.click"
                   demo_config (demo_state empty_kb)).2 in
  res_status result = "failed"
  /\ res_error result = Some "All execution methods failed for step: click"
  /\ res_error result <> Some "all strategies failed".
Proof. vm_compute. repeat split; discriminate. Qed.






Lemma C9_witness :
  let disk := demo_disk "2024-01-01T00:00:00.000Z" [demo_solution (hundredths 70)] in
  disk !! String.concat "/" ["kb"; "solutions.json"]
  = Some (FSolutions (demo_file "2024-01-01T00:00:00.000Z" [demo_solution (hundredths 70)]))
  /\ NoDup (map sol_id [demo_solution (hundredths 70)])
  /\ saveKnowledgeBase (String.concat "/") "kb"
       (loadKnowledgeBase (String.concat "/") "kb" disk).2 demo_now demo_now
       (loadKnowledgeBase (String.concat "/") "kb" disk).1
     !! String.concat "/" ["kb"; "solutions.json"]
     = Some (FSolutions (demo_file demo_now [demo_solution (hundredths 70)])).
Proof.
  intros disk.
  assert (H1 : disk !! String.concat "/" ["kb"; "solutions.json"]
               = Some (FSolutions (demo_file "2024-01-01T00:00:00.000Z"
                                     [demo_solution (hundredths 70)])))
    by (vm_compute; reflexivity).
  assert (H2 : NoDup (map sol_id [demo_solution (hundredths 70)]))
    by apply NoDup_singleton.
  assert (H3 : String.concat "/" ["kb"; "patterns.json"]
               <> String.concat "/" ["kb"; "solutions.json"]) by discriminate.
  split_and!; [done|done|].
  exact (C9_load_save_solutions (String.concat "/") "kb" disk _ demo_now demo_now H1 H2 H3).
Defined.

(** The date of the file is replaced by the time of the save: the file
    written is not the file read. Of two solutions with the same id only the
    second is written. *)
Lemma C9_counterexample :
  let disk := demo_disk "2024-01-01T00:00:00.000Z" [] in
  let twice := demo_disk demo_now [demo_solution (hundredths 70);
                                   demo_solution (hundredths 90)] in
  saveKnowledgeBase (String.concat "/") "kb"
    (loadKnowledgeBase (String.concat "/") "kb" disk).2 demo_now demo_now
    (loadKnowledgeBase (String.concat "/") "kb" disk).1
  !! "kb/solutions.json"
  <> disk !! "kb/solutions.json"
  /\ saveKnowledgeBase (String.concat "/") "kb"
       (loadKnowledgeBase (String.concat "/") "kb" twice).2 demo_now demo_now
       (loadKnowledgeBase (String.concat "/") "kb" twice).1
     !! "kb/solutions.json"
     = Some (FSolutions (demo_file demo_now [demo_solution (hundredths 90)])).
Proof. vm_compute. split; [discriminate|reflexivity]. Qed.

Lemma C10_witness :
  kb_keys_ok (demo_kb (hundredths 78))
  /\ findLearnedSolution md5_hexdigest (demo_step "click" "#missing") demo_context
       (demo_kb (hundredths 78))
     = inr (Some (demo_solution (hundredths 78)))
  /\ jsmap_get (sol_id (demo_solution (hundredths 78)))
       (solutions (recordFailure (sol_id (demo_solution (hundredths 78)))
                     (demo_kb (hundredths 78))))
     = Some (bump_failure (demo_solution (hundredths 78)))
  /\ (hundredths 65 < confidence (bump_failure (demo_solution (hundredths 78))))%Qc.
Proof.
  assert (H1 : kb_keys_ok (demo_kb (hundredths 78))) by apply demo_kb_keys_ok.
  assert (H2 : findLearnedSolution md5_hexdigest (demo_step "click" "#missing") demo_context
                 (demo_kb (hundredths 78))
               = inr (Some (demo_solution (hundredths 78)))) by (vm_compute; reflexivity).
  destruct (C10_found_solution_is_kept md5_hexdigest (demo_driver (fun _ => false)) false
              (demo_step "click" "#missing") demo_context (demo_kb (hundredths 78))
              (demo_solution (hundredths 78)) H1 H2)
    as (_ & _ & Hget & Hconf & _).
  by split_and!.
Defined.

(** * Further properties of the code *)

(** ** The key of a step *)

Section DigestFacts.
#[local] Arguments String.append !_ _ / : simpl nomatch.

Lemma le_bytes_length n x : length (MD5.le_bytes n x) = n.
Proof. revert x. induction n as [|n IH]; intros x; simpl; [done|by rewrite IH]. Qed.

Lemma le_bytes_range n x : Forall (fun b => (0 <= b < 256)%Z) (MD5.le_bytes n x).
Proof.
  revert x. induction n as [|n IH]; intros x; simpl; constructor; [|done].
  apply Z.mod_pos_bound. lia.
Qed.

Lemma digest_length msg : length (MD5.digest msg) = 16.
Proof.
  unfold MD5.digest. destruct (MD5.chunks _ _ _) as [[[a b] c] d].
  rewrite !length_app, !le_bytes_length. done.
Qed.

Lemma digest_range msg : Forall (fun b => (0 <= b < 256)%Z) (MD5.digest msg).
Proof.
  unfold MD5.digest. destruct (MD5.chunks _ _ _) as [[[a b] c] d].
  rewrite !Forall_app. split_and!; apply le_bytes_range.
Qed.

Lemma hex_length bs : String.length (MD5.hex bs) = 2 * length bs.
Proof. induction bs as [|b bs IH]; simpl; [done|]. rewrite IH. lia. Qed.

Lemma hex_digit_lower n : (0 <= n < 16)%Z -> is_lower_hex (MD5.hex_digit n) = true.
Proof.
  intros H.
  assert (Hall : Forall (fun k => is_lower_hex (MD5.hex_digit k) = true) (seqZ 0 16))
    by (vm_compute; repeat constructor).
  rewrite Forall_forall in Hall. apply Hall, elem_of_seqZ. lia.
Qed.

Lemma hex_lower bs :
  Forall (fun b => (0 <= b < 256)%Z) bs ->
  Forall (fun c => is_lower_hex c = true) (chars (MD5.hex bs)).
Proof.
  induction 1 as [|b bs Hb Hbs IH]; simpl; [done|].
  constructor; [|constructor; [|done]]; apply hex_digit_lower.
  - split; [apply Z.div_pos; lia|apply Z.div_lt_upper_bound; lia].
  - apply Z.mod_pos_bound. lia.
Qed.

Lemma substring_length n s :
  n <= String.length s -> String.length (String.substring 0 n s) = n.
Proof.
  revert s. induction n as [|n IH]; intros [|c s] H; simpl in *; try done; try lia.
  rewrite IH; [done|lia].
Qed.

Lemma substring_chars n s :
  chars (String.substring 0 n s) = take n (chars s).
Proof.
  revert s. induction n as [|n IH]; intros [|c s]; simpl; try done.
  by rewrite IH.
Qed.

Lemma append_inj_length s1 s2 t1 t2 :
  s1 +:+ t1 = s2 +:+ t2 -> String.length t1 = String.length t2 -> s1 = s2.
Proof.
  revert s2. induction s1 as [|c s1 IH]; intros [|c2 s2] H L; simpl in *; try done.
  - exfalso. assert (String.length t1 = String.length (String c2 (s2 +:+ t2))) by by rewrite H.
    simpl in *. rewrite length_append in *. lia.
  - exfalso. assert (String.length (String c (s1 +:+ t1)) = String.length t2) by by rewrite H.
    simpl in *. rewrite length_append in *. lia.
  - injection H as -> H. f_equal. by apply IH.
Qed.

(** The hash part of a key: eight lower-case hexadecimal digits. *)
Lemma key_hash_shape s :
  String.length (String.substring 0 8 (md5_hexdigest s)) = 8
  /\ Forall (fun c => is_lower_hex c = true)
       (chars (String.substring 0 8 (md5_hexdigest s))).
Proof.
  unfold md5_hexdigest. split.
  - apply substring_length. rewrite hex_length, digest_length. lia.
  - rewrite substring_chars. apply Forall_take. apply hex_lower, digest_range.
Qed.

(** The key of a step is its action, a dash and eight lower-case hexadecimal
    digits, the start of the MD5 digest of its selector. Two steps with the
    same key have the same action and the same eight digits: the dash cannot
    be moved, whatever the action holds. *)
Theorem generateKey_format step :
  let hash :=
    String.substring 0 8
      (md5_hexdigest (js_or (js_or_opt (selector step) (target step)) "")) in
  generateKey md5_hexdigest step = action step +:+ "-" +:+ hash
  /\ String.length hash = 8
  /\ Forall (fun c => is_lower_hex c = true) (chars hash)
  /\ (forall step', generateKey md5_hexdigest step = generateKey md5_hexdigest step' ->
        action step = action step'
        /\ String.substring 0 8
             (md5_hexdigest (js_or (js_or_opt (selector step') (target step')) "")) = hash).
Proof.
  cbv zeta. destruct (key_hash_shape (js_or (js_or_opt (selector step) (target step)) ""))
    as [Hlen Hhex].
  split_and!; try done.
  intros step' Heq. unfold generateKey in Heq.
  destruct (key_hash_shape (js_or (js_or_opt (selector step') (target step')) ""))
    as [Hlen' _].
  assert (Ha : action step = action step').
  { eapply append_inj_length; [exact Heq|]. simpl. by rewrite Hlen, Hlen'. }
  split; [done|]. rewrite Ha in Heq.
  clear -Heq. induction (action step') as [|c a IH]; simpl in Heq.
  - by injection Heq.
  - injection Heq as Heq. by apply IH.
Qed.
End DigestFacts.

(** ** Updates, load and save of the knowledge base *)

Lemma hundredths_succ (c : Qc) (n : nat) :
  Math_min (hundredths 99)
    (Math_min (hundredths 99) (c + hundredths 2) + hundredths (2 * Z.of_nat n))%Qc
  = Math_min (hundredths 99) (c + hundredths (2 * Z.of_nat (S n)))%Qc.
Proof.
  assert (Hn : (hundredths (2 * Z.of_nat (S n))
                = hundredths (2 * Z.of_nat n) + hundredths 2)%Qc).
  { apply Qc_is_canon. unfold hundredths, Qcplus. cbn [this Q2Qc].
    rewrite !Qred_correct. unfold Qeq, Qplus. cbn [Qnum Qden]. lia. }
  assert (H0 : (0 <= hundredths (2 * Z.of_nat n))%Qc).
  { unfold Qcle, hundredths. cbn [this Q2Qc]. rewrite !Qred_correct.
    unfold Qle. cbn [Qnum Qden]. lia. }
  rewrite Hn. generalize dependent (hundredths (2 * Z.of_nat n)). intros q _ Hq.
  unfold Math_min. repeat case_decide; try done; apply Qc_is_canon; qc_arith.
Qed.

Section RepeatedSuccess.
Implicit Types (kb : KnowledgeBase) (s : Solution).

(** Successes recorded one after the other for the same entry. *)
Lemma recordSuccess_fold solutionId nows kb s :
  jsmap_get solutionId (solutions kb) = Some s ->
  (confidence s <= hundredths 99)%Qc ->
  exists s',
    jsmap_get solutionId
      (solutions (fold_left (fun kb now => recordSuccess solutionId now kb) nows kb))
    = Some s'
    /\ confidence s'
       = Math_min (hundredths 99)
           (confidence s + hundredths (2 * Z.of_nat (length nows)))%Qc
    /\ successCount s' = (successCount s + Z.of_nat (length nows))%Z
    /\ failureCount s' = failureCount s
    /\ sol_id s' = sol_id s
    /\ learnedSelector s' = learnedSelector s
    /\ lastUsed s' = default (lastUsed s) (last nows).
Proof.
  revert kb s. induction nows as [|now nows IH]; intros kb s Hget Hc.
  - exists s. cbn [fold_left length last default].
    change (2 * Z.of_nat 0)%Z with 0%Z. split_and!; try done; [|lia].
    unfold Math_min. case_decide as H; [exfalso; revert H Hc; qc_arith|].
    apply Qc_is_canon. qc_arith.
  - cbn [fold_left].
    destruct (IH (recordSuccess solutionId now kb) (bump_success now s))
      as (s' & Hget' & Hconf & Hsucc & Hfail & Hid & Hsel & Hlast).
    { by apply recordSuccess_lookup. }
    { apply bump_success_cap. }
    exists s'. split; [done|]. cbn [bump_success confidence successCount failureCount
                                      sol_id learnedSelector lastUsed] in *.
    rewrite Hconf, Hsucc, Hfail, Hid, Hsel, Hlast.
    split_and!; try done.
    + apply hundredths_succ.
    + cbn [length]. lia.
    + rewrite last_cons. by destruct (last nows).
Qed.

(** Recording a success several times for a solution whose confidence is
    in [0.3, 0.99]: the confidence never goes down, stays at most 0.99, is
    the minimum of 0.99 and the old one plus 0.02 for each success (up to
    rounding), and is 0.99 once the sum reaches 1; the successes are
    counted, the failures and the learned selector stay, and the date of
    last use is the date of the last success. *)
Theorem recordSuccess_repeated solutionId nows kb s :
  jsmap_get solutionId (solutions kb) = Some s ->
  conf_in_range s ->
  exists s',
    jsmap_get solutionId
      (solutions (fold_left (fun kb now => recordSuccess solutionId now kb) nows kb))
    = Some s'
    /\ (confidence s <= confidence s')%Qc
    /\ (confidence s' <= hundredths 99)%Qc
    /\ near (confidence s')
         (Math_min (hundredths 99)
            (confidence s + hundredths (2 * Z.of_nat (length nows)))%Qc)
    /\ ((hundredths 100 <= confidence s + hundredths (2 * Z.of_nat (length nows)))%Qc ->
        confidence s' = hundredths 99)
    /\ successCount s' = (successCount s + Z.of_nat (length nows))%Z
    /\ failureCount s' = failureCount s
    /\ sol_id s' = sol_id s
    /\ learnedSelector s' = learnedSelector s
    /\ lastUsed s' = default (lastUsed s) (last nows).
Proof.
  intros Hget [Hlo Hhi].
  destruct (recordSuccess_fold solutionId nows kb s Hget Hhi)
    as (s' & Hget' & Hconf & Hrest).
  assert (H0 : (0 <= hundredths (2 * Z.of_nat (length nows)))%Qc).
  { unfold Qcle, hundredths. cbn [this Q2Qc]. rewrite !Qred_correct.
    unfold Qle. cbn [Qnum Qden]. lia. }
  exists s'. split; [done|].
  destruct Hrest as (? & ? & ? & ? & ?).
  revert Hconf H0. generalize (hundredths (2 * Z.of_nat (length nows))).
  intros q Hconf Hq. rewrite Hconf. unfold Math_min.
  split_and!; try done.
  - case_decide as Hd; revert Hhi Hq; qc_arith.
  - case_decide as Hd; [apply Qcle_refl|by apply Qcnot_lt_le].
  - apply near_refl.
  - intros Hcap. case_decide as Hd; [done|]. exfalso. revert Hd Hcap. qc_arith.
Qed.

End RepeatedSuccess.

Section KnowledgeBaseMore.
Variable md5_hex : string -> string.
Implicit Types (kb : KnowledgeBase) (s : Solution).

(** One update leaves the patterns and the base path alone and touches the
    entry of at most one key. *)
Lemma kb_update_frame kb kb' :
  kb_update md5_hex kb kb' ->
  patterns kb' = patterns kb /\ basePath kb' = basePath kb
  /\ exists solutionId, forall k,
       k <> solutionId -> jsmap_get k (solutions kb') = jsmap_get k (solutions kb).
Proof.
  intros [step learned context now kb0|solutionId now kb0|solutionId kb0].
  - split_and!; try done. exists (generateKey md5_hex step). intros k Hk.
    unfold recordSolution. simpl. by rewrite jsmap_get_set_ne.
  - unfold recordSuccess. destruct (jsmap_get solutionId (solutions kb0)) eqn:Hget;
      simpl; split_and!; try done; exists solutionId; intros k Hk; [|done].
    by rewrite jsmap_get_set_ne.
  - unfold recordFailure. destruct (jsmap_get solutionId (solutions kb0)) eqn:Hget;
      simpl; [|by split_and!; try done; exists solutionId].
    case_decide; simpl; split_and!; try done; exists solutionId; intros k Hk.
    + by rewrite jsmap_get_delete_ne.
    + by rewrite jsmap_get_set_ne.
Qed.

Lemma lifecycle_patterns kb kb' :
  rtc (kb_update md5_hex) kb kb' ->
  patterns kb' = patterns kb /\ basePath kb' = basePath kb.
Proof.
  induction 1 as [|kb1 kb2 kb3 H12 _ [IHp IHb]]; [done|].
  destruct (kb_update_frame _ _ H12) as (Hp & Hb & _). by rewrite IHp, IHb.
Qed.

(** What the lookup can return after a solution was recorded. *)
Lemma recordSolution_not_found step learned context now kb step' context' s' :
  findLearnedSolution md5_hex step' context'
    (recordSolution md5_hex step learned context now kb) = inr (Some s') ->
  s' ∈ jsmap_values (solutions kb) /\ (hundredths 75 < confidence s')%Qc.
Proof.
  intros Hfind. split; [|by eapply findLearnedSolution_confidence].
  pose proof (findLearnedSolution_confidence _ _ _ _ _ Hfind) as Hconf.
  apply findLearnedSolution_elem in Hfind as [k Hin].
  unfold recordSolution in Hin. cbn [solutions set_solutions] in Hin.
  apply jsmap_set_elem in Hin as [Heq|Hin].
  - exfalso. injection Heq as _ ->. cbn [confidence] in Hconf. revert Hconf. qc_arith.
  - unfold jsmap_values. apply list_elem_of_fmap. by exists (k, s').
Qed.
End KnowledgeBaseMore.

Section RecordSolution.
Variable md5_hex : string -> string.

(** Recording a solution for a step: the entry under the key of the step is
    the new solution with confidence 0.7 and one success, whatever was there
    before; the other entries stay; a key that was present keeps its place
    and a new key goes to the end; and no lookup returns the new entry. *)
Theorem recordSolution_entry step learned context now kb :
  let kb' := recordSolution md5_hex step learned context now kb in
  let key := generateKey md5_hex step in
  (exists s, jsmap_get key (solutions kb') = Some s
             /\ sol_id s = key
             /\ learnedSelector s = learned
             /\ confidence s = hundredths 70
             /\ successCount s = 1%Z /\ failureCount s = 0%Z
             /\ (forall step' context',
                   findLearnedSolution md5_hex step' context' kb' <> inr (Some s)))
  /\ (forall k, k <> key -> jsmap_get k (solutions kb') = jsmap_get k (solutions kb))
  /\ jsmap_keys (solutions kb')
     = (if bool_decide (key ∈ jsmap_keys (solutions kb))
        then jsmap_keys (solutions kb)
        else jsmap_keys (solutions kb) ++ [key])%list
  /\ (forall step' context' s',
        findLearnedSolution md5_hex step' context' kb' = inr (Some s') ->
        s' ∈ jsmap_values (solutions kb)).
Proof.
  cbv zeta. split_and!.
  - eexists. split; [apply jsmap_get_set_eq|]. split_and!; try done.
    intros step' context' Hfind.
    apply findLearnedSolution_confidence in Hfind. cbn [confidence] in Hfind.
    revert Hfind. qc_arith.
  - intros k Hk. unfold recordSolution. cbn [solutions set_solutions sol_id].
    by rewrite jsmap_get_set_ne.
  - unfold recordSolution. cbn [solutions set_solutions sol_id].
    case_bool_decide as Hin.
    + by apply jsmap_keys_set_in.
    + by apply jsmap_keys_set_notin.
  - intros step' context' s' Hfind.
    by eapply recordSolution_not_found.
Qed.
End RecordSolution.

Section PersistenceMore.
Variable path_join : list string -> string.

Lemma entries_of_values {V} (key : V -> string) (m : JsMap V) :
  NoDup (jsmap_keys m) -> (forall k v, (k, v) ∈ m -> k = key v) ->
  jsmap_of_entries (map (fun x => (key x, x)) (jsmap_values m)) = m.
Proof.
  intros Hnd Hkey.
  assert (Hm : map (fun x => (key x, x)) (jsmap_values m) = m).
  { clear Hnd. induction m as [|[k v] m IH]; simpl; [done|].
    rewrite IH.
    - f_equal. f_equal. symmetry. apply Hkey. apply list_elem_of_here.
    - intros k' v' Hin. apply Hkey. by apply list_elem_of_further. }
  rewrite Hm. unfold jsmap_of_entries.
  rewrite (fold_set_fresh m []); [done|]. simpl. exact Hnd.
Qed.

(** Saving the knowledge base and loading it again gives the same
    solutions and patterns, in the same order. *)
Theorem load_after_save basePath kb now now' disk :
  kb_keys_ok kb ->
  patterns_keys_ok kb ->
  path_join [basePath; "patterns.json"] <> path_join [basePath; "solutions.json"] ->
  (loadKnowledgeBase path_join basePath
     (saveKnowledgeBase path_join basePath kb now now' disk)).2
  = {| solutions := solutions kb; patterns := patterns kb; basePath := basePath |}.
Proof.
  intros [Hnd Hkey] [Hpnd Hpkey] Hne.
  unfold loadKnowledgeBase, saveKnowledgeBase. cbn [snd].
  set (sp := path_join [basePath; "solutions.json"]) in *.
  set (pp := path_join [basePath; "patterns.json"]) in *.
  set (sd := FSolutions _). set (pd := FPatterns _).
  set (disk1 := <[pp := pd]> (<[sp := sd]> disk)).
  assert (Hs : disk1 !! sp = Some sd).
  { unfold disk1. rewrite lookup_insert_ne by done. apply lookup_insert_eq. }
  assert (Hp : disk1 !! pp = Some pd) by apply lookup_insert_eq.
  assert (Hs' : (match disk1 !! basePath with
                 | Some _ => disk1
                 | None => <[basePath := FDir]> disk1
                 end) !! sp = Some sd).
  { destruct (disk1 !! basePath) eqn:Hb; [done|].
    rewrite lookup_insert_ne; [done|]. intros Heq. rewrite Heq in Hb. by rewrite Hs in Hb. }
  assert (Hp' : (match disk1 !! basePath with
                 | Some _ => disk1
                 | None => <[basePath := FDir]> disk1
                 end) !! pp = Some pd).
  { destruct (disk1 !! basePath) eqn:Hb; [done|].
    rewrite lookup_insert_ne; [done|]. intros Heq. rewrite Heq in Hb. by rewrite Hp in Hb. }
  rewrite Hs', Hp'. unfold sd, pd. cbn [sd_solutions pd_patterns].
  f_equal.
  - by apply entries_of_values.
  - by apply entries_of_values.
Qed.

Lemma of_entries_keys {V} (es acc : list (string * V)) :
  NoDup acc.*1 ->
  let m := fold_left (fun m e => jsmap_set e.1 e.2 m) es acc in
  NoDup (jsmap_keys m)
  /\ (forall k, k ∈ jsmap_keys m <-> k ∈ acc.*1 \/ k ∈ es.*1)
  /\ (forall k v, (k, v) ∈ m -> (k, v) ∈ acc \/ (k, v) ∈ es).
Proof.
  cbv zeta. revert acc. induction es as [|[k0 v0] es IH]; intros acc Hnd; simpl.
  - split_and!; [done| |by left]. intros k. split; [by left|].
    intros [H|H]; [done|]. by apply elem_of_nil in H.
  - destruct (IH (jsmap_set k0 v0 acc)) as (Hnd' & Hkeys & Helem).
    { by apply jsmap_set_NoDup. }
    split_and!; [done| |].
    + intros k. rewrite Hkeys. rewrite elem_of_cons.
      destruct (decide (k0 ∈ jsmap_keys acc)) as [Hin|Hin].
      * fold (jsmap_keys (jsmap_set k0 v0 acc)).
        rewrite jsmap_keys_set_in by done. unfold jsmap_keys.
        split; [tauto|]. intros [H|[->|H]]; tauto.
      * fold (jsmap_keys (jsmap_set k0 v0 acc)).
        rewrite jsmap_keys_set_notin by done. rewrite elem_of_app, list_elem_of_singleton.
        unfold jsmap_keys. tauto.
    + intros k v Hin. apply Helem in Hin as [Hin|Hin].
      * apply jsmap_set_elem in Hin as [Heq|Hin]; [|by left].
        right. rewrite Heq. apply list_elem_of_here.
      * right. by apply list_elem_of_further.
Qed.

Lemma of_entries_last {V} (es acc : list (string * V)) k v es2 :
  k ∉ es2.*1 ->
  jsmap_get k (fold_left (fun m e => jsmap_set e.1 e.2 m) (es ++ (k, v) :: es2) acc)
  = Some v.
Proof.
  intros Hk. rewrite fold_left_app. cbn [fold_left fst snd].
  generalize (fold_left (fun m e => jsmap_set e.1 e.2 m) es acc). intros m.
  assert (Hget : jsmap_get k (jsmap_set k v m) = Some v) by apply jsmap_get_set_eq.
  revert Hget. generalize (jsmap_set k v m). clear m.
  induction es2 as [|[k2 v2] es2 IH]; intros m Hget; simpl; [done|].
  apply not_elem_of_cons in Hk as [Hne Hk]. apply IH; [done|].
  rewrite jsmap_get_set_ne; [done|]. simpl in Hne. congruence.
Qed.

Lemma of_entries_keys_ok {V} (key : V -> string) (l : list V) :
  let m := jsmap_of_entries (map (fun x => (key x, x)) l) in
  NoDup (jsmap_keys m)
  /\ (forall k v, (k, v) ∈ m -> k = key v)
  /\ (forall k, k ∈ jsmap_keys m <-> k ∈ map key l)
  /\ (forall l1 x l2, l = (l1 ++ x :: l2)%list -> key x ∉ map key l2 ->
        jsmap_get (key x) m = Some x).
Proof.
  cbv zeta. unfold jsmap_of_entries.
  assert (Hfst : forall l', (map (fun x => (key x, x)) l').*1 = map key l').
  { intros l'. induction l' as [|x l' IH]; [done|].
    cbn [map]. rewrite fmap_cons. cbn [fst]. by rewrite IH. }
  destruct (of_entries_keys (map (fun x => (key x, x)) l) []) as (Hnd & Hkeys & Helem);
    [constructor|].
  split_and!; [done| | |].
  - intros k v Hin. apply Helem in Hin as [Hin|Hin]; [by apply elem_of_nil in Hin|].
    apply list_elem_of_fmap in Hin as (x & Heq & _). by injection Heq as -> ->.
  - intros k. specialize (Hkeys k). rewrite Hfst in Hkeys. rewrite Hkeys.
    split; [|by right]. intros [H|H]; [by apply elem_of_nil in H|done].
  - intros l1 x l2 -> Hx. rewrite map_app. cbn [map].
    apply of_entries_last. by rewrite Hfst.
Qed.

(** The knowledge base that a load builds, whatever the files hold: every
    entry is stored under its id and no key is repeated; the keys are the ids
    of the file, and of several solutions with the same id the last one is
    the entry; without a solutions file that can be read there is no
    solution. *)
Theorem load_builds_keys basePath disk :
  let kb := (loadKnowledgeBase path_join basePath disk).2 in
  kb_keys_ok kb
  /\ patterns_keys_ok kb
  /\ (forall data,
        disk !! path_join [basePath; "solutions.json"] = Some (FSolutions data) ->
        (forall k, k ∈ jsmap_keys (solutions kb) <-> k ∈ map sol_id (sd_solutions data))
        /\ (forall l1 s l2,
              sd_solutions data = (l1 ++ s :: l2)%list ->
              sol_id s ∉ map sol_id l2 ->
              jsmap_get (sol_id s) (solutions kb) = Some s))
  /\ ((forall data, disk !! path_join [basePath; "solutions.json"] <> Some (FSolutions data))
      -> solutions kb = []).
Proof.
  cbv zeta. split_and!.
  - unfold loadKnowledgeBase. cbn [snd solutions]. unfold kb_keys_ok. cbn [solutions].
    destruct (_ !! path_join [basePath; "solutions.json"]) as [[| |data|]|];
      try (split; [constructor|by intros k s H; apply elem_of_nil in H]).
    destruct (of_entries_keys_ok sol_id (sd_solutions data)) as (Hnd & Hkey & _).
    by split.
  - unfold loadKnowledgeBase. cbn [snd patterns]. unfold patterns_keys_ok. cbn [patterns].
    destruct (_ !! path_join [basePath; "patterns.json"]) as [[| | |data]|];
      try (split; [constructor|by intros k s H; apply elem_of_nil in H]).
    destruct (of_entries_keys_ok pat_id (pd_patterns data)) as (Hnd & Hkey & _).
    by split.
  - intros data Hfile. rewrite (load_solutions path_join basePath disk data Hfile).
    destruct (of_entries_keys_ok sol_id (sd_solutions data)) as (_ & _ & Hkeys & Hlast).
    by split.
  - intros Hnone. unfold loadKnowledgeBase. cbn [snd solutions].
    set (sp := path_join [basePath; "solutions.json"]) in *.
    destruct (disk !! basePath) eqn:Hb.
    + destruct (disk !! sp) as [[| |data|]|] eqn:Hsp; try done. by destruct (Hnone data).
    + destruct (decide (basePath = sp)) as [Heq|Hne].
      * rewrite <- Heq. by rewrite lookup_insert_eq.
      * rewrite lookup_insert_ne by done.
        destruct (disk !! sp) as [[| |data|]|] eqn:Hsp; try done. by destruct (Hnone data).
Qed.
End PersistenceMore.

(** ** Counters and cost of a flow *)

Section Accounting.
Context {Env Element : Type}.
Variable md5_hex : string -> string.
Variable drv : Driver Env Element.
Variable aiClient : bool.
Implicit Types st : State Env.

Ltac account_done :=
  split_and!; try done; try lia; try (by constructor); try (by left); try (by right).

Ltac run_calls :=
  repeat (simpl;
          match goal with
          | |- context [call ?f ?st] =>
              let e := fresh "e" in let r := fresh "r" in
              unfold call at 1; destruct (f (env st)) as [e [r|r]]
          end); simpl.

Lemma ai_tier_account step config context st :
  exists st' d ok,
    ai_tier md5_hex drv aiClient step config context st = (st', inr ok)
    /\ ai_resolution md5_hex (configured aiClient config) step context
         (knowledgeBase st) d (knowledgeBase st') ok
    /\ attempts st' = (attempts st ++ d)%list
    /\ kbReads st' = kbReads st
    /\ flowsData st' = flowsData st
    /\ screenshots st' = screenshots st
    /\ totalSteps (hybridStats st') = totalSteps (hybridStats st)
    /\ deterministicSuccess (hybridStats st') = deterministicSuccess (hybridStats st)
    /\ learnedSuccess (hybridStats st') = learnedSuccess (hybridStats st)
    /\ aiSuccess (hybridStats st') = aiSuccess (hybridStats st) + (if ok then 1 else 0)
    /\ (aiCost (hybridStats st') = aiCost (hybridStats st)
        \/ aiCost (hybridStats st') = (aiCost (hybridStats st) + thousandths 16)%Qc)
    /\ (ok = true ->
        aiCost (hybridStats st') = (aiCost (hybridStats st) + thousandths 16)%Qc)
    /\ (d = [] -> aiCost (hybridStats st') = aiCost (hybridStats st)).
Proof.
  unfold ai_tier. fold (configured aiClient config).
  destruct (configured aiClient config) eqn:Hc.
  - unfold mbind, M_bind, bind, try_catch, modify, mret, M_ret, ret, get_state.
    destruct (executeWithAI _ _ _ _) as [st1 [e|[sel conf|err]]] eqn:Hai;
      apply executeWithAI_frame in Hai as (Hkb & Hst & Hfl & Hsh & Hat & Hrd).
    + exists (with_stats add_aiCost (note_attempt AI false st1)), [(AI, false)], false.
      simpl. rewrite Hkb, Hat, Hrd, Hst, Hfl, Hsh.
      account_done.
    + eexists _, [(AI, true)], true. split; [done|]. simpl.
      rewrite Hkb, Hat, Hrd, Hst, Hfl, Hsh.
      account_done.
    + exists (note_attempt AI false st1), [(AI, false)], false. simpl.
      rewrite Hkb, Hat, Hrd, Hst, Hfl, Hsh.
      account_done.
  - exists st, [], false. rewrite app_nil_r.
    account_done.
Qed.

Lemma learned_tier_account step context value st :
  exists st' r,
    learned_tier md5_hex drv step context value st = (st', r)
    /\ kbReads st' = S (kbReads st)
    /\ flowsData st' = flowsData st
    /\ screenshots st' = screenshots st
    /\ totalSteps (hybridStats st') = totalSteps (hybridStats st)
    /\ deterministicSuccess (hybridStats st') = deterministicSuccess (hybridStats st)
    /\ learnedSuccess (hybridStats st')
       = learnedSuccess (hybridStats st) + (match r with inr true => 1 | _ => 0 end)
    /\ aiSuccess (hybridStats st') = aiSuccess (hybridStats st)
    /\ aiCost (hybridStats st') = aiCost (hybridStats st)
    /\ match findLearnedSolution md5_hex step context (knowledgeBase st) with
       | inl e =>
           r = inl e /\ attempts st' = attempts st
           /\ knowledgeBase st' = knowledgeBase st
       | inr None =>
           r = inr false /\ attempts st' = attempts st
           /\ knowledgeBase st' = knowledgeBase st
       | inr (Some solution) =>
           exists ok,
             r = inr ok
             /\ attempts st' = (attempts st ++ [(Learned, ok)])%list
             /\ if ok
                then exists now,
                    knowledgeBase st' = recordSuccess (sol_id solution) now (knowledgeBase st)
                else knowledgeBase st' = recordFailure (sol_id solution) (knowledgeBase st)
       end.
Proof.
  unfold learned_tier.
  unfold mbind, M_bind, bind, try_catch, modify, mret, M_ret, ret, get_state, throw.
  destruct (findLearnedSolution _ _ _ _) as [e'|[sol|]] eqn:Hfind.
  - eexists _, _. split; [done|]. simpl. account_done.
  - destruct (executeAction _ _ _ _ _ _) as [st1 [e|[]]] eqn:Hact;
      apply executeAction_frame in Hact as (Hkb & Hst & Hfl & Hsh & Hat & Hrd);
      simpl in Hkb, Hst, Hat, Hrd, Hfl, Hsh.
    + eexists _, _. split; [done|]. simpl. rewrite Hkb, Hat, Hrd, Hst, Hfl, Hsh.
      account_done. by exists false.
    + eexists _, _. split; [done|]. simpl. rewrite Hkb, Hat, Hrd, Hst, Hfl, Hsh.
      account_done. exists true. split_and!; try done. by eexists.
  - eexists _, _. split; [done|]. simpl. account_done.
Qed.

(** A step that goes through the tiers, with its counters. *)
Lemma executeStepHybrid_account step n flowPath config context st :
  action step <> "navigate" -> action step <> "screenshot" ->
  exists st' d reads r,
    executeStepHybrid md5_hex drv aiClient step n flowPath config context st = (st', r)
    /\ resolution md5_hex (configured aiClient config) step context
         (knowledgeBase st) d reads (knowledgeBase st') r
    /\ attempts st' = (attempts st ++ d)%list
    /\ flowsData st' = flowsData st
    /\ screenshots st' = screenshots st
    /\ totalSteps (hybridStats st') = S (totalSteps (hybridStats st))
    /\ deterministicSuccess (hybridStats st')
       = deterministicSuccess (hybridStats st) + tally Deterministic d
    /\ learnedSuccess (hybridStats st') = learnedSuccess (hybridStats st) + tally Learned d
    /\ aiSuccess (hybridStats st') = aiSuccess (hybridStats st) + tally AI d
    /\ (aiCost (hybridStats st') = aiCost (hybridStats st)
        \/ aiCost (hybridStats st') = (aiCost (hybridStats st) + thousandths 16)%Qc)
    /\ (tally AI d = 1 ->
        aiCost (hybridStats st') = (aiCost (hybridStats st) + thousandths 16)%Qc)
    /\ ((forall b, (AI, b) ∉ d) -> aiCost (hybridStats st') = aiCost (hybridStats st)).
Proof.
  intros Hn Hs. unfold executeStepHybrid.
  rewrite !bool_decide_eq_false_2 by done.
  unfold mbind at 1 2, M_bind at 1 2, bind at 1 2, modify at 1.
  unfold mbind at 1, M_bind at 1, bind at 1, try_catch at 1.
  unfold mbind at 1 2, M_bind at 1 2, bind at 1 2, modify at 1 2, mret at 1, M_ret at 1, ret at 1.
  destruct (executeAction _ _ _ _ _ _) as [st1 [e|[]]] eqn:Hdet;
    apply executeAction_frame in Hdet as (Hkb & Hst & Hfl & Hsh & Hat & Hrd);
    simpl in Hkb, Hst, Hat, Hrd, Hfl, Hsh.
  - unfold mbind, M_bind, bind, modify, mret, M_ret, ret.
    set (st2 := note_attempt Deterministic false st1).
    destruct (learned_tier_account step context
                (Hybrid.replaceParams (js_or (value step) "") (runner_params config)) st2)
      as (st3 & r3 & -> & Hrd3 & Hfl3 & Hsh3 & Hts3 & Hds3 & Hls3 & Has3 & Hco3 & Hl).
    assert (Hkb2 : knowledgeBase st2 = knowledgeBase st) by done.
    assert (Hat2 : attempts st2 = (attempts st ++ [(Deterministic, false)])%list)
      by (simpl; by rewrite Hat).
    assert (Hst2 : hybridStats st2 = inc_totalSteps (hybridStats st))
      by (simpl; by rewrite Hst).
    assert (Hfl2 : flowsData st2 = flowsData st) by done.
    assert (Hsh2 : screenshots st2 = screenshots st) by done.
    rewrite Hkb2 in Hl. rewrite Hst2 in Hts3, Hds3, Hls3, Has3, Hco3.
    simpl in Hts3, Hds3, Hls3, Has3, Hco3.
    destruct (findLearnedSolution _ _ _ _) as [e'|[sol|]] eqn:Hfind.
    + destruct Hl as (-> & Hat3 & Hkb3).
      exists st3, [(Deterministic, false)], 1, (inl e').
      split; [done|]. rewrite Hkb3, Hat3, Hat2, Hfl3, Hfl2, Hsh3, Hsh2.
      rewrite Hts3, Hds3, Hls3, Has3, Hco3.
      unfold tally. simpl.
      account_done.
    + destruct Hl as (ok & -> & Hat3 & Hkb3). destruct ok.
      * destruct Hkb3 as [now Hkb3].
        exists st3, [(Deterministic, false); (Learned, true)], 1, (inr tt).
        split; [done|]. rewrite Hkb3, Hat3, Hat2, Hfl3, Hfl2, Hsh3, Hsh2.
        rewrite Hts3, Hds3, Hls3, Has3, Hco3.
        rewrite <- app_assoc. unfold tally. simpl.
        account_done.
      * destruct (ai_tier_account step config context st3)
          as (st4 & d & ok & -> & Hres & Hat4 & Hrd4 & Hfl4 & Hsh4 & Hts4 & Hds4 & Hls4
              & Has4 & Hco4 & Hcok & Hcnil).
        exists st4, ((Deterministic, false) :: (Learned, false) :: d), 1, (outcome step ok).
        split; [by destruct ok|].
        rewrite Hat4, Hat3, Hat2, Hfl4, Hfl3, Hfl2, Hsh4, Hsh3, Hsh2.
        rewrite Hts4, Hds4, Hls4, Has4, Hts3, Hds3, Hls3, Has3.
        rewrite Hco3 in Hco4, Hcok, Hcnil.
        rewrite <- !app_assoc.
        pose proof (ai_resolution_shape _ _ _ _ _ _ _ _ Hres) as Hshape.
        split_and!; try done.
        -- eapply res_learned_failed; [done|]. by rewrite <- Hkb3.
        -- destruct Hshape as [(-> & _)|[-> _]]; unfold tally; simpl; [lia|].
           destruct ok; simpl; lia.
        -- destruct Hshape as [(-> & _)|[-> _]]; unfold tally; simpl; [lia|].
           destruct ok; simpl; lia.
        -- destruct Hshape as [(-> & -> & _)|[-> _]]; unfold tally; simpl; [lia|].
           destruct ok; simpl; lia.
        -- destruct Hshape as [(-> & _)|[-> _]]; unfold tally; simpl; [lia|].
           destruct ok; simpl; [auto|lia].
        -- intros Hno. apply Hcnil.
           destruct Hshape as [(-> & _)|[-> _]]; [done|].
           exfalso. apply (Hno ok). do 2 apply list_elem_of_further. apply list_elem_of_here.
    + destruct Hl as (-> & Hat3 & Hkb3).
      destruct (ai_tier_account step config context st3)
        as (st4 & d & ok & -> & Hres & Hat4 & Hrd4 & Hfl4 & Hsh4 & Hts4 & Hds4 & Hls4
            & Has4 & Hco4 & Hcok & Hcnil).
      exists st4, ((Deterministic, false) :: d), 1, (outcome step ok).
      split; [by destruct ok|].
      rewrite Hat4, Hat3, Hat2, Hfl4, Hfl3, Hfl2, Hsh4, Hsh3, Hsh2.
      rewrite Hts4, Hds4, Hls4, Has4, Hts3, Hds3, Hls3, Has3.
      rewrite Hco3 in Hco4, Hcok, Hcnil.
      rewrite <- !app_assoc.
      pose proof (ai_resolution_shape _ _ _ _ _ _ _ _ Hres) as Hshape.
      split_and!; try done.
      -- eapply res_nothing_learned; [done|]. by rewrite <- Hkb3.
      -- destruct Hshape as [(-> & _)|[-> _]]; unfold tally; simpl; [lia|].
         destruct ok; simpl; lia.
      -- destruct Hshape as [(-> & _)|[-> _]]; unfold tally; simpl; [lia|].
         destruct ok; simpl; lia.
      -- destruct Hshape as [(-> & -> & _)|[-> _]]; unfold tally; simpl; [lia|].
         destruct ok; simpl; lia.
      -- destruct Hshape as [(-> & _)|[-> _]]; unfold tally; simpl; [lia|].
         destruct ok; simpl; [auto|lia].
      -- intros Hno. apply Hcnil.
         destruct Hshape as [(-> & _)|[-> _]]; [done|].
         exfalso. apply (Hno ok). apply list_elem_of_further. apply list_elem_of_here.
  - eexists _, [(Deterministic, true)], 0, (inr tt). split; [done|]. simpl.
    rewrite Hkb, Hat, Hst, Hfl, Hsh. unfold tally. simpl.
    account_done.
Qed.

(** What one step does to the counters, whatever its action. *)
Lemma executeStepHybrid_summary step n flowPath config context st :
  exists st' r d,
    executeStepHybrid md5_hex drv aiClient step n flowPath config context st = (st', r)
    /\ attempts st' = (attempts st ++ d)%list
    /\ flowsData st' = flowsData st
    /\ totalSteps (hybridStats st') = S (totalSteps (hybridStats st))
    /\ deterministicSuccess (hybridStats st) <= deterministicSuccess (hybridStats st')
    /\ learnedSuccess (hybridStats st') = learnedSuccess (hybridStats st) + tally Learned d
    /\ aiSuccess (hybridStats st') = aiSuccess (hybridStats st) + tally AI d
    /\ successes (hybridStats st')
       = successes (hybridStats st) + (if is_done r then 1 else 0)
    /\ (aiCost (hybridStats st') = aiCost (hybridStats st)
        \/ aiCost (hybridStats st') = (aiCost (hybridStats st) + thousandths 16)%Qc)
    /\ (tally AI d = 1 ->
        aiCost (hybridStats st') = (aiCost (hybridStats st) + thousandths 16)%Qc)
    /\ ((forall b, (AI, b) ∉ d) -> aiCost (hybridStats st') = aiCost (hybridStats st))
    /\ (d = [] /\ knowledgeBase st' = knowledgeBase st
        \/ exists reads,
             resolution md5_hex (configured aiClient config) step context
               (knowledgeBase st) d reads (knowledgeBase st') r).
Proof.
  destruct (decide (action step = "navigate")) as [Hnav|Hnav].
  { unfold executeStepHybrid. rewrite (bool_decide_eq_true_2 _ Hnav).
    unfold navigate_step, mbind, M_bind, bind, modify.
    run_calls; eexists _, _, []; (split; [done|]); simpl; rewrite ?app_nil_r;
      unfold successes, tally; simpl; account_done. }
  destruct (decide (action step = "screenshot")) as [Hshot|Hshot].
  { unfold executeStepHybrid. rewrite (bool_decide_eq_false_2 _ Hnav).
    rewrite (bool_decide_eq_true_2 _ Hshot).
    unfold screenshot_step, mbind, M_bind, bind, modify.
    run_calls; eexists _, _, []; (split; [done|]); simpl; rewrite ?app_nil_r;
      unfold successes, tally; simpl; account_done. }
  destruct (executeStepHybrid_account step n flowPath config context st Hnav Hshot)
    as (st' & d & reads & r & Hrun & Hres & Hat & Hfl & Hsh & Hts & Hds & Hls & Has
        & Hco & Hco1 & Hco0).
  exists st', r, d.
  split_and!; try done; [lia| |by right; eauto].
  unfold successes. rewrite Hds, Hls, Has.
  assert (Htally : tally Deterministic d + tally Learned d + tally AI d
                   = if is_done r then 1 else 0).
  { clear -Hres.
    inversion Hres as [|sol now Hf|sol d' kb1 ok' Hf Hai|d' kb1 ok' Hf Hai|e Hf];
      subst; unfold tally; simpl; try done;
      apply ai_resolution_shape in Hai as [(-> & -> & _)|[-> _]]; simpl; try done;
      by destruct ok'. }
  lia.
Qed.

(** A relation between the state before and the state after that holds
    across every step holds across a sequence of steps and across a flow,
    when it does not depend on the outside world, the flows data or the list
    of screenshots. *)
Section Lifting.
Variable R : State Env -> State Env -> Prop.
Variables (flowPath : string) (config : Config).
Hypothesis R_outer : forall st st', inner_eq st st' -> R st st'.
Hypothesis R_trans : forall a b c, R a b -> R b c -> R a c.
Hypothesis R_step : forall step n context st,
  R st (executeStepHybrid md5_hex drv aiClient step n flowPath config context st).1.

Lemma run_steps_lift steps i context st :
  R st (run_steps md5_hex drv aiClient steps i flowPath config context st).1.
Proof.
  revert i st. induction steps as [|step rest IH]; intros i st; simpl.
  - by apply R_outer.
  - unfold mbind, M_bind, bind.
    pose proof (R_step step (S i) context st) as H1.
    destruct (executeStepHybrid _ _ _ _ _ _ _ _ _) as [st1 [e|[]]]; simpl in *; [done|].
    eapply R_trans; [done|apply IH].
Qed.

Lemma flow_steps_of_inner node st :
  inner_eq st (flow_steps_of drv aiClient flowPath node st).1.
Proof.
  unfold flow_steps_of. destruct node as [children|flow|]; try done.
  destruct (_ && _); [|done]. destruct (negb aiClient); [done|].
  unfold mbind, M_bind, bind, modify, mret, M_ret, ret. run_calls; done.
Qed.

Lemma inner_eq_trans (a b c : State Env) : inner_eq a b -> inner_eq b c -> inner_eq a c.
Proof. intros (?&?&?&?) (?&?&?&?). unfold inner_eq. split_and!; congruence. Qed.

Lemma executeFlow_lift st :
  R st (executeFlow md5_hex drv aiClient flowPath config st).1.
Proof.
  unfold executeFlow.
  assert (Hbody :
    R st (flow_body md5_hex drv aiClient flowPath config
            (with_screenshots (fun _ => []) st)).1).
  { unfold flow_body, mbind, M_bind, bind, get_state.
    set (st0 := with_screenshots (fun _ => []) st).
    assert (H0 : inner_eq st st0) by done.
    destruct (getFlowByPath _ _) as [node|]; [|by apply R_outer].
    pose proof (flow_steps_of_inner node st0) as H1.
    destruct (flow_steps_of _ _ _ _ _) as [st1 [e|[[|step rest]|]]]; simpl in H1 |- *;
      try (apply R_outer; by eapply inner_eq_trans).
    eapply R_trans; [apply R_outer; by eapply inner_eq_trans|].
    apply (run_steps_lift (step :: rest)). }
  destruct (flow_body _ _ _ _ _ _) as [st1 [message|[]]]; simpl in Hbody |- *; [|done].
  eapply R_trans; [done|]. apply R_outer.
  unfold call. destruct (page_screenshot _ _ _ _) as [e [r|r]]; simpl; done.
Qed.
End Lifting.

Lemma add_aiCost_cost h : aiCost (add_aiCost h) = (aiCost h + thousandths 16)%Qc.
Proof. done. Qed.

(** The cost after a number of charges depends on the cost before only. *)
Lemma charges_cost k h h' :
  aiCost h = aiCost h' ->
  aiCost (Nat.iter k add_aiCost h) = aiCost (Nat.iter k add_aiCost h').
Proof.
  intros H. induction k as [|k IH]; [done|].
  by rewrite !Nat.iter_succ, !add_aiCost_cost, IH.
Qed.

Lemma charges_grow k h : (aiCost h <= aiCost (Nat.iter k add_aiCost h))%Qc.
Proof.
  induction k as [|k IH]; [apply Qcle_refl|].
  rewrite Nat.iter_succ, add_aiCost_cost.
  revert IH. generalize (aiCost (Nat.iter k add_aiCost h)). intros q. qc_arith.
Qed.

Lemma cost_bounds_outer st st' : inner_eq st st' -> cost_bounds st st'.
Proof.
  intros (_ & Hst & _). unfold cost_bounds. rewrite Hst, !Nat.sub_diag.
  split_and!; try done. by exists 0.
Qed.

Lemma cost_bounds_trans (a b c : State Env) : cost_bounds a b -> cost_bounds b c -> cost_bounds a c.
Proof.
  intros (Ht1 & Ha1 & k1 & Hl1 & Hu1 & Hc1) (Ht2 & Ha2 & k2 & Hl2 & Hu2 & Hc2).
  unfold cost_bounds. split_and!; [lia|lia|].
  exists (k2 + k1). split_and!; [lia|lia|].
  rewrite Nat.iter_add, Hc2. by apply charges_cost.
Qed.

Lemma tally_le_one step context conf kb d reads kb' r t :
  resolution md5_hex conf step context kb d reads kb' r -> tally t d <= 1.
Proof.
  intros Hres.
  inversion Hres as [|sol now Hf|sol d' kb1 ok' Hf Hai|d' kb1 ok' Hf Hai|e Hf];
    subst; unfold tally; simpl; try (by destruct t; simpl; lia);
    apply ai_resolution_shape in Hai as [(-> & -> & _)|[-> _]]; simpl;
    destruct t; simpl; try lia; destruct ok'; simpl; lia.
Qed.

Lemma cost_bounds_step step n flowPath config context st :
  cost_bounds st (executeStepHybrid md5_hex drv aiClient step n flowPath config context st).1.
Proof.
  destruct (executeStepHybrid_summary step n flowPath config context st)
    as (st' & r & d & -> & Hat & Hfl & Hts & Hds & Hls & Has & Hsu & Hco & Hco1 & Hco0 & Hk).
  cbn [fst]. unfold cost_bounds. rewrite Hts, Has.
  replace (S (totalSteps (hybridStats st)) - totalSteps (hybridStats st)) with 1 by lia.
  replace (aiSuccess (hybridStats st) + tally AI d - aiSuccess (hybridStats st))
    with (tally AI d) by lia.
  assert (Hle : tally AI d <= 1).
  { destruct Hk as [[-> _]|(reads & Hres)]; [unfold tally; simpl; lia|].
    by eapply tally_le_one. }
  split_and!; [lia|lia|].
  destruct (tally AI d) as [|[|k]] eqn:Ht; [|exists 1; by rewrite (Hco1 eq_refl)|lia].
  destruct Hco as [Hco|Hco]; [exists 0|exists 1]; by rewrite Hco.
Qed.

(** The cost of the AI tier over a flow is the cost before with 0.016 added
    once for each of a number of steps: at least the steps that the AI tier
    resolved and at most the steps that were started. It does not go
    down. *)
Theorem executeFlow_cost flowPath config st :
  let st' := (executeFlow md5_hex drv aiClient flowPath config st).1 in
  totalSteps (hybridStats st) <= totalSteps (hybridStats st')
  /\ aiSuccess (hybridStats st) <= aiSuccess (hybridStats st')
  /\ (exists charges,
        aiSuccess (hybridStats st') - aiSuccess (hybridStats st) <= charges
        /\ charges <= totalSteps (hybridStats st') - totalSteps (hybridStats st)
        /\ aiCost (hybridStats st')
           = aiCost (Nat.iter charges add_aiCost (hybridStats st)))
  /\ (aiCost (hybridStats st) <= aiCost (hybridStats st'))%Qc.
Proof.
  cbv zeta.
  assert (H : cost_bounds st (executeFlow md5_hex drv aiClient flowPath config st).1).
  { apply (executeFlow_lift cost_bounds).
    - apply cost_bounds_outer.
    - apply cost_bounds_trans.
    - intros. apply cost_bounds_step. }
  destruct H as (Ht & Ha & k & Hl & Hu & Hc). split_and!; [done|done|by exists k|].
  rewrite Hc. apply charges_grow.
Qed.

Lemma kb_unused_find step context kb s :
  kb_unused kb -> findLearnedSolution md5_hex step context kb <> inr (Some s).
Proof.
  intros Hkb Hfind.
  pose proof (findLearnedSolution_confidence _ _ _ _ _ Hfind) as Hconf.
  apply findLearnedSolution_elem in Hfind as [k Hin].
  unfold kb_unused in Hkb. rewrite Forall_forall in Hkb.
  assert (Hs : s ∈ jsmap_values (solutions kb)).
  { unfold jsmap_values. apply list_elem_of_fmap. by exists (k, s). }
  specialize (Hkb s Hs). revert Hkb Hconf. qc_arith.
Qed.

Lemma recordSolution_values step learned context now kb s :
  s ∈ jsmap_values (solutions (recordSolution md5_hex step learned context now kb)) ->
  s ∈ jsmap_values (solutions kb) \/ fresh_solution s.
Proof.
  intros Hin. unfold jsmap_values in Hin. apply list_elem_of_fmap in Hin as ([k s'] & -> & Hin).
  unfold recordSolution in Hin. cbn [solutions set_solutions] in Hin.
  apply jsmap_set_elem in Hin as [Heq|Hin].
  - right. injection Heq as _ ->. done.
  - left. unfold jsmap_values. apply list_elem_of_fmap. by exists (k, s').
Qed.

Lemma fresh_unused s : fresh_solution s -> (confidence s <= hundredths 75)%Qc.
Proof. intros (-> & _). qc_arith. Qed.

Lemma unused_run_outer (st st' : State Env) : inner_eq st st' -> unused_run st st'.
Proof.
  intros (Hkb & Hst & Hat & _) Hun. rewrite Hkb, Hst. split_and!; try done.
  - exists []. rewrite app_nil_r. split; [done|]. intros ok H. by apply elem_of_nil in H.
  - intros s Hs. by left.
Qed.

Lemma unused_run_trans (a b c : State Env) :
  unused_run a b -> unused_run b c -> unused_run a c.
Proof.
  intros Hab Hbc Hun. destruct (Hab Hun) as (Hb & Hl1 & (d1 & Hd1 & Hn1) & Hv1).
  destruct (Hbc Hb) as (Hc & Hl2 & (d2 & Hd2 & Hn2) & Hv2).
  split_and!; [done|congruence| |].
  - exists (d1 ++ d2)%list. rewrite Hd2, Hd1, app_assoc. split; [done|].
    intros ok Hin. apply elem_of_app in Hin as [Hin|Hin]; [by eapply Hn1|by eapply Hn2].
  - intros s Hs. destruct (Hv2 s Hs) as [Hs'|Hf]; [|by right]. by apply Hv1.
Qed.

Lemma resolution_nothing_found conf step context kb d reads kb' r :
  resolution md5_hex conf step context kb d reads kb' r ->
  (forall s, findLearnedSolution md5_hex step context kb <> inr (Some s)) ->
  (forall ok0, (Learned, ok0) ∉ d)
  /\ tally Learned d = 0
  /\ (kb' = kb \/ exists learned now, kb' = recordSolution md5_hex step learned context now kb).
Proof.
  intros Hres Hnone.
  destruct Hres as [|sol now Hf|sol d' kb1 ok' Hf Hai|d' kb1 ok' Hf Hai|e Hf];
    try (by destruct (Hnone sol)).
  - split_and!; [|done|by left]. intros ok0 H. apply list_elem_of_singleton in H. done.
  - destruct Hai as [Hc|Hc|learned now Hc].
    + split_and!; [|done|by left]. intros ok0 H. apply list_elem_of_singleton in H. done.
    + split_and!; [|done|by left]. intros ok0 H.
      apply elem_of_cons in H as [H|H]; [done|]. apply list_elem_of_singleton in H. done.
    + split_and!; [|done|right; by eexists _, _]. intros ok0 H.
      apply elem_of_cons in H as [H|H]; [done|]. apply list_elem_of_singleton in H. done.
  - split_and!; [|done|by left]. intros ok0 H. apply list_elem_of_singleton in H. done.
Qed.

Lemma unused_run_step step n flowPath config context st :
  unused_run st
    (executeStepHybrid md5_hex drv aiClient step n flowPath config context st).1.
Proof.
  intros Hun.
  destruct (executeStepHybrid_summary step n flowPath config context st)
    as (st' & r & d & -> & Hat & Hfl & Hts & Hds & Hls & Has & Hsu & Hco & Hco1 & Hco0 & Hk).
  cbn [fst]. rewrite Hls.
  destruct Hk as [[-> Hkb]|(reads & Hres)].
  - rewrite Hkb. split_and!; [done|unfold tally; simpl; lia| |by left].
    exists []. split; [done|]. intros ok H. by apply elem_of_nil in H.
  - assert (Hnone : forall s, findLearnedSolution md5_hex step context (knowledgeBase st)
                              <> inr (Some s)) by (intros s; by apply kb_unused_find).
    destruct (resolution_nothing_found _ _ _ _ _ _ _ _ Hres Hnone) as (Hd & Ht & Hkb).
    rewrite Ht. split_and!; [|lia|by eexists|].
    + destruct Hkb as [->|(learned & now & ->)]; [done|].
      unfold kb_unused. rewrite Forall_forall. intros s Hs.
      apply recordSolution_values in Hs as [Hs|Hs]; [|by apply fresh_unused].
      unfold kb_unused in Hun. rewrite Forall_forall in Hun. by apply Hun.
    + intros s Hs. destruct Hkb as [Heq|(learned & now & Heq)]; rewrite Heq in Hs.
      * by left.
      * by apply recordSolution_values in Hs.
Qed.

(** A knowledge base in which no confidence is above 0.75, such as an empty
    one, is never used by a flow: the lookup returns no solution (it
    returns null when every entry with the action of the step has a page
    context, and may throw otherwise), the learned tier makes no attempt
    and resolves no step, and the knowledge base after the flow is of the
    same kind. A solution that the AI tier records has the confidence 0.7,
    so it is not used either. *)
Theorem executeFlow_fresh_unused flowPath config st :
  kb_unused (knowledgeBase st) ->
  let st' := (executeFlow md5_hex drv aiClient flowPath config st).1 in
  (forall step context s,
      findLearnedSolution md5_hex step context (knowledgeBase st) <> inr (Some s))
  /\ (forall step context,
        Forall (fun a => stepAction a = action step -> is_Some (pageContext a))
          (jsmap_values (solutions (knowledgeBase st))) ->
        findLearnedSolution md5_hex step context (knowledgeBase st) = inr None)
  /\ kb_unused (knowledgeBase st')
  /\ learnedSuccess (hybridStats st') = learnedSuccess (hybridStats st)
  /\ (exists d, attempts st' = (attempts st ++ d)%list /\ forall ok, (Learned, ok) ∉ d)
  /\ (forall s, s ∈ jsmap_values (solutions (knowledgeBase st')) ->
        s ∈ jsmap_values (solutions (knowledgeBase st)) \/ fresh_solution s).
Proof.
  intros Hun. cbv zeta. split; [by intros; apply kb_unused_find|].
  split.
  { intros step context Hpc.
    destruct (findLearnedSolution md5_hex step context (knowledgeBase st))
      as [e|[s|]] eqn:Hfind; [|by destruct (kb_unused_find _ _ _ _ Hun Hfind)|done].
    exfalso. apply findLearnedSolution_throws in Hfind
      as (_ & l1 & s & l2 & Hl & _ & Ha & Hnone & _).
    rewrite Hl in Hpc. apply Forall_app in Hpc as [_ Hpc].
    apply Forall_cons in Hpc as [Hs _]. destruct (Hs Ha) as [pc Hpc']. congruence. }
  revert Hun. apply (executeFlow_lift unused_run).
  - apply unused_run_outer.
  - apply unused_run_trans.
  - intros. apply unused_run_step.
Qed.
End Accounting.

(** ** Flows without the AI tier, and the counters of a flow *)

Section FlowFacts.
Context {Env Element : Type}.
Variable md5_hex : string -> string.
Variable drv : Driver Env Element.
Variable aiClient : bool.
Implicit Types st : State Env.

Ltac run_calls :=
  repeat (simpl;
          match goal with
          | |- context [call ?f ?st] =>
              let e := fresh "e" in let r := fresh "r" in
              unfold call at 1; destruct (f (env st)) as [e [r|r]]
          end); simpl.

Lemma no_ai_run_outer (st st' : State Env) : inner_eq st st' -> no_ai_run st st'.
Proof.
  intros (Hkb & Hst & Hat & _). unfold no_ai_run. rewrite Hkb, Hst.
  split_and!; try done.
  exists []. rewrite app_nil_r. split; [done|]. intros ok H. by apply elem_of_nil in H.
Qed.

Lemma no_ai_run_trans (a b c : State Env) : no_ai_run a b -> no_ai_run b c -> no_ai_run a c.
Proof.
  intros (Hc1 & Ha1 & (d1 & Hd1 & Hn1) & Hk1) (Hc2 & Ha2 & (d2 & Hd2 & Hn2) & Hk2).
  split_and!; [congruence|congruence| |].
  - exists (d1 ++ d2)%list. rewrite Hd2, Hd1, app_assoc. split; [done|].
    intros ok Hin. apply elem_of_app in Hin as [Hin|Hin]; [by eapply Hn1|by eapply Hn2].
  - intros Hok. destruct (Hk1 Hok) as [Hok1 Hkeys1]. destruct (Hk2 Hok1) as [Hok2 Hkeys2].
    split; [done|congruence].
Qed.

Lemma resolution_no_ai step context kb d reads kb' r :
  resolution md5_hex false step context kb d reads kb' r ->
  (forall b, (AI, b) ∉ d)
  /\ (kb_keys_ok kb ->
      kb_keys_ok kb' /\ jsmap_keys (solutions kb') = jsmap_keys (solutions kb)).
Proof.
  intros Hres.
  destruct Hres as [|sol now Hf|sol d' kb1 ok' Hf Hai|d' kb1 ok' Hf Hai|e Hf].
  - split; [|done]. intros b H. apply list_elem_of_singleton in H. done.
  - split.
    + intros b H. apply elem_of_cons in H as [H|H]; [done|].
      apply list_elem_of_singleton in H. done.
    + intros Hok. split; [by apply recordSuccess_keys_ok|apply recordSuccess_keys].
  - apply ai_resolution_shape in Hai as [(-> & -> & _ & ->)|[_ ?]]; [|done].
    split.
    + intros b H. apply elem_of_cons in H as [H|H]; [done|].
      apply list_elem_of_singleton in H. done.
    + intros Hok. split; [by apply recordFailure_keys_ok|].
      by eapply recordFailure_of_found_keys.
  - apply ai_resolution_shape in Hai as [(-> & -> & _ & ->)|[_ ?]]; [|done].
    split; [|done]. intros b H. apply list_elem_of_singleton in H. done.
  - split; [|done]. intros b H. apply list_elem_of_singleton in H. done.
Qed.

Lemma no_ai_run_step step n flowPath config context st :
  configured aiClient config = false ->
  no_ai_run st
    (executeStepHybrid md5_hex drv aiClient step n flowPath config context st).1.
Proof.
  intros Hconf.
  destruct (executeStepHybrid_summary md5_hex drv aiClient step n flowPath config context st)
    as (st' & r & d & -> & Hat & Hfl & Hts & Hds & Hls & Has & Hsu & Hco & Hco1 & Hco0 & Hk).
  cbn [fst]. unfold no_ai_run.
  destruct Hk as [[-> Hkb]|(reads & Hres)].
  - rewrite Hkb, Has. split_and!; try done.
    + apply Hco0. intros b H. by apply elem_of_nil in H.
    + exists []. split; [done|]. intros ok H. by apply elem_of_nil in H.
  - rewrite Hconf in Hres. destruct (resolution_no_ai _ _ _ _ _ _ _ Hres) as [Hno Hkeys].
    split_and!; [by apply Hco0| |by eexists|done].
    rewrite Has. unfold tally.
    assert (Hnil : List.filter (fun a => bool_decide (a = (AI, true))) d = []).
    { clear -Hno. induction d as [|a d IH]; simpl; [done|].
      case_bool_decide as Ha.
      - exfalso. apply (Hno true). rewrite Ha. apply list_elem_of_here.
      - apply IH. intros b H. apply (Hno b). by apply list_elem_of_further. }
    rewrite Hnil. simpl. lia.
Qed.

(** Without an AI client, or in a mode other than hybrid, a flow learns
    nothing: the AI tier makes no attempt, nothing is charged, and the
    knowledge base keeps exactly its keys. *)
Theorem executeFlow_without_ai flowPath config st :
  configured aiClient config = false ->
  let st' := (executeFlow md5_hex drv aiClient flowPath config st).1 in
  aiCost (hybridStats st') = aiCost (hybridStats st)
  /\ aiSuccess (hybridStats st') = aiSuccess (hybridStats st)
  /\ (exists d, attempts st' = (attempts st ++ d)%list /\ forall b, (AI, b) ∉ d)
  /\ (kb_keys_ok (knowledgeBase st) ->
      kb_keys_ok (knowledgeBase st')
      /\ jsmap_keys (solutions (knowledgeBase st'))
         = jsmap_keys (solutions (knowledgeBase st))).
Proof.
  intros Hconf. cbv zeta. apply (executeFlow_lift md5_hex drv aiClient no_ai_run).
  - apply no_ai_run_outer.
  - apply no_ai_run_trans.
  - intros. by apply no_ai_run_step.
Qed.

(** One update of the knowledge base leaves the patterns and the base path
    alone and changes the entry of at most one key; a whole flow leaves the
    patterns and the base path as they were. *)
Theorem patterns_never_change :
  (forall kb kb',
      kb_update md5_hex kb kb' ->
      patterns kb' = patterns kb /\ basePath kb' = basePath kb
      /\ exists solutionId, forall k,
           k <> solutionId -> jsmap_get k (solutions kb') = jsmap_get k (solutions kb))
  /\ (forall flowPath config st,
        let st' := (executeFlow md5_hex drv aiClient flowPath config st).1 in
        patterns (knowledgeBase st') = patterns (knowledgeBase st)
        /\ basePath (knowledgeBase st') = basePath (knowledgeBase st)).
Proof.
  split.
  - apply kb_update_frame.
  - intros flowPath config st. cbv zeta.
    apply (lifecycle_patterns md5_hex). apply executeFlow_lifecycle.
Qed.

Lemma run_steps_accounting steps i flowPath config context st :
  let '(st', r) := run_steps md5_hex drv aiClient steps i flowPath config context st in
  totalSteps (hybridStats st') + successes (hybridStats st)
  = totalSteps (hybridStats st) + successes (hybridStats st')
    + (if is_done r then 0 else 1)
  /\ totalSteps (hybridStats st') <= totalSteps (hybridStats st) + length steps
  /\ (is_done r = true ->
      totalSteps (hybridStats st') = totalSteps (hybridStats st) + length steps)
  /\ successes (hybridStats st) <= successes (hybridStats st').
Proof.
  revert i st. induction steps as [|step rest IH]; intros i st; simpl.
  - split_and!; try done; lia.
  - unfold mbind, M_bind, bind.
    destruct (executeStepHybrid_summary md5_hex drv aiClient step (S i) flowPath config
                context st)
      as (st1 & r1 & d & -> & Hat & Hfl & Hts & Hds & Hls & Has & Hsu & _).
    destruct r1 as [e|[]]; simpl in Hsu.
    + simpl. split_and!; try done; lia.
    + specialize (IH (S i) st1).
      destruct (run_steps _ _ _ _ _ _ _ _ _) as [st2 r2].
      destruct IH as (H1 & H2 & H3 & H4).
      split_and!; try lia. intros Hd. specialize (H3 Hd). lia.
Qed.

(** The counters after a flow: every step that was counted was resolved by
    one tier, except the step whose failure ended the flow; a flow that
    passed counted each of its steps and resolved each of them. *)
Theorem executeFlow_accounting flowPath config st :
  let '(st', result) := executeFlow md5_hex drv aiClient flowPath config st in
  exists failed,
    failed <= 1
    /\ totalSteps (hybridStats st') + successes (hybridStats st)
       = totalSteps (hybridStats st) + successes (hybridStats st') + failed
    /\ successes (hybridStats st) <= successes (hybridStats st')
    /\ (res_status result = "passed" -> failed = 0 /\ res_error result = None)
    /\ (res_status result = "passed" \/ res_status result = "failed")
    /\ (forall flow steps,
          getFlowByPath flowPath (flowsData st) = Some (NFlow flow) ->
          flow_steps flow = Some steps ->
          totalSteps (hybridStats st') <= totalSteps (hybridStats st) + length steps
          /\ (res_status result = "passed" ->
              totalSteps (hybridStats st') = totalSteps (hybridStats st) + length steps
              /\ successes (hybridStats st')
                 = successes (hybridStats st) + length steps)).
Proof.
  unfold executeFlow.
  set (st0 := with_screenshots (fun _ => []) st).
  assert (Hbody :
    let '(st1, r) := flow_body md5_hex drv aiClient flowPath config st0 in
    totalSteps (hybridStats st1) + successes (hybridStats st)
    = totalSteps (hybridStats st) + successes (hybridStats st1)
      + (if is_done r then 0 else
           if bool_decide (totalSteps (hybridStats st1) = totalSteps (hybridStats st)
                           /\ successes (hybridStats st1) = successes (hybridStats st))
           then 0 else 1)
    /\ successes (hybridStats st) <= successes (hybridStats st1)
    /\ (forall flow steps,
          getFlowByPath flowPath (flowsData st) = Some (NFlow flow) ->
          flow_steps flow = Some steps ->
          totalSteps (hybridStats st1) <= totalSteps (hybridStats st) + length steps
          /\ (is_done r = true ->
              totalSteps (hybridStats st1) = totalSteps (hybridStats st) + length steps))).
  { unfold flow_body, mbind, M_bind, bind, get_state.
    change (flowsData st0) with (flowsData st).
    destruct (getFlowByPath flowPath (flowsData st)) as [node|] eqn:Hget.
    { pose proof (flow_steps_of_inner drv aiClient flowPath node st0) as Hin.
      assert (Hsteps : forall flow steps, node = NFlow flow -> flow_steps flow = Some steps ->
                flow_steps_of drv aiClient flowPath node st0 = (st0, inr (Some steps))).
      { intros flow steps -> Hs. unfold flow_steps_of. rewrite Hs. simpl.
        by rewrite andb_false_r. }
      destruct (flow_steps_of _ _ _ _ _) as [st1 [e|[[|step rest]|]]] eqn:Hfs;
        destruct Hin as (_ & Hst & _); cbn [fst] in Hst;
        change (hybridStats st0) with (hybridStats st) in Hst;
        cbn -[run_steps successes].
      - rewrite Hst. cbn [is_done]. rewrite bool_decide_eq_true_2 by done.
        split_and!; try lia.
      - rewrite Hst. cbn [is_done]. rewrite bool_decide_eq_true_2 by done.
        split_and!; try lia.
      - pose proof (run_steps_accounting (step :: rest) 0 flowPath config
                      {| ctx_flowPath := flowPath; ctx_url := cfg_url config;
                         ctx_pageType := classifyPage (cfg_url config) |} st1) as Hrun.
        destruct (run_steps _ _ _ _ _ _ _ _ _) as [st2 r2].
        rewrite Hst in Hrun. destruct Hrun as (H1 & H2 & H3 & H4).
        split_and!; [|done|].
        + destruct (is_done r2); [lia|]. rewrite bool_decide_eq_false_2; lia.
        + intros flow steps [= Hnode] Hs.
          pose proof (Hsteps flow steps Hnode Hs) as Heq. injection Heq as _ <-. done.
      - rewrite Hst. cbn [is_done]. rewrite bool_decide_eq_true_2 by done.
        split_and!; try lia. }
    simpl. rewrite bool_decide_eq_true_2 by done. split_and!; try lia. }
  destruct (flow_body _ _ _ _ _ _) as [st1 [message|[]]].
  - assert (Hshot : forall st2 shot,
              call (page_screenshot drv
                      (Some (path_join drv
                               [path_join drv [cfg_outputDir config; "screenshots"];
                                dots_to_underscores flowPath +:+ "_error.png"])) true) st1
              = (st2, shot) -> hybridStats st2 = hybridStats st1).
    { intros st2 shot. unfold call. destruct (page_screenshot _ _ _ _) as [e r].
      by intros [= <- _]. }
    destruct (call _ st1) as [st2 shot] eqn:Hcall. specialize (Hshot _ _ eq_refl).
    assert (Hst3 : hybridStats
                     (match shot with
                      | inr _ => with_screenshots
                                   (fun l => (l ++ [path_join drv
                                      [path_join drv [cfg_outputDir config; "screenshots"];
                                       dots_to_underscores flowPath +:+ "_error.png"]])%list)
                                   st2
                      | inl _ => st2
                      end) = hybridStats st1) by by destruct shot.
    cbv zeta. rewrite Hst3. simpl in Hbody. destruct Hbody as (H1 & H2 & H3).
    eexists. split_and!; [|exact H1|done|done|by right|].
    + case_bool_decide; lia.
    + intros flow steps Hg Hs. destruct (H3 flow steps Hg Hs) as [H4 _]. split; [done|done].
  - simpl in Hbody. destruct Hbody as (H1 & H2 & H3).
    exists 0. split_and!; [lia|lia|done|done|by left|].
    intros flow steps Hg Hs. destruct (H3 flow steps Hg Hs) as [H4 H5].
    split; [done|]. intros _. specialize (H5 eq_refl). split; [done|lia].
Qed.
End FlowFacts.

(** ** Steps with an unknown action *)

Section StepErrors.
Context {Env Element : Type}.
Variable md5_hex : string -> string.
Variable drv : Driver Env Element.
Variable aiClient : bool.
Implicit Types st : State Env.

Ltac run_calls :=
  repeat (simpl;
          match goal with
          | |- context [call ?f ?st] =>
              let e := fresh "e" in let r := fresh "r" in
              unfold call at 1; destruct (f (env st)) as [e [r|r]]
          end); simpl.

Lemma executeAction_unsupported action selector value step :
  action ∉ supported_actions ->
  executeAction drv action selector value step = throw ("Unsupported action: " +:+ action).
Proof.
  intros Hno. unfold supported_actions in Hno.
  repeat (apply not_elem_of_cons in Hno as [? Hno]).
  unfold executeAction. by rewrite !bool_decide_eq_false_2 by done.
Qed.

Lemma executeWithAI_unsupported step context st :
  action step ∉ supported_actions ->
  forall sel conf, (executeWithAI drv step context st).2 <> inr (AiSuccess sel conf).
Proof.
  intros Hno sel conf. unfold executeWithAI, getSimplifiedDOM.
  unfold mbind, M_bind, bind, try_catch, get_state, mret, M_ret, ret.
  unfold call at 1. destruct (page_screenshot _ _ _ _) as [e1 [r1|r1]]; [done|].
  cbn beta iota.
  unfold call at 1. cbn [env].
  destruct (page_simplifiedDOM drv e1) as [e2 [r2|r2]]; cbn beta iota.
  - unfold call at 1. cbn [env]. destruct (ai_create _ _ _ _ _ _ _ _) as [e3 [r3|r3]];
      [done|]. cbn beta iota. destruct r3 as [| |msg|sel' conf']; try done.
    rewrite executeAction_unsupported by done. done.
  - unfold call at 1. cbn [env]. destruct (ai_create _ _ _ _ _ _ _ _) as [e3 [r3|r3]];
      [done|]. cbn beta iota. destruct r3 as [| |msg|sel' conf']; try done.
    rewrite executeAction_unsupported by done. done.
Qed.

Lemma learned_tier_unsupported step context value st :
  action step ∉ supported_actions ->
  exists st',
    learned_tier md5_hex drv step context value st
    = (st', match findLearnedSolution md5_hex step context (knowledgeBase st) with
            | inl e => inl e
            | inr _ => inr false
            end)
    /\ hybridStats st' = hybridStats st
    /\ knowledgeBase st'
       = match findLearnedSolution md5_hex step context (knowledgeBase st) with
         | inr (Some solution) => recordFailure (sol_id solution) (knowledgeBase st)
         | _ => knowledgeBase st
         end.
Proof.
  intros Hno. unfold learned_tier.
  unfold mbind, M_bind, bind, get_state, modify.
  destruct (findLearnedSolution _ _ _ _) as [e|[sol|]] eqn:Hfind.
  - by eexists.
  - rewrite executeAction_unsupported by done.
    unfold try_catch, throw, mret, M_ret, ret. by eexists.
  - by eexists.
Qed.

Lemma ai_tier_unsupported step config context st :
  action step ∉ supported_actions ->
  exists st',
    ai_tier md5_hex drv aiClient step config context st = (st', inr false)
    /\ knowledgeBase st' = knowledgeBase st
    /\ totalSteps (hybridStats st') = totalSteps (hybridStats st)
    /\ successes (hybridStats st') = successes (hybridStats st).
Proof.
  intros Hno. unfold ai_tier. destruct (_ && _); [|by eexists].
  unfold mbind, M_bind, bind, try_catch, modify, mret, M_ret, ret, get_state.
  pose proof (executeWithAI_unsupported step context st Hno) as Hnot.
  destruct (executeWithAI _ _ _ _) as [st5 [e|[sel conf|err]]] eqn:Hrun;
    apply executeWithAI_frame in Hrun as (Hkb & Hst & _).
  - eexists. split; [done|]. simpl. by rewrite Hkb, Hst.
  - by destruct (Hnot sel conf).
  - eexists. split; [done|]. simpl. by rewrite Hkb, Hst.
Qed.

(** A step whose action [executeAction] does not know fails in every tier:
    the resolver reports that all methods failed, not that the action is
    unsupported (or it ends with the TypeError of the lookup, when that
    throws); the step is counted and no tier resolves it; a solution that
    the lookup returned for it has a failure recorded. *)
Theorem unsupported_action_fails step n flowPath config context st :
  action step ∉ supported_actions ->
  exists st',
    executeStepHybrid md5_hex drv aiClient step n flowPath config context st
    = (st', inl (match findLearnedSolution md5_hex step context (knowledgeBase st) with
                 | inl typeError => typeError
                 | inr _ => "All execution methods failed for step: " +:+ action step
                 end))
    /\ totalSteps (hybridStats st') = S (totalSteps (hybridStats st))
    /\ successes (hybridStats st') = successes (hybridStats st)
    /\ knowledgeBase st'
       = match findLearnedSolution md5_hex step context (knowledgeBase st) with
         | inr (Some solution) => recordFailure (sol_id solution) (knowledgeBase st)
         | _ => knowledgeBase st
         end.
Proof.
  intros Hno.
  assert (Hn : action step <> "navigate").
  { intros H. apply Hno. rewrite H. unfold supported_actions. set_solver. }
  assert (Hs : action step <> "screenshot").
  { intros H. apply Hno. rewrite H. unfold supported_actions. set_solver. }
  unfold executeStepHybrid. rewrite !bool_decide_eq_false_2 by done.
  rewrite executeAction_unsupported by done.
  unfold mbind, M_bind, bind, modify, try_catch, throw, mret, M_ret, ret.
  set (st2 := note_attempt Deterministic false (with_stats inc_totalSteps st)).
  destruct (learned_tier_unsupported step context
              (Hybrid.replaceParams (js_or (value step) "") (runner_params config)) st2 Hno)
    as (st3 & -> & Hst3 & Hkb3).
  change (knowledgeBase st2) with (knowledgeBase st) in *.
  destruct (findLearnedSolution md5_hex step context (knowledgeBase st)) as [e|found].
  - exists st3. split; [done|]. by rewrite Hst3, Hkb3.
  - destruct (ai_tier_unsupported step config context st3 Hno)
      as (st4 & -> & Hkb4 & Hts4 & Hsu4).
    exists st4. split; [done|]. rewrite Hkb4, Hts4, Hsu4, Hst3, Hkb3. done.
Qed.
End StepErrors.

(** ** Flows that generate their steps or cannot start *)

Lemma walk_path_value parts : parts <> [] -> walk_path parts NValue = None.
Proof. by destruct parts. Qed.

Lemma walk_assign parts new data f :
  parts <> [] ->
  walk_path parts data = Some (NFlow f) ->
  walk_path parts (assign_path parts new data) = Some new.
Proof.
  revert data. induction parts as [|p parts IH]; intros data Hne Hwalk; [done|].
  destruct parts as [|p2 parts].
  - simpl in Hwalk |- *. destruct data as [children|g|]; simpl in *.
    + by rewrite jsmap_get_set_eq.
    + repeat case_bool_decide; repeat case_match; simplify_eq.
    + done.
  - cbn [walk_path] in Hwalk. destruct data as [children|g|].
    + cbn [node_field] in Hwalk. destruct (jsmap_get p children) as [next|] eqn:Hget; [|done].
      change (assign_path (p :: p2 :: parts) new (NGroup children))
        with (match jsmap_get p children with
              | Some next => NGroup (jsmap_set p (assign_path (p2 :: parts) new next) children)
              | None => NGroup children
              end).
      rewrite Hget. cbn [walk_path node_field]. rewrite jsmap_get_set_eq.
      apply IH; done.
    + exfalso. destruct (node_field p (NFlow g)) as [next|] eqn:Hf; [|done].
      assert (next = NValue) as ->.
      { simpl in Hf. repeat case_bool_decide; repeat case_match; simplify_eq; done. }
      simpl in Hwalk. done.
    + done.
Qed.

Lemma split_dots_nonempty s : split_dots s <> [].
Proof.
  induction s as [|c s IH]; simpl; [done|].
  case_bool_decide; [done|]. by destruct (split_dots s).
Qed.

Lemma own_walk_walk parts data node :
  own_walk parts data = Some node -> walk_path parts data = Some node.
Proof.
  revert data. induction parts as [|p parts IH]; intros data; simpl; [done|].
  destruct data as [children|f|]; try done. simpl.
  destruct (jsmap_get p children) as [next|]; [apply IH|done].
Qed.

Lemma path_missing_walk parts data :
  path_missing parts data -> walk_path parts data = None.
Proof.
  revert data. induction parts as [|p parts IH]; intros data; simpl; [done|].
  destruct data as [children|f|]; try done. simpl.
  destruct (jsmap_get p children) as [next|]; [apply IH|done].
Qed.

Section FlowLookup.
Context {Env Element : Type}.
Variable md5_hex : string -> string.
Variable drv : Driver Env Element.
Variable aiClient : bool.
Implicit Types st : State Env.

Lemma run_steps_flows steps i flowPath config context st :
  flowsData (run_steps md5_hex drv aiClient steps i flowPath config context st).1
  = flowsData st.
Proof.
  revert i st. induction steps as [|step rest IH]; intros i st; simpl; [done|].
  unfold mbind, M_bind, bind.
  destruct (executeStepHybrid_summary md5_hex drv aiClient step (S i) flowPath config
              context st) as (st1 & r1 & d & -> & _ & Hfl & _).
  destruct r1 as [e|[]]; simpl; [done|]. by rewrite IH.
Qed.

(** The steps generated for a flow that has a prompt and no steps are
    stored in the flows data under the path of the flow, so that the next
    run of the flow finds its steps and does not generate them again. *)
Theorem generated_steps_are_stored flowPath config st flow steps e' :
  getFlowByPath flowPath (flowsData st) = Some (NFlow flow) ->
  truthy (flow_prompt flow) = true ->
  flow_steps flow = None ->
  aiClient = true ->
  ai_generateSteps drv (default "" (flow_prompt flow)) (env st) = (e', inr steps) ->
  let st' := (executeFlow md5_hex drv aiClient flowPath config st).1 in
  let stored := {| flow_name := flow_name flow; flow_prompt := flow_prompt flow;
                   flow_steps := Some steps |} in
  getFlowByPath flowPath (flowsData st') = Some (NFlow stored)
  /\ forall st2, flow_steps_of drv aiClient flowPath (NFlow stored) st2
                 = (st2, inr (Some steps)).
Proof.
  intros Hget Hprompt Hsteps Hai Hgen. cbv zeta. split.
  - unfold executeFlow.
    assert (Hbody :
      getFlowByPath flowPath
        (flowsData (flow_body md5_hex drv aiClient flowPath config
                      (with_screenshots (fun _ => []) st)).1)
      = Some (NFlow {| flow_name := flow_name flow; flow_prompt := flow_prompt flow;
                       flow_steps := Some steps |})).
    { unfold flow_body. unfold mbind at 1, M_bind at 1, bind at 1, get_state at 1.
      cbn beta iota. change (flowsData (with_screenshots _ st)) with (flowsData st).
      rewrite Hget. unfold mbind at 1, M_bind at 1, bind at 1.
      unfold flow_steps_of. rewrite Hprompt, Hsteps.
      replace (negb aiClient) with false by (by rewrite Hai).
      rewrite bool_decide_eq_false_2 by (by intros [? ?]). cbn [andb negb].
      unfold mbind at 1, M_bind at 1, bind at 1, call at 1.
      change (env (with_screenshots _ st)) with (env st). rewrite Hgen. cbn beta iota.
      unfold mbind at 1, M_bind at 1, bind at 1, modify at 1. cbn beta iota.
      unfold mret at 1, M_ret at 1, ret at 1. cbn beta iota.
      assert (Hstored : forall st2, flowsData st2
                = assign_path (split_dots flowPath)
                    (NFlow {| flow_name := flow_name flow; flow_prompt := flow_prompt flow;
                              flow_steps := Some steps |}) (flowsData st) ->
                getFlowByPath flowPath (flowsData st2) = Some
                    (NFlow {| flow_name := flow_name flow; flow_prompt := flow_prompt flow;
                              flow_steps := Some steps |})).
      { intros st2 ->. unfold getFlowByPath. eapply walk_assign; [|exact Hget].
        apply split_dots_nonempty. }
      destruct steps as [|step rest]; cbn beta iota; [by apply Hstored|].
      apply Hstored. by rewrite run_steps_flows. }
    destruct (flow_body _ _ _ _ _ _) as [st1 [message|[]]]; cbn [fst] in Hbody |- *;
      [|done].
    unfold call. destruct (page_screenshot _ _ _ _) as [e [r|r]]; simpl; done.
  - intros st2. unfold flow_steps_of. cbn [flow_prompt flow_steps].
    rewrite bool_decide_eq_true_2 by by eexists. by rewrite andb_false_r.
Qed.

(** A flow that cannot start: the path leaves the groups at a part that is
    no member of the group reached, own or inherited; the flow has no step
    (or the path stops at a group, one without a member called steps or
    prompt); or it has only a prompt and there is no AI client. The flow
    fails with the message of the case, no step is counted and the knowledge
    base is not used. *)
Theorem executeFlow_cannot_start flowPath config st :
  let '(st', result) := executeFlow md5_hex drv aiClient flowPath config st in
  let failed_with msg :=
    res_status result = "failed" /\ res_error result = Some msg
    /\ inner_eq st st' /\ flowsData st' = flowsData st
    /\ res_screenshots result = screenshots st'
    /\ length (screenshots st') <= 1 in
  (path_missing (split_dots flowPath) (flowsData st) ->
   failed_with ("Flow not found: " +:+ flowPath))
  /\ (forall children,
        own_walk (split_dots flowPath) (flowsData st) = Some (NGroup children) ->
        jsmap_get "steps" children = None -> jsmap_get "prompt" children = None ->
        failed_with "Flow has no steps")
  /\ (forall flow,
        getFlowByPath flowPath (flowsData st) = Some (NFlow flow) ->
        (flow_steps flow = Some [] ->
         failed_with "Flow has no steps")
        /\ (flow_steps flow = None -> truthy (flow_prompt flow) = false ->
            failed_with "Flow has no steps")
        /\ (flow_steps flow = None -> truthy (flow_prompt flow) = true ->
            aiClient = false ->
            failed_with "AI client required for prompt-based flows. Set ANTHROPIC_API_KEY.")).
Proof.
  unfold executeFlow.
  set (st0 := with_screenshots (fun _ => []) st).
  destruct (flow_body md5_hex drv aiClient flowPath config st0) as [st1 r] eqn:Hbody.
  assert (Hcases :
    (getFlowByPath flowPath (flowsData st) = None ->
     (st1, r) = (st0, inl ("Flow not found: " +:+ flowPath)))
    /\ (forall children,
          getFlowByPath flowPath (flowsData st) = Some (NGroup children) ->
          (st1, r) = (st0, inl "Flow has no steps"))
    /\ (forall flow,
          getFlowByPath flowPath (flowsData st) = Some (NFlow flow) ->
          (flow_steps flow = Some [] -> (st1, r) = (st0, inl "Flow has no steps"))
          /\ (flow_steps flow = None -> truthy (flow_prompt flow) = false ->
              (st1, r) = (st0, inl "Flow has no steps"))
          /\ (flow_steps flow = None -> truthy (flow_prompt flow) = true ->
              aiClient = false ->
              (st1, r) = (st0, inl "AI client required for prompt-based flows. Set ANTHROPIC_API_KEY.")))).
  { rewrite <- Hbody. unfold flow_body, mbind, M_bind, bind, get_state.
    change (flowsData st0) with (flowsData st).
    split_and!.
    - intros H. by rewrite H.
    - intros children H. by rewrite H.
    - intros flow H. rewrite H. unfold flow_steps_of. split_and!.
      + intros Hs. rewrite Hs. simpl. by rewrite andb_false_r.
      + intros Hs Hp. by rewrite Hs, Hp.
      + intros Hs Hp Hc. by rewrite Hs, Hp, Hc. }
  destruct Hcases as (H1 & H2 & H3).
  assert (Hall : forall msg, (st1, r) = (st0, inl msg) ->
    let '(st', result) :=
      match r with
      | inl message =>
          let screenshotDir := path_join drv [cfg_outputDir config; "screenshots"] in
          let errorScreenshot :=
            path_join drv [screenshotDir; dots_to_underscores flowPath +:+ "_error.png"] in
          let (st2, shot) := call (page_screenshot drv (Some errorScreenshot) true) st1 in
          let st3 := match shot with
                     | inr _ => with_screenshots (fun l => (l ++ [errorScreenshot])%list) st2
                     | inl _ => st2
                     end in
          (st3, {| res_flowPath := flowPath; res_status := "failed";
                   res_error := Some message; res_screenshots := screenshots st3 |})
      | inr _ =>
          (st1, {| res_flowPath := flowPath; res_status := "passed"; res_error := None;
                   res_screenshots := screenshots st1 |})
      end in
    res_status result = "failed" /\ res_error result = Some msg
    /\ inner_eq st st' /\ flowsData st' = flowsData st
    /\ res_screenshots result = screenshots st'
    /\ length (screenshots st') <= 1).
  { intros msg [= -> ->]. cbv zeta. unfold call.
    destruct (page_screenshot _ _ _ _) as [e [r|r]]; simpl; split_and!; try done; lia. }
  destruct r as [message|[]].
  - cbv zeta in Hall |- *.
    destruct (call _ st1) as [st2 shot].
    split_and!.
    + intros Hg. apply path_missing_walk in Hg. by apply (Hall _ (H1 Hg)).
    + intros children Hg _ _. apply own_walk_walk in Hg. by apply (Hall _ (H2 _ Hg)).
    + intros flow Hg. destruct (H3 flow Hg) as (Ha & Hb & Hc). split_and!.
      * intros Hs. by apply (Hall _ (Ha Hs)).
      * intros Hs Hp. by apply (Hall _ (Hb Hs Hp)).
      * intros Hs Hp Hc'. by apply (Hall _ (Hc Hs Hp Hc')).
  - split_and!.
    + intros Hg. apply path_missing_walk in Hg. by specialize (H1 Hg).
    + intros children Hg _ _. apply own_walk_walk in Hg. by specialize (H2 _ Hg).
    + intros flow Hg. destruct (H3 flow Hg) as (Ha & Hb & Hc). split_and!.
      * intros Hs. by specialize (Ha Hs).
      * intros Hs Hp. by specialize (Hb Hs Hp).
      * intros Hs Hp Hc'. by specialize (Hc Hs Hp Hc').
Qed.
End FlowLookup.

(** ** Paths and page types *)

Section PathFacts.
#[local] Arguments String.append !_ _ / : simpl nomatch.

Lemma split_dots_no_dot s : "."%char ∉ chars s -> split_dots s = [s].
Proof.
  induction s as [|c s IH]; simpl; [done|]. intros H.
  apply not_elem_of_cons in H as [Hc Hs].
  rewrite bool_decide_eq_false_2 by congruence. by rewrite IH.
Qed.

Lemma split_dots_app a b :
  "."%char ∉ chars a -> split_dots (a +:+ String "."%char b) = a :: split_dots b.
Proof.
  induction a as [|c a IH]; simpl; [done|]. intros H.
  apply not_elem_of_cons in H as [Hc Ha].
  rewrite bool_decide_eq_false_2 by congruence. by rewrite IH.
Qed.

Lemma split_dots_join s : String.concat "." (split_dots s) = s.
Proof.
  induction s as [|c s IH]; simpl; [done|].
  case_bool_decide as Hc.
  - subst c. assert (Hne : split_dots s <> []) by (clear; induction s as [|c s IH]; simpl; [done|]; case_bool_decide; [done|]; by destruct (split_dots s)).
    destruct (split_dots s) as [|p ps] eqn:Hs; [done|]. simpl in IH |- *.
    by rewrite IH.
  - destruct (split_dots s) as [|p ps] eqn:Hs; simpl in *; [by subst|].
    destruct ps; simpl in *; by rewrite <- IH.
Qed.

Lemma split_dots_concat parts :
  parts <> [] -> Forall (fun p => "."%char ∉ chars p) parts ->
  split_dots (String.concat "." parts) = parts.
Proof.
  induction parts as [|p parts IH]; [done|]. intros _ Hparts.
  apply Forall_cons in Hparts as [Hp Hparts].
  destruct parts as [|q parts].
  - simpl. by apply split_dots_no_dot.
  - change (String.concat "." (p :: q :: parts))
      with (p +:+ String "."%char (String.concat "." (q :: parts))).
    rewrite split_dots_app by done. by rewrite IH.
Qed.

(** A dotted path is followed one part at a time through the members of
    the groups: the path made of parts without a dot, joined by dots, leads
    to the node that the parts lead to through the children of the groups,
    and to nothing when they leave the groups at a part that is no member,
    own or inherited, of the group reached. Splitting the joined path gives
    the parts back. *)
Theorem getFlowByPath_dotted parts data :
  parts <> [] ->
  Forall (fun p => "."%char ∉ chars p) parts ->
  split_dots (String.concat "." parts) = parts
  /\ (forall node, own_walk parts data = Some node ->
        getFlowByPath (String.concat "." parts) data = Some node)
  /\ (path_missing parts data -> getFlowByPath (String.concat "." parts) data = None).
Proof.
  intros Hne Hparts. pose proof (split_dots_concat parts Hne Hparts) as Hsplit.
  unfold getFlowByPath. rewrite Hsplit. split_and!.
  - done.
  - intros node. apply own_walk_walk.
  - apply path_missing_walk.
Qed.

(** The tool follows a path of a category and a flow name through the two
    levels of the flows and takes the flow when it has steps; the first part
    of the path, which names the directory of the screenshots, is the
    category. *)
Theorem find_flow_two_levels category name children :
  "."%char ∉ chars category ->
  "."%char ∉ chars name ->
  FlowTool.find_flow (category +:+ "." +:+ name) (FlowTool.Group children)
  = match jsmap_get category children with
    | Some (FlowTool.Group flows) =>
        match jsmap_get name flows with
        | Some (FlowTool.Leaf flow) =>
            match FlowTool.steps flow with
            | Some l => Some (flow, l)
            | None => None
            end
        | _ => None
        end
    | _ => None
    end
  /\ FlowTool.first_part (category +:+ "." +:+ name) = category.
Proof.
  intros Hc Hn. split_and!.
  - unfold FlowTool.find_flow. change ("." +:+ name) with (String "."%char name).
    rewrite split_dots_app, split_dots_no_dot by done. simpl.
    destruct (jsmap_get category children) as [[flows|flow]|]; try done.
  - unfold FlowTool.first_part. change ("." +:+ name) with (String "."%char name).
    by rewrite split_dots_app.
Qed.
End PathFacts.

Section PageFacts.
#[local] Arguments String.append !_ _ / : simpl nomatch.

Lemma prefix_append p b : String.prefix p (p +:+ b) = true.
Proof.
  induction p as [|c p IH]; simpl; [by destruct b|].
  destruct (Ascii.ascii_dec c c); [done|done].
Qed.

Lemma indexOf_prefix p s : String.prefix p s = true -> indexOf p s = Some 0.
Proof. intros H. destruct s; cbn [indexOf]; by rewrite H. Qed.

Lemma includes_app p a b : includes p (a +:+ p +:+ b) = true.
Proof.
  unfold includes. apply bool_decide_eq_true_2.
  induction a as [|c a IH].
  - change ("" +:+ p +:+ b) with (p +:+ b).
    rewrite indexOf_prefix; [by eexists|apply prefix_append].
  - change (String c a +:+ p +:+ b) with (String c (a +:+ p +:+ b)).
    cbn [indexOf]. destruct (String.prefix p (String c (a +:+ p +:+ b))); [done|].
    destruct IH as [i ->]. by eexists.
Qed.

Lemma includes_no_first c p u : c ∉ chars u -> includes (String c p) u = false.
Proof.
  intros Hc. unfold includes. apply bool_decide_eq_false_2. intros [i Hi].
  revert i Hi. induction u as [|a u IH]; intros i Hi; simpl in Hi; [done|].
  apply not_elem_of_cons in Hc as [Hca Hcu].
  destruct (Ascii.ascii_dec c a) as [->|_]; [done|].
  destruct (indexOf (String c p) u) as [j|] eqn:Hj; [|done]. by eapply IH.
Qed.

(** An address that holds the text /login anywhere is an authentication
    page, whatever else it holds; an address without a slash is a general
    page; and the page type is always one of the five. *)
Theorem classifyPage_cases :
  (forall a b, classifyPage (a +:+ "/login" +:+ b) = "authentication")
  /\ (forall url, "/"%char ∉ chars url -> classifyPage url = "general")
  /\ (forall url,
        classifyPage url
        ∈ ["authentication"; "dashboard"; "call-management"; "appointments"; "general"]).
Proof.
  split_and!.
  - intros a b. unfold classifyPage. by rewrite includes_app.
  - intros url H. unfold classifyPage. by rewrite !includes_no_first.
  - intros url. unfold classifyPage. repeat case_match; set_solver.
Qed.
End PageFacts.

(** ** Selectors in parts *)

Section SelectorPieces.
#[local] Arguments String.append !_ _ / : simpl nomatch.

Lemma match_contains_other c r : c <> ":"%char -> match_contains (String c r) = None.
Proof.
  intros H. unfold match_contains. simpl. rewrite bool_decide_eq_false_2; [done|congruence].
Qed.

Lemma match_first_child_other c r : c <> ":"%char -> match_first_child (String c r) = None.
Proof.
  intros H. unfold match_first_child. simpl.
  rewrite bool_decide_eq_false_2; [done|congruence].
Qed.

Lemma starts_other p c q r : c <> p -> starts (String p q) (String c r) = None.
Proof.
  intros H. unfold starts. simpl. destruct (Ascii.ascii_dec p c); [congruence|done].
Qed.

Lemma colon_free_inert (m : Matcher) t rest :
  (forall c r, c <> ":"%char -> m (String c r) = None) ->
  ":"%char ∉ chars t -> fails_within m t rest.
Proof.
  intros Hm. induction t as [|c t IH]; simpl; [done|]. intros H.
  apply not_elem_of_cons in H as [Hc Ht]. split; [|by apply IH].
  apply Hm. congruence.
Qed.

Lemma match_contains_token q1 q2 x rest :
  is_quote q1 = true -> is_quote q2 = true ->
  x <> "" -> Forall (fun c => negb (is_quote c) = true) (chars x) ->
  match_contains (sel_render (SelContains q1 q2 x) +:+ rest)
  = Some (x, String.length (sel_render (SelContains q1 q2 x))).
Proof.
  intros H1 H2 Hne Hx. unfold match_contains. simpl. rewrite H1.
  rewrite append_assoc. simpl. rewrite span_stop; [|done|by rewrite H2].
  destruct x as [|a x]; [done|]. simpl. rewrite H2. simpl.
  rewrite length_append. simpl. do 3 f_equal. lia.
Qed.

Lemma first_child_inert_contains rest :
  fails_within match_contains ":first-child" rest.
Proof. simpl. unfold match_contains. simpl. repeat split. Qed.

Lemma contains_segs_ok ps :
  Forall sel_ok ps -> Forall (seg_ok match_contains) (map contains_seg ps).
Proof.
  induction 1 as [|p ps Hp Hps IH]; [done|]. cbn [map]. constructor; [|done].
  destruct p as [t| |q1 q2 x]; cbn [contains_seg seg_ok sel_render].
  - intros rest. apply colon_free_inert; [apply match_contains_other|done].
  - intros rest. apply first_child_inert_contains.
  - destruct Hp as (H1 & H2 & Hne & Hx). split; [done|].
    intros rest. by apply match_contains_token.
Qed.

Lemma sel_render_segs (f : SelPiece -> Seg) ps :
  (forall p, (f p).1 = sel_render p) ->
  sel_with sel_render ps = seg_in (map f ps).
Proof.
  intros Hf. induction ps as [|p ps IH]; simpl; [done|].
  rewrite IH. specialize (Hf p). destruct (f p) as [t g]. simpl in Hf. by rewrite Hf.
Qed.

Lemma contains_out ps :
  seg_out Hybrid.has_text (map contains_seg ps) = sel_with hybrid_sel ps.
Proof.
  induction ps as [|[t| |q1 q2 x] ps IH]; simpl; [done| | |]; by rewrite IH.
Qed.

Lemma prefix_other p q c r : c <> p -> String.prefix (String p q) (String c r) = false.
Proof. intros H. simpl. destruct (Ascii.ascii_dec p c); [congruence|done]. Qed.

Lemma append_cons c t r : String c t +:+ r = String c (t +:+ r).
Proof. done. Qed.

Lemma hybrid_out_prefix ps :
  Forall sel_ok ps -> String.prefix ":contains(" (sel_with hybrid_sel ps) = false.
Proof.
  induction 1 as [|[t| |q1 q2 x] ps Hp Hps IH]; [done| |done|done].
  cbn [sel_with hybrid_sel sel_render].
  destruct t as [|c t]; [done|]. cbn [sel_ok chars] in Hp.
  apply not_elem_of_cons in Hp as [Hc _].
  rewrite append_cons. apply prefix_other. congruence.
Qed.

Lemma append_eq_nil s t : s +:+ t = "" -> s = "" /\ t = "".
Proof. by destruct s. Qed.

Lemma render_empty ps : sel_with sel_render ps = "" -> sel_with hybrid_sel ps = "".
Proof.
  induction ps as [|[t| |q1 q2 x] ps IH]; simpl; [done| |done|done].
  intros H. apply append_eq_nil in H as [-> H]. by apply IH.
Qed.

(** The hybrid runner turns every contains of a selector into a has-text,
    with the text in double quotes, and leaves everything else, before,
    between and after them, as it is. No selector of this form becomes a
    text selector. *)
Theorem hybrid_convertSelector_parts ps :
  Forall sel_ok ps ->
  Hybrid.convertSelector (sel_with sel_render ps) = sel_with hybrid_sel ps.
Proof.
  intros Hok. unfold Hybrid.convertSelector.
  case_bool_decide as He; [by rewrite He, render_empty|].
  rewrite (sel_render_segs contains_seg) by by intros [].
  rewrite replace_segments by by apply contains_segs_ok.
  rewrite contains_out. by rewrite hybrid_out_prefix.
Qed.

Lemma indexOf_inert p t rest :
  fails_within (starts p) t rest ->
  indexOf p (t +:+ rest) = (fun i => String.length t + i) <$> indexOf p rest.
Proof.
  induction t as [|c t IH]; intros H.
  - cbn [String.append String.length]. by destruct (indexOf p rest).
  - destruct H as [Hc Ht]. rewrite append_cons in Hc |- *. cbn [indexOf].
    unfold starts in Hc. destruct (String.prefix p (String c (t +:+ rest))); [done|].
    rewrite (IH Ht). by destruct (indexOf p rest).
Qed.

Lemma search_inert (m : Matcher) t rest :
  fails_within m t rest ->
  search m (t +:+ rest)
  = (fun r : nat * string * nat => (String.length t + r.1.1, r.1.2, r.2)) <$> search m rest.
Proof.
  induction t as [|c t IH]; intros H.
  - cbn [String.append String.length]. by destruct (search m rest) as [[[i g] l]|].
  - destruct H as [Hc Ht]. rewrite append_cons in Hc |- *. cbn [search].
    rewrite Hc, (IH Ht). by destruct (search m rest) as [[[i g] l]|].
Qed.

Lemma search_here (m : Matcher) s g l : m s = Some (g, l) -> search m s = Some (0, g, l).
Proof. intros H. destruct s; cbn [search]; by rewrite H. Qed.

Lemma fails_within_app (m : Matcher) a b rest :
  fails_within m a (b +:+ rest) -> fails_within m b rest ->
  fails_within m (a +:+ b) rest.
Proof.
  induction a as [|c a IH]; intros Ha Hb; [done|].
  destruct Ha as [Hc Ha]. rewrite append_cons. split.
  - rewrite append_cons, append_assoc. by rewrite append_cons in Hc.
  - by apply IH.
Qed.

(** The parts before the first contains hold no match of [m]. *)
Lemma parts_inert (m : Matcher) ps rest :
  (forall c r, c <> ":"%char -> m (String c r) = None) ->
  (forall r, fails_within m ":first-child" r) ->
  Forall sel_ok ps -> existsb is_contains ps = false ->
  fails_within m (sel_with sel_render ps) rest.
Proof.
  intros Hother Hfirst Hok. revert rest.
  induction Hok as [|p ps Hp Hps IH]; intros rest Hno; [done|].
  cbn [existsb] in Hno. apply orb_false_iff in Hno as [Hpc Hno].
  cbn [sel_with]. apply fails_within_app; [|by apply IH].
  destruct p as [t| |q1 q2 x]; [|apply Hfirst|done].
  by apply colon_free_inert.
Qed.

Lemma split_first_contains ps :
  existsb is_contains ps = true ->
  exists pre q1 q2 x post,
    ps = (pre ++ SelContains q1 q2 x :: post)%list
    /\ existsb is_contains pre = false
    /\ tool_first ps = sel_with sel_render pre +:+ has_text_of x.
Proof.
  induction ps as [|p ps IH]; [done|]. cbn [existsb]. intros H.
  destruct p as [t| |q1 q2 x].
  - destruct (IH H) as (pre & q1 & q2 & x & post & -> & Hpre & Hout).
    exists (SelText t :: pre), q1, q2, x, post. split_and!; [done|done|].
    cbn [tool_first sel_with sel_render]. by rewrite Hout, append_assoc.
  - destruct (IH H) as (pre & q1 & q2 & x & post & -> & Hpre & Hout).
    exists (SelFirstChild :: pre), q1, q2, x, post. split_and!; [done|done|].
    cbn [tool_first sel_with sel_render]. by rewrite Hout, append_assoc.
  - by exists [], q1, q2, x, ps.
Qed.

Lemma sel_with_app f a b : sel_with f (a ++ b) = sel_with f a +:+ sel_with f b.
Proof. induction a as [|p a IH]; simpl; [done|]. by rewrite IH, append_assoc. Qed.

Lemma first_child_segs_ok ps :
  Forall sel_ok ps -> existsb is_contains ps = false ->
  Forall (seg_ok match_first_child) (map first_child_seg ps).
Proof.
  induction 1 as [|p ps Hp Hps IH]; [done|]. cbn [existsb map]. intros Hno.
  apply orb_false_iff in Hno as [Hpc Hno]. constructor; [|by apply IH].
  destruct p as [t| |q1 q2 x]; cbn [first_child_seg seg_ok sel_render]; [| |done].
  - intros rest. apply colon_free_inert; [apply match_first_child_other|done].
  - split; [done|]. intros rest. done.
Qed.

Lemma first_child_out ps :
  existsb is_contains ps = false ->
  seg_out (fun _ _ => ":nth-child(1)") (map first_child_seg ps) = sel_with tool_sel ps.
Proof.
  induction ps as [|[t| |q1 q2 x] ps IH]; cbn [existsb is_contains orb]; intros H;
    [done| | |done]; cbn [map first_child_seg seg_out sel_with tool_sel sel_render];
    by rewrite IH.
Qed.

(** The tool keeps what comes before the first contains of a selector as it
    is, turns that contains into a has-text and drops everything after it;
    a first-child before it is not rewritten. In a selector without a
    contains the tool rewrites every first-child to nth-child(1). *)
Theorem tool_convertSelector_parts ps :
  Forall sel_ok ps ->
  FlowTool.convertSelector (sel_with sel_render ps)
  = if existsb is_contains ps then tool_first ps else sel_with tool_sel ps.
Proof.
  intros Hok. unfold FlowTool.convertSelector.
  destruct (existsb is_contains ps) eqn:Hc.
  - destruct (split_first_contains ps Hc) as (pre & q1 & q2 & x & post & -> & Hpre & ->).
    apply Forall_app in Hok as [Hokpre Hokrest].
    apply Forall_cons in Hokrest as [(H1 & H2 & Hne & Hx) Hokpost].
    rewrite sel_with_app. cbn [sel_with].
    set (base := sel_with sel_render pre).
    set (token := sel_render (SelContains q1 q2 x)).
    set (rest := sel_with sel_render post).
    assert (Hinc : includes ":contains(" (base +:+ token +:+ rest) = true).
    { unfold token. cbn [sel_render]. rewrite !append_assoc. apply includes_app. }
    rewrite Hinc.
    assert (Hsearch : search match_contains (base +:+ token +:+ rest)
                      = Some (String.length base, x, String.length token)).
    { rewrite search_inert.
      - rewrite (search_here match_contains _ x (String.length token)).
        + simpl. by rewrite Nat.add_0_r.
        + by apply match_contains_token.
      - apply parts_inert; [apply match_contains_other
                           |apply first_child_inert_contains|done|done]. }
    rewrite Hsearch.
    assert (Hidx : indexOf ":contains" (base +:+ token +:+ rest) = Some (String.length base)).
    { rewrite indexOf_inert.
      - rewrite indexOf_prefix; [simpl; by rewrite Nat.add_0_r|].
        unfold token. cbn [sel_render]. done.
      - apply parts_inert; [|by intros r; simpl; repeat split|done|done].
        intros c r Hcr. by apply starts_other. }
    rewrite Hidx. cbn [default id]. by rewrite substring_append.
  - assert (Hinc : includes ":contains(" (sel_with sel_render ps) = false).
    { unfold includes. apply bool_decide_eq_false_2.
      rewrite <- (append_nil_r (sel_with sel_render ps)).
      rewrite indexOf_inert.
      - simpl. by intros [? ?].
      - apply parts_inert; [|by intros r; simpl; repeat split|done|done].
        intros c r Hcr. by apply starts_other. }
    rewrite Hinc.
    rewrite (sel_render_segs first_child_seg) by by intros [].
    rewrite replace_segments by by apply first_child_segs_ok.
    by apply first_child_out.
Qed.
End SelectorPieces.

(** ** The outcome of a run of the tool *)

Section ToolRun.
Context {Env : Type}.
Variable drv : FlowTool.Driver Env.
Implicit Types st : FlowTool.State Env.

Lemma tool_call_kept {A} (f : Ext Env A) : preserves tool_kept (FlowTool.call f).
Proof. intros st. unfold FlowTool.call. by destruct (f (FlowTool.env st)). Qed.

Ltac kept_step :=
  first
    [ apply preserves_ret
    | apply preserves_throw
    | apply preserves_get_state
    | apply tool_call_kept
    | apply preserves_bind; [|intros ?]
    | apply preserves_try; [|intros ?]
    | match goal with
      | |- preserves _ (if ?b then _ else _) => destruct b
      | |- preserves _ (match ?x with _ => _ end) => destruct x
      | |- preserves _ (let _ := _ in _) => cbv zeta
      end ].

Lemma check_kept ok msg : preserves tool_kept (FlowTool.check (Env := Env) ok msg).
Proof. unfold FlowTool.check. repeat kept_step. Qed.

Lemma or_else_kept {A} (f : Ext Env A) fallback :
  preserves tool_kept (FlowTool.or_else f fallback).
Proof. unfold FlowTool.or_else. repeat kept_step. Qed.

Lemma verify_checks_kept stepDef target selector :
  preserves tool_kept (FlowTool.verify_checks drv stepDef target selector).
Proof.
  unfold FlowTool.verify_checks.
  repeat first [apply check_kept | apply or_else_kept | kept_step].
Qed.

Lemma try_result_bind {A} shots (m : M (FlowTool.State Env) A)
    (k : A -> M (FlowTool.State Env) unit) :
  preserves tool_kept m ->
  (forall a st, try_result shots st (k a st).1 (k a st).2) ->
  forall st, try_result shots st ((m ≫= k) st).1 ((m ≫= k) st).2.
Proof.
  intros Hm Hk st. unfold mbind, M_bind, bind. specialize (Hm st).
  destruct (m st) as [st1 [e|a]]; cbn [fst snd] in *; [done|].
  specialize (Hk a st1). unfold try_result, tool_kept in *.
  injection Hm as Hlog Hshots Hfailed.
  destruct (k a st1) as [st2 [e|[]]]; cbn [fst snd] in *.
  - rewrite Hk. by rewrite Hlog, Hshots, Hfailed.
  - by rewrite <- Hlog, <- Hshots, <- Hfailed.
Qed.

Lemma step_try_result stepDef flowParams baseUrl screenshotDir shots st :
  try_result shots st
    (FlowTool.step_try drv stepDef flowParams baseUrl screenshotDir shots st).1
    (FlowTool.step_try drv stepDef flowParams baseUrl screenshotDir shots st).2.
Proof.
  revert st. unfold FlowTool.step_try. cbv zeta.
  apply try_result_bind; [apply tool_call_kept|]. intros _.
  apply try_result_bind.
  { repeat first [apply check_kept | apply verify_checks_kept | kept_step]. }
  intros _ st.
  destruct (shots && _) eqn:Hshots.
  - unfold mbind, M_bind, bind, get_state, FlowTool.push_screenshot, FlowTool.log, modify.
    unfold FlowTool.call. destruct (FlowTool.page_screenshot _ _ _ _) as [e [r|r]];
      cbn [fst snd try_result]; [done|].
    cbn [FlowTool.executionLog FlowTool.failedStep FlowTool.screenshots].
    split_and!; [done|done|]. right. apply andb_true_iff in Hshots as [-> _].
    split; [done|]. by eexists.
  - unfold mbind, M_bind, bind, FlowTool.log, modify, mret, M_ret, ret.
    cbn [fst snd try_result FlowTool.executionLog FlowTool.failedStep FlowTool.screenshots].
    split_and!; [done|done|by left].
Qed.

Lemma step_catch_result stepDef screenshotDir shots message st :
  let st' := (FlowTool.step_catch drv stepDef screenshotDir shots message st).1 in
  FlowTool.executionLog st'
  = (FlowTool.executionLog st ++ [FlowTool.StepFailed message])%list
  /\ FlowTool.failedStep st' = Some (FlowTool.step stepDef)
  /\ (FlowTool.screenshots st' = FlowTool.screenshots st
      \/ shots = true
         /\ exists p, FlowTool.screenshots st' = (FlowTool.screenshots st ++ [p])%list).
Proof.
  cbv zeta. unfold FlowTool.step_catch.
  unfold mbind, M_bind, bind, FlowTool.set_failedStep, FlowTool.log, modify, try_catch,
    get_state, FlowTool.push_screenshot, mret, M_ret, ret.
  cbn [fst snd]. destruct shots; [|by split_and!; [done|done|left]].
  unfold FlowTool.call. cbn [FlowTool.env].
  destruct (FlowTool.getPage drv (FlowTool.env st)) as [e1 [r1|r1]]; cbn [fst snd].
  - split_and!; [done|done|by left].
  - cbn [FlowTool.env].
    destruct (FlowTool.page_screenshot _ _ _ _) as [e2 [r2|r2]]; cbn [fst snd].
    + split_and!; [done|done|by left].
    + split_and!; [done|done|]. right. split; [done|]. by eexists.
Qed.

Lemma run_steps_log l flowParams baseUrl screenshotDir shots stop st :
  let st' := FlowTool.run_steps drv l flowParams baseUrl screenshotDir shots stop st in
  exists runs,
    FlowTool.executionLog st' = (FlowTool.executionLog st ++ log_of runs)%list
    /\ runs.*1 = FlowTool.step <$> take (length runs) l
    /\ length runs <= length l
    /\ FlowTool.failedStep st' = last_failed runs (FlowTool.failedStep st)
    /\ (stop = false -> length runs = length l)
    /\ (Forall (fun r => r.2 = None) runs -> length runs = length l)
    /\ (shots = false -> FlowTool.screenshots st' = FlowTool.screenshots st)
    /\ length (FlowTool.screenshots st') <= length (FlowTool.screenshots st) + length runs
    /\ (stop = true ->
        forall i n msg, runs !! i = Some (n, Some msg) -> S i < length runs ->
        exists s, l !! i = Some s /\ FlowTool.optional s = Some true).
Proof.
  cbv zeta. revert st. induction l as [|stepDef rest IH]; intros st.
  - exists []. cbn. rewrite app_nil_r. split_and!; try done; try lia.
  - cbn [FlowTool.run_steps].
    unfold FlowTool.log, modify.
    set (st1 := {| FlowTool.env := FlowTool.env st;
                   FlowTool.executionLog :=
                     (FlowTool.executionLog st
                      ++ [FlowTool.StepHeader (FlowTool.step stepDef)])%list;
                   FlowTool.screenshots := FlowTool.screenshots st;
                   FlowTool.failedStep := FlowTool.failedStep st |}).
    pose proof (step_try_result stepDef flowParams baseUrl screenshotDir shots st1) as Htry.
    destruct (FlowTool.step_try drv stepDef flowParams baseUrl screenshotDir shots st1)
      as [st2 [message|[]]]; cbn [fst snd try_result] in Htry.
    + pose proof (step_catch_result stepDef screenshotDir shots message st2) as Hcatch.
      cbv zeta in Hcatch.
      destruct (FlowTool.step_catch drv stepDef screenshotDir shots message st2)
        as [st3 r3]; cbn [fst] in Hcatch.
      unfold tool_kept in Htry. injection Htry as Hlog2 Hshots2 Hfailed2.
      destruct Hcatch as (Hlog3 & Hfailed3 & Hshots3). cbn beta iota.
      rewrite Hlog2 in Hlog3. rewrite Hshots2 in Hshots3.
      cbn [st1 FlowTool.executionLog FlowTool.screenshots] in Hlog3, Hshots3.
      destruct (stop && negb (bool_decide (FlowTool.optional stepDef = Some true)))
        eqn:Hstop.
      * exists [(FlowTool.step stepDef, Some message)].
        cbn [log_of length take fmap list_fmap last_failed].
        rewrite Hlog3, Hfailed3, <- app_assoc.
        split_and!; try done; try lia.
        -- intros ->. done.
        -- intros H. apply Forall_cons in H as [H _]. done.
        -- intros ->. by destruct Hshots3 as [->|[? _]].
        -- destruct Hshots3 as [->|(_ & p & ->)]; rewrite ?length_app; simpl; lia.
      * destruct (IH st3) as (runs & Hlog & Hnums & Hlen & Hfailed & Hall & Hnone & Hno
                             & Hshots & Hopt).
        exists ((FlowTool.step stepDef, Some message) :: runs).
        cbn [log_of length take fmap list_fmap last_failed].
        rewrite Hlog, Hlog3, Hfailed, Hfailed3, <- !app_assoc.
        split_and!; try done; try lia.
        -- simpl. f_equal. exact Hnums.
        -- intros Hs. by rewrite Hall.
        -- intros H. apply Forall_cons in H as [H _]. done.
        -- intros Hs. rewrite (Hno Hs). by destruct Hshots3 as [->|[? _]]; [|congruence].
        -- destruct Hshots3 as [Heq|(_ & p & Heq)]; rewrite Heq in Hshots;
             rewrite ?length_app in Hshots; simpl in Hshots; lia.
        -- intros Hs [|i] n msg Hi Hlt.
           ++ exists stepDef. split; [done|]. rewrite Hs in Hstop. simpl in Hstop.
              apply negb_false_iff in Hstop. by apply bool_decide_eq_true in Hstop.
           ++ simpl in Hi, Hlt. apply (Hopt Hs i n msg Hi). lia.
    + destruct Htry as (Hlog2 & Hfailed2 & Hshots2). cbn beta iota.
      cbn [st1 FlowTool.executionLog FlowTool.screenshots FlowTool.failedStep]
        in Hlog2, Hshots2, Hfailed2.
      destruct (IH st2) as (runs & Hlog & Hnums & Hlen & Hfailed & Hall & Hnone & Hno
                           & Hshots & Hopt).
      exists ((FlowTool.step stepDef, None) :: runs).
      cbn [log_of length take fmap list_fmap last_failed].
      rewrite Hlog, Hlog2, Hfailed, Hfailed2, <- !app_assoc.
      split_and!; try done; try lia.
      * simpl. f_equal. exact Hnums.
      * intros Hs. by rewrite Hall.
      * intros H. apply Forall_cons in H as [_ H]. by rewrite Hnone.
      * intros Hs. rewrite (Hno Hs). by destruct Hshots2 as [->|[? _]]; [|congruence].
      * destruct Hshots2 as [Heq|(_ & p & Heq)]; rewrite Heq in Hshots;
          rewrite ?length_app in Hshots; simpl in Hshots; lia.
      * intros Hs [|i] n msg Hi Hlt; [done|].
        simpl in Hi, Hlt. apply (Hopt Hs i n msg Hi). lia.
Qed.

Lemma last_failed_None runs before :
  last_failed runs before = None <-> before = None /\ Forall (fun r => r.2 = None) runs.
Proof.
  revert before. induction runs as [|[n [msg|]] runs IH]; intros before; simpl.
  - split; [by intros ->|by intros [-> _]].
  - rewrite IH. split; [by intros [? _]|]. intros [_ H]. apply Forall_cons in H as [H _]. done.
  - rewrite IH. split.
    + intros [-> H]. split; [done|]. by constructor.
    + intros [-> H]. apply Forall_cons in H as [_ H]. done.
Qed.

(** The outcome of a run of the tool. The log lists the steps that were
    started, in the order of the flow, each with how it ended. The run is a
    success exactly when no step failed, and then every step of the flow was
    run. Without the stop on error every step is started; with it, a failure
    that is not the last line is the failure of an optional step. The failed
    step reported is the number of the last step that failed, so a failed
    optional step makes the run a failure. No screenshot is kept when they
    are turned off, and at most one for each step that was started. *)
Theorem tool_run_outcome qa args e flow flowSteps :
  FlowTool.find_flow (FlowTool.flowPath args) (FlowTool.flows qa) = Some (flow, flowSteps) ->
  forall o, (FlowTool.execute drv (Some qa) args e).2 = FlowTool.Executed o ->
  exists runs,
    FlowTool.out_log o = log_of runs
    /\ runs.*1 = FlowTool.step <$> take (length runs) flowSteps
    /\ length runs <= length flowSteps
    /\ FlowTool.out_failedStep o = last_failed runs None
    /\ (FlowTool.success o = true <-> Forall (fun r => r.2 = None) runs)
    /\ (FlowTool.success o = true ->
        length runs = length flowSteps
        /\ FlowTool.stepsExecuted o = Z.of_nat (length flowSteps))
    /\ (FlowTool.stopOnError args = false -> length runs = length flowSteps)
    /\ (FlowTool.stopOnError args = true ->
        forall i n msg, runs !! i = Some (n, Some msg) -> S i < length runs ->
        exists s, flowSteps !! i = Some s /\ FlowTool.optional s = Some true)
    /\ (FlowTool.takeScreenshots args = false -> FlowTool.out_screenshots o = [])
    /\ length (FlowTool.out_screenshots o) <= length runs.
Proof.
  intros Hfind o. unfold FlowTool.execute. rewrite Hfind.
  destruct (FlowTool.validate flow qa (FlowTool.params args)) as [flowParams still].
  destruct still as [|m still]; [|done]. cbv zeta. cbn [snd].
  set (st0 := {| FlowTool.env := e; FlowTool.executionLog := [];
                 FlowTool.screenshots := []; FlowTool.failedStep := None |}).
  pose proof (run_steps_log flowSteps flowParams
                (js_or (FlowTool.baseUrl args) (js_or (FlowTool.metadata_baseUrl qa) ""))
                (FlowTool.path_join drv
                   [FlowTool.worktree drv; ".opencode"; "screenshots";
                    FlowTool.first_part (FlowTool.flowPath args)])
                (FlowTool.takeScreenshots args) (FlowTool.stopOnError args) st0) as Hrun.
  cbv zeta in Hrun.
  destruct Hrun as (runs & Hlog & Hnums & Hlen & Hfailed & Hall & Hnone & Hno & Hshots & Hopt).
  intros [= <-]. cbn [FlowTool.out_log FlowTool.out_failedStep FlowTool.success
                        FlowTool.stepsExecuted FlowTool.out_screenshots].
  exists runs. rewrite Hlog, Hfailed. cbn [st0 FlowTool.executionLog FlowTool.failedStep
                                             FlowTool.screenshots] in *.
  assert (Hsucc : bool_decide (last_failed runs None = None) = true
                  <-> Forall (fun r => r.2 = None) runs).
  { rewrite bool_decide_eq_true, last_failed_None. tauto. }
  split_and!; try done.
  - intros Hs. apply Hsucc in Hs as Hf. split; [by apply Hnone|].
    apply bool_decide_eq_true in Hs. by rewrite Hs.
Qed.
End ToolRun.

(** ** Steps of the CI runner *)

Section CIMore.
Context {Env : Type}.
Variable drv : CI.Driver Env.
Variable anthropic : bool.
Variable config : CI.Config.
Implicit Types st : CI.State Env.

Local Abbreviation sp := (CI.path_join drv [CI.cfg_knowledgeDir config; "solutions.json"]).

Lemma det_returns step st :
  exists st' b,
    CI.executeDeterministicStep drv config step st = (st', inr b)
    /\ CI.disk st' = CI.disk st /\ CI.stats st' = CI.stats st
    /\ CI.kbReads st' = CI.kbReads st.
Proof.
  pose proof (executeDeterministicStep_preserves drv config CI.disk step
                (fun _ _ => eq_refl) st) as Hd.
  pose proof (executeDeterministicStep_preserves drv config CI.stats step
                (fun _ _ => eq_refl) st) as Hs.
  pose proof (executeDeterministicStep_preserves drv config CI.kbReads step
                (fun _ _ => eq_refl) st) as Hr.
  unfold CI.executeDeterministicStep, try_catch in *.
  destruct (CI.deterministic_body drv config step st) as [st' [e|b]]; by eexists _, _.
Qed.

Lemma ci_call_kept {A} (f : Ext Env A) st :
  CI.disk (CI.call f st).1 = CI.disk st /\ CI.stats (CI.call f st).1 = CI.stats st.
Proof. unfold CI.call. by destruct (f (CI.env st)) as [e [r|x]]. Qed.

Ltac ci_call s r Hd Hs :=
  match goal with
  | |- context [CI.call ?f ?st] =>
      let H := fresh in
      pose proof (ci_call_kept f st) as H;
      destruct (CI.call f st) as [s [r|r]]; cbn [fst] in H; destruct H as [Hd Hs]
  end.

(** The learned tier of the CI runner. *)
Lemma tryLearnedSolution_spec step st :
  exists st' b,
    CI.tryLearnedSolution drv config step st = (st', inr b)
    /\ CI.stats st' = CI.stats st
    /\ (if b
        then exists k sol now,
            CI.disk st !! sp = Some (CI.FKnowledge k)
            /\ List.find (CI.matches step) (CI.solutions k) = Some sol
            /\ CI.disk st'
               = <[sp := CI.FKnowledge
                           {| CI.version := CI.version k;
                              CI.lastUpdated := CI.lastUpdated k;
                              CI.solutions :=
                                CI.update_first (CI.matches step) (CI.bump now)
                                  (CI.solutions k) |}]> (CI.disk st)
        else CI.disk st' = CI.disk st).
Proof.
  unfold CI.tryLearnedSolution.
  unfold mbind, M_bind, bind, get_state, modify, mret, M_ret, ret.
  destruct (CI.disk st !! sp) as [[t|k]|] eqn:Hfile; try (by eexists _, false).
  destruct (List.find (CI.matches step) (CI.solutions k)) as [sol|] eqn:Hfind;
    [|by eexists _, false].
  destruct (det_returns (CI.set_target step (CI.learnedSelector sol)) (CI.note_kbRead st))
    as (st1 & b & -> & Hd & Hs & Hr).
  cbn [CI.note_kbRead CI.disk CI.stats] in Hd, Hs.
  destruct b.
  - eexists _, true. split; [done|]. cbn [CI.with_disk CI.disk CI.stats].
    rewrite Hd, Hs. split; [done|]. by eexists _, _, _.
  - eexists _, false. split; [done|]. rewrite Hd, Hs. done.
Qed.

(** The AI tier of the CI runner. *)
Lemma tryAiFallback_spec step st :
  exists st' b,
    CI.tryAiFallback drv anthropic config step st = (st', inr b)
    /\ ci_counters st' = ci_counters st
    /\ (if b
        then exists k entry now,
            (CI.disk st !! sp = Some (CI.FKnowledge k)
             \/ CI.disk st !! sp = None
                /\ k = {| CI.version := "1.0"; CI.lastUpdated := None; CI.solutions := [] |})
            /\ CI.confidence entry = hundredths 70
            /\ CI.disk st'
               = <[sp := CI.FKnowledge
                           {| CI.version := CI.version k;
                              CI.lastUpdated := Some now;
                              CI.solutions := (CI.solutions k ++ [entry])%list |}]>
                   (CI.disk st)
        else CI.disk st' = CI.disk st).
Proof.
  unfold CI.tryAiFallback. destruct (negb anthropic); [by eexists _, false|].
  unfold try_catch, mbind at 1, M_bind at 1, bind at 1.
  ci_call s1 r1 H H0; [eexists _, false; unfold ci_counters; by rewrite H, H0|].
  unfold mbind at 1, M_bind at 1, bind at 1.
  ci_call s2 r2 H2 H3; [eexists _, false; unfold ci_counters; by rewrite H2, H3, H, H0|].
  unfold mbind at 1, M_bind at 1, bind at 1.
  ci_call s3 r3 H4 H5; [eexists _, false; unfold ci_counters; by rewrite H4, H5, H2, H3, H, H0|].
  unfold mbind at 1 2, M_bind at 1 2, bind at 1 2, modify at 1. cbn beta iota.
  destruct (det_returns (CI.set_target step (CI.reply_text r3))
              (CI.with_stats (CI.add_cost r3) s3))
    as (st4 & b & -> & Hd & Hs & Hr). cbn beta iota.
  cbn [CI.with_stats CI.disk CI.stats] in Hd, Hs.
  assert (CI.disk st4 = CI.disk st) as Hdisk by (by rewrite Hd, H4, H2, H).
  assert (ci_counters st4 = ci_counters st) as Hcount.
  { unfold ci_counters. rewrite Hs. cbn [CI.add_cost CI.totalSteps CI.deterministicSuccess
      CI.learnedSuccess CI.aiSuccess CI.failures]. by rewrite H5, H3, H0. }
  clear Hd Hs H H0 H2 H3 H4 H5.
  destruct b; [|by eexists _, false].
  unfold mbind, M_bind, bind, CI.saveLearnedSolution.
  unfold mbind, M_bind, bind, get_state, modify, mret, M_ret, ret.
  rewrite Hdisk.
  destruct (CI.disk st !! sp) as [[t|k]|] eqn:Hfile; cbn beta iota.
  - by eexists _, false.
  - eexists _, true. split; [done|]. split; [done|].
    cbn [CI.with_disk CI.disk CI.note_kbRead]. rewrite Hdisk.
    eexists k, _, _. split; [by left|]. split; [|reflexivity]. done.
  - eexists _, true. split; [done|]. split; [done|].
    cbn [CI.with_disk CI.disk CI.note_kbRead]. rewrite Hdisk.
    eexists _, _, _. split; [by right|]. split; [|reflexivity]. done.
Qed.

Lemma Math_min_le_l a b : (Math_min a b <= a)%Qc.
Proof.
  unfold Math_min. case_decide as H; [apply Qcle_refl|]. by apply Qcnot_lt_le.
Qed.

Lemma Math_min_le_r a b : (Math_min a b <= b)%Qc.
Proof. unfold Math_min. case_decide; [by apply Qclt_le_weak|apply Qcle_refl]. Qed.

Lemma Math_min_glb a b c : (c <= a)%Qc -> (c <= b)%Qc -> (c <= Math_min a b)%Qc.
Proof. unfold Math_min. by case_decide. Qed.

Lemma ci_solution_kept_refl s : ci_solution_kept s s.
Proof.
  unfold ci_solution_kept. split_and!; try done. apply Math_min_le_l.
Qed.

Lemma ci_solution_kept_trans a b c :
  ci_solution_kept a b -> ci_solution_kept b c -> ci_solution_kept a c.
Proof.
  unfold ci_solution_kept.
  intros (?&?&?&?&?&?&?&Hab) (?&?&?&?&?&?&?&Hbc). split_and!; try congruence; [lia|].
  eapply Qcle_trans; [|exact Hbc]. apply Math_min_glb; [done|apply Math_min_le_r].
Qed.

Lemma ci_solution_kept_bump now s : ci_solution_kept s (CI.bump now s).
Proof.
  unfold ci_solution_kept, CI.bump. cbn. split_and!; try done; [lia|].
  apply Math_min_glb; [apply Math_min_le_r|].
  eapply Qcle_trans; [apply Math_min_le_l|].
  rewrite <- (Qcplus_0_r (CI.confidence s)) at 1.
  apply Qcplus_le_compat; [done|]. by vm_compute.
Qed.

Lemma ci_knowledge_grows_refl k : ci_knowledge_grows k k.
Proof.
  split_and!; [done|done|]. intros i s Hs. exists s. split; [done|apply ci_solution_kept_refl].
Qed.

Lemma ci_knowledge_grows_trans a b c :
  ci_knowledge_grows a b -> ci_knowledge_grows b c -> ci_knowledge_grows a c.
Proof.
  intros (Hv1 & Hl1 & H1) (Hv2 & Hl2 & H2). split_and!; [congruence|lia|].
  intros i s Hs. destruct (H1 i s Hs) as (s1 & Hs1 & Hk1).
  destruct (H2 i s1 Hs1) as (s2 & Hs2 & Hk2). exists s2. split; [done|].
  by eapply ci_solution_kept_trans.
Qed.

Lemma update_first_grows p now l :
  length l = length (CI.update_first p (CI.bump now) l)
  /\ forall i s, l !! i = Some s ->
       exists s', CI.update_first p (CI.bump now) l !! i = Some s' /\ ci_solution_kept s s'.
Proof.
  induction l as [|a l [IHl IH]]; [done|]. cbn [CI.update_first].
  destruct (p a).
  - split; [done|]. intros [|i] s Hs; cbn in *.
    + injection Hs as <-. eexists. split; [done|apply ci_solution_kept_bump].
    + exists s. split; [done|apply ci_solution_kept_refl].
  - split; [cbn; lia|]. intros [|i] s Hs; cbn in *.
    + injection Hs as <-. eexists. split; [done|apply ci_solution_kept_refl].
    + by apply IH.
Qed.

Lemma ci_disk_grows_refl d : ci_disk_grows sp d d.
Proof.
  split; [done|]. destruct (d !! sp) as [[t|k]|]; [done| |by left].
  exists k. split; [done|apply ci_knowledge_grows_refl].
Qed.

Lemma ci_disk_grows_trans a b c :
  ci_disk_grows sp a b -> ci_disk_grows sp b c -> ci_disk_grows sp a c.
Proof.
  intros [Ho1 H1] [Ho2 H2]. split.
  { intros p Hp. by rewrite Ho2, Ho1. }
  destruct (a !! sp) as [[t|k]|].
  - by rewrite H1 in H2.
  - destruct H1 as (k1 & Hk1 & Hg1). rewrite Hk1 in H2.
    destruct H2 as (k2 & Hk2 & Hg2). exists k2. split; [done|].
    by eapply ci_knowledge_grows_trans.
  - destruct H1 as [H1|(k1 & Hk1 & Hv1)].
    + by rewrite H1 in H2.
    + rewrite Hk1 in H2. destruct H2 as (k2 & Hk2 & Hv2 & _). right. exists k2.
      split; [done|]. congruence.
Qed.

Lemma ci_disk_grows_eq d d' : d' = d -> ci_disk_grows sp d d'.
Proof. intros ->. apply ci_disk_grows_refl. Qed.

Lemma tryLearnedSolution_grows step st st' b :
  CI.tryLearnedSolution drv config step st = (st', inr b) ->
  ci_disk_grows sp (CI.disk st) (CI.disk st').
Proof.
  intros Hrun. destruct (tryLearnedSolution_spec step st) as (st1 & b1 & Heq & _ & Hd).
  rewrite Heq in Hrun. injection Hrun as <- <-.
  destruct b1; [|by apply ci_disk_grows_eq].
  destruct Hd as (k & sol & now & Hfile & _ & ->). split.
  { intros p Hp. by rewrite lookup_insert_ne. }
  rewrite Hfile, lookup_insert_eq. eexists. split; [done|].
  destruct (update_first_grows (CI.matches step) now (CI.solutions k)) as [Hl Hk].
  split_and!; cbn; [done|lia|done].
Qed.

Lemma tryAiFallback_grows step st st' b :
  CI.tryAiFallback drv anthropic config step st = (st', inr b) ->
  ci_disk_grows sp (CI.disk st) (CI.disk st').
Proof.
  intros Hrun. destruct (tryAiFallback_spec step st) as (st1 & b1 & Heq & _ & Hd).
  rewrite Heq in Hrun. injection Hrun as <- <-.
  destruct b1; [|by apply ci_disk_grows_eq].
  destruct Hd as (k & entry & now & Hfile & _ & ->). split.
  { intros p Hp. by rewrite lookup_insert_ne. }
  rewrite lookup_insert_eq. destruct Hfile as [->|[-> ->]].
  - eexists. split; [done|]. split_and!; cbn; [done|rewrite length_app; lia|].
    intros i s Hs. exists s. split; [|apply ci_solution_kept_refl].
    by apply lookup_app_l_Some.
  - right. by eexists.
Qed.

Lemma find_unused step l :
  Forall (fun s => (CI.confidence s <= hundredths 70)%Qc) l ->
  List.find (CI.matches step) l = None.
Proof.
  induction 1 as [|s l Hs _ IH]; [done|]. cbn [List.find]. unfold CI.matches at 1.
  rewrite (bool_decide_eq_false_2 (hundredths 70 < CI.confidence s)%Qc)
    by (by apply Qcle_not_lt).
  by rewrite andb_false_r.
Qed.

Lemma prompt_step_ok i step st :
  ci_run_ok sp 1 st (CI.prompt_step drv anthropic config i step st).1
    (CI.prompt_step drv anthropic config i step st).2.
Proof.
  destruct (CI.prompt_step drv anthropic config i step st) as [st' r] eqn:Hrun.
  cbn [fst snd]. revert Hrun. unfold CI.prompt_step.
  unfold mbind at 1, M_bind at 1, bind at 1, modify at 1. cbn beta iota.
  set (st0 := CI.with_stats CI.inc_totalSteps st).
  unfold try_catch, mbind at 1, M_bind at 1, bind at 1.
  destruct (det_returns step st0) as (st1 & b1 & -> & Hd1 & Hs1 & _). cbn beta iota.
  subst st0. cbn [CI.with_stats CI.disk CI.stats] in Hd1, Hs1.
  destruct b1.
  { unfold modify. intros [= <- <-]. unfold ci_run_ok, ci_resolved.
    cbn [fst snd CI.with_stats CI.disk CI.stats]. rewrite Hs1, Hd1.
    cbn. split_and!; try lia; try done.
    apply ci_disk_grows_refl. }
  unfold mbind at 1, M_bind at 1, bind at 1.
  destruct (tryLearnedSolution_spec step st1) as (st2 & b2 & Heq2 & Hs2 & Hd2).
  pose proof (tryLearnedSolution_grows step st1 _ _ Heq2) as Hg2.
  rewrite Heq2. cbn beta iota. rewrite Hd1 in Hg2.
  destruct b2.
  { unfold modify. intros [= <- <-]. unfold ci_run_ok, ci_resolved.
    cbn [fst snd CI.with_stats CI.disk CI.stats]. rewrite Hs2, Hs1.
    cbn. split_and!; try lia; try done.
    intros Hun. exfalso. destruct Hd2 as (k & sol & now & Hfile & Hfind & _).
    rewrite Hd1 in Hfile. unfold ci_disk_unused in Hun. rewrite Hfile in Hun.
    by rewrite (find_unused step _ Hun) in Hfind. }
  unfold mbind at 1, M_bind at 1, bind at 1.
  destruct (tryAiFallback_spec step st2) as (st3 & b3 & Heq3 & Hc3 & Hd3).
  pose proof (tryAiFallback_grows step st2 _ _ Heq3) as Hg3.
  rewrite Heq3. cbn beta iota.
  assert (ci_disk_grows sp (CI.disk st) (CI.disk st3)) as Hg
    by (by eapply ci_disk_grows_trans).
  assert (ci_disk_unused sp (CI.disk st) -> ci_disk_unused sp (CI.disk st3)) as Hun3.
  { intros Hun. rewrite Hd2, Hd1 in Hd3. destruct b3; [|by rewrite Hd3].
    destruct Hd3 as (k & entry & now & Hfile & Hconf & ->).
    unfold ci_disk_unused in *. rewrite lookup_insert_eq. cbn.
    apply Forall_app. split.
    - destruct Hfile as [Hfile|[_ ->]]; [by rewrite Hfile in Hun|done].
    - constructor; [|done]. rewrite Hconf. apply Qcle_refl. }
  unfold ci_counters in Hc3. rewrite Hs2, Hs1 in Hc3. cbn in Hc3.
  injection Hc3 as Ht Hdet Hl Ha Hf.
  destruct b3.
  { unfold modify. intros [= <- <-]. unfold ci_run_ok, ci_resolved.
    cbn [fst snd CI.with_stats CI.disk CI.stats]. cbn. rewrite Ht, Hdet, Hl, Ha, Hf.
    split_and!; try lia; try done. intros Hun. split; [done|by apply Hun3]. }
  unfold throw at 1. cbn beta iota.
  unfold mbind at 1 2, M_bind at 1 2, bind at 1 2, modify at 1. cbn beta iota.
  match goal with |- context [CI.call ?f ?s] =>
    pose proof (ci_call_kept f s) as [Hd4 Hs4];
    destruct (CI.call f s) as [st4 [r4|r4]] end;
    cbn [fst snd CI.with_stats CI.disk CI.stats throw] in *;
    intros [= <- <-];
    unfold ci_run_ok, ci_resolved; rewrite Hs4, Hd4; cbn; rewrite Ht, Hdet, Hl, Ha, Hf;
    (split_and!; try lia; try done; intros Hun; split; [done|by apply Hun3]).
Qed.

Lemma prompt_steps_ok steps i st :
  ci_prompt_ok sp steps st (CI.prompt_steps drv anthropic config i steps st).1
    (CI.prompt_steps drv anthropic config i steps st).2.
Proof.
  revert i st. induction steps as [|[typeError|step] rest IH]; intros i st.
  { cbn. unfold ci_prompt_ok. cbn. split_and!; try lia; try done.
    apply ci_disk_grows_refl. }
  { cbn [CI.prompt_steps]. unfold mbind, M_bind, bind, modify, throw.
    unfold ci_prompt_ok, ci_resolved. cbn. split_and!; try lia; try done.
    - right. split; [done|]. apply list_elem_of_here.
    - apply ci_disk_grows_refl. }
  cbn [CI.prompt_steps length]. unfold mbind, M_bind, bind.
  pose proof (prompt_step_ok i step st) as H1.
  destruct (CI.prompt_step drv anthropic config i step st) as [st1 [e|[]]];
    cbn [fst snd] in *.
  { unfold ci_run_ok in H1. unfold ci_prompt_ok. cbn [is_done length].
    destruct H1 as (?&?&?&?&?&?&?&?). split_and!; try lia; try done; by left. }
  pose proof (IH (S i) st1) as H2.
  destruct (CI.prompt_steps drv anthropic config (S i) rest st1) as [st2 r].
  cbn [fst snd] in *. unfold ci_run_ok in H1. unfold ci_prompt_ok in *. cbn [length].
  destruct H1 as (?&?&?&?&?&[? ?]&Hg1&Hu1). destruct H2 as (?&?&?&?&?&Hr&Hg2&Hu2).
  split_and!; try lia.
  - destruct r as [e|[]].
    + destruct Hr as [Hr|[Hr Hin]]; [left; lia|right].
      split; [lia|by apply list_elem_of_further].
    + destruct Hr as (? & ? & Hall). split_and!; try lia.
      constructor; [by eexists|done].
  - by eapply ci_disk_grows_trans.
  - intros Hun. destruct (Hu1 Hun) as [? Hun1]. destruct (Hu2 Hun1) as [? ?].
    split; [lia|done].
Qed.

(** The generation of the steps: the request, then the cost of the reply
    added to the statistics; the counters and the files are not touched. *)
Lemma generateStepsFromPrompt_spec prompt st :
  match CI.ai_generate drv prompt (CI.env st) with
  | (e, inl msg) =>
      exists st0, CI.generateStepsFromPrompt drv prompt st = (st0, inl msg)
                  /\ CI.stats st0 = CI.stats st /\ CI.disk st0 = CI.disk st
                  /\ CI.env st0 = e
  | (e, inr (steps, response)) =>
      exists st0, CI.generateStepsFromPrompt drv prompt st = (st0, inr steps)
                  /\ CI.stats st0 = CI.add_cost response (CI.stats st)
                  /\ CI.disk st0 = CI.disk st
                  /\ CI.env st0 = e
  end.
Proof.
  unfold CI.generateStepsFromPrompt, mbind, M_bind, bind, CI.call, modify, mret, M_ret, ret.
  destruct (CI.ai_generate drv prompt (CI.env st)) as [e [msg|[steps response]]];
    by eexists.
Qed.

Lemma executePromptTest_generated st :
  let '(st', r) := CI.executePromptTest drv anthropic config st in
  match CI.ai_generate drv (CI.cfg_prompt config) (CI.env st) with
  | (_, inl e) => r = inl e /\ CI.stats st' = CI.stats st /\ CI.disk st' = CI.disk st
  | (_, inr (inl typeError, response)) =>
      r = inl typeError /\ CI.stats st' = CI.add_cost response (CI.stats st)
      /\ CI.disk st' = CI.disk st
  | (_, inr (inr steps, response)) =>
      exists st0,
        CI.stats st0 = CI.add_cost response (CI.stats st)
        /\ CI.disk st0 = CI.disk st
        /\ ci_prompt_ok sp steps st0 st' r
  end.
Proof.
  unfold CI.executePromptTest. unfold mbind at 1, M_bind at 1, bind at 1.
  pose proof (generateStepsFromPrompt_spec (CI.cfg_prompt config) st) as Hgen.
  destruct (CI.ai_generate drv (CI.cfg_prompt config) (CI.env st))
    as [e [msg|[[typeError|steps] response]]].
  - destruct Hgen as (st0 & -> & Hs & Hd & _). done.
  - destruct Hgen as (st0 & -> & Hs & Hd & _). done.
  - destruct Hgen as (st0 & -> & Hs & Hd & _).
    pose proof (prompt_steps_ok steps 0 st0) as H.
    destruct (CI.prompt_steps drv anthropic config 0 steps st0) as [st' r].
    by exists st0.
Qed.

(** A run on a prompt first asks for the steps; the cost of the reply is
    added before the first step. It counts every step it starts, once, and
    every started step but the one that ends a failing run is resolved by
    one of the three tiers. A run that returns has started every generated
    element, each of which was a step, and recorded no failure. A run that
    throws has recorded one failure, or none when it ended on an element
    without a usable action; when the steps could not be generated no
    counter changed, and when the reply was [null] only the cost was
    added. *)
Theorem executePromptTest_accounting st :
  let '(st', r) := CI.executePromptTest drv anthropic config st in
  let s := CI.stats st in
  let s' := CI.stats st' in
  match CI.ai_generate drv (CI.cfg_prompt config) (CI.env st) with
  | (_, inl e) => r = inl e /\ s' = s
  | (_, inr (inl typeError, response)) => r = inl typeError /\ s' = CI.add_cost response s
  | (_, inr (inr steps, response)) =>
      (exists st0,
          CI.generateStepsFromPrompt drv (CI.cfg_prompt config) st = (st0, inr (inr steps))
          /\ CI.stats st0 = CI.add_cost response s
          /\ CI.prompt_steps drv anthropic config 0 steps st0 = (st', r))
      /\ CI.totalSteps s' + ci_resolved s
         = CI.totalSteps s + ci_resolved s' + (if is_done r then 0 else 1)
      /\ CI.totalSteps s' <= CI.totalSteps s + length steps
      /\ CI.deterministicSuccess s <= CI.deterministicSuccess s'
      /\ CI.learnedSuccess s <= CI.learnedSuccess s'
      /\ CI.aiSuccess s <= CI.aiSuccess s'
      /\ match r with
         | inr _ => CI.failures s' = CI.failures s
                    /\ CI.totalSteps s' = CI.totalSteps s + length steps
                    /\ Forall (fun g => exists step, g = inr step) steps
         | inl e => CI.failures s' = S (CI.failures s)
                    \/ (CI.failures s' = CI.failures s /\ inl e ∈ steps)
         end
  end.
Proof.
  unfold CI.executePromptTest. unfold mbind at 1, M_bind at 1, bind at 1.
  pose proof (generateStepsFromPrompt_spec (CI.cfg_prompt config) st) as Hgen.
  destruct (CI.ai_generate drv (CI.cfg_prompt config) (CI.env st))
    as [e [msg|[[typeError|steps] response]]].
  - destruct Hgen as (st0 & -> & Hs & Hd & _). done.
  - destruct Hgen as (st0 & -> & Hs & Hd & _). done.
  - destruct Hgen as (st0 & -> & Hs & Hd & _).
    pose proof (prompt_steps_ok steps 0 st0) as H.
    destruct (CI.prompt_steps drv anthropic config 0 steps st0) as [st' r] eqn:Hrun.
    cbn [fst snd] in H. unfold ci_prompt_ok in H. rewrite Hs in H.
    cbn [CI.add_cost CI.totalSteps CI.failures CI.deterministicSuccess CI.learnedSuccess
           CI.aiSuccess] in H. unfold ci_resolved in *.
    cbn [CI.add_cost CI.totalSteps CI.failures CI.deterministicSuccess CI.learnedSuccess
           CI.aiSuccess] in H.
    destruct H as (?&?&?&?&?&Hr&_). cbv zeta.
    split_and!; try lia; try done. by exists st0.
Qed.

End CIMore.

(** ** Arguments and entry point of the hybrid runner *)

Section ArgFacts.

Lemma args_indexOf_range args name :
  (args_indexOf args name = (-1)%Z /\ (name ∉ args))
  \/ exists pre post,
       args = (pre ++ name :: post)%list /\ (name ∉ pre)
       /\ args_indexOf args name = Z.of_nat (length pre).
Proof.
  induction args as [|a rest IH]; cbn [args_indexOf].
  { left. split; [done|]. apply not_elem_of_nil. }
  case_bool_decide as Ha.
  { right. exists [], rest. subst a. split_and!; [done|apply not_elem_of_nil|done]. }
  destruct IH as [[-> Hnot]|(pre & post & -> & Hpre & ->)].
  - left. rewrite bool_decide_eq_true_2 by done. split; [done|].
    apply not_elem_of_cons. split; [congruence|done].
  - right. rewrite bool_decide_eq_false_2 by lia.
    exists (a :: pre), post. split_and!; [done| |cbn [length]; lia].
    apply not_elem_of_cons. split; [congruence|done].
Qed.

Lemma args_indexOf_first pre name post :
  name ∉ pre -> args_indexOf (pre ++ name :: post) name = Z.of_nat (length pre).
Proof.
  intros Hpre. induction pre as [|a pre IH]; cbn [args_indexOf app length].
  { by rewrite bool_decide_eq_true_2. }
  apply not_elem_of_cons in Hpre as [Hne Hpre].
  rewrite bool_decide_eq_false_2 by congruence. rewrite (IH Hpre).
  rewrite bool_decide_eq_false_2 by lia. lia.
Qed.

Lemma args_indexOf_absent args name : name ∉ args -> args_indexOf args name = (-1)%Z.
Proof.
  intros Hnot. destruct (args_indexOf_range args name) as [[H _]|(pre & post & -> & _ & _)];
    [done|].
  exfalso. apply Hnot. set_solver.
Qed.

(** [getArg] returns the argument that follows the first occurrence of the
    name, whatever it is, and null when the name is absent or when its first
    occurrence is the last argument; a later occurrence is not looked at.
    The CI runner differs on one point: an empty argument after the name
    counts as missing. *)
Theorem getArg_first_occurrence args name :
  (forall pre v post,
      name ∉ pre -> args = (pre ++ name :: v :: post)%list ->
      getArg args name = Some v)
  /\ (forall pre, name ∉ pre -> args = (pre ++ [name])%list -> getArg args name = None)
  /\ (name ∉ args -> getArg args name = None)
  /\ (forall v, getArg args name = Some v ->
        exists pre post, (name ∉ pre) /\ args = (pre ++ name :: v :: post)%list)
  /\ ci_getArg args name
     = match getArg args name with
       | Some v => if bool_decide (v = "") then None else Some v
       | None => None
       end.
Proof.
  split_and!.
  - intros pre v post Hpre ->. unfold getArg. rewrite args_indexOf_first by done.
    rewrite bool_decide_eq_false_2 by lia.
    rewrite bool_decide_eq_true_2 by (rewrite length_app; cbn [length]; lia).
    cbn [negb andb]. replace (Z.to_nat (Z.of_nat (length pre) + 1)) with (length pre + 1) by lia.
    rewrite lookup_app_r by lia. by replace (length pre + 1 - length pre) with 1 by lia.
  - intros pre Hpre ->. unfold getArg. rewrite args_indexOf_first by done.
    rewrite bool_decide_eq_false_2 by lia.
    by rewrite (bool_decide_eq_false_2 (_ < _)%Z) by (rewrite length_app; cbn [length]; lia).
  - intros Hnot. unfold getArg. rewrite args_indexOf_absent by done. done.
  - intros v. unfold getArg.
    destruct (args_indexOf_range args name) as [[-> _]|(pre & post & -> & Hpre & ->)];
      [done|].
    rewrite bool_decide_eq_false_2 by lia. cbn [negb andb]. case_bool_decide; [|done].
    replace (Z.to_nat (Z.of_nat (length pre) + 1)) with (length pre + 1) by lia.
    rewrite lookup_app_r by lia. replace (length pre + 1 - length pre) with 1 by lia.
    destruct post as [|w post]; [done|]. cbn. intros [= ->]. by exists pre, post.
  - unfold ci_getArg, getArg.
    destruct (args_indexOf_range args name) as [[-> _]|(pre & post & -> & Hpre & ->)];
      [done|].
    rewrite bool_decide_eq_false_2 by lia. cbn [negb andb].
    replace (Z.to_nat (Z.of_nat (length pre) + 1)) with (length pre + 1) by lia.
    rewrite lookup_app_r by lia. replace (length pre + 1 - length pre) with 1 by lia.
    rewrite length_app. cbn [length].
    destruct post as [|w post]; cbn [lookup list_lookup truthy length].
    + by rewrite bool_decide_eq_false_2 by lia.
    + rewrite (bool_decide_eq_true_2 (_ < _)%Z) by lia. cbn [negb]. by case_bool_decide.
Qed.
End ArgFacts.

Section MainFacts.
Context {Env Element : Type}.
Variable md5_hex : string -> string.
Variable drv : Driver Env Element.
Variable launcher : Launcher Env.
Variable aiClient : bool.
Variable config : Config.
Variable suite : string.
Variable prompt : option string.
Variable knowledgeBasePath : string.
Implicit Types p : Process Env.

Lemma executeFlow_status flowPath st :
  res_status (executeFlow md5_hex drv aiClient flowPath config st).2 = "passed"
  \/ res_status (executeFlow md5_hex drv aiClient flowPath config st).2 = "failed".
Proof.
  unfold executeFlow. destruct (flow_body _ _ _ _ _ _) as [st1 [msg|[]]]; [|by left].
  destruct (call _ st1) as [st2 shot]. by right.
Qed.

Lemma executeFlow_path flowPath st :
  res_flowPath (executeFlow md5_hex drv aiClient flowPath config st).2 = flowPath.
Proof.
  unfold executeFlow. destruct (flow_body _ _ _ _ _ _) as [st1 [msg|[]]]; [|done].
  by destruct (call _ st1) as [st2 shot].
Qed.

Lemma main_call_kept {A} (f : Ext Env A) p :
  proc_kept (main_call f p).1 = proc_kept p
  /\ proc_browser (main_call f p).1 = proc_browser p
  /\ knowledgeBase (proc_run (main_call f p).1) = knowledgeBase (proc_run p).
Proof.
  unfold main_call, call. by destruct (f (env (proc_run p))) as [e r].
Qed.

Ltac main_step p' r H :=
  match goal with
  | |- context [main_call ?f ?p] =>
      pose proof (main_call_kept f p) as H;
      destruct (main_call f p) as [p' r]; cbn [fst] in H
  end.

Lemma count_flow_ok f r :
  res_status f = "passed" \/ res_status f = "failed" ->
  summary_ok r -> summary_ok (count_flow f r).
Proof.
  intros Hst (Ht & Hs & Hk & Hp & Hf & Hall). unfold summary_ok, count_flow.
  cbn [results_flows summary].
  rewrite length_app, !List.filter_app, !length_app. cbn [length List.filter].
  assert (Hall' : Forall (fun f => res_status f = "passed" \/ res_status f = "failed")
                    (results_flows r ++ [f])) by (apply Forall_app; split; [done|by constructor]).
  destruct Hst as [Hst|Hst]; rewrite Hst; repeat case_bool_decide; try done; cbn;
    split_and!; try done; lia.
Qed.

Lemma run_flows_spec flowPaths p :
  let p' := run_flows md5_hex drv aiClient config flowPaths p in
  proc_disk p' = proc_disk p
  /\ proc_browser p' = proc_browser p
  /\ results_error (proc_results p') = results_error (proc_results p)
  /\ res_flowPath <$> results_flows (proc_results p')
     = ((res_flowPath <$> results_flows (proc_results p)) ++ flowPaths)%list
  /\ (summary_ok (proc_results p) -> summary_ok (proc_results p')).
Proof.
  cbv zeta. revert p. induction flowPaths as [|flowPath rest IH]; intros p.
  { cbn [run_flows]. by rewrite app_nil_r. }
  cbn [run_flows].
  pose proof (executeFlow_status flowPath (proc_run p)) as Hst.
  pose proof (executeFlow_path flowPath (proc_run p)) as Hpath.
  destruct (executeFlow md5_hex drv aiClient flowPath config (proc_run p)) as [st f].
  cbn [snd] in Hst, Hpath.
  destruct (IH (with_results (count_flow f) (with_run (fun _ => st) p)))
    as (Hd & Hb & He & Hp & Hs).
  rewrite Hd, Hb, He, Hp. cbn. rewrite fmap_app. cbn. rewrite Hpath, <- app_assoc.
  split_and!; try done. intros Hok. apply Hs. cbn. by apply count_flow_ok.
Qed.

Lemma launch_browser_kept p :
  proc_kept (launch_browser launcher p).1 = proc_kept p
  /\ knowledgeBase (proc_run (launch_browser launcher p).1) = knowledgeBase (proc_run p).
Proof.
  unfold launch_browser, mbind, M_bind, bind, modify.
  main_step p1 r1 H1. destruct H1 as (H1 & _ & K1). destruct r1 as [m|[]]; [done|].
  main_step p2 r2 H2. destruct H2 as (H2 & _ & K2). cbn in H2, K2.
  destruct r2 as [m|[]]; cbn [fst]; [by rewrite H2, K2|].
  main_step p3 r3 H3. destruct H3 as (H3 & _ & K3).
  cbn [fst]. rewrite H3, H2, K3, K2. done.
Qed.

Lemma new_results_ok : summary_ok new_results.
Proof. by split_and!. Qed.

Ltac body_fatal Hnone H :=
  unfold throw; intros [= <- <-]; destruct (Hnone _ H) as (?&?&?&?);
  split_and!; try done; try (by left);
  try (intros _ _; split; [done|]; eexists; split; [done|]; done).

(** The body of the [try]. *)
Lemma main_body_spec p :
  proc_results p = new_results ->
  let p1 := (main_body md5_hex drv launcher aiClient config suite prompt p).1 in
  let r := (main_body md5_hex drv launcher aiClient config suite prompt p).2 in
  let ran := res_flowPath <$> results_flows (proc_results p1) in
  proc_disk p1 = proc_disk p
  /\ results_error (proc_results p1) = None
  /\ summary_ok (proc_results p1)
  /\ (ran = []
      \/ truthy prompt = true /\ ran = ["prompt.test"]
      \/ truthy prompt = false /\ jsmap_get suite testSuites = Some ran)
  /\ (is_done r = true -> ran <> [])
  /\ (truthy prompt = true -> aiClient = false ->
      r = inl "ANTHROPIC_API_KEY required for prompt-based testing" /\ ran = [])
  /\ (truthy prompt = false -> jsmap_get suite testSuites = None ->
      ran = []
      /\ exists message, r = inl message
           /\ (jsmap_get suite object_prototype = None ->
               message = "Unknown test suite: " +:+ suite)).
Proof.
  intros Hres. cbv zeta.
  destruct (main_body md5_hex drv launcher aiClient config suite prompt p) as [p1 r] eqn:Hrun.
  cbn [fst snd]. revert Hrun. unfold main_body.
  assert (Hnone : forall q : Process Env, proc_kept q = proc_kept p ->
            proc_disk q = proc_disk p
            /\ results_error (proc_results q) = None
            /\ summary_ok (proc_results q)
            /\ res_flowPath <$> results_flows (proc_results q) = []).
  { intros q [= Hd Hr]. rewrite Hd, Hr, Hres. by split_and!. }
  assert (Hflows : forall (q : Process Env) flowPaths, proc_kept q = proc_kept p ->
            let q' := run_flows md5_hex drv aiClient config flowPaths q in
            proc_disk q' = proc_disk p
            /\ results_error (proc_results q') = None
            /\ summary_ok (proc_results q')
            /\ res_flowPath <$> results_flows (proc_results q') = flowPaths).
  { intros q flowPaths Hq. destruct (Hnone q Hq) as (Hd & He & Hs & Hp).
    destruct (run_flows_spec flowPaths q) as (Hd' & _ & He' & Hp' & Hs').
    cbv zeta. rewrite Hd', He', Hp', Hp. split_and!; try done. by apply Hs'. }
  destruct (truthy prompt) eqn:Hprompt.
  - unfold mbind at 1, M_bind at 1, bind at 1.
    destruct aiClient eqn:Hai; cbn [negb].
    2: { unfold throw. intros [= <- <-]. destruct (Hnone p eq_refl) as (?&?&?&?).
         split_and!; try done; by left. }
    unfold mret at 1, M_ret at 1, ret at 1.
    unfold mbind at 1, M_bind at 1, bind at 1.
    main_step p2 r2 H2. destruct H2 as (H2 & _). destruct r2 as [m|steps].
    { intros [= <- <-]. destruct (Hnone p2 H2) as (?&?&?&?). split_and!; try done; by left. }
    unfold mbind at 1, M_bind at 1, bind at 1, modify at 1.
    set (p3 := with_run _ p2). assert (H3 : proc_kept p3 = proc_kept p) by done.
    clearbody p3. clear H2 p2.
    unfold mbind at 1, M_bind at 1, bind at 1.
    pose proof (launch_browser_kept p3) as [H4 _].
    destruct (launch_browser launcher p3) as [p4 [m|[]]]; cbn [fst] in H4;
      rewrite H3 in H4.
    { intros [= <- <-]. destruct (Hnone p4 H4) as (?&?&?&?). split_and!; try done; by left. }
    unfold mbind at 1, M_bind at 1, bind at 1, modify at 1.
    destruct (Hflows p4 ["prompt.test"] H4) as (Hd & He & Hs & Hp).
    set (p5 := run_flows _ _ _ _ _ p4) in *. clearbody p5.
    unfold mbind, M_bind, bind, get_state.
    case_bool_decide.
    + main_step p6 r6 H6. destruct H6 as ([= H6d H6r] & _).
      intros [= <- <-]. rewrite H6d, H6r, Hp.
      split_and!; try done. by right; left.
    + intros [= <- <-]. rewrite Hp. split_and!; try done. by right; left.
  - unfold suite_flowPaths.
    destruct (jsmap_get suite testSuites) as [flowPaths|] eqn:Hsuite.
    + unfold mbind at 1, M_bind at 1, bind at 1.
      case_bool_decide as Hlen.
      { unfold throw. intros [= <- <-]. destruct (Hnone p eq_refl) as (?&?&?&?).
        split_and!; try done; by left. }
      unfold mret at 1, M_ret at 1, ret at 1.
      unfold mbind at 1, M_bind at 1, bind at 1.
      pose proof (launch_browser_kept p) as [H4 _].
      destruct (launch_browser launcher p) as [p4 [m|[]]]; cbn [fst] in H4.
      { intros [= <- <-]. destruct (Hnone p4 H4) as (?&?&?&?).
        split_and!; try done; by left. }
      unfold modify. intros [= <- <-].
      destruct (Hflows p4 flowPaths H4) as (Hd & He & Hs & Hp). rewrite Hp.
      split_and!; try done; [by right; right|].
      intros _ ->. done.
    + destruct (jsmap_get suite object_prototype) as [len|] eqn:Hproto.
      * unfold mbind at 1, M_bind at 1, bind at 1.
        case_bool_decide; [body_fatal Hnone (eq_refl (proc_kept p))|].
        unfold mret at 1, M_ret at 1, ret at 1.
        unfold mbind at 1, M_bind at 1, bind at 1.
        pose proof (launch_browser_kept p) as [H4 _].
        destruct (launch_browser launcher p) as [p4 [m|[]]]; cbn [fst] in H4;
          body_fatal Hnone H4.
      * unfold mbind at 1, M_bind at 1, bind at 1.
        rewrite bool_decide_eq_true_2 by done. body_fatal Hnone (eq_refl (proc_kept p)).
Qed.

Lemma main_clock_kept (f : Env -> Env * string) p :
  exists p' now,
    main_call (clock f) p = (p', inr now)
    /\ proc_kept p' = proc_kept p
    /\ knowledgeBase (proc_run p') = knowledgeBase (proc_run p).
Proof.
  unfold main_call, call, clock. destruct (f (env (proc_run p))) as [e now].
  by eexists _, _.
Qed.

Lemma main_write_kept path p :
  exists p' r,
    main_call (fs_writeFileSync launcher path) p = (p', r)
    /\ proc_kept p' = proc_kept p
    /\ knowledgeBase (proc_run p') = knowledgeBase (proc_run p)
    /\ (cleanup_ok launcher -> r = inr tt).
Proof.
  pose proof (main_call_kept (fs_writeFileSync launcher path) p) as (H1 & _ & K1).
  unfold main_call, call in *.
  pose proof (fun H : cleanup_ok launcher => proj2 H path (env (proc_run p))) as Hok.
  destruct (fs_writeFileSync launcher path (env (proc_run p))) as [e r]. cbn [fst snd] in *.
  by eexists _, _.
Qed.

(** The [finally]: the exit code is returned when nothing throws, and then
    the knowledge base was saved. *)
Lemma main_finally_spec p :
  let p3 := (main_finally drv launcher config knowledgeBasePath p).1 in
  let r := (main_finally drv launcher config knowledgeBasePath p).2 in
  let saved := exists now now',
    proc_disk p3 = saveKnowledgeBase (path_join drv) knowledgeBasePath
                     (knowledgeBase (proc_run p)) now now' (proc_disk p) in
  proc_results p3 = proc_results p
  /\ knowledgeBase (proc_run p3) = knowledgeBase (proc_run p)
  /\ (proc_disk p3 = proc_disk p \/ saved)
  /\ (forall code, r = inr code ->
       saved
       /\ code = if bool_decide (0 < failed (summary (proc_results p))) then 1%Z else 0%Z)
  /\ ((forall e, (browser_close launcher e).2 = inr tt) -> saved)
  /\ (cleanup_ok launcher -> exists code, r = inr code).
Proof.
  cbv zeta.
  destruct (main_finally drv launcher config knowledgeBasePath p) as [p3 r] eqn:Hrun.
  cbn [fst snd]. revert Hrun. unfold main_finally.
  unfold mbind at 1, M_bind at 1, bind at 1, get_state at 1.
  unfold mbind at 1, M_bind at 1, bind at 1.
  assert (Hclose : exists p1 r1,
            (if proc_browser p then main_call (browser_close launcher) else mret ()) p
            = (p1, r1)
            /\ proc_kept p1 = proc_kept p
            /\ knowledgeBase (proc_run p1) = knowledgeBase (proc_run p)
            /\ ((forall e, (browser_close launcher e).2 = inr tt) -> r1 = inr tt)).
  { destruct (proc_browser p).
    - pose proof (main_call_kept (browser_close launcher) p) as (H1 & _ & K1).
      unfold main_call, call in *.
      pose proof (fun H : forall e, (browser_close launcher e).2 = inr tt =>
                    H (env (proc_run p))) as Hok.
      destruct (browser_close launcher (env (proc_run p))) as [e r1]. cbn [fst snd] in *.
      eexists _, _. split_and!; [done|done|done|]. intros H. by apply Hok.
    - by eexists _, _. }
  destruct Hclose as (p1 & r1 & -> & H1 & K1 & Hr1).
  destruct r1 as [m|[]].
  { intros [= <- <-]. injection H1 as H1d H1r.
    split_and!; try done; [by left|intros H; by specialize (Hr1 H)|].
    intros [H _]. by specialize (Hr1 H). }
  clear Hr1. injection H1 as H1d H1r.
  unfold mbind at 1, M_bind at 1, bind at 1.
  destruct (main_clock_kept (date_toISOString launcher) p1)
    as (p2 & now & -> & [= H2d H2r] & K2).
  unfold mbind at 1, M_bind at 1, bind at 1.
  destruct (main_clock_kept (date_toISOString launcher) p2)
    as (p3' & now' & -> & [= H3d H3r] & K3).
  unfold mbind at 1, M_bind at 1, bind at 1, modify at 1.
  set (p4 := with_proc_disk _ p3').
  assert (H4d : proc_disk p4
                = saveKnowledgeBase (path_join drv) knowledgeBasePath
                    (knowledgeBase (proc_run p)) now now' (proc_disk p)).
  { subst p4. cbn. by rewrite K3, K2, K1, H3d, H2d, H1d. }
  assert (H4r : proc_results p4 = proc_results p) by (subst p4; cbn; congruence).
  assert (K4 : knowledgeBase (proc_run p4) = knowledgeBase (proc_run p))
    by (subst p4; cbn; congruence).
  clearbody p4.
  unfold mbind at 1, M_bind at 1, bind at 1.
  destruct (main_write_kept (path_join drv [cfg_outputDir config; "summary.json"]) p4)
    as (p5 & r5 & -> & [= H5d H5r] & K5 & Hr5).
  destruct r5 as [m|[]].
  { intros [= <- <-]. rewrite H5d, H5r, K5, H4d, H4r, K4.
    split_and!; try done; [right|intros _|intros H; by specialize (Hr5 H)];
      by exists now, now'. }
  unfold mbind at 1, M_bind at 1, bind at 1.
  destruct (main_write_kept (path_join drv [cfg_outputDir config; "report.html"]) p5)
    as (p6 & r6 & -> & [= H6d H6r] & K6 & Hr6).
  destruct r6 as [m|[]].
  { intros [= <- <-]. rewrite H6d, H6r, K6, H5d, H5r, K5, H4d, H4r, K4.
    split_and!; try done; [right|intros _|intros H; by specialize (Hr6 H)];
      by exists now, now'. }
  unfold mbind, M_bind, bind, get_state, mret, M_ret, ret.
  intros [= <- <-]. rewrite H6d, H6r, K6, H5d, H5r, K5, H4d, H4r, K4.
  split_and!; try done.
  - right. by exists now, now'.
  - intros code [= <-]. split; [by exists now, now'|done].
  - intros _. by exists now, now'.
  - intros _. by eexists.
Qed.

(** What [main] does, in terms of its two parts. *)
Lemma main_parts p :
  exists p1 r p2,
    main_body md5_hex drv launcher aiClient config suite prompt
      {| proc_run := with_stats (fun _ => zero_stats) (proc_run p);
         proc_disk := proc_disk p; proc_results := new_results; proc_browser := false |}
    = (p1, r)
    /\ proc_disk p2 = proc_disk p1
    /\ knowledgeBase (proc_run p2) = knowledgeBase (proc_run p1)
    /\ results_flows (proc_results p2) = results_flows (proc_results p1)
    /\ summary (proc_results p2) = summary (proc_results p1)
    /\ results_error (proc_results p2)
       = match r with inl message => Some message | inr _ => results_error (proc_results p1) end
    /\ main md5_hex drv launcher aiClient config suite prompt knowledgeBasePath p
       = match main_finally drv launcher config knowledgeBasePath p2 with
         | (p3, inr code) => (p3, code)
         | (p3, inl _) => (p3, 1%Z)
         end.
Proof.
  unfold main. cbv zeta.
  destruct (main_body _ _ _ _ _ _ _ _) as [p1 r].
  destruct r as [message|[]].
  - by exists p1, (inl message),
      (with_results (fun res => {| results_flows := results_flows res;
                                   summary := summary res;
                                   results_error := Some message |}) p1).
  - by exists p1, (inr ()), p1.
Qed.

(** The summary of a run counts the results of its flows: every flow that
    ran passed or failed, none is skipped, and the failed count is the number
    of results with the status failed. Either no flow ran, or all the flows
    of the suite ran in the order of the suite (the one flow of the prompt,
    for a run on a prompt); a run without a fatal error ran them all. The
    exit code is 0 or 1, and 0 only when no flow failed. *)
Theorem main_summary p :
  let '(p', code) :=
    main md5_hex drv launcher aiClient config suite prompt knowledgeBasePath p in
  let res := proc_results p' in
  let ran := res_flowPath <$> results_flows res in
  summary_ok res
  /\ (ran = []
      \/ truthy prompt = true /\ ran = ["prompt.test"]
      \/ truthy prompt = false /\ jsmap_get suite testSuites = Some ran)
  /\ (results_error res = None -> ran <> [])
  /\ (code = 0 \/ code = 1)%Z
  /\ (code = 0%Z -> failed (summary res) = 0).
Proof.
  destruct (main_parts p) as (p1 & r & p2 & Hbody & Hd & Hk & Hf & Hs & He & ->).
  pose proof (main_body_spec
                {| proc_run := with_stats (fun _ => zero_stats) (proc_run p);
                   proc_disk := proc_disk p; proc_results := new_results;
                   proc_browser := false |} eq_refl) as Hspec.
  cbv zeta in Hspec. rewrite Hbody in Hspec. cbn [fst snd] in Hspec.
  destruct Hspec as (_ & He1 & Hok & Hran & Hdone & _).
  pose proof (main_finally_spec p2) as Hfin. cbv zeta in Hfin.
  destruct (main_finally drv launcher config knowledgeBasePath p2) as [p3 r3].
  cbn [fst snd] in Hfin. destruct Hfin as (Hr3 & _ & _ & Hcode & _).
  assert (Hok3 : summary_ok (proc_results p3)).
  { rewrite Hr3. unfold summary_ok in *. by rewrite Hf, Hs. }
  assert (Hran3 : res_flowPath <$> results_flows (proc_results p3)
                  = res_flowPath <$> results_flows (proc_results p1))
    by (by rewrite Hr3, Hf).
  assert (Herr : results_error (proc_results p3) = None ->
                 res_flowPath <$> results_flows (proc_results p1) <> []).
  { rewrite Hr3, He. destruct r as [m|[]]; [done|]. intros _. by apply Hdone. }
  destruct r3 as [m|code]; cbv zeta; rewrite Hran3.
  - split_and!; try done; by right.
  - destruct (Hcode code eq_refl) as [_ ->]. rewrite Hr3, Hs in *.
    case_bool_decide; split_and!; try done; try (by left); try (by right). lia.
Qed.

(** When the cleanup does not throw, the exit code is 1 exactly when some
    flow has failed. So a run that ends on a fatal error before any flow ran
    exits with the code 0: a suite that is not known (the error names the
    suite, unless its name is a member that objects inherit), or a prompt
    without an AI client. *)
Theorem main_exit_code p :
  cleanup_ok launcher ->
  let '(p', code) :=
    main md5_hex drv launcher aiClient config suite prompt knowledgeBasePath p in
  let res := proc_results p' in
  (code = 1%Z <-> exists f, f ∈ results_flows res /\ res_status f = "failed")
  /\ (code = 0%Z <-> forall f, f ∈ results_flows res -> res_status f = "passed")
  /\ (results_flows res = [] -> code = 0%Z)
  /\ (truthy prompt = false -> jsmap_get suite testSuites = None ->
      code = 0%Z /\ results_flows res = []
      /\ exists message,
           results_error res = Some message
           /\ (jsmap_get suite object_prototype = None ->
               message = "Unknown test suite: " +:+ suite))
  /\ (truthy prompt = true -> aiClient = false ->
      code = 0%Z /\ results_flows res = []
      /\ results_error res
         = Some "ANTHROPIC_API_KEY required for prompt-based testing").
Proof.
  intros Hclean.
  destruct (main_parts p) as (p1 & r & p2 & Hbody & Hd & Hk & Hf & Hs & He & ->).
  pose proof (main_body_spec
                {| proc_run := with_stats (fun _ => zero_stats) (proc_run p);
                   proc_disk := proc_disk p; proc_results := new_results;
                   proc_browser := false |} eq_refl) as Hspec.
  cbv zeta in Hspec. rewrite Hbody in Hspec. cbn [fst snd] in Hspec.
  destruct Hspec as (_ & He1 & Hok & Hran & Hdone & Hai & Hsuite).
  pose proof (main_finally_spec p2) as Hfin. cbv zeta in Hfin.
  destruct (main_finally drv launcher config knowledgeBasePath p2) as [p3 r3].
  cbn [fst snd] in Hfin. destruct Hfin as (Hr3 & _ & _ & Hcode & _ & Hret).
  destruct (Hret Hclean) as [code ->]. destruct (Hcode code eq_refl) as [_ Hc].
  cbv zeta. rewrite Hr3, Hf, He. rewrite Hs in Hc.
  destruct Hok as (Ht & Hpf & Hsk & Hpass & Hfail & Hall).
  rewrite Forall_forall in Hall.
  assert (Hfailed : 0 < failed (summary (proc_results p1))
                    <-> exists f, f ∈ results_flows (proc_results p1)
                                  /\ res_status f = "failed").
  { rewrite Hfail. clear. induction (results_flows (proc_results p1)) as [|f l IH].
    - cbn. split; [lia|]. intros (f & Hin & _). by apply elem_of_nil in Hin.
    - cbn [List.filter]. case_bool_decide as Hf.
      + split; [|cbn; lia]. intros _. exists f. split; [left|done].
      + rewrite IH. split.
        * intros (g & Hin & Hg). exists g. split; [by right|done].
        * intros (g & Hin & Hg). apply elem_of_cons in Hin as [->|Hin]; [done|].
          by exists g. }
  assert (Hcode1 : code = 1%Z <-> 0 < failed (summary (proc_results p1)))
    by (rewrite Hc; case_bool_decide; split; (done || lia)).
  assert (Hcode0 : code = 0%Z <-> ~ 0 < failed (summary (proc_results p1)))
    by (rewrite Hc; case_bool_decide; split; (done || lia)).
  assert (Hempty : results_flows (proc_results p1) = [] -> code = 0%Z).
  { intros Hnil. apply Hcode0. rewrite Hfail, Hnil. cbn. lia. }
  split_and!.
  - by rewrite Hcode1.
  - rewrite Hcode0, Hfailed. split.
    + intros Hno f Hin. destruct (Hall f Hin) as [?|Hst]; [done|].
      exfalso. apply Hno. by exists f.
    + intros Hyes (f & Hin & Hst). by rewrite (Hyes f Hin) in Hst.
  - done.
  - intros Hp Hs'. destruct (Hsuite Hp Hs') as (Hnil & message & -> & Hmsg).
    apply fmap_nil_inv in Hnil. split_and!; [by apply Hempty|done|].
    by exists message.
  - intros Hp Ha. destruct (Hai Hp Ha) as (-> & Hnil).
    apply fmap_nil_inv in Hnil. split_and!; [by apply Hempty|done|done].
Qed.

End MainFacts.

(** ** Placeholders in the steps of the CI runner *)

Section ReplaceText.
#[local] Arguments String.append !_ _ / : simpl nomatch.

Lemma strip_prefix_append p s : strip_prefix p (p +:+ s) = Some s.
Proof.
  induction p as [|c p IH]; simpl; [done|]. by rewrite bool_decide_eq_true_2.
Qed.

Lemma replace_text_skip pat rep u s before :
  replace_text_from pat rep before (u +:+ s) (String.length u)
  = replace_text_from pat rep (before +:+ u) s 0.
Proof.
  revert before. induction u as [|c u IH]; intros before; simpl.
  - by rewrite append_nil_r.
  - rewrite IH. by rewrite append_assoc.
Qed.

(** At an occurrence of the pattern. *)
Lemma replace_text_here c q rep before s :
  replace_text_from (String c q) rep before (String c q +:+ s) 0
  = get_substitution (String c q) before s rep
    +:+ replace_text_from (String c q) rep (before +:+ String c q) s 0.
Proof.
  cbn [String.append replace_text_from].
  pose proof (strip_prefix_append (String c q) s) as Hp. cbn [String.append] in Hp.
  rewrite Hp. f_equal. cbn [String.length]. replace (S (String.length q) - 1) with
    (String.length q) by lia.
  rewrite replace_text_skip. by rewrite append_assoc.
Qed.

(** Over a text in which the first character of the pattern does not
    occur. *)
Lemma replace_text_over c q rep before a s :
  c ∉ chars a ->
  replace_text_from (String c q) rep before (a +:+ s) 0
  = a +:+ replace_text_from (String c q) rep (before +:+ a) s 0.
Proof.
  revert before. induction a as [|x a IH]; intros before Hc.
  - by rewrite append_nil_r.
  - cbn [chars] in Hc. apply not_elem_of_cons in Hc as [Hx Ha].
    cbn [String.append replace_text_from strip_prefix].
    rewrite bool_decide_eq_false_2 by done. f_equal. rewrite IH by done.
    by rewrite append_assoc.
Qed.

Lemma replace_text_none c q rep before a :
  c ∉ chars a -> replace_text_from (String c q) rep before a 0 = a.
Proof.
  intros Hc. rewrite <- (append_nil_r a) at 1. rewrite replace_text_over by done.
  cbn [replace_text_from]. apply append_nil_r.
Qed.

(** A replacement text without a dollar is put in as it is; up to its first
    dollar, it always is. *)
Lemma get_substitution_append m b a x r :
  "$"%char ∉ chars x ->
  get_substitution m b a (x +:+ r) = x +:+ get_substitution m b a r.
Proof.
  induction x as [|c x IH]; intros Hx; [done|].
  cbn [chars] in Hx. apply not_elem_of_cons in Hx as [Hc Hx].
  cbn [String.append get_substitution]. rewrite bool_decide_eq_false_2 by done.
  by rewrite IH.
Qed.

Lemma get_substitution_plain m b a x :
  "$"%char ∉ chars x -> get_substitution m b a x = x.
Proof.
  intros Hx. rewrite <- (append_nil_r x) at 1. rewrite get_substitution_append by done.
  cbn. apply append_nil_r.
Qed.

(** A placeholder of another name is passed over. *)
Lemma replace_text_foreign c q rep a b :
  c <> "p"%char ->
  "{"%char ∉ chars a -> "{"%char ∉ chars b ->
  replace_text (String "{" (String c q)) rep (a +:+ "{password}" +:+ b)
  = a +:+ "{password}" +:+ b.
Proof.
  intros Hc Ha Hb. unfold replace_text. rewrite replace_text_over by done. f_equal.
  cbn [String.append replace_text_from strip_prefix].
  rewrite bool_decide_eq_true_2 by done. rewrite bool_decide_eq_false_2 by done.
  f_equal. apply (replace_text_none "{" (String c q) rep _ ("password}" +:+ b)).
  rewrite chars_append. apply not_elem_of_app. split; [|done].
  apply (bool_decide_unpack _). by vm_compute.
Qed.

Lemma replace_password rep a b :
  "{"%char ∉ chars a -> "{"%char ∉ chars b ->
  replace_text "{password}" rep (a +:+ "{password}" +:+ b)
  = a +:+ get_substitution "{password}" a b rep +:+ b.
Proof.
  intros Ha Hb. unfold replace_text.
  rewrite (replace_text_over "{" "password}") by done. f_equal.
  rewrite (replace_text_here "{" "password}"). f_equal.
  by apply (replace_text_none "{" "password}").
Qed.

Lemma not_in_append c x y : c ∉ chars x -> c ∉ chars y -> c ∉ chars (x +:+ y).
Proof. intros Hx Hy. rewrite chars_append. by apply not_elem_of_app. Qed.

(** How [replaceStepParams] fills the placeholder of the password in the
    value of a step, when the rest of the value holds no brace. A password
    without a dollar or brace is put in as it is. A password with a dollar is
    read as a replacement pattern: two dollars leave one, a dollar and a
    backquote leave the text before the placeholder, a dollar and a quote
    the text after it, and a dollar and an ampersand the placeholder
    itself. *)
Theorem replaceStepParams_password step email password baseUrl a b :
  "{"%char ∉ chars a -> "{"%char ∉ chars b ->
  value step = Some (a +:+ "{password}" +:+ b) ->
  let step' := CIRun.replaceStepParams step email (Some password) baseUrl in
  ("$"%char ∉ chars password -> "{"%char ∉ chars password ->
   value step' = Some (a +:+ password +:+ b))
  /\ (forall x y,
        "$"%char ∉ chars x -> "{"%char ∉ chars (x +:+ y) ->
        (password = x +:+ "$$" +:+ y -> "$"%char ∉ chars y ->
         value step' = Some (a +:+ (x +:+ "$" +:+ y) +:+ b))
        /\ (password = x +:+ "$`" +:+ y -> "$"%char ∉ chars y ->
            value step' = Some (a +:+ (x +:+ a +:+ y) +:+ b))
        /\ (password = x +:+ "$'" +:+ y -> "$"%char ∉ chars y ->
            value step' = Some (a +:+ (x +:+ b +:+ y) +:+ b))
        /\ (password = x +:+ "$&" +:+ y -> "$"%char ∉ chars y ->
            value step' = Some (a +:+ (x +:+ "{password}" +:+ y) +:+ b))).
Proof.
  intros Ha Hb Hv. cbv zeta.
  assert (Hval : forall sub,
            get_substitution "{password}" a b (js_or (Some password) "") = sub ->
            (forall r, replace_text "{baseUrl}" r (a +:+ sub +:+ b) = a +:+ sub +:+ b) ->
            value (CIRun.replaceStepParams step email (Some password) baseUrl)
            = Some (a +:+ sub +:+ b)).
  { intros sub Hsub Hbase. unfold CIRun.replaceStepParams. cbn [value].
    unfold CIRun.replace_field. rewrite Hv.
    assert (Ht : truthy (Some (a +:+ "{password}" +:+ b)) = true).
    { unfold truthy. rewrite bool_decide_eq_false_2; [done|].
      intros Heq. apply (f_equal String.length) in Heq.
      rewrite !length_append in Heq. cbn in Heq. lia. }
    rewrite Ht. cbn [default id]. f_equal.
    rewrite (replace_text_foreign "e" "mail}") by done.
    rewrite replace_password by done. rewrite Hsub. apply Hbase. }
  assert (Hfree : forall sub r, "{"%char ∉ chars sub ->
            replace_text "{baseUrl}" r (a +:+ sub +:+ b) = a +:+ sub +:+ b).
  { intros sub r Hs. apply (replace_text_none "{" "baseUrl}").
    by repeat apply not_in_append. }
  assert (Hpw : forall p, p <> "" -> js_or (Some p) "" = p).
  { intros p Hp. unfold js_or. by rewrite bool_decide_eq_false_2. }
  split.
  - intros Hd Hbr. apply Hval; [|intros r; by apply Hfree].
    unfold js_or. case_bool_decide as He; [by subst password|].
    by apply get_substitution_plain.
  - intros x y Hx Hxy.
    assert (Hne : forall t, x +:+ String "$" t <> "").
    { intros t Heq. apply (f_equal String.length) in Heq.
      rewrite length_append in Heq. cbn in Heq. lia. }
    assert (Hbx : ("{"%char ∉ chars x) /\ ("{"%char ∉ chars y)).
    { rewrite chars_append in Hxy. by apply not_elem_of_app in Hxy. }
    destruct Hbx as [Hbx Hby].
    split_and!; intros -> Hy; (apply Hval;
      [rewrite Hpw by apply Hne; rewrite get_substitution_append by done;
       cbn [String.append get_substitution]; rewrite ?bool_decide_eq_true_2 by done;
       rewrite ?bool_decide_eq_false_2 by done; cbn [String.append];
       by rewrite get_substitution_plain by done|]).
    + intros r. apply Hfree. apply not_in_append; [done|].
      apply (not_in_append _ "$" y); [|done]. apply (bool_decide_unpack _). by vm_compute.
    + intros r. apply Hfree. by repeat apply not_in_append.
    + intros r. apply Hfree. by repeat apply not_in_append.
    + intros r. rewrite <- !append_assoc. rewrite (append_assoc _ y b).
      rewrite (append_assoc (a +:+ x) "{password}").
      apply (replace_text_foreign "b" "aseUrl}"); [done| |]; by apply not_in_append.
Qed.
End ReplaceText.

(** ** Flows and entry point of the CI runner *)

Section CIRunFacts.
Context {Env : Type}.
Variable drv : CI.Driver Env.
Variable launcher : CIRun.Launcher Env.
Variable anthropic : bool.
Variable config : CI.Config.
Variable flows : option string.
Variable anchorPoints : option string.
Variable suite : string.
Variable email : option string.
Variable password : option string.
Implicit Types st : CI.State Env.
Implicit Types p : CIRun.Process Env.

Local Abbreviation sp := (CI.path_join drv [CI.cfg_knowledgeDir config; "solutions.json"]).
Local Abbreviation flow_step := (CIRun.flow_step drv anthropic config email password).

Lemma flow_step_ok step st :
  ci_run_ok sp 1 st (flow_step step st).1 (flow_step step st).2.
Proof.
  destruct (flow_step step st) as [st' r] eqn:Hrun.
  cbn [fst snd]. revert Hrun. unfold CIRun.flow_step.
  set (processed := CIRun.replaceStepParams step email password _).
  unfold mbind at 1, M_bind at 1, bind at 1, modify at 1. cbn beta iota.
  set (st0 := CI.with_stats CI.inc_totalSteps st).
  unfold try_catch, mbind at 1, M_bind at 1, bind at 1.
  destruct (det_returns drv config processed st0) as (st1 & b1 & -> & Hd1 & Hs1 & _).
  cbn beta iota.
  subst st0. cbn [CI.with_stats CI.disk CI.stats] in Hd1, Hs1.
  destruct b1.
  { unfold modify. intros [= <- <-]. unfold ci_run_ok, ci_resolved.
    cbn [fst snd CI.with_stats CI.disk CI.stats]. rewrite Hs1, Hd1.
    cbn. split_and!; try lia; try done.
    apply ci_disk_grows_refl. }
  unfold mbind at 1, M_bind at 1, bind at 1.
  destruct (tryLearnedSolution_spec drv config processed st1)
    as (st2 & b2 & Heq2 & Hs2 & Hd2).
  pose proof (tryLearnedSolution_grows drv config processed st1 _ _ Heq2) as Hg2.
  rewrite Heq2. cbn beta iota. rewrite Hd1 in Hg2.
  destruct b2.
  { unfold modify. intros [= <- <-]. unfold ci_run_ok, ci_resolved.
    cbn [fst snd CI.with_stats CI.disk CI.stats]. rewrite Hs2, Hs1.
    cbn. split_and!; try lia; try done.
    intros Hun. exfalso. destruct Hd2 as (k & sol & now & Hfile & Hfind & _).
    rewrite Hd1 in Hfile. unfold ci_disk_unused in Hun. rewrite Hfile in Hun.
    by rewrite (find_unused processed _ Hun) in Hfind. }
  unfold mbind at 1, M_bind at 1, bind at 1.
  destruct (tryAiFallback_spec drv anthropic config processed st2)
    as (st3 & b3 & Heq3 & Hc3 & Hd3).
  pose proof (tryAiFallback_grows drv anthropic config processed st2 _ _ Heq3) as Hg3.
  rewrite Heq3. cbn beta iota.
  assert (ci_disk_grows sp (CI.disk st) (CI.disk st3)) as Hg
    by (by eapply ci_disk_grows_trans).
  assert (ci_disk_unused sp (CI.disk st) -> ci_disk_unused sp (CI.disk st3)) as Hun3.
  { intros Hun. rewrite Hd2, Hd1 in Hd3. destruct b3; [|by rewrite Hd3].
    destruct Hd3 as (k & entry & now & Hfile & Hconf & ->).
    unfold ci_disk_unused in *. rewrite lookup_insert_eq. cbn.
    apply Forall_app. split.
    - destruct Hfile as [Hfile|[_ ->]]; [by rewrite Hfile in Hun|done].
    - constructor; [|done]. rewrite Hconf. apply Qcle_refl. }
  unfold ci_counters in Hc3. rewrite Hs2, Hs1 in Hc3. cbn in Hc3.
  injection Hc3 as Ht Hdet Hl Ha Hf.
  destruct b3.
  { unfold modify. intros [= <- <-]. unfold ci_run_ok, ci_resolved.
    cbn [fst snd CI.with_stats CI.disk CI.stats]. cbn. rewrite Ht, Hdet, Hl, Ha, Hf.
    split_and!; try lia; try done. intros Hun. split; [done|by apply Hun3]. }
  unfold throw at 1. cbn beta iota.
  unfold mbind, M_bind, bind, modify, throw. intros [= <- <-].
  unfold ci_run_ok, ci_resolved. cbn. rewrite Ht, Hdet, Hl, Ha, Hf.
  split_and!; try lia; try done. intros Hun. split; [done|by apply Hun3].
Qed.

Lemma flow_steps_run_ok steps st :
  ci_run_ok sp (length steps) st
    (CIRun.flow_steps_run drv anthropic config email password steps st).1
    (CIRun.flow_steps_run drv anthropic config email password steps st).2.
Proof.
  revert st. induction steps as [|step rest IH]; intros st.
  { cbn. unfold ci_run_ok. split_and!; try lia; try done. apply ci_disk_grows_refl. }
  cbn [CIRun.flow_steps_run length]. unfold mbind, M_bind, bind.
  pose proof (flow_step_ok step st) as H1.
  destruct (flow_step step st) as [st1 [e|[]]]; cbn [fst snd] in *.
  { unfold ci_run_ok in *. destruct H1 as (?&?&?&?&?&?&?&?). split_and!; try lia; done. }
  pose proof (IH st1) as H2.
  destruct (CIRun.flow_steps_run drv anthropic config email password rest st1) as [st2 r].
  cbn [fst snd] in *. unfold ci_run_ok in *.
  destruct H1 as (?&?&?&?&?&[? ?]&Hg1&Hu1). destruct H2 as (?&?&?&?&?&Hr&Hg2&Hu2).
  split_and!; try lia.
  - destruct r; lia.
  - by eapply ci_disk_grows_trans.
  - intros Hun. destruct (Hu1 Hun) as [? Hun1]. destruct (Hu2 Hun1) as [? ?].
    split; [lia|done].
Qed.

Lemma ci_run_suite n st st' r :
  ci_run_ok sp n st st' r ->
  ci_suite_ok sp 0 (if is_done r then 0 else 1) st st' r.
Proof.
  unfold ci_run_ok, ci_suite_ok. intros (?&?&?&?&?&Hr&?&?).
  destruct r as [m|[]]; cbn [is_done]; split_and!; try done; lia.
Qed.

Lemma ci_suite_refl st r : ci_suite_ok sp 0 0 st st r.
Proof.
  unfold ci_suite_ok. split_and!; try done; try lia. apply ci_disk_grows_refl.
Qed.

Lemma ci_suite_kept m f st st' st'' r :
  ci_suite_ok sp m f st st' r ->
  CI.disk st'' = CI.disk st' -> CI.stats st'' = CI.stats st' ->
  forall r', (f = 1 -> is_done r' = false) -> ci_suite_ok sp m f st st'' r'.
Proof.
  unfold ci_suite_ok. intros (?&?&?&?&?&?&?&?&?) Hd Hs r' Hr'. rewrite Hd, Hs.
  by split_and!.
Qed.

Lemma ci_suite_trans m1 m2 f st st1 st2 r1 r2 :
  ci_suite_ok sp m1 0 st st1 r1 -> ci_suite_ok sp m2 f st1 st2 r2 ->
  ci_suite_ok sp (m1 + m2) f st st2 r2.
Proof.
  unfold ci_suite_ok.
  intros (?&?&?&?&?&?&?&Hg1&Hu1) (?&?&?&?&?&?&?&Hg2&Hu2). split_and!; try done; try lia.
  - by eapply ci_disk_grows_trans.
  - intros Hun. destruct (Hu1 Hun) as [? Hun1]. destruct (Hu2 Hun1) as [? ?].
    split; [lia|done].
Qed.

Lemma ci_suite_failure st :
  ci_suite_ok sp 1 0 st (CI.with_stats CI.inc_failures st) (inr ()).
Proof.
  unfold ci_suite_ok, ci_resolved. cbn. split_and!; try done; try lia.
  apply ci_disk_grows_refl.
Qed.

Lemma suite_flow_ok flowsData flowPath st :
  let run := CIRun.suite_flow drv anthropic config email password flowsData flowPath st in
  exists stepFailed,
    ci_suite_ok sp (if has_steps flowsData flowPath then 0 else 1) stepFailed st run.1 run.2
    /\ (is_done run.2 = false -> stepFailed = 1).
Proof.
  cbv zeta. unfold CIRun.suite_flow, has_steps.
  destruct (getFlowByPath flowPath flowsData) as [[children|flow|]|].
  - destruct (jsmap_get "steps" children).
    + rewrite bool_decide_eq_true_2 by done. exists 0. split; [apply ci_suite_refl|done].
    + rewrite bool_decide_eq_false_2 by (by intros [? ?]).
      exists 0. split; [apply ci_suite_failure|done].
  - destruct (flow_steps flow) as [steps|].
    + rewrite bool_decide_eq_true_2 by done.
      pose proof (flow_steps_run_ok steps st) as H.
      destruct (CIRun.flow_steps_run drv anthropic config email password steps st)
        as [st' r]. cbn [fst snd] in *.
      exists (if is_done r then 0 else 1). split; [by eapply ci_run_suite|].
      by destruct r.
    + rewrite bool_decide_eq_false_2 by (by intros [? ?]).
      exists 0. split; [apply ci_suite_failure|done].
  - exists 0. split; [apply ci_suite_failure|done].
  - exists 0. split; [apply ci_suite_failure|done].
Qed.

Lemma suite_flows_ok flowsData paths st :
  let run := CIRun.suite_flows drv anthropic config email password flowsData paths st in
  exists missing stepFailed,
    ci_suite_ok sp missing stepFailed st run.1 run.2
    /\ (is_done run.2 = false -> stepFailed = 1)
    /\ missing <= missing_flows flowsData paths
    /\ (is_done run.2 = true -> missing = missing_flows flowsData paths).
Proof.
  cbv zeta. revert st. induction paths as [|flowPath rest IH]; intros st.
  { exists 0, 0. cbn. split_and!; try done. apply ci_suite_refl. }
  cbn [CIRun.suite_flows]. unfold mbind, M_bind, bind.
  destruct (suite_flow_ok flowsData flowPath st) as (f1 & H1 & Hf1). cbv zeta in *.
  unfold missing_flows. cbn [List.filter].
  destruct (CIRun.suite_flow drv anthropic config email password flowsData flowPath st)
    as [st1 [m|[]]]; cbn [fst snd] in *.
  { exists (if has_steps flowsData flowPath then 0 else 1), f1.
    split_and!; try done. destruct (has_steps flowsData flowPath); cbn; lia. }
  destruct (IH st1) as (m2 & f2 & H2 & Hf2 & Hle & Heq).
  destruct (CIRun.suite_flows drv anthropic config email password flowsData rest st1)
    as [st2 r]. cbn [fst snd] in *.
  assert (f1 = 0) as ->.
  { destruct H1 as (_&_&Hle1&Hd1&_). destruct f1 as [|[|f1]]; [done| |lia].
    by specialize (Hd1 eq_refl). }
  exists ((if has_steps flowsData flowPath then 0 else 1) + m2), f2.
  split_and!; try done.
  - by eapply ci_suite_trans.
  - unfold missing_flows in Hle. destruct (has_steps flowsData flowPath); cbn; lia.
  - intros Hr. specialize (Heq Hr). unfold missing_flows in Heq.
    destruct (has_steps flowsData flowPath); cbn; lia.
Qed.

Local Abbreviation executeFlowTests :=
  (CIRun.executeFlowTests drv launcher anthropic config flows anchorPoints suite email
     password).

Lemma executeFlowTests_ok st :
  exists missing stepFailed,
    ci_suite_ok sp missing stepFailed st (executeFlowTests st).1 (executeFlowTests st).2
    /\ (truthy flows = false -> missing = 0 /\ stepFailed = 0
        /\ CI.stats (executeFlowTests st).1 = CI.stats st)
    /\ (forall e' file,
          truthy flows = true ->
          CIRun.read_flows launcher (CI.env st) = (e', inr file) ->
          match CIRun.getSuiteFlows suite (CIRun.ff_suites file) with
          | SuitePaths paths =>
              missing <= missing_flows (CIRun.ff_flowsData file) paths
              /\ (is_done (executeFlowTests st).2 = true ->
                  missing = missing_flows (CIRun.ff_flowsData file) paths)
          | SuiteInherited _ => is_done (executeFlowTests st).2 = false
          end).
Proof.
  destruct (executeFlowTests st) as [st' r] eqn:Hrun. cbn [fst snd]. revert Hrun.
  unfold CIRun.executeFlowTests.
  unfold mbind at 1, M_bind at 1, bind at 1.
  assert (Hread : exists st1 r1,
            (if truthy flows then CI.call (CIRun.read_flows launcher)
             else mret {| CIRun.ff_flowsData := NGroup []; CIRun.ff_suites := None |}) st
            = (st1, r1)
            /\ CI.disk st1 = CI.disk st /\ CI.stats st1 = CI.stats st
            /\ (truthy flows = false ->
                r1 = inr {| CIRun.ff_flowsData := NGroup []; CIRun.ff_suites := None |})
            /\ (forall e' file, truthy flows = true ->
                  CIRun.read_flows launcher (CI.env st) = (e', inr file) -> r1 = inr file)).
  { destruct (truthy flows).
    - pose proof (ci_call_kept (CIRun.read_flows launcher) st) as [Hd Hs].
      unfold CI.call in *.
      destruct (CIRun.read_flows launcher (CI.env st)) as [e r1]. cbn [fst] in *.
      eexists _, _. split_and!; try done. by intros e' file _ [= _ ->].
    - eexists _, _. by split_and!. }
  destruct Hread as (st1 & r1 & -> & Hd1 & Hs1 & Hno & Hyes).
  assert (Hkept : forall (st2 : CI.State Env) r2,
            CI.disk st2 = CI.disk st -> CI.stats st2 = CI.stats st ->
            ci_suite_ok sp 0 0 st st2 r2).
  { intros st2 r2 Hd Hs.
    eapply ci_suite_kept; [apply (ci_suite_refl st (inr ()))|done|done|done]. }
  destruct r1 as [m|file].
  { intros [= <- <-]. exists 0, 0. split_and!.
    - by apply Hkept.
    - done.
    - intros e' file Ht Hr. by specialize (Hyes e' file Ht Hr). }
  unfold mbind at 1, M_bind at 1, bind at 1.
  assert (Hanchor : exists st2 r2,
            (if truthy anchorPoints then CI.call (CIRun.read_anchorPoints launcher)
             else mret ()) st1 = (st2, r2)
            /\ CI.disk st2 = CI.disk st /\ CI.stats st2 = CI.stats st).
  { destruct (truthy anchorPoints).
    - pose proof (ci_call_kept (CIRun.read_anchorPoints launcher) st1) as [Hd Hs].
      destruct (CI.call (CIRun.read_anchorPoints launcher) st1) as [st2 r2].
      cbn [fst] in *. eexists _, _. split_and!; [done|congruence|congruence].
    - eexists _, _. by split_and!. }
  destruct Hanchor as (st2 & r2 & -> & Hd2 & Hs2).
  assert (Hfile : forall e' file', truthy flows = true ->
            CIRun.read_flows launcher (CI.env st) = (e', inr file') -> file' = file).
  { intros e' file' Ht Hr. by injection (Hyes e' file' Ht Hr). }
  destruct r2 as [m|[]].
  { intros [= <- <-]. exists 0, 0. split_and!.
    - by apply Hkept.
    - done.
    - intros e' file' Ht Hr. rewrite (Hfile e' file' Ht Hr).
      destruct (CIRun.getSuiteFlows suite (CIRun.ff_suites file)); [split; [lia|done]|done]. }
  assert (Hst2 : forall m f st' r, ci_suite_ok sp m f st2 st' r -> ci_suite_ok sp m f st st' r).
  { intros m f st'' r'' H. replace m with (0 + m) by lia.
    eapply ci_suite_trans; [|exact H]. by apply (Hkept st2 (inr ())). }
  destruct (CIRun.getSuiteFlows suite (CIRun.ff_suites file)) as [paths|len] eqn:Hsuite.
  - destruct (suite_flows_ok (CIRun.ff_flowsData file) paths st2)
      as (missing & stepFailed & Hok & Hfail & Hle & Heq). cbv zeta in *.
    intros Hrun. rewrite Hrun in *. cbn [fst snd] in *.
    exists missing, stepFailed. split_and!.
    + by apply Hst2.
    + intros Hf. specialize (Hno Hf). injection Hno as ->. cbn in Hsuite.
      injection Hsuite as <-. cbn in Hrun. injection Hrun as <- <-.
      unfold missing_flows in Hle. cbn in Hle.
      assert (missing = 0) as -> by lia.
      assert (stepFailed = 0) as ->.
      { destruct Hok as (_&_&Hle1&Hd&_). destruct stepFailed as [|[|?]]; [done| |lia].
        by specialize (Hd eq_refl). }
      by split_and!.
    + intros e' file' Ht Hr. rewrite (Hfile e' file' Ht Hr), Hsuite. done.
  - unfold throw. intros [= <- <-]. exists 0, 0. split_and!.
    + by apply Hkept.
    + intros Hf. specialize (Hno Hf). injection Hno as ->. done.
    + intros e' file' Ht Hr. rewrite (Hfile e' file' Ht Hr), Hsuite. done.
Qed.

(** The counters after the flows of a suite: every step that was started
    is counted once, as resolved by one of the three tiers or as the failure
    that stopped the run; every flow of the suite that was not found or has
    no steps is counted as a failure too, and does not stop the run. So a run
    that returns may have recorded failures: one for each such flow of the
    suite. Without a flows file nothing runs and nothing is counted; a suite
    whose name is a member that objects inherit makes the run throw. *)
Theorem executeFlowTests_accounting st :
  let '(st', r) := executeFlowTests st in
  let s := CI.stats st in
  let s' := CI.stats st' in
  exists missing stepFailed,
    CI.failures s' = CI.failures s + missing + stepFailed
    /\ CI.totalSteps s' + ci_resolved s = CI.totalSteps s + ci_resolved s' + stepFailed
    /\ stepFailed <= 1
    /\ (stepFailed = 1 -> is_done r = false)
    /\ CI.deterministicSuccess s <= CI.deterministicSuccess s'
    /\ CI.learnedSuccess s <= CI.learnedSuccess s'
    /\ CI.aiSuccess s <= CI.aiSuccess s'
    /\ (truthy flows = false -> s' = s)
    /\ (forall e' file,
          truthy flows = true ->
          CIRun.read_flows launcher (CI.env st) = (e', inr file) ->
          match CIRun.getSuiteFlows suite (CIRun.ff_suites file) with
          | SuitePaths paths =>
              missing <= missing_flows (CIRun.ff_flowsData file) paths
              /\ (is_done r = true ->
                  missing = missing_flows (CIRun.ff_flowsData file) paths)
          | SuiteInherited _ => is_done r = false
          end).
Proof.
  destruct (executeFlowTests_ok st) as (missing & stepFailed & Hok & Hno & Hfile).
  destruct (executeFlowTests st) as [st' r]. cbn [fst snd] in *. cbv zeta.
  exists missing, stepFailed. destruct Hok as (?&?&?&?&?&?&?&_).
  split_and!; try done. intros Hf. by destruct (Hno Hf) as (_&_&?).
Qed.

Lemma ci_suite_body m f st st' r :
  ci_suite_ok sp m f st st' r -> ci_body_ok sp m f st st' r.
Proof.
  unfold ci_suite_ok, ci_body_ok. intros (?&?&?&Hf&?&?&?&?&?). split_and!; try done.
  intros Hr. destruct f as [|[|f]]; [lia| |lia]. specialize (Hf eq_refl). congruence.
Qed.

Lemma ci_body_kept m f st st0 st' r :
  CI.disk st0 = CI.disk st -> ci_counters st0 = ci_counters st ->
  ci_body_ok sp m f st0 st' r -> ci_body_ok sp m f st st' r.
Proof.
  unfold ci_body_ok, ci_counters, ci_resolved. intros Hd [= Ht Hdet Hl Ha Hf].
  rewrite Hd, Ht, Hdet, Hl, Ha, Hf. done.
Qed.

Lemma executePromptTest_ok st :
  exists stepFailed,
    ci_body_ok sp 0 stepFailed st (CI.executePromptTest drv anthropic config st).1
      (CI.executePromptTest drv anthropic config st).2
    /\ (is_done (CI.executePromptTest drv anthropic config st).2 = true -> stepFailed = 0).
Proof.
  pose proof (executePromptTest_generated drv anthropic config st) as H.
  destruct (CI.executePromptTest drv anthropic config st) as [st' r]. cbn [fst snd].
  destruct (CI.ai_generate drv (CI.cfg_prompt config) (CI.env st))
    as [e [msg|[[typeError|steps] response]]].
  { destruct H as (-> & Hs & Hd). exists 0. split; [|done].
    unfold ci_body_ok. rewrite Hs, Hd. split_and!; try done; try lia.
    apply ci_disk_grows_refl. }
  { destruct H as (-> & Hs & Hd). exists 0. split; [|done].
    unfold ci_body_ok. rewrite Hs, Hd. cbn. split_and!; try done; try lia.
    apply ci_disk_grows_refl. }
  destruct H as (st0 & Hs & Hd & H).
  exists (CI.failures (CI.stats st') - CI.failures (CI.stats st0)).
  assert (ci_body_ok sp 0 (CI.failures (CI.stats st') - CI.failures (CI.stats st0))
            st0 st' r) as Hbody.
  { unfold ci_prompt_ok in H. unfold ci_body_ok.
    destruct H as (?&?&?&?&?&Hr&?&?).
    destruct r as [e'|[]]; cbn [is_done] in *.
    - destruct Hr as [Hr|[Hr _]]; split_and!; try done; lia.
    - destruct Hr as (?&?&_). split_and!; try done; lia. }
  split.
  - eapply ci_body_kept; [exact Hd| |exact Hbody]. unfold ci_counters. by rewrite Hs.
  - intros Hr. unfold ci_prompt_ok in H. destruct H as (_&_&_&_&_&Hf&_).
    destruct r as [e'|[]]; [done|]. destruct Hf as (? & _). lia.
Qed.

Lemma main_run_kept {A} (m : M (CI.State Env) A) p :
  exists st' r,
    CIRun.main_run m p = (CIRun.with_run (fun _ => st') p, r)
    /\ m (CIRun.proc_run p) = (st', r).
Proof. unfold CIRun.main_run. destruct (m (CIRun.proc_run p)) as [st' r]. by eexists _, _. Qed.

Lemma main_call_ok {A} (f : Ext Env A) p :
  exists p' r,
    CIRun.main_run (CI.call f) p = (p', r)
    /\ CI.disk (CIRun.proc_run p') = CI.disk (CIRun.proc_run p)
    /\ CI.stats (CIRun.proc_run p') = CI.stats (CIRun.proc_run p)
    /\ CIRun.proc_browser p' = CIRun.proc_browser p
    /\ CIRun.proc_closed p' = CIRun.proc_closed p
    /\ CIRun.proc_reports p' = CIRun.proc_reports p
    /\ r = (f (CI.env (CIRun.proc_run p))).2.
Proof.
  unfold CIRun.main_run, CI.call. destruct (f (CI.env (CIRun.proc_run p))) as [e r].
  by eexists _, _.
Qed.

(** The body of the [try] of [main]. *)
Lemma ci_main_body_ok p :
  let run := CIRun.main_body drv launcher anthropic config flows anchorPoints suite email
               password p in
  CIRun.proc_closed run.1 = CIRun.proc_closed p
  /\ CIRun.proc_reports run.1 = CIRun.proc_reports p
  /\ (is_done run.2 = true -> CIRun.proc_browser run.1 = true)
  /\ exists missing stepFailed,
       ci_body_ok sp missing stepFailed (CIRun.proc_run p) (CIRun.proc_run run.1) run.2
       /\ (CI.cfg_prompt config <> "" ->
           missing = 0 /\ (is_done run.2 = true -> stepFailed = 0)).
Proof.
  cbv zeta.
  destruct (CIRun.main_body drv launcher anthropic config flows anchorPoints suite email
              password p) as [p' r] eqn:Hrun. cbn [fst snd]. revert Hrun.
  unfold CIRun.main_body.
  assert (Hkept : forall q : CIRun.Process Env,
            CI.disk (CIRun.proc_run q) = CI.disk (CIRun.proc_run p) ->
            CI.stats (CIRun.proc_run q) = CI.stats (CIRun.proc_run p) ->
            forall r', ci_suite_ok sp 0 0 (CIRun.proc_run p) (CIRun.proc_run q) r').
  { intros q Hd Hs r'.
    eapply ci_suite_kept; [apply (ci_suite_refl (CIRun.proc_run p) (inr ()))|done|done|done]. }
  unfold mbind at 1, M_bind at 1, bind at 1.
  destruct (main_call_ok (CIRun.chromium_launch launcher) p)
    as (p1 & r1 & -> & Hd1 & Hs1 & Hb1 & Hc1 & Hr1 & _).
  destruct r1 as [m|[]].
  { intros [= <- <-]. split_and!; try done. exists 0, 0.
    split; [by apply ci_suite_body, Hkept|done]. }
  unfold mbind at 1, M_bind at 1, bind at 1, modify at 1.
  unfold mbind at 1, M_bind at 1, bind at 1.
  destruct (main_call_ok (CIRun.browser_newContext launcher) (CIRun.set_browser p1))
    as (p2 & r2 & -> & Hd2 & Hs2 & Hb2 & Hc2 & Hr2 & _). cbn in Hd2, Hs2, Hb2, Hc2, Hr2.
  destruct r2 as [m|[]].
  { intros [= <- <-]. split_and!; try congruence. exists 0, 0.
    split; [apply ci_suite_body, Hkept; congruence|done]. }
  unfold mbind at 1, M_bind at 1, bind at 1.
  destruct (main_call_ok (CIRun.context_newPage launcher) p2)
    as (p3 & r3 & -> & Hd3 & Hs3 & Hb3 & Hc3 & Hr3 & _).
  destruct r3 as [m|[]].
  { intros [= <- <-]. split_and!; try congruence. exists 0, 0.
    split; [apply ci_suite_body, Hkept; congruence|done]. }
  assert (Hp3 : ci_suite_ok sp 0 0 (CIRun.proc_run p) (CIRun.proc_run p3) (inr ()))
    by (apply Hkept; congruence).
  case_bool_decide as Hprompt; cbn [negb].
  - destruct (main_run_kept executeFlowTests p3) as (st' & r' & -> & Hrun).
    intros [= <- <-]. cbn. split_and!; try congruence.
    destruct (executeFlowTests_ok (CIRun.proc_run p3)) as (missing & stepFailed & Hok & _).
    rewrite Hrun in Hok. cbn [fst snd] in Hok. exists (0 + missing), stepFailed.
    split; [by eapply ci_suite_body, ci_suite_trans|done].
  - destruct (main_run_kept (CI.executePromptTest drv anthropic config) p3)
      as (st' & r' & -> & Hrun).
    intros [= <- <-]. cbn. split_and!; try congruence.
    destruct (executePromptTest_ok (CIRun.proc_run p3)) as (stepFailed & Hok & Hdone).
    rewrite Hrun in Hok, Hdone. cbn [fst snd] in Hok, Hdone. exists 0, stepFailed.
    split; [|intros _; split; [done|apply Hdone]].
    eapply ci_body_kept; [| |exact Hok]; [congruence|].
    unfold ci_counters. by rewrite Hs3, Hs2, Hs1.
Qed.

Local Abbreviation main :=
  (CIRun.main drv launcher anthropic config flows anchorPoints suite email password).
Local Abbreviation main_body :=
  (CIRun.main_body drv launcher anthropic config flows anchorPoints suite email password).

Lemma write_report_ok name p :
  let run := CIRun.write_report drv launcher config name p in
  CI.disk (CIRun.proc_run run.1) = CI.disk (CIRun.proc_run p)
  /\ CI.stats (CIRun.proc_run run.1) = CI.stats (CIRun.proc_run p)
  /\ CIRun.proc_closed run.1 = CIRun.proc_closed p
  /\ (is_done run.2 = true ->
      CIRun.proc_reports run.1
      = (CIRun.proc_reports p ++ [CI.path_join drv [CI.cfg_outputDir config; name]])%list)
  /\ (ci_cleanup_ok launcher -> run.2 = inr ()).
Proof.
  cbv zeta. unfold CIRun.write_report, mbind, M_bind, bind, modify.
  destruct (main_call_ok
              (CIRun.fs_writeFileSync launcher (CI.path_join drv [CI.cfg_outputDir config; name]))
              p) as (p1 & r1 & -> & Hd & Hs & _ & Hc & Hr & Hres).
  destruct r1 as [m|[]]; cbn; split_and!; try done.
  all: try (intros [_ Hw]; by rewrite Hw in Hres).
  intros _. by rewrite Hr.
Qed.

(** The [finally] of [main]. *)
Lemma ci_main_finally_ok p :
  let run := CIRun.main_finally drv launcher config p in
  CI.disk (CIRun.proc_run run.1) = CI.disk (CIRun.proc_run p)
  /\ CI.stats (CIRun.proc_run run.1) = CI.stats (CIRun.proc_run p)
  /\ (forall code, run.2 = inr code ->
       code = (if bool_decide (0 < CI.failures (CI.stats (CIRun.proc_run p)))
               then 1%Z else 0%Z)
       /\ CIRun.proc_reports run.1
          = (CIRun.proc_reports p
             ++ [CI.path_join drv [CI.cfg_outputDir config; "summary.json"];
                 CI.path_join drv [CI.cfg_outputDir config; "report.html"]])%list
       /\ (CIRun.proc_browser p = true -> CIRun.proc_closed run.1 = true))
  /\ (ci_cleanup_ok launcher -> exists code, run.2 = inr code).
Proof.
  cbv zeta.
  destruct (CIRun.main_finally drv launcher config p) as [p' r] eqn:Hrun.
  cbn [fst snd]. revert Hrun. unfold CIRun.main_finally.
  unfold mbind at 1, M_bind at 1, bind at 1, get_state at 1.
  unfold mbind at 1, M_bind at 1, bind at 1.
  assert (Hclose : exists p1 r1,
            (if CIRun.proc_browser p
             then CIRun.main_run (CI.call (CIRun.browser_close launcher));;
                  modify CIRun.note_closed
             else mret ()) p = (p1, r1)
            /\ CI.disk (CIRun.proc_run p1) = CI.disk (CIRun.proc_run p)
            /\ CI.stats (CIRun.proc_run p1) = CI.stats (CIRun.proc_run p)
            /\ CIRun.proc_reports p1 = CIRun.proc_reports p
            /\ (r1 = inr () -> CIRun.proc_browser p = true -> CIRun.proc_closed p1 = true)
            /\ (ci_cleanup_ok launcher -> r1 = inr ())).
  { destruct (CIRun.proc_browser p).
    - unfold mbind, M_bind, bind, modify.
      destruct (main_call_ok (CIRun.browser_close launcher) p)
        as (p1 & r1 & -> & Hd & Hs & _ & Hc & Hr & Hres).
      destruct r1 as [m|[]]; eexists _, _; (split; [reflexivity|]); cbn;
        split_and!; try done.
      intros [Hcl _]. by rewrite Hcl in Hres.
    - eexists _, _. by split_and!. }
  destruct Hclose as (p1 & r1 & -> & Hd1 & Hs1 & Hr1 & Hc1 & Hok1).
  destruct r1 as [m|[]].
  { intros [= <- <-]. split_and!; try done. intros Hclean. by specialize (Hok1 Hclean). }
  unfold mbind at 1, M_bind at 1, bind at 1.
  pose proof (write_report_ok "summary.json" p1) as H2. cbv zeta in H2.
  destruct (CIRun.write_report drv launcher config "summary.json" p1) as [p2 r2].
  cbn [fst snd] in H2. destruct H2 as (Hd2 & Hs2 & Hc2 & Hr2 & Hok2).
  destruct r2 as [m|[]].
  { intros [= <- <-]. split_and!; try congruence. intros Hclean. by specialize (Hok2 Hclean). }
  unfold mbind at 1, M_bind at 1, bind at 1.
  pose proof (write_report_ok "report.html" p2) as H3. cbv zeta in H3.
  destruct (CIRun.write_report drv launcher config "report.html" p2) as [p3 r3].
  cbn [fst snd] in H3. destruct H3 as (Hd3 & Hs3 & Hc3 & Hr3 & Hok3).
  destruct r3 as [m|[]].
  { intros [= <- <-]. split_and!; try congruence. intros Hclean. by specialize (Hok3 Hclean). }
  unfold mbind, M_bind, bind, get_state, mret, M_ret, ret. intros [= <- <-].
  split_and!; try congruence; [|intros _; by eexists].
  intros code [= <-]. rewrite Hs3, Hs2, Hs1. split_and!; [done| |].
  - rewrite (Hr3 eq_refl), (Hr2 eq_refl), Hr1. by rewrite <- app_assoc.
  - intros Hb. rewrite Hc3, Hc2. by apply Hc1.
Qed.

(** [main] in terms of its parts. *)
Lemma ci_main_parts st :
  main (ci_start st)
  = match main_body (ci_start st) with
    | (p1, inl _) => (CIRun.with_run (CI.with_stats CI.inc_failures) p1, 1%Z)
    | (p1, inr _) =>
        match CIRun.main_finally drv launcher config p1 with
        | (p2, inr code) => (p2, code)
        | (p2, inl _) => (p2, 1%Z)
        end
    end.
Proof. done. Qed.

(** The exit of the CI runner. When the body of the run throws, the process
    exits at once with the code 1 and one more failure counted: the browser
    is not closed and no report is written. The exit code is 0 only when the
    run returned without any failure: the browser was closed, the summary
    and the report were written, and every step that was started was
    resolved by one of the tiers. When the run returns and the cleanup does
    not throw, the exit code is 1 exactly when a failure was counted. *)
Theorem ci_main_exit_code st :
  let body := main_body (ci_start st) in
  let '(p', code) := main (ci_start st) in
  let s := CI.stats st in
  let s' := CI.stats (CIRun.proc_run p') in
  (code = 0 \/ code = 1)%Z
  /\ (is_done body.2 = false ->
      code = 1%Z /\ CIRun.proc_reports p' = [] /\ CIRun.proc_closed p' = false
      /\ CI.failures s' = S (CI.failures (CI.stats (CIRun.proc_run body.1))))
  /\ (code = 0%Z ->
      is_done body.2 = true /\ CI.failures s' = 0
      /\ CIRun.proc_closed p' = true
      /\ CIRun.proc_reports p'
         = [CI.path_join drv [CI.cfg_outputDir config; "summary.json"];
            CI.path_join drv [CI.cfg_outputDir config; "report.html"]]
      /\ CI.totalSteps s' + ci_resolved s = CI.totalSteps s + ci_resolved s')
  /\ (ci_cleanup_ok launcher -> is_done body.2 = true ->
      code = if bool_decide (0 < CI.failures s') then 1%Z else 0%Z).
Proof.
  cbv zeta. rewrite ci_main_parts.
  pose proof (ci_main_body_ok (ci_start st)) as Hbody. cbv zeta in Hbody.
  destruct (main_body (ci_start st)) as [p1 r]. cbn [fst snd] in *.
  destruct Hbody as (Hc1 & Hr1 & Hb1 & missing & stepFailed & Hok & _).
  destruct r as [m|[]]; cbn [is_done].
  { cbn. split_and!; try done. by right. }
  pose proof (ci_main_finally_ok p1) as Hfin. cbv zeta in Hfin.
  destruct (CIRun.main_finally drv launcher config p1) as [p2 r2]. cbn [fst snd] in *.
  destruct Hfin as (Hd2 & Hs2 & Hcode & Hclean).
  destruct r2 as [m|code].
  { split_and!; try done; [by right|]. intros Hcl. by destruct (Hclean Hcl). }
  destruct (Hcode code eq_refl) as (-> & Hrep & Hclosed). rewrite Hs2.
  destruct Hok as (Hf & Ht & _). specialize (Ht eq_refl).
  case_bool_decide as Hfail; split_and!; try done; try (by left); try (by right).
  intros _. rewrite Hrep, Hr1. cbn in Hf, Ht |- *.
  split_and!; [done|lia|by apply Hclosed, Hb1|done|lia].
Qed.

(** A run of the CI runner never removes a learned solution from the
    solutions file and never lowers one: the file keeps its version, every
    solution keeps its position, identity, selectors and failure count, its
    success count does not go down and its confidence stays at or above the
    lesser of its old value and 0.99. A file that cannot be read is left as
    it is, and no other file of the knowledge directory changes. *)
Theorem ci_main_keeps_solutions st :
  ci_disk_grows (CI.path_join drv [CI.cfg_knowledgeDir config; "solutions.json"])
    (CI.disk st) (CI.disk (CIRun.proc_run (main (ci_start st)).1)).
Proof.
  rewrite ci_main_parts.
  pose proof (ci_main_body_ok (ci_start st)) as Hbody. cbv zeta in Hbody.
  destruct (main_body (ci_start st)) as [p1 r]. cbn [fst snd] in *.
  destruct Hbody as (_ & _ & _ & missing & stepFailed & Hok & _).
  destruct Hok as (_&_&_&_&Hg&_).
  destruct r as [m|[]]; [done|].
  pose proof (ci_main_finally_ok p1) as Hfin. cbv zeta in Hfin.
  destruct (CIRun.main_finally drv launcher config p1) as [p2 r2]. cbn [fst snd] in *.
  destruct Hfin as (Hd2 & _). destruct r2; cbn [fst]; by rewrite Hd2.
Qed.

(** When no solution of the file has a confidence above 0.7, as is the case
    of every solution that the runner itself saves, the learned tier resolves
    no step of a run, and the file is still so after the run. *)
Theorem ci_main_learned_unused st :
  ci_disk_unused (CI.path_join drv [CI.cfg_knowledgeDir config; "solutions.json"])
    (CI.disk st) ->
  let st' := CIRun.proc_run (main (ci_start st)).1 in
  CI.learnedSuccess (CI.stats st') = CI.learnedSuccess (CI.stats st)
  /\ ci_disk_unused (CI.path_join drv [CI.cfg_knowledgeDir config; "solutions.json"])
       (CI.disk st').
Proof.
  intros Hun. cbv zeta. rewrite ci_main_parts.
  pose proof (ci_main_body_ok (ci_start st)) as Hbody. cbv zeta in Hbody.
  destruct (main_body (ci_start st)) as [p1 r]. cbn [fst snd] in *.
  destruct Hbody as (_ & _ & _ & missing & stepFailed & Hok & _).
  destruct Hok as (_&_&_&_&_&Hu). destruct (Hu Hun) as [Hl Hun1].
  destruct r as [m|[]]; [done|].
  pose proof (ci_main_finally_ok p1) as Hfin. cbv zeta in Hfin.
  destruct (CIRun.main_finally drv launcher config p1) as [p2 r2]. cbn [fst snd] in *.
  destruct Hfin as (Hd2 & Hs2 & _). destruct r2; cbn [fst]; by rewrite Hd2, Hs2.
Qed.
End CIRunFacts.

(** ** Concrete runs *)

Lemma recordSuccess_repeated_witness :
  exists s',
    jsmap_get (sol_id (demo_solution (hundredths 70)))
      (solutions (fold_left
                    (fun kb now => recordSuccess (sol_id (demo_solution (hundredths 70))) now kb)
                    [demo_now; demo_now; demo_now] (demo_kb (hundredths 70))))
    = Some s'
    /\ (hundredths 70 <= confidence s')%Qc
    /\ near (confidence s') (hundredths 76)
    /\ successCount s' = 4%Z.
Proof.
  assert (H1 : jsmap_get (sol_id (demo_solution (hundredths 70)))
                 (solutions (demo_kb (hundredths 70)))
               = Some (demo_solution (hundredths 70))) by (vm_compute; reflexivity).
  assert (H2 : conf_in_range (demo_solution (hundredths 70)))
    by (split; by vm_compute).
  destruct (recordSuccess_repeated _ [demo_now; demo_now; demo_now] _ _ H1 H2)
    as (s' & Hget & Hup & _ & Hnear & _ & Hsucc & _).
  exists s'. split_and!; [done|done| |done].
  replace (hundredths 76)
    with (Math_min (hundredths 99)
            (confidence (demo_solution (hundredths 70))
             + hundredths (2 * Z.of_nat (length [demo_now; demo_now; demo_now])))%Qc);
    [done|].
  apply Qc_is_canon. by vm_compute.
Defined.

Lemma demo_kb_patterns_ok conf : patterns_keys_ok (demo_kb conf).
Proof.
  split.
  - cbn. apply NoDup_nil_2.
  - intros k p Hin. by apply elem_of_nil in Hin.
Qed.

Lemma load_after_save_witness :
  (loadKnowledgeBase (String.concat "/") "kb"
     (saveKnowledgeBase (String.concat "/") "kb" (demo_kb (hundredths 70)) demo_now demo_now
        ∅)).2
  = {| solutions := solutions (demo_kb (hundredths 70));
       patterns := patterns (demo_kb (hundredths 70)); basePath := "kb" |}.
Proof.
  apply (load_after_save (String.concat "/") "kb" (demo_kb (hundredths 70)) demo_now demo_now ∅).
  - apply demo_kb_keys_ok.
  - apply demo_kb_patterns_ok.
  - by vm_compute.
Defined.

Lemma executeFlow_fresh_unused_witness :
  kb_unused (demo_kb (hundredths 70))
  /\ learnedSuccess
       (hybridStats (executeFlow md5_hexdigest (demo_driver (fun _ => false)) false
                       "demo.click" demo_config (demo_state (demo_kb (hundredths 70)))).1)
     = 0.
Proof.
  assert (H : kb_unused (knowledgeBase (demo_state (demo_kb (hundredths 70))))).
  { unfold kb_unused. cbn. constructor; [by vm_compute|constructor]. }
  split; [done|].
  exact (proj1 (proj2 (proj2 (proj2 (executeFlow_fresh_unused md5_hexdigest
                                       (demo_driver (fun _ => false)) false "demo.click"
                                       demo_config _ H))))).
Defined.

Lemma executeFlow_without_ai_witness :
  aiCost (hybridStats (executeFlow md5_hexdigest (demo_driver (fun _ => false)) false
                         "demo.click" demo_config (demo_state empty_kb)).1)
  = hundredths 0.
Proof.
  assert (H : configured false demo_config = false) by reflexivity.
  exact (proj1 (executeFlow_without_ai md5_hexdigest (demo_driver (fun _ => false)) false
                  "demo.click" demo_config (demo_state empty_kb) H)).
Defined.

Lemma unsupported_action_fails_witness :
  exists st',
    executeStepHybrid md5_hexdigest (demo_driver (fun _ => true)) false
      (demo_step "hover" "#menu") 1 "demo.click" demo_config demo_context
      (demo_state empty_kb)
    = (st', inl "All execution methods failed for step: hover")
    /\ totalSteps (hybridStats st') = 1.
Proof.
  assert (H : action (demo_step "hover" "#menu") ∉ supported_actions).
  { apply (bool_decide_unpack _). by vm_compute. }
  destruct (unsupported_action_fails md5_hexdigest (demo_driver (fun _ => true)) false
              (demo_step "hover" "#menu") 1 "demo.click" demo_config demo_context
              (demo_state empty_kb) H) as (st' & Hrun & Htot & _).
  by exists st'.
Defined.

Lemma generated_steps_are_stored_witness :
  getFlowByPath "demo.login"
    (flowsData (executeFlow md5_hexdigest (demo_generator_driver (fun _ => true)) true
                  "demo.login" demo_config demo_prompt_state).1)
  = Some (NFlow {| flow_name := Some "Login";
                   flow_prompt := Some "log in as the test user";
                   flow_steps := Some [demo_step "click" "#login"] |}).
Proof.
  assert (H1 : getFlowByPath "demo.login" (flowsData demo_prompt_state)
               = Some (NFlow demo_prompt_flow)) by (vm_compute; reflexivity).
  assert (H2 : truthy (flow_prompt demo_prompt_flow) = true) by reflexivity.
  assert (H3 : flow_steps demo_prompt_flow = None) by reflexivity.
  assert (H4 : ai_generateSteps (demo_generator_driver (fun _ => true))
                 (default "" (flow_prompt demo_prompt_flow)) (env demo_prompt_state)
               = (1, inr [demo_step "click" "#login"])) by reflexivity.
  exact (proj1 (generated_steps_are_stored md5_hexdigest
                  (demo_generator_driver (fun _ => true)) true "demo.login" demo_config
                  demo_prompt_state demo_prompt_flow _ _ H1 H2 H3 eq_refl H4)).
Defined.

Lemma getFlowByPath_dotted_witness :
  getFlowByPath "demo.click" demo_flows
  = Some (NFlow {| flow_name := Some "Click"; flow_prompt := None;
                   flow_steps := Some [demo_step "click" "#missing"] |}).
Proof.
  assert (H0 : ["demo"; "click"] <> []) by done.
  assert (H : Forall (fun p => "."%char ∉ chars p) ["demo"; "click"]).
  { repeat constructor; apply (bool_decide_unpack _); by vm_compute. }
  apply (proj1 (proj2 (getFlowByPath_dotted ["demo"; "click"] demo_flows H0 H))).
  by vm_compute.
Defined.

Lemma find_flow_two_levels_witness :
  FlowTool.find_flow ("authentication" +:+ "." +:+ "login")
    (FlowTool.flows (tool_demo_qa None))
  = Some (tool_demo_flow, [tool_demo_step]).
Proof.
  assert (H1 : "."%char ∉ chars "authentication").
  { apply (bool_decide_unpack _). by vm_compute. }
  assert (H2 : "."%char ∉ chars "login").
  { apply (bool_decide_unpack _). by vm_compute. }
  unfold tool_demo_qa. cbn [FlowTool.flows].
  rewrite (proj1 (find_flow_two_levels "authentication" "login" _ H1 H2)).
  by vm_compute.
Defined.

Lemma demo_pieces_ok : Forall sel_ok demo_pieces.
Proof.
  repeat constructor; try done; try (apply (bool_decide_unpack _); by vm_compute).
Qed.

Lemma hybrid_convertSelector_parts_witness :
  Hybrid.convertSelector "button:contains('Save') > li:first-child"
  = "button:has-text(" +:+ String dquote "Save" +:+ String dquote ") > li:first-child".
Proof.
  exact (hybrid_convertSelector_parts demo_pieces demo_pieces_ok).
Defined.

Lemma tool_convertSelector_parts_witness :
  FlowTool.convertSelector "button:contains('Save') > li:first-child"
  = "button:has-text(" +:+ String dquote "Save" +:+ String dquote ")".
Proof.
  exact (tool_convertSelector_parts demo_pieces demo_pieces_ok).
Defined.

Lemma tool_run_outcome_witness :
  exists o,
    (FlowTool.execute (tool_demo_driver (fun _ => true)) (Some (tool_demo_qa (Some "qa@example.com")))
       tool_demo_args 0).2 = FlowTool.Executed o
    /\ exists runs, FlowTool.out_log o = log_of runs /\ length runs <= 1.
Proof.
  assert (H1 : FlowTool.find_flow (FlowTool.flowPath tool_demo_args)
                 (FlowTool.flows (tool_demo_qa (Some "qa@example.com")))
               = Some (tool_demo_flow, [tool_demo_step])) by (vm_compute; reflexivity).
  eexists. split; [vm_compute; reflexivity|].
  destruct (tool_run_outcome (tool_demo_driver (fun _ => true))
              (tool_demo_qa (Some "qa@example.com")) tool_demo_args 0 _ _ H1 _ eq_refl)
    as (runs & Hlog & _ & Hlen & _).
  by exists runs.
Defined.

Lemma demo_cleanup_ok : cleanup_ok demo_launcher.
Proof. by split. Qed.

Lemma main_exit_code_witness :
  (main md5_hexdigest (demo_driver (fun _ => true)) demo_launcher false demo_config
     "nightly" None "kb" demo_process).2 = 0%Z.
Proof.
  pose proof (main_exit_code md5_hexdigest (demo_driver (fun _ => true)) demo_launcher false
                demo_config "nightly" None "kb" demo_process demo_cleanup_ok) as H.
  destruct (main md5_hexdigest (demo_driver (fun _ => true)) demo_launcher false demo_config
              "nightly" None "kb" demo_process) as [p' code].
  cbv zeta in H. destruct H as (_ & _ & _ & Hsuite & _).
  by destruct (Hsuite eq_refl eq_refl) as [-> _].
Defined.

Lemma replaceStepParams_password_witness :
  value (CIRun.replaceStepParams demo_password_step (Some "qa@example.com")
           (Some "pa$$word") None)
  = Some "pa$word".
Proof.
  assert (Ha : "{"%char ∉ chars "") by apply not_elem_of_nil.
  assert (Hx : "$"%char ∉ chars "pa") by (apply (bool_decide_unpack _); by vm_compute).
  assert (Hy : "$"%char ∉ chars "word") by (apply (bool_decide_unpack _); by vm_compute).
  assert (Hxy : "{"%char ∉ chars ("pa" +:+ "word"))
    by (apply (bool_decide_unpack _); by vm_compute).
  exact (proj1 (proj2 (replaceStepParams_password demo_password_step
                         (Some "qa@example.com") "pa$$word" None "" "" Ha Ha eq_refl)
                  "pa" "word" Hx Hxy) eq_refl Hy).
Defined.

Lemma ci_main_learned_unused_witness :
  CI.learnedSuccess
    (CI.stats (CIRun.proc_run
                 (CIRun.main (ci_demo_driver (fun _ => false)) ci_demo_launcher false
                    ci_demo_config (Some "QA_FLOWS.json") None "smoke" None None
                    (ci_start (ci_demo_state (hundredths 70)))).1))
  = 0.
Proof.
  assert (H : ci_disk_unused
                (CI.path_join (ci_demo_driver (fun _ => false))
                   [CI.cfg_knowledgeDir ci_demo_config; "solutions.json"])
                (CI.disk (ci_demo_state (hundredths 70)))).
  { unfold ci_disk_unused.
    replace (CI.disk (ci_demo_state (hundredths 70)) !! _)
      with (Some (CI.FKnowledge {| CI.version := "1.0"; CI.lastUpdated := Some demo_now;
                                   CI.solutions := [ci_demo_solution (hundredths 70)] |}))
      by (vm_compute; reflexivity).
    constructor; [by vm_compute|constructor]. }
  exact (proj1 (ci_main_learned_unused (ci_demo_driver (fun _ => false)) ci_demo_launcher
                  false ci_demo_config (Some "QA_FLOWS.json") None "smoke" None None
                  (ci_demo_state (hundredths 70)) H)).
Defined.
